(* ===== verification/_CoqProject ===== *)
-Q . S2P
Prelude.v
Format.v
X86.v
Memory.v
FrameAllocation.v
Bitmap.v
BitmapProofs.v
BitmapReach.v
PageTable.v
PageTableProofs.v
PageTableSpec.v
PageTableTheorems.v
PageTableDebug.v
Mmu.v
Framebuffer.v
FramebufferProofs.v
VgaText.v
VgaWriter.v
VgaProofs.v
VgaTypes.v
Allocators.v
AllocatorsProofs.v
PagingController.v
PagingControllerProofs.v
PagingInit.v
PagingInitProofs.v
PagingInitSpec.v
PagingOwned.v
PagingInitTheorems.v
AllocatedMemory.v
AllocatedMemoryProofs.v
AllocatedMemoryReach.v
Interrupts.v
Gdt.v
Kernel.v
LogProofs.v
LogTheorems.v
KernelProofs.v
AfterBoot.v
Protection.v
Termination.v
