(* ===== verification/Prelude.v ===== *)
(** * Verification of the kermol kernel

    kermol is an x86-64 kernel in Rust, started by the Limine boot loader. This library models
    its sources (the files under [src/src/] of the repository; paths below are relative to that
    directory) and proves what they do. Everything is a shallow embedding: a Rust function is a
    Rocq function of the same name, code with a [&mut] argument passes its state explicitly.

    ** The program

    [lib.rs] starts the kernel: it opens the log on the framebuffer, loads the descriptor tables
    and initializes memory. The log is a text writer ([display/vga_text_writer.rs]) over a font
    and a text grid ([display/vga_text_emulation.rs]) over a linear framebuffer
    ([display/linear_framebuffer.rs]); panics and exceptions are reported through it and through
    the serial port. Memory is initialized in two stages: a linear allocator hands out frames
    while [init_paging] builds the kernel's page table, then a bitmap allocator of frames and one
    of virtual pages take over; a controller joins them to the page table, and memory objects are
    allocated through it.

    ** The files

    Foundations
    - [Prelude]: results, panics, the outcome of a computation ([Done], [Panicked], [Faulted],
      [OutOfFuel]), the state monad [M] with notations for [?], checked [u64] and [u8]
      arithmetic, slices, loops, and a calculus of weakest preconditions ([wp] for total, [wlp]
      for partial correctness) with the tactics [wp_step] and [wp_steps]; invariants of the state
      along a computation ([keeps], with a hint database), computations that do not run out of
      fuel ([stops], [halts], with a hint database and a tactic); lemmas on ranges and on the
      bits of byte lists.
    - [Format]: the number formats of the kernel's format strings.
    - [X86]: the crate [x86_64]. Its types and functions are parameters (class [X86]), the
      behaviour its documentation promises are laws (class [X86Laws]); [X86Model] is an
      implementation in which all examples are evaluated.
    - [Memory]: [util.rs], the constants and error types of [memory/mod.rs] and
      [memory/paging/mod.rs].

    Physical and virtual memory
    - [FrameAllocation]: the trait [FrameAllocator] as a class, what clients may rely on
      ([FrameSource]), and [LinearFrameAllocator] ([memory/paging/frame_allocation.rs]).
    - [Bitmap], [BitmapProofs], [BitmapReach]: [memory/paging/bitmap_allocator.rs]; the exact
      effect of each operation, then the allocator as a state machine under all its operations,
      clearing included.
    - [Allocators], [AllocatorsProofs]: [BitmapFrameAllocator] and [VirtualMemoryAllocator]
      ([memory/paging/frame_allocation.rs], [memory/paging/page_mapping.rs]).
    - [PageTable]: [memory/paging/page_table.rs], over a store of page tables by virtual address.
      [PageTableProofs] has the invariant (the tables form a tree, entry 510 of the root is
      recursive) and the effect of the operations on it; [PageTableSpec] the abstract map from
      pages to frames; [PageTableTheorems] the theorems; [PageTableDebug] the [Debug] output;
      [Mmu] the tables as the processor reaches them once one is loaded.
    - [PagingController], [PagingControllerProofs]: [memory/paging/paging_controller.rs].
    - [PagingInit]: [init_paging] and the functions it calls ([memory/paging/mod.rs]);
      [PagingInitProofs] region by region, [PagingInitSpec] the address space as a whole,
      [PagingOwned] where its tables are put, [PagingInitTheorems] what it is and what it lacks.
    - [AllocatedMemory], [AllocatedMemoryProofs], [AllocatedMemoryReach]:
      [memory/allocated_memory.rs]; accesses, creation and drop one by one, then any sequence of
      creations and drops.

    Screen and log
    - [Framebuffer], [FramebufferProofs]: the pixels.
    - [VgaText]: font, colors and text grid; [VgaWriter]: the writer; [VgaProofs]: it refines a
      terminal, a grid of cells with a cursor; [VgaTypes]: under any sequence of uses it completes,
      its cursor stays on the grid and its values in their types.

    The kernel
    - [Interrupts]: the descriptor table and its handlers ([interrupts/mod.rs],
      [interrupts/exceptions.rs]); [Gdt]: [memory/gdt.rs].
    - [Kernel]: the statics of the kernel as the record [Machine] and what they start with; the
      requests to the boot loader ([limine_requests.rs]); the log, [init_memory], [_start] and
      [kernel_main], the panic handler ([lib.rs], [memory/mod.rs], [memory/heap.rs],
      [serial.rs]). [LogProofs], [LogTheorems]: what the log and the panic handler show;
      [KernelProofs]: the start, where it succeeds and where it cannot; [AfterBoot]: what the
      exception handlers, the paging controller and memory objects do on the machine it leaves;
      [Protection]: which of its addresses may be written and executed; [Termination]: the start
      comes to an end from whatever the boot loader reports, and where the panic handler does
      not.

    ** State

    A component's state is the record the code has. Operations that work on two records at once
    take the pair as their state; calls through a field are [zoom]. Memory appears where the code
    reads it through pointers: page tables in a [gmap] from addresses to tables, so that two
    references to one table see each other's writes, pixels and bitmaps as lists, the bytes of
    memory objects in a [gmap]. An access to an address where nothing lives is [Faulted], a typed
    access at an address not aligned for its type a panic, as the debug assertions of [core] have
    it.
    Integers are [Z] with the bounds and checks of their width written out; the kernel is built
    with the dev profile, so that overflow panics.

    ** What is proved

    - Page table: the operations refine a map from pages to frames and flags over any sequence
      of calls ([address_space_refinement]); each operation on every branch ([map_correct],
      [unmap_correct], [update_flags_correct], [new_correct]); translation and blocks
      ([map_contiguous_translate], [contiguous_roundtrip]); indices
      ([page_indices_identify_pages]); the printed listing ([debug_lists_tables]). The
      controller's blocks, where they stop and what they leave ([controller_blocks]).
    - Bitmap allocator: exact effects, errors and bounds ([flag_range_correct],
      [check_range_all_bits], [free_result]), first fit and success of small
      requests ([scan_bits_first_fit], [alloc_finds_space]), the outcomes of large ones
      ([scan_bytes_outcomes]); over any sequence of operations pages stay in use, and those of
      requests up to sixteen pages are granted once, but for what [flag_range] is asked to clear
      ([pages_stay_in_use], [pages_are_granted_once]).
    - Page allocators: only usable memory is given ([frame_allocator_usable]); the defects of
      the code, stated as what it does ([frame_numbers_break_mapping]).
    - Initialization: the address space, the free frames and the frames marked as in use after
      [init_paging] and [init_memory] ([init_paging_correct], [page_table_not_in_its_space],
      [init_memory_correct]), what it protects ([address_space_protection]), the whole start and
      its failures ([kernel_boots], [failed_starts]), that it comes to an end, and
      that the panic handler does not where the panic interrupted the log ([start_terminates]),
      the double fault stack ([double_fault_has_its_stack]); what follows:
      exceptions are reported, each by a handler of its own
      ([booted_kernel_reports_exceptions]), while the controller has lost its page tables
      ([controller_loses_its_tables]).
    - Memory objects: accesses ([write_read_roundtrip], [access_bounds]), release
      ([drop_never_completes]), creation with the allocators the start leaves
      ([started_kernel_loses_memory]).
    - Screen and log: pixels ([plot_glyph_paints], [scroll_moves_lines]), the terminal
      ([write_string_terminal]), its cursor and types under any sequence of uses
      ([writer_stays_on_grid]), the
      memory map, panics and exceptions ([log_ram_map_shows],
      [panic_handler_reports]).

    Several theorems state behaviour that is not what the code is meant to do: clearing that does
    not clear, releases that are refused, allocators that never grant. They are stated as facts
    of the code, and their comments say so.

    ** Bounds and fuel

    Loops over ranges are structural, over the list of their values. Loops whose end depends on
    data take fuel. [scan_fuel] exceeds the number of steps either loop of a scan can make, since
    each advances a position bounded by [size * 8] ([scan_bits_wp], [scan_bytes_from_outcome]);
    [virt_step_by] takes one unit more than there are pages in the range, enough for any bounds
    ([virt_for_each_halts]); [debug_recursive] descends one level per unit and starts with four.
    No theorem about them assumes that they
    return, except where it says what holds if they do. A lock that is held is never released
    here, since nothing runs concurrently: taking it is [OutOfFuel] and stands for waiting
    forever.

    The hypotheses of the theorems on initialization ([paging_ok], [memory_ok], [screen_ok],
    [start_ok]) are of two kinds. Most are what the linker script and the boot protocol
    guarantee: where the image, the stack and the offset mapping are, that the regions of the
    memory map do not overflow and that memory suffices for the tables. One is not: that the
    usable regions end within the whole bytes of the frame bitmap ([pk_usable]). [init_paging]
    rounds the number of frames down to a multiple of eight and needs it so as not to panic on a
    usable region in the last frames. There is a concrete boot for which all of them hold.
    Those on page tables ask the allocator for frames as [FrameSource]
    states it.

    ** Not modelled

    - The bodies of the crates [x86_64], [limine_protocol_for_rust], [uart_16550], [pic8259],
      [linked_list_allocator], [spin] and [lazy_static]: their functions are parameters with
      their documented behaviour, or, where the kernel only stores what they are given, the state
      they keep. The formats of the crates' types in messages are parameters too. Where
      termination is stated, the parameters return or panic (class [X86Returns]).
    - [interrupts/apic.rs] and the interrupt allocation of [interrupts/mod.rs]: all of it is
      commented out. [PICS] and [FREE_INTERRUPTS] are used by no code.
    - Concurrency and interrupts during a computation: the kernel runs on one processor and
      enables no interrupts, so that a panic inside a use of the log is the one interleaving
      there is ([panic_handler_reports]).
    - The translation of every single access: page tables are a store by virtual address, and
      [Mmu] says which of them an address leads to once they are loaded. Where that matters,
      after [load], the theorems speak of a view of the store.
    - The state at a panic: a computation that panics has no final state. What the panic handler
      does is stated for the states it can be called in: any machine whose log is free, and
      [interrupted] for a panic inside a use of the log, which leaves the log locked.
    - Source that does not compile: [new] and [reserve_physical] of [memory/allocated_memory.rs],
      which apply [?] to the controller, and [drop], which borrows from a temporary, are read as
      what they evidently mean, the static controller used in place.
    - The base revision and the markers in [limine_requests.rs], data of the protocol crate for
      the boot loader. The responses the kernel reads are the records [Boot] and [BootInfo].
    - The assembly of [_start], which reads the stack pointer: its argument [rsp].
    - The macros [gen_error_cascade!], [unwrap_or_map_err!], [equals_chain!] and
      [pseudo_const!] of [util.rs], which are used nowhere. *)
From stdpp Require Export base numbers list list_numbers option gmap.
From Stdlib Require Export ZArith Lia.

#[export] Set Default Goal Selector "!".
#[global] Open Scope Z_scope.

Declare Scope rust_scope.
Delimit Scope rust_scope with rust.
#[global] Open Scope rust_scope.

(** Hints: that a number is a byte. *)
Create HintDb bytes.

(** ** Results, panics and outcomes *)

(** Rust's [Result<A, E>]. *)
Inductive result (A E : Type) : Type :=
| Ok (a : A)
| Err (e : E).
Arguments Ok {A E} a.
Arguments Err {A E} e.

(** Why a Rust computation panics. *)
Inductive panic : Type :=
| ArithmeticOverflow   (* checked [+], [-], [*], [<<] of the dev profile *)
| DivisionByZero
| IndexOutOfBounds     (* slice or array index, slice range *)
| AssertionFailed      (* [assert!], [assert_eq!], the debug assertions of [core] *)
| UnwrapFailed         (* [unwrap], [expect] *)
| NotImplemented       (* [todo!()] *)
| UnreachableReached   (* [unreachable!()] *)
| ExplicitPanic        (* [panic!(..)] *)
| LibraryPanic.        (* a documented panic of a crate outside the repository *)

(** What running a piece of kernel code does: it finishes, it panics (the kernel
    halts in its panic handler), it dereferences an address no page table lives
    at, or the fuel of a loop ran out (which the termination theorems exclude). *)
Inductive outcome (A : Type) : Type :=
| Done (a : A)
| Panicked (p : panic)
| Faulted (address : Z)
| OutOfFuel.
Arguments Done {A} a.
Arguments Panicked {A} p.
Arguments Faulted {A} address.
Arguments OutOfFuel {A}.

#[export] Instance panic_eq_dec : EqDecision panic.
Proof. solve_decision. Defined.
#[export] Instance result_eq_dec {A E} `{EqDecision A, EqDecision E} :
  EqDecision (result A E).
Proof. solve_decision. Defined.
#[export] Instance outcome_eq_dec {A} `{EqDecision A} : EqDecision (outcome A).
Proof. solve_decision. Defined.

Definition is_ok {A E} (r : result A E) : bool :=
  match r with Ok _ => true | Err _ => false end.

(** [map_err] and [Option::ok_or], [unwrap]. *)
Definition map_err {A E F} (f : E -> F) (r : result A E) : result A F :=
  match r with Ok a => Ok a | Err e => Err (f e) end.
Definition map_ok {A B E} (f : A -> B) (r : result A E) : result B E :=
  match r with Ok a => Ok (f a) | Err e => Err e end.
Definition ok_or {A E} (e : E) (o : option A) : result A E :=
  match o with Some a => Ok a | None => Err e end.
Definition unwrap {A} (o : option A) : outcome A :=
  match o with Some a => Done a | None => Panicked UnwrapFailed end.
Definition unwrap_result {A E} (r : result A E) : outcome A :=
  match r with Ok a => Done a | Err _ => Panicked UnwrapFailed end.

(** ** Sequencing without state *)

Definition obind {A B} (o : outcome A) (k : A -> outcome B) : outcome B :=
  match o with
  | Done a => k a
  | Panicked p => Panicked p
  | Faulted a => Faulted a
  | OutOfFuel => OutOfFuel
  end.

(** The [?] operator on a computation without state. *)
Definition obind_ok {A B E} (o : outcome (result A E))
    (k : A -> outcome (result B E)) : outcome (result B E) :=
  obind o (fun r => match r with Ok a => k a | Err e => Done (Err e) end).

(** ** Sequencing with explicit state: code with a [&mut] argument *)

Definition M (S A : Type) : Type := S -> outcome (A * S).

Definition ret {S A} (a : A) : M S A := fun s => Done (a, s).
Definition bind {S A B} (m : M S A) (k : A -> M S B) : M S B :=
  fun s => obind (m s) (fun '(a, s') => k a s').
Definition lift {S A} (o : outcome A) : M S A :=
  fun s => obind o (fun a => Done (a, s)).
Definition get {S} : M S S := fun s => Done (s, s).
Definition put {S} (s : S) : M S unit := fun _ => Done (tt, s).
Definition throw {S A} (p : panic) : M S A := fun _ => Panicked p.

(** The [?] operator: an [Err] returns early, with the state reached so far. *)
Definition bind_ok {S A B E} (m : M S (result A E))
    (k : A -> M S (result B E)) : M S (result B E) :=
  bind m (fun r => match r with Ok a => k a | Err e => ret (Err e) end).

(** A call through [&mut self.field]: run on the part [g s] of the state. *)
Definition zoom {S T A} (g : S -> T) (p : T -> S -> S) (m : M T A) : M S A :=
  fun s => obind (m (g s)) (fun '(a, t) => Done (a, p t s)).

(** Unify the result type first: the state type of [get] comes from it. *)
Arguments bind {S A B} & m k.
Arguments bind_ok {S A B E} & m k.

Notation "'let*' x := o 'in' k" := (obind o (fun x => k))
  (at level 10, x name, o at level 100, k at level 200) : rust_scope.
Notation "'let*' ' x := o 'in' k" := (obind o (fun x => k))
  (at level 10, x pattern, o at level 100, k at level 200, only parsing) : rust_scope.
Notation "'let*?' x := o 'in' k" := (obind_ok o (fun x => k))
  (at level 10, x name, o at level 100, k at level 200) : rust_scope.
Notation "'let*?' ' x := o 'in' k" := (obind_ok o (fun x => k))
  (at level 10, x pattern, o at level 100, k at level 200, only parsing) : rust_scope.
Notation "'let!' x := m 'in' k" := (bind m (fun x => k))
  (at level 10, x name, m at level 100, k at level 200) : rust_scope.
Notation "'let!' ' x := m 'in' k" := (bind m (fun x => k))
  (at level 10, x pattern, m at level 100, k at level 200, only parsing) : rust_scope.
Notation "'let?' x := m 'in' k" := (bind_ok m (fun x => k))
  (at level 10, x name, m at level 100, k at level 200) : rust_scope.
Notation "'let?' ' x := m 'in' k" := (bind_ok m (fun x => k))
  (at level 10, x pattern, m at level 100, k at level 200, only parsing) : rust_scope.
Notation "'let^' x := o 'in' k" := (bind (lift o) (fun x => k))
  (at level 10, x name, o at level 100, k at level 200) : rust_scope.
Notation "'let^' ' x := o 'in' k" := (bind (lift o) (fun x => k))
  (at level 10, x pattern, o at level 100, k at level 200, only parsing) : rust_scope.

(** ** Machine integers

    [u64] and [usize] (the target is 64-bit, x86_64-kermol.json) are integers of
    [0, 2^64); [u8] those of [0, 256). The Makefile builds the dev profile, so
    arithmetic is checked: overflow panics. *)

Definition u64_bound : Z := 2 ^ 64.
Definition u32_bound : Z := 2 ^ 32.
Definition u8_bound : Z := 2 ^ 8.

Definition is_u64 (a : Z) : Prop := 0 <= a < u64_bound.
Definition is_u32 (a : Z) : Prop := 0 <= a < u32_bound.
Definition is_u8 (a : Z) : Prop := 0 <= a < u8_bound.

Definition u64_add (a b : Z) : outcome Z :=
  if a + b <? u64_bound then Done (a + b) else Panicked ArithmeticOverflow.
Definition u64_sub (a b : Z) : outcome Z :=
  if b <=? a then Done (a - b) else Panicked ArithmeticOverflow.
Definition u64_mul (a b : Z) : outcome Z :=
  if a * b <? u64_bound then Done (a * b) else Panicked ArithmeticOverflow.
Definition u64_rem (a b : Z) : outcome Z :=
  if b =? 0 then Panicked DivisionByZero else Done (a mod b).
Definition u8_add (a b : Z) : outcome Z :=
  if a + b <? u8_bound then Done (a + b) else Panicked ArithmeticOverflow.
(** [a << n] on [u8]: the shift amount is checked, the value is truncated. *)
Definition u8_shl (a n : Z) : outcome Z :=
  if n <? 8 then Done (Z.shiftl a n mod u8_bound) else Panicked ArithmeticOverflow.

(** [usize::div_ceil]. *)
Definition div_ceil (a b : Z) : Z :=
  if a mod b =? 0 then a / b else a / b + 1.

(** ** Slices *)

(** [l[i]], reading. *)
Definition index {A} (l : list A) (i : Z) : outcome A :=
  match l !! Z.to_nat i with Some a => Done a | None => Panicked IndexOutOfBounds end.

(** [l[i] = x]. *)
Definition index_set {A} (l : list A) (i : Z) (x : A) : outcome (list A) :=
  if i <? Z.of_nat (length l) then Done (<[Z.to_nat i := x]> l)
  else Panicked IndexOutOfBounds.

(** The slice expression [l[a..b]]; it panics when [a > b] or [b > l.len()]. *)
Definition slice_range {A} (l : list A) (a b : Z) : outcome (list A) :=
  if (a <=? b) && (b <=? Z.of_nat (length l))
  then Done (take (Z.to_nat (b - a)) (drop (Z.to_nat a) l))
  else Panicked IndexOutOfBounds.

(** [l[a..b].fill(x)]. *)
Definition slice_fill {A} (l : list A) (a b : Z) (x : A) : outcome (list A) :=
  if (a <=? b) && (b <=? Z.of_nat (length l))
  then Done (take (Z.to_nat a) l ++ replicate (Z.to_nat (b - a)) x
             ++ drop (Z.to_nat b) l)
  else Panicked IndexOutOfBounds.

(** ** Loops *)

(** The values of the range [a..b]. *)
Definition range (a b : Z) : list Z := seqZ a (b - a).

(** The values of [(a..b).step_by(step)]. *)
Definition range_step (a b step : Z) : list Z :=
  (fun k => a + k * step) <$> seqZ 0 (div_ceil (b - a) step).

(** [for x in l { body?; }]: an [Err] of the body returns early. *)
Fixpoint for_each {S A E} (l : list A) (body : A -> M S (result unit E)) :
    M S (result unit E) :=
  match l with
  | [] => ret (Ok tt)
  | x :: l => let? _ := body x in for_each l body
  end.

(** [for x in l { body; }] with a body that does not return early. *)
Fixpoint for_all {S A} (l : list A) (body : A -> M S unit) : M S unit :=
  match l with
  | [] => ret tt
  | x :: l => let! _ := body x in for_all l body
  end.

(** ** Weakest preconditions

    [wp o Q]: the computation finishes, without panic or fault, and its value
    satisfies [Q]. [wlp o Q]: if it finishes, its value satisfies [Q]. *)

Definition wp {A} (o : outcome A) (Q : A -> Prop) : Prop :=
  match o with Done a => Q a | _ => False end.
Definition wlp {A} (o : outcome A) (Q : A -> Prop) : Prop :=
  match o with Done a => Q a | _ => True end.

Section wp_rules.
Context {A B S T E : Type}.

Lemma wp_iff (o : outcome A) (Q : A -> Prop) :
  wp o Q <-> exists a, o = Done a /\ Q a.
Proof.
  split; [destruct o; simpl; [eauto|done..]|by intros (a & -> & HQ)].
Qed.

Lemma wlp_iff (o : outcome A) (Q : A -> Prop) :
  wlp o Q <-> forall a, o = Done a -> Q a.
Proof. split; [by intros H a ->|]. destruct o; simpl; auto. Qed.

Lemma wp_eq (o : outcome A) (a : A) : wp o (fun r => r = a) -> o = Done a.
Proof. destruct o; simpl; [by intros ->|done..]. Qed.

Lemma wp_state (o : outcome (A * S)) (a : A) (Q : S -> Prop) :
  wp o (fun '(r, s) => r = a /\ Q s) -> exists s, o = Done (a, s) /\ Q s.
Proof. destruct o as [[r s]| | |]; simpl; [|done..]. intros [-> HQ]. eauto. Qed.

(** What is known to hold where the computation finishes joins what it is proved to reach. *)
Lemma wp_wlp_and (o : outcome A) (P Q : A -> Prop) : wp o P -> wlp o Q -> wp o (fun a => P a /\ Q a).
Proof. by destruct o. Qed.

Lemma wp_wlp (o : outcome A) (Q : A -> Prop) : wp o Q -> wlp o Q.
Proof. by destruct o. Qed.

(** The result keeps its equation. *)
Lemma wp_run (o : outcome A) (Q : A -> Prop) : wp o Q -> wp o (fun a => o = Done a /\ Q a).
Proof. by destruct o. Qed.

Lemma wp_mono (o : outcome A) (Q R : A -> Prop) :
  wp o Q -> (forall a, Q a -> R a) -> wp o R.
Proof. destruct o; simpl; auto. Qed.

Lemma wlp_true (o : outcome A) (Q : A -> Prop) : (forall a, Q a) -> wlp o Q.
Proof. destruct o; simpl; auto. Qed.

Lemma wlp_mono (o : outcome A) (Q R : A -> Prop) :
  wlp o Q -> (forall a, Q a -> R a) -> wlp o R.
Proof. destruct o; simpl; auto. Qed.

Lemma wp_obind (o : outcome A) (k : A -> outcome B) Q :
  wp o (fun a => wp (k a) Q) -> wp (obind o k) Q.
Proof. by destruct o. Qed.

Lemma wlp_obind (o : outcome A) (k : A -> outcome B) Q :
  wlp o (fun a => wlp (k a) Q) -> wlp (obind o k) Q.
Proof. by destruct o. Qed.

Lemma wp_obind_ok (o : outcome (result A E)) (k : A -> outcome (result B E)) Q :
  wp o (fun r => match r with Ok a => wp (k a) Q | Err e => Q (Err e) end) ->
  wp (obind_ok o k) Q.
Proof. by destruct o as [[]| | |]. Qed.

Lemma wlp_obind_ok (o : outcome (result A E)) (k : A -> outcome (result B E)) Q :
  wlp o (fun r => match r with Ok a => wlp (k a) Q | Err e => Q (Err e) end) ->
  wlp (obind_ok o k) Q.
Proof. by destruct o as [[]| | |]. Qed.

Lemma wp_bind (m : M S A) (k : A -> M S B) s Q :
  wp (m s) (fun '(a, s') => wp (k a s') Q) -> wp (bind m k s) Q.
Proof. unfold bind. by destruct (m s) as [[]| | |]. Qed.

Lemma wlp_bind (m : M S A) (k : A -> M S B) s Q :
  wlp (m s) (fun '(a, s') => wlp (k a s') Q) -> wlp (bind m k s) Q.
Proof. unfold bind. by destruct (m s) as [[]| | |]. Qed.

Lemma wp_bind_ok (m : M S (result A E)) (k : A -> M S (result B E)) s Q :
  wp (m s) (fun '(r, s') =>
    match r with Ok a => wp (k a s') Q | Err e => Q (Err e, s') end) ->
  wp (bind_ok m k s) Q.
Proof. unfold bind_ok, bind. by destruct (m s) as [[[] ?]| | |]. Qed.

Lemma wlp_bind_ok (m : M S (result A E)) (k : A -> M S (result B E)) s Q :
  wlp (m s) (fun '(r, s') =>
    match r with Ok a => wlp (k a s') Q | Err e => Q (Err e, s') end) ->
  wlp (bind_ok m k s) Q.
Proof. unfold bind_ok, bind. by destruct (m s) as [[[] ?]| | |]. Qed.

(** Where a computation panics. *)
Lemma bind_panics (m : M S A) (k : A -> M S B) s p :
  wp (m s) (fun '(a, s') => k a s' = Panicked p) -> bind m k s = Panicked p.
Proof. unfold bind. by destruct (m s) as [[]| | |]. Qed.

Lemma bind_panics_first (m : M S A) (k : A -> M S B) s p :
  m s = Panicked p -> bind m k s = Panicked p.
Proof. unfold bind. by intros ->. Qed.

Lemma bind_ok_panics (m : M S (result A E)) (k : A -> M S (result B E)) s p :
  wp (m s) (fun '(r, s') => exists a, r = Ok a /\ k a s' = Panicked p) ->
  bind_ok m k s = Panicked p.
Proof.
  unfold bind_ok, bind. destruct (m s) as [[r s']| | |]; simpl; [|done..].
  by intros (a & -> & H).
Qed.

Lemma bind_ok_panics_first (m : M S (result A E)) (k : A -> M S (result B E)) s p :
  m s = Panicked p -> bind_ok m k s = Panicked p.
Proof. unfold bind_ok, bind. by intros ->. Qed.

(** A first step that is known. *)
Lemma bind_done (m : M S A) (k : A -> M S B) s a s' :
  m s = Done (a, s') -> bind m k s = k a s'.
Proof. unfold bind. by intros ->. Qed.

Lemma wp_lift (o : outcome A) (s : S) Q :
  wp o (fun a => Q (a, s)) -> wp (lift o s) Q.
Proof. by destruct o. Qed.

Lemma wlp_lift (o : outcome A) (s : S) Q :
  wlp o (fun a => Q (a, s)) -> wlp (lift o s) Q.
Proof. by destruct o. Qed.

Lemma wp_zoom (g : S -> T) (p : T -> S -> S) (m : M T A) s Q :
  wp (m (g s)) (fun '(a, t) => Q (a, p t s)) -> wp (zoom g p m s) Q.
Proof. unfold zoom. by destruct (m (g s)) as [[]| | |]. Qed.

Lemma wlp_zoom (g : S -> T) (p : T -> S -> S) (m : M T A) s Q :
  wlp (m (g s)) (fun '(a, t) => Q (a, p t s)) -> wlp (zoom g p m s) Q.
Proof. unfold zoom. by destruct (m (g s)) as [[]| | |]. Qed.

End wp_rules.

(** Loops: an invariant over the part of the list already visited. *)
Section wp_loops.
Context {A S E : Type}.

Lemma wp_for_each (l : list A) (body : A -> M S (result unit E))
    (I : list A -> S -> Prop) (s : S) Q :
  I [] s ->
  (forall done x todo s, l = done ++ x :: todo -> I done s ->
     wp (body x s) (fun '(r, s') =>
       match r with Ok _ => I (done ++ [x]) s' | Err e => Q (Err e, s') end)) ->
  (forall s, I l s -> Q (Ok tt, s)) ->
  wp (for_each l body s) Q.
Proof.
  intros H0 Hstep Hend.
  enough (forall todo done s, l = done ++ todo -> I done s ->
    wp (for_each todo body s) Q) as H by (by apply (H l [])).
  induction todo as [|x todo IH]; intros visited s1 Hl HI; simpl.
  - rewrite app_nil_r in Hl. subst. auto.
  - apply wp_bind_ok. eapply wp_mono; [by eapply Hstep|].
    intros [[[]|e] s2]; [|done]. intros HI2. eapply IH; [|done].
    by rewrite <- app_assoc.
Qed.

Lemma wp_for_all (l : list A) (body : A -> M S unit)
    (I : list A -> S -> Prop) (s : S) Q :
  I [] s ->
  (forall done x todo s, l = done ++ x :: todo -> I done s ->
     wp (body x s) (fun '(_, s') => I (done ++ [x]) s')) ->
  (forall s, I l s -> Q (tt, s)) ->
  wp (for_all l body s) Q.
Proof.
  intros H0 Hstep Hend.
  enough (forall todo done s, l = done ++ todo -> I done s ->
    wp (for_all todo body s) Q) as H by (by apply (H l [])).
  induction todo as [|x todo IH]; intros visited s1 Hl HI; simpl.
  - rewrite app_nil_r in Hl. subst. auto.
  - apply wp_bind. eapply wp_mono; [by eapply Hstep|].
    intros [[] s2] HI2. eapply IH; [|done]. by rewrite <- app_assoc.
Qed.
Lemma for_each_app (l1 l2 : list A) (body : A -> M S (result unit E)) s :
  for_each (l1 ++ l2) body s = (let? _ := for_each l1 body in for_each l2 body) s.
Proof.
  revert s. induction l1 as [|x l1 IH]; intros s; [done|]. simpl.
  unfold bind_ok, bind in *. destruct (body x s) as [[[[]|e] s']| | |]; simpl; [|done..].
  by rewrite IH.
Qed.

Lemma wlp_for_each (l : list A) (body : A -> M S (result unit E))
    (I : list A -> S -> Prop) (s : S) Q :
  I [] s ->
  (forall done x todo s, l = done ++ x :: todo -> I done s ->
     wlp (body x s) (fun '(r, s') =>
       match r with Ok _ => I (done ++ [x]) s' | Err e => Q (Err e, s') end)) ->
  (forall s, I l s -> Q (Ok tt, s)) ->
  wlp (for_each l body s) Q.
Proof.
  intros H0 Hstep Hend.
  enough (forall todo done s, l = done ++ todo -> I done s ->
    wlp (for_each todo body s) Q) as H by (by apply (H l [])).
  induction todo as [|x todo IH]; intros visited s1 Hl HI; simpl.
  - rewrite app_nil_r in Hl. subst. auto.
  - apply wlp_bind_ok. eapply wlp_mono; [by eapply Hstep|].
    intros [[[]|e] s2]; [|done]. intros HI2. eapply IH; [|done].
    by rewrite <- app_assoc.
Qed.
End wp_loops.

(** ** Invariants

    [keeps I m]: where [m] finishes, it finishes in a state that satisfies [I] if it started
    in one. The hints compose such facts along a computation. *)
Definition keeps {S A} (I : S -> Prop) (m : M S A) : Prop :=
  forall s, I s -> wlp (m s) (fun '(_, s') => I s').

Create HintDb keeps.

Section keeps.
Context {S : Type} (I : S -> Prop).

Lemma keeps_run {A} (m : M S A) s a s' : keeps I m -> I s -> m s = Done (a, s') -> I s'.
Proof. intros Hm Hs Hrun. specialize (Hm s Hs). by rewrite Hrun in Hm. Qed.

Lemma keeps_ret {A} (a : A) : keeps I (ret a).
Proof. by intros s Hs. Qed.

Lemma keeps_throw {A} p : keeps I (@throw S A p).
Proof. by intros s Hs. Qed.

Lemma keeps_lift {A} (o : outcome A) : keeps I (lift o).
Proof. intros s Hs. unfold lift. by destruct o. Qed.

Lemma keeps_put s : I s -> keeps I (put s).
Proof. by intros Hs s' _. Qed.

Lemma keeps_bind {A B} (m : M S A) (k : A -> M S B) :
  keeps I m -> (forall a, keeps I (k a)) -> keeps I (let! a := m in k a).
Proof.
  intros Hm Hk s Hs. apply wlp_bind. eapply wlp_mono; [by apply Hm|].
  intros [a s'] Hs'. by apply Hk.
Qed.

(** What [get] returns satisfies the invariant. *)
Lemma keeps_get {B} (k : S -> M S B) : (forall s, I s -> keeps I (k s)) -> keeps I (let! s := get in k s).
Proof. intros Hk s Hs. apply wlp_bind. by apply Hk. Qed.

Lemma keeps_get_only : keeps I get.
Proof. by intros s Hs. Qed.

(** A step without state whose value is known to satisfy [R]. *)
Lemma keeps_lift_post {A B} (R : A -> Prop) (o : outcome A) (k : A -> M S B) :
  wlp o R -> (forall a, R a -> keeps I (k a)) -> keeps I (let^ a := o in k a).
Proof.
  intros Ho Hk s Hs. apply wlp_bind, wlp_lift. eapply wlp_mono; [exact Ho|].
  intros a Ha. by apply Hk.
Qed.

Lemma keeps_bind_ok {A B E} (m : M S (result A E)) (k : A -> M S (result B E)) :
  keeps I m -> (forall a, keeps I (k a)) -> keeps I (let? a := m in k a).
Proof.
  intros Hm Hk. unfold bind_ok. apply keeps_bind; [done|]. intros [a|e]; [done|]. apply keeps_ret.
Qed.

Lemma keeps_for_all {A} (l : list A) (body : A -> M S unit) :
  (forall x, keeps I (body x)) -> keeps I (for_all l body).
Proof.
  intros Hb. induction l as [|x l IH]; cbn [for_all]; [apply keeps_ret|by apply keeps_bind].
Qed.

Lemma keeps_for_each {A E} (l : list A) (body : A -> M S (result unit E)) :
  (forall x, keeps I (body x)) -> keeps I (for_each l body).
Proof.
  intros Hb. induction l as [|x l IH]; cbn [for_each]; [apply keeps_ret|by apply keeps_bind_ok].
Qed.

(** A call through a field, with an invariant of the field. *)
Lemma keeps_zoom {T A} (J : T -> Prop) (g : S -> T) (p : T -> S -> S) (m : M T A) :
  keeps J m -> (forall s, I s -> J (g s)) -> (forall t s, J t -> I s -> I (p t s)) ->
  keeps I (zoom g p m).
Proof.
  intros Hm Hg Hp s Hs. apply wlp_zoom. eapply wlp_mono; [by apply Hm, Hg|].
  intros [a t] Ht. by apply Hp.
Qed.

End keeps.

#[export] Hint Resolve keeps_ret keeps_throw keeps_put keeps_get keeps_get_only keeps_bind keeps_bind_ok
  keeps_for_all keeps_for_each : keeps.
#[export] Hint Resolve keeps_lift | 5 : keeps.

(** ** Termination

    [stops o]: the computation finishes, panics or faults; no loop of it runs out of fuel.
    [halts I m]: so does [m] in every state that satisfies [I], and where it finishes, the state
    satisfies [I] again. *)
Definition stops {A} (o : outcome A) : Prop := o <> OutOfFuel.
Definition halts {S A} (I : S -> Prop) (m : M S A) : Prop :=
  forall s, I s -> stops (m s) /\ wlp (m s) (fun '(_, s') => I s').

Create HintDb halts.

Section stops.
Context {A B : Type}.

Lemma stops_done (a : A) : stops (Done a).
Proof. done. Qed.
Lemma stops_panicked p : stops (Panicked (A := A) p).
Proof. done. Qed.
Lemma stops_faulted a : stops (Faulted (A := A) a).
Proof. done. Qed.
Lemma stops_obind (o : outcome A) (k : A -> outcome B) :
  stops o -> (forall a, stops (k a)) -> stops (let* a := o in k a).
Proof. intros Ho Hk. destruct o; simpl; done || apply Hk. Qed.
Lemma stops_unwrap (o : option A) : stops (unwrap o).
Proof. by destruct o. Qed.
Lemma stops_unwrap_result {E} (r : result A E) : stops (unwrap_result r).
Proof. by destruct r. Qed.
Lemma stops_index (l : list A) i : stops (index l i).
Proof. unfold index. by destruct (l !! Z.to_nat i). Qed.
Lemma stops_index_set (l : list A) i x : stops (index_set l i x).
Proof. unfold index_set. by destruct (_ <? _). Qed.
Lemma stops_slice_fill (l : list A) a b x : stops (slice_fill l a b x).
Proof. unfold slice_fill. by destruct (_ && _). Qed.

End stops.

Lemma stops_u64_add a b : stops (u64_add a b).
Proof. unfold u64_add. by destruct (_ <? _). Qed.
Lemma stops_u64_sub a b : stops (u64_sub a b).
Proof. unfold u64_sub. by destruct (_ <=? _). Qed.
Lemma stops_u64_mul a b : stops (u64_mul a b).
Proof. unfold u64_mul. by destruct (_ <? _). Qed.
Lemma stops_u8_shl a n : stops (u8_shl a n).
Proof. unfold u8_shl. by destruct (_ <? _). Qed.

#[export] Hint Resolve stops_done stops_panicked stops_faulted stops_unwrap stops_unwrap_result stops_index
  stops_index_set stops_slice_fill stops_u64_add stops_u64_sub stops_u64_mul stops_u8_shl : halts.

Section halts.
Context {S : Type} (I : S -> Prop).

Lemma halts_ret {A} (a : A) : halts I (ret a).
Proof. by intros s Hs. Qed.
Lemma halts_throw {A} p : halts I (@throw S A p).
Proof. by intros s Hs. Qed.
Lemma halts_put s : I s -> halts I (put s).
Proof. by intros Hs s' _. Qed.
Lemma halts_lift {A} (o : outcome A) : stops o -> halts I (lift o).
Proof. intros Ho s Hs. unfold lift. by destruct o. Qed.

Lemma halts_bind {A B} (m : M S A) (k : A -> M S B) :
  halts I m -> (forall a, halts I (k a)) -> halts I (let! a := m in k a).
Proof.
  intros Hm Hk s Hs. destruct (Hm s Hs) as [H1 H2]. unfold bind.
  destruct (m s) as [[a s']| | |]; [|done..]. by apply Hk.
Qed.

Lemma halts_get {B} (k : S -> M S B) : (forall s, I s -> halts I (k s)) -> halts I (let! s := get in k s).
Proof. intros Hk s Hs. by apply Hk. Qed.

Lemma halts_bind_ok {A B E} (m : M S (result A E)) (k : A -> M S (result B E)) :
  halts I m -> (forall a, halts I (k a)) -> halts I (let? a := m in k a).
Proof. intros Hm Hk. apply halts_bind; [done|]. intros [a|e]; [done|]. apply halts_ret. Qed.

Lemma halts_for_all {A} (l : list A) (body : A -> M S unit) :
  (forall x, halts I (body x)) -> halts I (for_all l body).
Proof.
  intros Hb. induction l as [|x l IH]; cbn [for_all]; [apply halts_ret|by apply halts_bind].
Qed.

Lemma halts_for_each {A E} (l : list A) (body : A -> M S (result unit E)) :
  (forall x, halts I (body x)) -> halts I (for_each l body).
Proof.
  intros Hb. induction l as [|x l IH]; cbn [for_each]; [apply halts_ret|by apply halts_bind_ok].
Qed.

Lemma halts_zoom {T A} (J : T -> Prop) (g : S -> T) (p : T -> S -> S) (m : M T A) :
  halts J m -> (forall s, I s -> J (g s)) -> (forall t s, J t -> I s -> I (p t s)) ->
  halts I (zoom g p m).
Proof.
  intros Hm Hg Hp s Hs. destruct (Hm (g s) (Hg s Hs)) as [H1 H2]. unfold zoom.
  destruct (m (g s)) as [[a t]| | |]; [|done..]. split; [done|]. by apply Hp.
Qed.

(** A computation run on a state of its own. *)
Lemma halts_run {T A} (J : T -> Prop) (m : M T A) t : halts J m -> J t -> stops (m t).
Proof. intros Hm Ht. by apply Hm. Qed.

End halts.

(** Where nothing is asked of the state. *)
Definition anything {S} (s : S) : Prop := True.

#[export] Hint Extern 0 (anything _) => exact I : halts.
#[export] Hint Resolve halts_ret halts_throw halts_put halts_lift : halts.

(** Splits a computation into its steps, and every test into its cases. *)
Ltac halts :=
  repeat lazymatch goal with
    | |- halts _ (bind get _) => apply halts_get; intros ? ?
    | |- halts _ (bind _ _) => apply halts_bind; [|intros ?]
    | |- halts _ (bind_ok _ _) => apply halts_bind_ok; [|intros ?]
    | |- halts _ (lift _) => apply halts_lift
    | |- halts _ (for_all _ _) => apply halts_for_all; intros ?
    | |- halts _ (for_each _ _) => apply halts_for_each; intros ?
    | |- halts _ (match ?x with _ => _ end) => destruct x
    | |- stops (obind _ _) => apply stops_obind; [|intros ?]
    | |- stops (match ?x with _ => _ end) => destruct x
    end; auto with halts.

(** Rules for the primitive operations. *)
Lemma wp_u64_add a b Q : a + b < u64_bound -> Q (a + b) -> wp (u64_add a b) Q.
Proof. intros ? ?. unfold u64_add. by rewrite (proj2 (Z.ltb_lt _ _)). Qed.
Lemma wp_u64_sub a b Q : b <= a -> Q (a - b) -> wp (u64_sub a b) Q.
Proof. intros ? ?. unfold u64_sub. by rewrite (proj2 (Z.leb_le _ _)). Qed.
Lemma wp_u64_mul a b Q : a * b < u64_bound -> Q (a * b) -> wp (u64_mul a b) Q.
Proof. intros ? ?. unfold u64_mul. by rewrite (proj2 (Z.ltb_lt _ _)). Qed.
Lemma wp_u64_rem a b Q : b <> 0 -> Q (a mod b) -> wp (u64_rem a b) Q.
Proof. intros ? ?. unfold u64_rem. by rewrite (proj2 (Z.eqb_neq _ _)). Qed.
Lemma wp_u8_add a b Q : a + b < u8_bound -> Q (a + b) -> wp (u8_add a b) Q.
Proof. intros ? ?. unfold u8_add. by rewrite (proj2 (Z.ltb_lt _ _)). Qed.

Lemma wlp_u64_add a b Q : (a + b < u64_bound -> Q (a + b)) -> wlp (u64_add a b) Q.
Proof. unfold u64_add. destruct (Z.ltb_spec (a + b) u64_bound); simpl; auto. Qed.
Lemma wlp_u64_sub a b Q : (b <= a -> Q (a - b)) -> wlp (u64_sub a b) Q.
Proof. unfold u64_sub. destruct (Z.leb_spec b a); simpl; auto. Qed.
Lemma wlp_u64_mul a b Q : (a * b < u64_bound -> Q (a * b)) -> wlp (u64_mul a b) Q.
Proof. unfold u64_mul. destruct (Z.ltb_spec (a * b) u64_bound); simpl; auto. Qed.

Lemma wp_index {A} (l : list A) i x Q :
  l !! Z.to_nat i = Some x -> Q x -> wp (index l i) Q.
Proof. intros Hl ?. unfold index. by rewrite Hl. Qed.
Lemma wlp_index {A} (l : list A) i (Q : A -> Prop) :
  (forall x, l !! Z.to_nat i = Some x -> Q x) -> wlp (index l i) Q.
Proof. intros ?. unfold index. destruct (l !! Z.to_nat i) eqn:?; simpl; auto. Qed.
Lemma wp_index_set {A} (l : list A) i x Q :
  i < Z.of_nat (length l) -> Q (<[Z.to_nat i := x]> l) -> wp (index_set l i x) Q.
Proof. intros ? ?. unfold index_set. by rewrite (proj2 (Z.ltb_lt _ _)). Qed.
Lemma wlp_index_set {A} (l : list A) i x Q :
  (i < Z.of_nat (length l) -> Q (<[Z.to_nat i := x]> l)) -> wlp (index_set l i x) Q.
Proof.
  unfold index_set. destruct (Z.ltb_spec i (Z.of_nat (length l))); simpl; auto.
Qed.
Lemma wp_slice_fill {A} (l : list A) a b x Q :
  a <= b <= Z.of_nat (length l) ->
  Q (take (Z.to_nat a) l ++ replicate (Z.to_nat (b - a)) x ++ drop (Z.to_nat b) l) ->
  wp (slice_fill l a b x) Q.
Proof.
  intros [] ?. unfold slice_fill.
  by rewrite !(proj2 (Z.leb_le _ _)).
Qed.

(** ** Bits *)

Lemma land_pow2 x n : 0 <= n -> Z.land x (2 ^ n) = if Z.testbit x n then 2 ^ n else 0.
Proof.
  intros Hn. apply Z.bits_inj'. intros m Hm.
  rewrite Z.land_spec, Z.pow2_bits_eqb by lia.
  destruct (Z.eqb_spec n m) as [->|Hne].
  - destruct (Z.testbit x m); [by rewrite Z.pow2_bits_true|by rewrite Z.testbit_0_l].
  - rewrite andb_false_r. destruct (Z.testbit x n); [|by rewrite Z.testbit_0_l].
    by rewrite Z.pow2_bits_false.
Qed.

Lemma land_pow2_zero x n : 0 <= n -> (Z.land x (2 ^ n) =? 0) = negb (Z.testbit x n).
Proof.
  intros Hn. rewrite land_pow2 by done. pose proof (Z.pow_pos_nonneg 2 n).
  destruct (Z.testbit x n); [apply Z.eqb_neq; lia|done].
Qed.

Lemma land_pow2_eqb x n : 0 <= n -> (Z.land x (2 ^ n) =? 2 ^ n) = Z.testbit x n.
Proof.
  intros Hn. rewrite land_pow2 by done. pose proof (Z.pow_pos_nonneg 2 n).
  destruct (Z.testbit x n); [apply Z.eqb_refl|apply Z.eqb_neq; lia].
Qed.

Lemma lor_u8 a b : is_u8 a -> is_u8 b -> is_u8 (Z.lor a b).
Proof.
  unfold is_u8, u8_bound. intros Ha Hb. split; [apply Z.lor_nonneg; lia|].
  destruct (Z.eq_dec (Z.lor a b) 0) as [->|Hne]; [done|].
  assert (0 <= Z.lor a b) by (apply Z.lor_nonneg; lia).
  apply Z.log2_lt_pow2; [lia|]. rewrite Z.log2_lor by lia.
  assert (forall x, 0 <= x < 2 ^ 8 -> Z.log2 x < 8) as H8.
  { intros x Hx. destruct (Z.eq_dec x 0) as [->|]; [done|].
    apply Z.log2_lt_pow2; lia. }
  apply H8 in Ha. apply H8 in Hb. lia.
Qed.

(** The mask [b << n] of a flag byte. *)
Lemma u8_mask (b : bool) n : 0 <= n < 8 ->
  u8_shl (Z.b2z b) n = Done (if b then 2 ^ n else 0).
Proof.
  intros Hn. unfold u8_shl. rewrite (proj2 (Z.ltb_lt _ _)) by lia.
  destruct b; cbn [Z.b2z]; f_equal.
  - rewrite Z.shiftl_mul_pow2, Z.mul_1_l by lia. apply Z.mod_small.
    unfold u8_bound. split; [lia|]. apply Z.pow_lt_mono_r; lia.
  - by rewrite Z.shiftl_0_l.
Qed.

Lemma pow2_u8 n : 0 <= n < 8 -> is_u8 (2 ^ n).
Proof.
  intros Hn. unfold is_u8, u8_bound. split; [lia|]. apply Z.pow_lt_mono_r; lia.
Qed.

#[export] Hint Resolve lor_u8 pow2_u8 : bytes.
#[export] Hint Extern 5 (is_u8 _) => (unfold is_u8, u8_bound; lia) : bytes.
#[export] Hint Extern 5 (0 <= _ < _) => lia : bytes.

(** Bit [i] of a sequence of bytes, bit 0 being the lowest of the first byte. *)
Definition bit_at (l : list Z) (i : Z) : bool :=
  Z.testbit (default 0 (l !! Z.to_nat (i / 8))) (i mod 8).

Lemma bit_at_insert l n v i :
  0 <= n < Z.of_nat (length l) -> 0 <= i ->
  bit_at (<[Z.to_nat n := v]> l) i
  = if i / 8 =? n then Z.testbit v (i mod 8) else bit_at l i.
Proof.
  intros Hn Hi. unfold bit_at. assert (0 <= i / 8) by (apply Z.div_pos; lia).
  destruct (Z.eqb_spec (i / 8) n) as [->|Hne].
  - rewrite list_lookup_insert_eq by lia. done.
  - rewrite list_lookup_insert_ne by lia. done.
Qed.

Lemma bit_at_fill l a b v i :
  0 <= a <= b -> b <= Z.of_nat (length l) -> 0 <= i ->
  bit_at (take (Z.to_nat a) l ++ replicate (Z.to_nat (b - a)) v ++ drop (Z.to_nat b) l) i
  = if (a <=? i / 8) && (i / 8 <? b) then Z.testbit v (i mod 8) else bit_at l i.
Proof.
  intros Hab Hb Hi. unfold bit_at. assert (0 <= i / 8) by (apply Z.div_pos; lia).
  destruct (Z.leb_spec a (i / 8)), (Z.ltb_spec (i / 8) b); simpl; do 2 f_equal.
  - rewrite lookup_app_r; rewrite length_take; [|lia].
    rewrite lookup_app_l by (rewrite length_replicate; lia).
    rewrite lookup_replicate_2 by lia. done.
  - rewrite lookup_app_r; rewrite length_take; [|lia].
    rewrite lookup_app_r; rewrite length_replicate; [|lia].
    rewrite lookup_drop. f_equal. f_equal. lia.
  - rewrite lookup_app_l by (rewrite length_take; lia).
    rewrite lookup_take_lt by lia. done.
  - lia.
Qed.

(** One step of symbolic execution on a [wp] or [wlp] goal; the bounds of checked
    operations are left as side goals when [lia] does not prove them. *)
Ltac wp_side := try lia.
Ltac wp_step :=
  lazymatch goal with
  | |- wp (bind_ok _ _ _) _ => apply wp_bind_ok
  | |- wp (bind _ _ _) _ => apply wp_bind
  | |- wp (lift _ _) _ => apply wp_lift
  | |- wp (zoom _ _ _ _) _ => apply wp_zoom
  | |- wp (obind _ _) _ => apply wp_obind
  | |- wp (obind_ok _ _) _ => apply wp_obind_ok
  | |- wp (Done _) _ => cbn [wp]
  | |- wp (ret _ _) _ => unfold ret; cbn [wp]
  | |- wp (get _) _ => unfold get; cbn [wp]
  | |- wp (put _ _) _ => unfold put; cbn [wp]
  | |- wp (u64_add _ _) _ => apply wp_u64_add; [wp_side|]
  | |- wp (u64_sub _ _) _ => apply wp_u64_sub; [wp_side|]
  | |- wp (u64_mul _ _) _ => apply wp_u64_mul; [wp_side|]
  | |- wp (u64_rem _ _) _ => apply wp_u64_rem; [wp_side|]
  | |- wp (u8_add _ _) _ => apply wp_u8_add; [wp_side|]
  | |- wlp (bind_ok _ _ _) _ => apply wlp_bind_ok
  | |- wlp (bind _ _ _) _ => apply wlp_bind
  | |- wlp (lift _ _) _ => apply wlp_lift
  | |- wlp (zoom _ _ _ _) _ => apply wlp_zoom
  | |- wlp (obind _ _) _ => apply wlp_obind
  | |- wlp (obind_ok _ _) _ => apply wlp_obind_ok
  | |- wlp (Done _) _ => cbn [wlp]
  | |- wlp (ret _ _) _ => unfold ret; cbn [wlp]
  | |- wlp (get _) _ => unfold get; cbn [wlp]
  | |- wlp (put _ _) _ => unfold put; cbn [wlp]
  | |- wlp (u64_add _ _) _ => apply wlp_u64_add; intros ?
  | |- wlp (u64_sub _ _) _ => apply wlp_u64_sub; intros ?
  | |- wlp (u64_mul _ _) _ => apply wlp_u64_mul; intros ?
  end.
Ltac wp_steps := repeat (wp_step; []).

(** The ranges as lists. *)
Lemma range_nil a b : b <= a -> range a b = [].
Proof. intros. unfold range. apply seqZ_nil. lia. Qed.
Lemma elem_of_range a b i : i ∈ range a b <-> a <= i < b.
Proof. unfold range. rewrite elem_of_seqZ. lia. Qed.
Lemma range_app a b c : a <= b <= c -> range a c = range a b ++ range b c.
Proof.
  intros. unfold range. replace (c - a) with ((b - a) + (c - b)) by lia.
  rewrite seqZ_app by lia. do 2 f_equal. lia.
Qed.
Lemma range_cons a b : a < b -> range a b = a :: range (a + 1) b.
Proof.
  intros. unfold range. rewrite seqZ_cons by lia. do 2 f_equal; lia.
Qed.
(** A range is visited in order: the values before [x] are [a..x]. *)
Lemma range_split a b visited x todo :
  range a b = visited ++ x :: todo ->
  a <= x < b /\ visited = range a x /\ visited ++ [x] = range a (x + 1).
Proof.
  unfold range. intros H.
  assert (Hx : seqZ a (b - a) !! length visited = Some x)
    by (rewrite H; by apply list_lookup_middle).
  apply lookup_seqZ in Hx as [Hx Hlt].
  assert (Hv : visited = seqZ a (x - a)).
  { replace (b - a) with ((x - a) + (b - x)) in H by lia.
    rewrite seqZ_app in H by lia.
    apply app_inj_1 in H as [H _]; [done|]. rewrite length_seqZ. lia. }
  split_and!; [lia|lia|done|].
  rewrite Hv. replace (x + 1 - a) with ((x - a) + 1) by lia.
  rewrite seqZ_app by lia. f_equal. rewrite (seqZ_cons (a + (x - a))) by lia.
  rewrite seqZ_nil by lia. f_equal. lia.
Qed.

(** Stepping through [(a..b).step_by(step)]: the invariant counts the turns. *)
Lemma wp_for_range_step {S E} a b step n (body : Z -> M S (result unit E)) (I : Z -> S -> Prop) s Q :
  div_ceil (b - a) step = n -> 0 <= n -> I 0 s ->
  (forall k s, 0 <= k < n -> I k s ->
     wp (body (a + k * step) s) (fun '(r, s') =>
       match r with Ok _ => I (k + 1) s' | Err e => Q (Err e, s') end)) ->
  (forall s, I n s -> Q (Ok tt, s)) ->
  wp (for_each (range_step a b step) body s) Q.
Proof.
  intros Hn Hn0 H0 Hstep Hend. unfold range_step. rewrite Hn.
  enough (forall j k s, k + Z.of_nat j = n -> 0 <= k -> I k s ->
    wp (for_each ((fun k => a + k * step) <$> seqZ k (Z.of_nat j)) body s) Q) as H.
  { specialize (H (Z.to_nat n) 0 s). rewrite Z2Nat.id in H by lia. apply H; auto; lia. }
  induction j as [|j IH]; intros k s1 Hk Hk0 HI.
  - rewrite seqZ_nil by lia. simpl. apply Hend. by replace n with k by lia.
  - rewrite seqZ_cons by lia. rewrite fmap_cons. cbn [for_each]. wp_step.
    eapply wp_mono; [apply Hstep; [lia|done]|]. intros [[[]|e] s2]; [|done].
    intros HI2. replace (Z.pred (Z.of_nat (Datatypes.S j))) with (Z.of_nat j) by lia.
    apply IH; [lia..|]. by replace (Z.succ k) with (k + 1) by lia.
Qed.

Lemma div_ceil_mul n b : 0 < b -> div_ceil (n * b) b = n.
Proof. intros. unfold div_ceil. by rewrite Z_mod_mult, Z.eqb_refl, Z.div_mul by lia. Qed.
