(* ===== verification/Format.v ===== *)
(** Formatted text: literals, and the number formats the kernel uses in its format
    strings ([{}], [{:p}], [{:0>12X}]). Text is a list of code points. *)
From Stdlib Require Import Ascii String.
From S2P Require Import Prelude.

(** A literal. *)
Definition chars (s : string) : list Z := (fun c => Z.of_nat (nat_of_ascii c)) <$> list_ascii_of_string s.

Definition upper_hex_digit (d : Z) : Z := if d <? 10 then 48 + d else 55 + d.
Definition lower_hex_digit (d : Z) : Z := if d <? 10 then 48 + d else 87 + d.
Definition decimal_digit (d : Z) : Z := 48 + d.

(** The digits of [n] in a base, as many as the fuel allows: a [u64] has at most 16
    hexadecimal and 20 decimal digits. *)
Fixpoint digits (base : Z) (digit : Z -> Z) (fuel : nat) (n : Z) : list Z :=
  match fuel with
  | O => []
  | S fuel => if n <? base then [digit n]
              else digits base digit fuel (n / base) ++ [digit (n mod base)]
  end.

Definition upper_hex : Z -> list Z := digits 16 upper_hex_digit 16.
Definition lower_hex : Z -> list Z := digits 16 lower_hex_digit 16.

(** [{}] of an unsigned integer. *)
Definition decimal : Z -> list Z := digits 10 decimal_digit 20.

(** [{:p}]. *)
Definition pointer (n : Z) : list Z := 48 :: 120 :: lower_hex n.

(** [{:0>12X}]. *)
Definition hex_12 (n : Z) : list Z :=
  let digits := upper_hex n in
  replicate (12 - length digits) 48 ++ digits.
