(* ===== verification/X86.v ===== *)
(** The [x86_64] crate, as the kernel uses it.

    The crate is not part of the repository, so its types and functions are
    parameters of the model: the class [X86] holds them, the class [X86Laws] the
    documented behaviour the kernel relies on. Addresses ([VirtAddr], [PhysAddr])
    wrap a [u64] and are represented by it; a [PhysFrame] is represented by its
    start address. [X86Model] at the end is one implementation that has the laws;
    the examples of the other files evaluate the kernel's code on it. *)
From S2P Require Import Prelude.

(** ** Addresses *)

(** Bits 47 to 63 of a canonical virtual address are equal. *)
Definition canonical (a : Z) : Prop :=
  0 <= a < 2 ^ 47 \/ 2 ^ 64 - 2 ^ 47 <= a < 2 ^ 64.
(** Bits 52 to 63 of a physical address are zero. *)
Definition phys_valid (a : Z) : Prop := 0 <= a < 2 ^ 52.
(** Base of a 4 KiB page. *)
Definition page_aligned (a : Z) : Prop := a mod 4096 = 0.

#[export] Instance canonical_dec a : Decision (canonical a).
Proof. unfold canonical. apply _. Defined.
#[export] Instance phys_valid_dec a : Decision (phys_valid a).
Proof. unfold phys_valid. apply _. Defined.
#[export] Instance page_aligned_dec a : Decision (page_aligned a).
Proof. unfold page_aligned. apply _. Defined.

(** The page table flags the kernel names. *)
Inductive flag : Type := PRESENT | WRITABLE | GLOBAL | NO_EXECUTE | HUGE_PAGE.

#[export] Instance flag_eq_dec : EqDecision flag.
Proof. solve_decision. Defined.

(** ** Types and functions of the crate *)

Class X86 : Type := {
  (** [PageTableFlags], a bit set. *)
  PageTableFlags : Type;
  flags_empty : PageTableFlags;
  flag_bit : flag -> PageTableFlags;
  flags_union : PageTableFlags -> PageTableFlags -> PageTableFlags;
  flags_contains : PageTableFlags -> PageTableFlags -> bool;
  flags_dec :: EqDecision PageTableFlags;

  (** [PageTableEntry]; the setters take the entry they overwrite. *)
  PageTableEntry : Type;
  entry_is_unused : PageTableEntry -> bool;
  entry_addr : PageTableEntry -> Z;
  entry_flags : PageTableEntry -> PageTableFlags;
  entry_set_unused : PageTableEntry -> PageTableEntry;
  entry_set_addr : PageTableEntry -> Z -> PageTableFlags -> outcome PageTableEntry;
  entry_set_frame : PageTableEntry -> Z -> PageTableFlags -> outcome PageTableEntry;
  entry_set_flags : PageTableEntry -> PageTableFlags -> PageTableEntry;

  (** [PageTable], an array of 512 entries. *)
  PageTable : Type;
  page_table_new : PageTable;
  page_table_get : PageTable -> Z -> PageTableEntry;
  page_table_set : PageTable -> Z -> PageTableEntry -> PageTable;

  (** [PhysAddr] and [VirtAddr]: constructors and operators. *)
  phys_new : Z -> outcome Z;
  phys_add : Z -> Z -> outcome Z;
  virt_new : Z -> outcome Z;
  virt_add : Z -> Z -> outcome Z;
  virt_sub : Z -> Z -> outcome Z;         (* [VirtAddr - u64] *)
  virt_diff : Z -> Z -> outcome Z;        (* [VirtAddr - VirtAddr], a [u64] *)
  virt_forward : Z -> Z -> option Z;      (* [Step::forward_checked] *)
  (** [PhysFrame]. *)
  frame_containing_address : Z -> Z;
  frame_from_start_address : Z -> option Z;

  (** [x86_64::align_up]. *)
  align_up : Z -> Z -> outcome Z
}.

(** [page_table[i]] and [page_table[i] = e]: indexing checks the array bounds. *)
Definition table_index `{X86} (t : PageTable) (i : Z) : outcome PageTableEntry :=
  if (0 <=? i) && (i <? 512) then Done (page_table_get t i)
  else Panicked IndexOutOfBounds.
Definition table_index_set `{X86} (t : PageTable) (i : Z) (e : PageTableEntry) :
    outcome PageTable :=
  if (0 <=? i) && (i <? 512) then Done (page_table_set t i e)
  else Panicked IndexOutOfBounds.

(** ** Documented behaviour *)

Class X86Laws `{X86} : Prop := {
  flags_contains_empty f : flags_contains flags_empty (flag_bit f) = false;
  flags_contains_bit f g : flags_contains (flag_bit f) (flag_bit g) = bool_decide (f = g);
  flags_contains_union x y f :
    flags_contains (flags_union x y) (flag_bit f)
    = flags_contains x (flag_bit f) || flags_contains y (flag_bit f);

  set_unused_unused e : entry_is_unused (entry_set_unused e) = true;
  set_addr_aligned e a f : phys_valid a -> page_aligned a ->
    exists e', entry_set_addr e a f = Done e' /\ entry_addr e' = a
      /\ entry_flags e' = f
      /\ entry_is_unused e' = bool_decide (a = 0 /\ f = flags_empty);
  set_addr_unaligned e a f : phys_valid a -> ~ page_aligned a ->
    entry_set_addr e a f = Panicked LibraryPanic;
  set_frame_set_addr e a f : flags_contains f (flag_bit HUGE_PAGE) = false ->
    phys_valid a -> page_aligned a -> entry_set_frame e a f = entry_set_addr e a f;
  set_flags_addr e f : entry_addr (entry_set_flags e f) = entry_addr e;
  set_flags_flags e f : entry_flags (entry_set_flags e f) = f;
  set_flags_unused e f :
    entry_is_unused (entry_set_flags e f) = bool_decide (entry_addr e = 0 /\ f = flags_empty);

  table_new_unused i : 0 <= i < 512 -> entry_is_unused (page_table_get page_table_new i) = true;
  table_get_set t i j e : 0 <= i < 512 -> 0 <= j < 512 ->
    page_table_get (page_table_set t i e) j = if decide (i = j) then e else page_table_get t j;

  phys_new_valid a : phys_valid a -> phys_new a = Done a;
  phys_new_invalid a : is_u64 a -> ~ phys_valid a -> phys_new a = Panicked LibraryPanic;
  phys_add_valid a n : phys_valid a -> 0 <= n -> phys_valid (a + n) -> phys_add a n = Done (a + n);
  phys_add_invalid a n : phys_valid a -> 0 <= n -> ~ phys_valid (a + n) ->
    phys_add a n = Panicked LibraryPanic;
  virt_new_canonical a : canonical a -> virt_new a = Done a;
  virt_new_invalid a : is_u64 a -> ~ canonical a -> virt_new a = Panicked LibraryPanic;
  virt_add_canonical a n : canonical a -> 0 <= n -> canonical (a + n) ->
    virt_add a n = Done (a + n);
  virt_add_invalid a n : canonical a -> 0 <= n -> ~ canonical (a + n) ->
    virt_add a n = Panicked LibraryPanic;
  virt_sub_canonical a n : canonical a -> 0 <= n -> canonical (a - n) ->
    virt_sub a n = Done (a - n);
  virt_diff_le a b : canonical a -> canonical b -> b <= a -> virt_diff a b = Done (a - b);
  virt_forward_low a n : 0 <= n -> canonical a -> a + n < 2 ^ 47 ->
    virt_forward a n = Some (a + n);
  virt_forward_high a n : 0 <= n -> 2 ^ 64 - 2 ^ 47 <= a -> a + n < 2 ^ 64 ->
    virt_forward a n = Some (a + n);
  frame_containing a : phys_valid a -> frame_containing_address a = a - a mod 4096;
  frame_from_start a : phys_valid a ->
    frame_from_start_address a = if decide (page_aligned a) then Some a else None;
  align_up_rounds a n : 0 <= a -> 0 <= n < 64 -> - (- a / 2 ^ n) * 2 ^ n < u64_bound ->
    align_up a (2 ^ n) = Done (- (- a / 2 ^ n) * 2 ^ n)
}.

(** The bounds of addresses. *)
Ltac address :=
  lazymatch goal with
  | |- canonical _ => first [assumption | unfold canonical; lia]
  | |- phys_valid _ => first [assumption | unfold phys_valid; lia]
  | |- _ => first [assumption | lia]
  end.

(** ** Symbolic execution of the crate's functions *)

Section wp.
Context `{X86Laws}.

Lemma wp_phys_new a Q : phys_valid a -> Q a -> wp (phys_new a) Q.
Proof. intros ? ?. by rewrite phys_new_valid. Qed.
Lemma wp_phys_add a n Q :
  phys_valid a -> 0 <= n -> phys_valid (a + n) -> Q (a + n) -> wp (phys_add a n) Q.
Proof. intros ? ? ? ?. by rewrite phys_add_valid. Qed.
Lemma wp_virt_new a Q : canonical a -> Q a -> wp (virt_new a) Q.
Proof. intros ? ?. by rewrite virt_new_canonical. Qed.
Lemma wp_virt_add a n Q :
  canonical a -> 0 <= n -> canonical (a + n) -> Q (a + n) -> wp (virt_add a n) Q.
Proof. intros ? ? ? ?. by rewrite virt_add_canonical. Qed.
Lemma wp_virt_sub a n Q :
  canonical a -> 0 <= n -> canonical (a - n) -> Q (a - n) -> wp (virt_sub a n) Q.
Proof. intros ? ? ? ?. by rewrite virt_sub_canonical. Qed.
Lemma wp_virt_diff a b Q :
  canonical a -> canonical b -> b <= a -> Q (a - b) -> wp (virt_diff a b) Q.
Proof. intros ? ? ? ?. by rewrite virt_diff_le. Qed.
End wp.

(** As [wp_steps], also through the address operations whose bounds [address] proves. *)
Ltac x86_step :=
  lazymatch goal with
  | |- wp (phys_new _) _ => apply wp_phys_new; [address|]
  | |- wp (phys_add _ _) _ => apply wp_phys_add; [address..|]
  | |- wp (virt_new _) _ => apply wp_virt_new; [address|]
  | |- wp (virt_add _ _) _ => apply wp_virt_add; [address..|]
  | |- wp (virt_sub _ _) _ => apply wp_virt_sub; [address..|]
  | |- wp (virt_diff _ _) _ => apply wp_virt_diff; [address..|]
  | |- _ => wp_step; []
  end.
Ltac x86_steps := repeat x86_step.

(** ** An implementation with these laws *)

Module X86Model.

Definition flag_index (f : flag) : Z :=
  match f with
  | PRESENT => 0 | WRITABLE => 1 | HUGE_PAGE => 7 | GLOBAL => 8 | NO_EXECUTE => 63
  end.

Definition check_phys (a : Z) : outcome Z :=
  if decide (phys_valid a) then Done a else Panicked LibraryPanic.
Definition check_virt (a : Z) : outcome Z :=
  if decide (canonical a) then Done a else Panicked LibraryPanic.
Definition set_addr (_ : Z * Z) (a f : Z) : outcome (Z * Z) :=
  if decide (page_aligned a) then Done (a, f) else Panicked LibraryPanic.

(** Flags are bit masks, an entry is its address and its flags, a page table
    stores the entries that are not zero. *)
#[export] Instance x86 : X86 := {
  PageTableFlags := Z;
  flags_empty := 0;
  flag_bit f := 2 ^ flag_index f;
  flags_union := Z.lor;
  flags_contains x y := Z.land x y =? y;
  PageTableEntry := Z * Z;
  entry_is_unused e := bool_decide (e = (0, 0));
  entry_addr := fst;
  entry_flags := snd;
  entry_set_unused _ := (0, 0);
  entry_set_addr := set_addr;
  entry_set_frame := set_addr;
  entry_set_flags e f := (e.1, f);
  PageTable := gmap Z (Z * Z);
  page_table_new := ∅;
  page_table_get t i := default (0, 0) (t !! i);
  page_table_set t i e := <[i := e]> t;
  phys_new := check_phys;
  phys_add a n := check_phys (a + n);
  virt_new := check_virt;
  virt_add a n := check_virt (a + n);
  virt_sub a n := check_virt (a - n);
  virt_diff a b := u64_sub a b;
  virt_forward a n := if decide (canonical (a + n)) then Some (a + n) else None;
  frame_containing_address a := a - a mod 4096;
  frame_from_start_address a := if decide (page_aligned a) then Some a else None;
  align_up a n :=
    let r := - (- a / n) * n in
    if r <? u64_bound then Done r else Panicked LibraryPanic
}.

Lemma flag_index_nonneg f : 0 <= flag_index f.
Proof. by destruct f. Qed.

#[export] Instance x86_laws : X86Laws.
Proof.
  split; intros;
    cbn [flags_empty flag_bit flags_union flags_contains entry_is_unused entry_addr
      entry_flags entry_set_unused entry_set_addr entry_set_frame entry_set_flags
      page_table_new page_table_get page_table_set phys_new phys_add virt_new virt_add
      virt_sub virt_diff virt_forward frame_containing_address
      frame_from_start_address align_up x86] in *;
    unfold check_phys, check_virt, set_addr, u64_sub, page_aligned in *;
    repeat match goal with |- context [if decide ?P then _ else _] =>
      destruct (decide P) end; try done; try lia.
  - rewrite land_pow2_eqb by apply flag_index_nonneg. apply Z.testbit_0_l.
  - rewrite land_pow2_eqb by apply flag_index_nonneg. by destruct f, g.
  - rewrite !land_pow2_eqb by apply flag_index_nonneg. apply Z.lor_spec.
  - eexists. split_and!; [done..|]. apply bool_decide_ext. split; [by intros [= -> ->]|by intros [-> ->]].
  - apply bool_decide_ext. split; [by intros [= -> ->]|by intros [-> ->]].
  - subst. by rewrite lookup_insert_eq.
  - by rewrite lookup_insert_ne.
  - by destruct (Z.leb_spec b a); [|lia].
  - unfold canonical in *. lia.
  - unfold canonical in *. lia.
  - by destruct (Z.ltb_spec (- (- a / 2 ^ n) * 2 ^ n) u64_bound); [|lia].
Qed.

End X86Model.
