(* ===== verification/Memory.v ===== *)
(** Constants, errors and sizes shared by the memory subsystem
    ([util.rs], the top of [memory/mod.rs], [size_in_pages] of
    [memory/paging/mod.rs]), and the boot protocol's memory map as the kernel
    reads it. *)
From S2P Require Import Prelude.

(** ** Sizes *)

Definition KIBIBYTE : Z := 1024.
Definition MEBIBYTE : Z := KIBIBYTE * KIBIBYTE.
Definition PAGE_SIZE : Z := 4 * KIBIBYTE.
Definition KERNEL_HEAP_SIZE : Z := 4 * MEBIBYTE.

(** Returns how many pages [size_bytes] would need to fit. The increment cannot
    overflow ([size_in_pages_u64]). *)
Definition size_in_pages (size_bytes : Z) : Z :=
  let size := size_bytes / PAGE_SIZE in
  if negb (size_bytes mod PAGE_SIZE =? 0) then size + 1 else size.

Definition fit_in_pages (size : Z) : Z := div_ceil size PAGE_SIZE.

(** ** Errors *)

Inductive PagingError : Type :=
| AttemptedMappingToReserved (addr : Z)
| NotMapped (addr : Z)
| AlreadyMapped (addr : Z)
| TableAllocationFailed.

Inductive MemoryError : Type :=
| OutOfBounds
| PageNotPresent
| WriteToReadOnly
| EmptyAllocation
| LockedAllocator
| NoFreeFrame
| PagingErr (e : PagingError)
| AlignmentError
| AllocationError
| DoubleFree.

#[export] Instance PagingError_eq_dec : EqDecision PagingError.
Proof. solve_decision. Defined.
#[export] Instance MemoryError_eq_dec : EqDecision MemoryError.
Proof. solve_decision. Defined.

(** [impl From<PagingError> for MemoryError], applied by [?]. *)
Definition from_paging_error (e : PagingError) : MemoryError := PagingErr e.

(** The macro [return_if_none!]: the value, or an early return with the error. *)
Definition return_if_none {S A B E} (try : option A) (message : E) (k : A -> M S (result B E)) :
    M S (result B E) :=
  match try with
  | None => ret (Err message)
  | Some res => k res
  end.

(** A virtual and a physical address. *)
Definition AddressPair : Type := Z * Z.

(** ** The boot loader's memory map

    [MemoryRegionType] has the variants the kernel names; the others, which it
    only meets in wildcard arms, are [OtherRegion]. *)
Inductive MemoryRegionType : Type :=
| Usable
| Reserved
| BadMemory
| Framebuffer
| ExecutableAndModules
| AcpiNvs
| AcpiReclaimable
| AcpiTables
| BootloaderReclaimable
| OtherRegion (code : Z).

#[export] Instance MemoryRegionType_eq_dec : EqDecision MemoryRegionType.
Proof. solve_decision. Defined.

Record MemoryRegionInfo : Type := {
  region_base : Z;
  region_length : Z;
  region_type : MemoryRegionType
}.

(** ** Lemmas *)

Lemma PAGE_SIZE_eq : PAGE_SIZE = 4096.
Proof. reflexivity. Qed.

Lemma div_ceil_spec a b :
  0 < b -> 0 <= a -> a <= div_ceil a b * b < a + b /\ 0 <= div_ceil a b.
Proof.
  intros Hb Ha. unfold div_ceil.
  pose proof (Z.div_mod a b). pose proof (Z.mod_pos_bound a b).
  pose proof (Z.div_pos a b). destruct (Z.eqb_spec (a mod b) 0); nia.
Qed.

Lemma size_in_pages_div_ceil s : size_in_pages s = div_ceil s PAGE_SIZE.
Proof. unfold size_in_pages, div_ceil. by destruct (s mod PAGE_SIZE =? 0). Qed.

Lemma size_in_pages_u64 s : is_u64 s -> is_u64 (s / PAGE_SIZE + 1).
Proof.
  unfold is_u64, u64_bound. rewrite PAGE_SIZE_eq. intros [H1 H2].
  pose proof (Z.div_pos s 4096). pose proof (Z.div_lt_upper_bound s 4096 (2 ^ 52)). lia.
Qed.

(** ** Properties *)

(** [size_in_pages] and [fit_in_pages] agree: both are the least number of
    4 KiB pages that hold [s] bytes. *)
Lemma size_in_pages_least s (Hs : 0 <= s) :
  size_in_pages s = fit_in_pages s
  /\ s <= size_in_pages s * PAGE_SIZE
  /\ forall n, s <= n * PAGE_SIZE -> size_in_pages s <= n.
Proof.
  rewrite size_in_pages_div_ceil. unfold fit_in_pages.
  pose proof (div_ceil_spec s PAGE_SIZE). rewrite PAGE_SIZE_eq in *.
  split_and!; [done|lia|]. intros n Hn. nia.
Qed.

