(* ===== verification/FrameAllocation.v ===== *)
(** The [FrameAllocator] trait and its first implementation
    ([memory/paging/frame_allocation.rs]).

    The trait is the class [FrameAllocator]; [FrameSource] states what an
    allocator promises to its clients (the page table is verified against it):
    frames are page aligned, below a limit, and never handed out twice.
    [LinearFrameAllocator] is proved to keep the promise. *)
From S2P Require Import Prelude X86 Memory.

(** ** The trait *)

Class FrameAllocator (F : Type) : Type := {
  frame_alloc : M F (result Z MemoryError);
  frame_alloc_contiguous : Z -> M F (result Z MemoryError);
  frame_free : Z -> M F (result unit MemoryError);
  frame_free_contiguous : Z -> Z -> M F (result unit MemoryError)
}.

(** ** What an allocator promises

    [available limit a f]: the frame at [f] has not been handed out by [a].
    [room limit a n]: the next [n] single-frame requests succeed with frames
    that end below [limit]. *)
Class FrameSource (F : Type) `{FrameAllocator F} : Type := {
  available : F -> Z -> Prop;
  room : Z -> F -> nat -> Prop;
  frame_alloc_available limit a n : room limit a (S n) ->
    wp (frame_alloc a) (fun '(r, a') =>
      exists f, r = Ok f /\ available a f /\ page_aligned f /\ 0 <= f /\ f + 4096 <= limit
        /\ room limit a' n /\ ~ available a' f
        /\ (forall g, available a' g -> available a g));
  room_le limit a n m : room limit a n -> (m <= n)%nat -> room limit a m
}.

(** ** The linear allocator *)

Module LinearFrameAllocator.
Section linear.
Context {X : X86}.

(** [struct LinearFrameAllocator(pub PhysAddr)]. *)
Record LinearFrameAllocator : Type := mk { next : Z }.

Definition alloc : M LinearFrameAllocator (result Z MemoryError) :=
  let! self := get in
  let^ next' := phys_add (next self) PAGE_SIZE in
  let! _ := put (mk next') in
  ret (Ok (next self)).

Definition alloc_contiguous (pages : Z) : M LinearFrameAllocator (result Z MemoryError) :=
  let! self := get in
  let^ bytes := u64_mul pages PAGE_SIZE in
  let^ next' := phys_add (next self) bytes in
  let! _ := put (mk next') in
  ret (Ok (next self)).

Definition free (_phys_addr : Z) : M LinearFrameAllocator (result unit MemoryError) :=
  throw ExplicitPanic.

Definition free_contiguous (_phys_addr _pages : Z) :
    M LinearFrameAllocator (result unit MemoryError) :=
  throw ExplicitPanic.

#[global] Instance linear_frame_allocator : FrameAllocator LinearFrameAllocator := {
  frame_alloc := alloc;
  frame_alloc_contiguous := alloc_contiguous;
  frame_free := free;
  frame_free_contiguous := free_contiguous
}.

(** The cursor is the base of a page of physical memory. *)
Definition wf (self : LinearFrameAllocator) : Prop :=
  page_aligned (next self) /\ phys_valid (next self).

Context {XL : X86Laws}.

Lemma alloc_contiguous_eq pages self :
  phys_valid (next self) -> 0 <= pages -> phys_valid (next self + pages * PAGE_SIZE) ->
  alloc_contiguous pages self
  = Done (Ok (next self), mk (next self + pages * PAGE_SIZE)).
Proof.
  intros Hv Hp Hv'. apply wp_eq. unfold alloc_contiguous. wp_steps.
  apply wp_u64_mul; [unfold phys_valid, u64_bound in *; lia|]. wp_steps.
  rewrite phys_add_valid; [by wp_steps|done| |done].
  rewrite PAGE_SIZE_eq. lia.
Qed.

Lemma alloc_eq self :
  phys_valid (next self) -> phys_valid (next self + PAGE_SIZE) ->
  alloc self = Done (Ok (next self), mk (next self + PAGE_SIZE)).
Proof.
  intros Hv Hv'. unfold alloc, bind, get, lift, obind.
  by rewrite phys_add_valid by done.
Qed.

(** The linear allocator keeps the promise of [FrameSource]: frames are aligned, below the
    limit, fresh. *)
#[global] Program Instance linear_frame_source : FrameSource LinearFrameAllocator := {
  available self f := next self <= f;
  room limit self n := wf self /\ next self + Z.of_nat n * PAGE_SIZE <= limit
    /\ limit < 2 ^ 52
}.
Next Obligation.
  intros limit self n ([Ha Hv] & Hl & H52). simpl. 
  unfold phys_valid, page_aligned in *. rewrite PAGE_SIZE_eq in *.
  rewrite alloc_eq; unfold phys_valid; rewrite ?PAGE_SIZE_eq; [|lia..].
  simpl. exists (next self). split_and!; try done; unfold wf, phys_valid, page_aligned; simpl; try lia.
  split_and!; try lia. rewrite Z.add_mod, Ha by lia. done.
Qed.
Next Obligation.
  intros limit self n m (Hw & Hl & H52) Hm. simpl in *. rewrite PAGE_SIZE_eq in *.
  split_and!; [done|lia|done].
Qed.

End linear.
End LinearFrameAllocator.
