(* ===== verification/Bitmap.v ===== *)
(** The bitmap allocator ([memory/paging/bitmap_allocator.rs]): a slice of bytes
    with one bit per page, scanned by [alloc], set and tested by [flag] and
    [check] and their range forms. *)
From S2P Require Import Prelude X86 Memory FrameAllocation.

Module BitmapAllocator.

(** ** State *)

(** [struct BitmapAllocator]: [bitmap] is a [&'static mut [u8]], so its address
    and its bytes; [size] counts bits. *)
Record BitmapAllocator : Type := mk {
  bitmap_ptr : Z;
  bitmap : list Z;
  size : Z;
  last_allocated : Z
}.

Definition set_bitmap (l : list Z) (self : BitmapAllocator) : BitmapAllocator :=
  mk (bitmap_ptr self) l (size self) (last_allocated self).
Definition set_last_allocated (n : Z) (self : BitmapAllocator) : BitmapAllocator :=
  mk (bitmap_ptr self) (bitmap self) (size self) n.

(** ** Tests *)

Definition in_range (self : BitmapAllocator) (bit : Z) : outcome bool :=
  let* limit := u64_mul (size self) 8 in Done (bit <? limit).

Definition range_in_bounds (self : BitmapAllocator) (r : Z * Z) : outcome bool :=
  let* limit := u64_mul (size self) 8 in Done (r.2 <=? limit).

(** The byte [match set { true => 0xFF, false => 0 }]. *)
Definition fill_byte (set : bool) : Z := if set then 255 else 0.

(** Whether [bit] has the value [set]. *)
Definition check (self : BitmapAllocator) (bit : Z) (set : bool) :
    outcome (result bool MemoryError) :=
  let* inside := in_range self bit in
  if negb inside then Done (Err OutOfBounds) else
  let* byte := index (bitmap self) (bit / 8) in
  let* mask := u8_shl 1 (bit mod 8) in
  Done (Ok (Bool.eqb set (negb (Z.land byte mask =? 0)))).

(** The loop body [check = check && self.check(bit, set)?] on the local [check]. *)
Definition check_step (self : BitmapAllocator) (set : bool) (bit : Z) :
    M bool (result unit MemoryError) :=
  let! acc := get in
  if acc then
    let? c := lift (check self bit set) in
    let! _ := put c in ret (Ok tt)
  else ret (Ok tt).

(** The loop body [check = check && byte == &test]. *)
Definition check_byte_step (test : Z) (byte : Z) : M bool unit :=
  let! acc := get in put (acc && (byte =? test)).

Definition check_range_loops (self : BitmapAllocator) (r : Z * Z) (set : bool) :
    M bool (result bool MemoryError) :=
  let^ inside := range_in_bounds self r in
  if negb inside then ret (Err OutOfBounds) else
  let^ width := u64_sub r.2 r.1 in
  if width <? 8 then
    let? _ := for_each (range r.1 r.2) (check_step self set) in
    let! acc := get in ret (Ok acc)
  else
    let^ byte_aligned_start := u64_add r.1 ((8 - r.1 mod 8) mod 8) in
    let^ byte_aligned_end := u64_sub r.2 (r.2 mod 8) in
    let? _ := for_each (range r.1 byte_aligned_start) (check_step self set) in
    let^ bytes := slice_range (bitmap self) (byte_aligned_start / 8) (byte_aligned_end / 8) in
    let! _ := for_all bytes (check_byte_step (fill_byte set)) in
    let? _ := for_each (range byte_aligned_end r.2) (check_step self set) in
    let! acc := get in ret (Ok acc).

(** Whether every bit of the range has the value [set]; the local [check] starts
    as [true]. *)
Definition check_range (self : BitmapAllocator) (r : Z * Z) (set : bool) :
    outcome (result bool MemoryError) :=
  let* '(res, _) := check_range_loops self r set true in Done res.

(** ** Updates *)

(** [*byte |= (flag as u8) << (bit % 8)]. *)
Definition flag (bit : Z) (fl : bool) : M BitmapAllocator (result unit MemoryError) :=
  let! self := get in
  let^ inside := in_range self bit in
  if negb inside then ret (Err OutOfBounds) else
  let^ byte := index (bitmap self) (bit / 8) in
  let^ mask := u8_shl (Z.b2z fl) (bit mod 8) in
  let^ bytes := index_set (bitmap self) (bit / 8) (Z.lor byte mask) in
  let! _ := put (set_bitmap bytes self) in
  ret (Ok tt).

Definition flag_range (r : Z * Z) (fl : bool) : M BitmapAllocator (result unit MemoryError) :=
  let! self := get in
  let^ inside := range_in_bounds self r in
  if negb inside then ret (Err OutOfBounds) else
  let^ width := u64_sub r.2 r.1 in
  if width <? 8 then
    let? _ := for_each (range r.1 r.2) (fun bit => flag bit fl) in
    ret (Ok tt)
  else
    let^ byte_aligned_start := u64_add r.1 ((8 - r.1 mod 8) mod 8) in
    let^ byte_aligned_end := u64_sub r.2 (r.2 mod 8) in
    let? _ := for_each (range r.1 byte_aligned_start) (fun bit => flag bit fl) in
    let! self := get in
    let^ bytes := slice_fill (bitmap self) (byte_aligned_start / 8) (byte_aligned_end / 8)
                    (fill_byte fl) in
    let! _ := put (set_bitmap bytes self) in
    let? _ := for_each (range byte_aligned_end r.2) (fun bit => flag bit fl) in
    ret (Ok tt).

(** ** Scanning *)

(** The inner loop of [scan_bits]; the state is ([sum], [found], [current]). *)
Fixpoint scan_bits_run (fuel : nat) (self : BitmapAllocator) (target sum found current : Z) :
    outcome (Z * Z * Z) :=
  match fuel with
  | O => OutOfFuel
  | S fuel =>
      let* limit := u64_mul (size self) 8 in
      if (sum =? 0) && (found <? target) && (current <? limit) then
        let* i := u64_rem (current / 8) (size self / 8) in
        let* byte := index (bitmap self) i in
        let* mask := u8_shl 1 (current mod 8) in
        let* sum := u8_add sum (Z.land byte mask) in
        let* found := u64_add found 1 in
        let* current := u64_add current 1 in
        scan_bits_run fuel self target sum found current
      else Done (sum, found, current)
  end.

(** The outer loop of [scan_bits]. *)
Fixpoint scan_bits_from (fuel : nat) (self : BitmapAllocator) (target current : Z) :
    outcome (result Z MemoryError) :=
  match fuel with
  | O => OutOfFuel
  | S fuel' =>
      let* limit := u64_mul (size self) 8 in
      if current <? limit then
        let* '(sum, found, current) := scan_bits_run fuel self target 0 0 current in
        if 0 <? sum then scan_bits_from fuel' self target current
        else let* start := u64_sub current found in Done (Ok start)
      else Done (Err AllocationError)
  end.

(** Each iteration of either loop advances [current], which stays below
    [size * 8]: this fuel is enough ([scan_bits_wp]). *)
Definition scan_fuel (self : BitmapAllocator) : nat := S (S (Z.to_nat (size self * 8))).

Definition scan_bits (self : BitmapAllocator) (target : Z) : outcome (result Z MemoryError) :=
  scan_bits_from (scan_fuel self) self target (last_allocated self).

(** The inner loop of [scan_bytes]. *)
Fixpoint scan_bytes_run (fuel : nat) (self : BitmapAllocator) (target sum found current : Z) :
    outcome (Z * Z * Z) :=
  match fuel with
  | O => OutOfFuel
  | S fuel =>
      if (sum =? 0) && (found <? target) && (current <? size self) then
        let* i := u64_rem current (size self) in
        let* byte := index (bitmap self) i in
        let* sum := u8_add sum byte in
        let* found := u64_add found 1 in
        let* current := u64_add current 8 in
        scan_bytes_run fuel self target sum found current
      else Done (sum, found, current)
  end.

(** The outer loop of [scan_bytes]. *)
Fixpoint scan_bytes_from (fuel : nat) (self : BitmapAllocator) (target current : Z) :
    outcome (result Z MemoryError) :=
  match fuel with
  | O => OutOfFuel
  | S fuel' =>
      if current <? size self then
        let* '(sum, found, current) := scan_bytes_run fuel self target 0 0 current in
        if 0 <? sum then scan_bytes_from fuel' self target current
        else
          let* back := u64_mul found 8 in
          let* start := u64_sub current back in Done (Ok start)
      else Done (Err AllocationError)
  end.

Section alloc.
Context {X : X86}.

Definition scan_bytes (self : BitmapAllocator) (target : Z) : outcome (result Z MemoryError) :=
  let* current := align_up (last_allocated self) 8 in
  scan_bytes_from (scan_fuel self) self target current.

(** Tries to find [bits] free space. *)
Definition scan (self : BitmapAllocator) (bits : Z) : outcome (result Z MemoryError) :=
  if size self <=? bits then Done (Err OutOfBounds)
  else if 16 <? bits then scan_bytes self bits
  else let* target := align_up bits 8 in scan_bits self target.

Definition alloc (bits : Z) : M BitmapAllocator (result Z MemoryError) :=
  let! self := get in
  let? free_space := lift (scan self bits) in
  let^ stop := u64_add free_space bits in
  let! _ := put (set_last_allocated stop self) in
  let? _ := flag_range (free_space, stop) true in
  ret (Ok free_space).

End alloc.

(** ** Release *)

Definition free (bit : Z) : M BitmapAllocator (result unit MemoryError) :=
  let! self := get in
  if size self <=? bit then ret (Err OutOfBounds) else
  let? c := lift (check self bit false) in
  if negb c then ret (Err DoubleFree) else
  let? _ := flag bit false in
  ret (Ok tt).

(** Ends in [todo!()]. *)
Definition free_range (r : Z * Z) : M BitmapAllocator (result unit MemoryError) :=
  let! self := get in
  let? c := lift (check_range self r false) in
  if negb c then ret (Err DoubleFree) else
  let? _ := flag_range r false in
  throw NotImplemented.

(** ** Construction *)

Section new.
Context {X : X86}.

(** [BitmapAllocator::new(size, set_at_init, frame_allocator, page_table)]; of
    the page table only [internal_offset] is read. The slice of [size] bytes at
    [virt] is filled whatever it held. *)
Definition new (size : Z) (set_at_init : bool) (internal_offset : Z) :
    M LinearFrameAllocator.LinearFrameAllocator (result BitmapAllocator MemoryError) :=
  let pages := size_in_pages size in
  let? phys := LinearFrameAllocator.alloc_contiguous pages in
  let^ at_ := u64_add phys internal_offset in
  let^ virt := virt_new at_ in
  let bytes := replicate (Z.to_nat size) (fill_byte set_at_init) in
  let^ bits := u64_mul size 8 in
  ret (Ok (mk virt bytes bits 0)).

End new.

End BitmapAllocator.
