(* ===== verification/BitmapProofs.v ===== *)
(** The bitmap allocator is correct where it is: the invariant of its state, the
    exact effect of [flag] and [flag_range], [check_range] against its
    specification, and what [alloc], [scan_bits], [scan_bytes], [free] and
    [free_range] return. *)
From S2P Require Import Prelude X86 Memory FrameAllocation Bitmap.
Import BitmapAllocator.

(** ** Specification *)

(** The invariant: the slice holds bytes, [size] is its number of bits and no
    bound computed from it overflows. *)
Record wf (self : BitmapAllocator) : Prop := {
  wf_bytes : Forall is_u8 (bitmap self);
  wf_size : size self = 8 * Z.of_nat (length (bitmap self));
  wf_bound : size self * 8 < u64_bound;
  wf_last : 0 <= last_allocated self
}.

(** Bit [i] of the allocator: whether page [i] is in use. *)
Definition used (self : BitmapAllocator) (i : Z) : bool := bit_at (bitmap self) i.

(** [s'] is [s] with bit [i] changed by [f i]; nothing else changes. *)
Record updates (s s' : BitmapAllocator) (f : Z -> bool -> bool) : Prop := {
  upd_wf : wf s';
  upd_ptr : bitmap_ptr s' = bitmap_ptr s;
  upd_size : size s' = size s;
  upd_last : last_allocated s' = last_allocated s;
  upd_used i : 0 <= i < size s -> used s' i = f i (used s i)
}.

(** The bits [flag] leaves: it sets, and never clears. *)
Definition flag_effect (bit : Z) (fl : bool) (i : Z) (x : bool) : bool :=
  x || (fl && (i =? bit)).

Definition flag_each_effect (a b : Z) (fl : bool) (i : Z) (x : bool) : bool :=
  x || (fl && (a <=? i) && (i <? b)).

(** First byte-aligned position at or after [a]; last at or before [b]. *)
Definition aligned_start (a : Z) : Z := a + (8 - a mod 8) mod 8.
Definition aligned_end (b : Z) : Z := b - b mod 8.

(** The bits [flag_range] leaves: whole bytes inside a range of at least eight
    bits are overwritten, the other bits of the range are only ever set. *)
Definition flag_range_effect (r : Z * Z) (fl : bool) (i : Z) (x : bool) : bool :=
  if (8 <=? r.2 - r.1) && (aligned_start r.1 <=? i) && (i <? aligned_end r.2)
  then fl else flag_each_effect r.1 r.2 fl i x.

(** ** Lemmas *)

Lemma wf_size_bound self : wf self -> 0 <= size self < u64_bound.
Proof. intros [_ Hs Hb _]. lia. Qed.

Lemma wf_byte self i x : wf self -> bitmap self !! i = Some x -> is_u8 x.
Proof. intros Hwf Hi. by eapply Forall_lookup_1; [apply Hwf|]. Qed.

(** A bit below [size] lies in a byte of the slice. *)
Lemma wf_lookup self i :
  wf self -> 0 <= i < size self ->
  exists x, bitmap self !! Z.to_nat (i / 8) = Some x /\ is_u8 x
    /\ used self i = Z.testbit x (i mod 8)
    /\ i / 8 < Z.of_nat (length (bitmap self)).
Proof.
  intros Hwf Hi. assert (0 <= i / 8) by (apply Z.div_pos; lia).
  assert (i / 8 < Z.of_nat (length (bitmap self))).
  { apply Z.div_lt_upper_bound; [lia|]. rewrite <- wf_size; [lia|done]. }
  destruct (lookup_lt_is_Some_2 (bitmap self) (Z.to_nat (i / 8))) as [x Hx]; [lia|].
  exists x. split_and!; [done|by eapply wf_byte| |done].
  unfold used, bit_at. by rewrite Hx.
Qed.

Lemma updates_refl s : wf s -> updates s s (fun _ x => x).
Proof. intros. by constructor. Qed.

Lemma updates_trans s1 s2 s3 f g :
  updates s1 s2 f -> updates s2 s3 g -> updates s1 s3 (fun i x => g i (f i x)).
Proof.
  intros [W1 P1 S1 L1 U1] [W2 P2 S2 L2 U2]. constructor; [done|congruence..|].
  intros i Hi. rewrite U2, U1 by lia. done.
Qed.

Lemma updates_ext s s' f g :
  updates s s' f -> (forall i x, 0 <= i < size s -> f i x = g i x) -> updates s s' g.
Proof. intros [W P S L U] H. constructor; auto. intros i Hi. by rewrite U, H. Qed.

Lemma in_range_wf self bit : wf self -> in_range self bit = Done (bit <? size self * 8).
Proof.
  intros Hwf. apply wp_eq. unfold in_range. wp_step. pose proof (wf_bound _ Hwf).
  by wp_steps.
Qed.

Lemma range_in_bounds_wf self r :
  wf self -> range_in_bounds self r = Done (r.2 <=? size self * 8).
Proof.
  intros Hwf. apply wp_eq. unfold range_in_bounds. wp_step. pose proof (wf_bound _ Hwf).
  by wp_steps.
Qed.

Lemma set_bitmap_updates self n v f :
  wf self -> 0 <= n < Z.of_nat (length (bitmap self)) -> is_u8 v ->
  (forall i, 0 <= i < size self -> f i (used self i)
     = if i / 8 =? n then Z.testbit v (i mod 8) else used self i) ->
  updates self (set_bitmap (<[Z.to_nat n := v]> (bitmap self)) self) f.
Proof.
  intros Hwf Hn Hv Hf. destruct Hwf as [Hb Hs Hbd Hl].
  constructor; simpl; [|done..|].
  - constructor; simpl; [by apply Forall_insert|by rewrite length_insert|done|done].
  - intros i Hi. unfold used; simpl. rewrite bit_at_insert by lia. by rewrite Hf.
Qed.

Lemma flag_wp self bit fl :
  wf self -> 0 <= bit < size self ->
  wp (flag bit fl self) (fun '(r, s) => r = Ok tt /\ updates self s (flag_effect bit fl)).
Proof.
  intros Hwf Hbit. destruct (wf_lookup self bit) as (x & Hx & Hx8 & _ & Hlt); [done..|].
  pose proof (Z.mod_pos_bound bit 8). assert (0 <= bit / 8) by (apply Z.div_pos; lia).
  unfold flag. wp_steps. rewrite in_range_wf by done. wp_steps.
  rewrite (proj2 (Z.ltb_lt bit (size self * 8))) by lia. cbn [negb].
  wp_steps. eapply wp_index; [done|]. wp_steps. rewrite u8_mask by lia. wp_steps.
  apply wp_index_set; [done|]. wp_steps. split; [done|].
  apply set_bitmap_updates; [done|lia| |].
  - apply lor_u8; [done|]. destruct fl; auto with bytes.
  - intros i Hi. unfold flag_effect. destruct (wf_lookup self i) as (y & Hy & _ & -> & _); [done..|].
    destruct (Z.eqb_spec (i / 8) (bit / 8)) as [He|Hne].
    + assert (y = x) as -> by congruence. rewrite Z.lor_spec. f_equal.
      pose proof (Z.div_mod i 8). pose proof (Z.div_mod bit 8).
      destruct fl; simpl; [|by rewrite Z.testbit_0_l].
      rewrite Z.pow2_bits_eqb by lia.
      destruct (Z.eqb_spec i bit) as [->|]; [by rewrite Z.eqb_refl|].
      symmetry. apply Z.eqb_neq. lia.
    + destruct (Z.eqb_spec i bit) as [->|]; [done|]. by rewrite andb_false_r, orb_false_r.
Qed.

Lemma flag_each_wp self a b fl :
  wf self -> 0 <= a -> b <= size self ->
  wp (for_each (range a b) (fun bit => flag bit fl) self)
    (fun '(r, s) => r = Ok tt /\ updates self s (flag_each_effect a b fl)).
Proof.
  intros Hwf Ha Hb.
  eapply (wp_for_each _ _ (fun visited s =>
    updates self s (fun i x => x || (fl && bool_decide (i ∈ visited))))).
  - eapply updates_ext; [by apply updates_refl|]. intros i x _.
    rewrite bool_decide_eq_false_2 by apply not_elem_of_nil.
    by rewrite andb_false_r, orb_false_r.
  - intros visited x todo s Hl HI. pose proof (range_split _ _ _ _ _ Hl) as (Hx & _ & _).
    eapply wp_mono.
    { apply flag_wp; [apply HI|]. rewrite (upd_size _ _ _ HI). lia. }
    intros [r s'] [-> Hu]. eapply updates_ext; [by eapply updates_trans|].
    intros i y _. unfold flag_effect. rewrite <- orb_assoc. f_equal.
    destruct fl; simpl; [|done].
    destruct (Z.eqb_spec i x); repeat case_bool_decide; set_solver.
  - intros s HI. split; [done|]. eapply updates_ext; [done|].
    intros i x _. unfold flag_each_effect. rewrite <- andb_assoc. do 2 f_equal.
    apply eq_true_iff_eq. rewrite bool_decide_eq_true, elem_of_range. lia.
Qed.

Lemma slice_fill_updates self a b fl :
  wf self -> 0 <= a <= b -> b <= Z.of_nat (length (bitmap self)) ->
  wp (slice_fill (bitmap self) a b (fill_byte fl)) (fun bytes =>
    updates self (set_bitmap bytes self)
      (fun i x => if (a * 8 <=? i) && (i <? b * 8) then fl else x)).
Proof.
  intros Hwf Hab Hb. apply wp_slice_fill; [lia|].
  destruct Hwf as [H8 Hs Hbd Hl]. constructor; simpl; [|done..|].
  - constructor; simpl; [| |done|done].
    + apply Forall_app_2; [by apply Forall_take|]. apply Forall_app_2; [|by apply Forall_drop].
      apply Forall_replicate. by destruct fl.
    + rewrite !length_app, length_take, length_replicate, length_drop. lia.
  - intros i Hi. unfold used; simpl. rewrite bit_at_fill by lia.
    pose proof (Z.div_mod i 8). pose proof (Z.mod_pos_bound i 8).
    replace (a <=? i / 8) with (a * 8 <=? i)
      by (apply eq_true_iff_eq; rewrite !Z.leb_le; lia).
    replace (i / 8 <? b) with (i <? b * 8)
      by (apply eq_true_iff_eq; rewrite !Z.ltb_lt; lia).
    destruct ((a * 8 <=? i) && (i <? b * 8)); [|done].
    destruct fl; simpl; [|by rewrite Z.testbit_0_l].
    change 255 with (Z.ones 8). rewrite Z.ones_spec_low by lia. done.
Qed.

(** The aligned bounds of a range of at least eight bits. *)
Lemma aligned_bounds a b :
  0 <= a -> 8 <= b - a ->
  a <= aligned_start a <= aligned_end b /\ aligned_end b <= b /\
  aligned_start a / 8 * 8 = aligned_start a /\ aligned_end b / 8 * 8 = aligned_end b.
Proof.
  intros Ha Hab. unfold aligned_start, aligned_end.
  pose proof (Z.div_mod a 8). pose proof (Z.mod_pos_bound a 8).
  pose proof (Z.div_mod b 8). pose proof (Z.mod_pos_bound b 8).
  assert ((8 - a mod 8) mod 8 = if a mod 8 =? 0 then 0 else 8 - a mod 8) as ->.
  { destruct (Z.eqb_spec (a mod 8) 0) as [->|]; [done|]. apply Z.mod_small. lia. }
  replace (b - b mod 8) with (b / 8 * 8) by lia. rewrite Z.div_mul by lia.
  destruct (Z.eqb_spec (a mod 8) 0).
  - replace (a + 0) with (a / 8 * 8) by lia. rewrite Z.div_mul by lia. lia.
  - replace (a + (8 - a mod 8)) with ((a / 8 + 1) * 8) by lia.
    rewrite Z.div_mul by lia. lia.
Qed.

Lemma flag_range_wp self r fl :
  wf self -> 0 <= r.1 <= r.2 -> r.2 <= size self ->
  wp (flag_range r fl self)
    (fun '(res, s) => res = Ok tt /\ updates self s (flag_range_effect r fl)).
Proof.
  intros Hwf Hr Hs. pose proof (wf_bound _ Hwf). pose proof (wf_size_bound _ Hwf).
  unfold flag_range. wp_steps. rewrite range_in_bounds_wf by done. wp_steps.
  rewrite (proj2 (Z.leb_le r.2 (size self * 8))) by lia. cbn [negb]. wp_steps.
  destruct (Z.ltb_spec (r.2 - r.1) 8) as [Hlt|Hge].
  - wp_steps. eapply wp_mono; [apply flag_each_wp; [done|lia..]|].
    intros [? s] [-> Hu]. wp_steps. split; [done|]. eapply updates_ext; [done|].
    intros i x _. unfold flag_range_effect. by rewrite (proj2 (Z.leb_gt 8 _)) by lia.
  - destruct (aligned_bounds r.1 r.2) as (H1 & H2 & H3 & H4); [lia..|].
    fold (aligned_start r.1) (aligned_end r.2). unfold u64_bound in *.
    wp_steps. apply wp_u64_add; [unfold aligned_start, u64_bound in *; lia|].
    fold (aligned_start r.1). wp_steps.
    apply wp_u64_sub; [unfold aligned_end in *; lia|]. fold (aligned_end r.2). wp_steps.
    eapply wp_mono; [apply flag_each_wp; [done|lia..]|]. intros [? s1] [-> Hu1].
    pose proof (upd_wf _ _ _ Hu1) as Hwf1. pose proof (upd_size _ _ _ Hu1).
    pose proof (wf_size _ Hwf1). wp_steps.
    eapply wp_mono; [apply slice_fill_updates; [done| |]|].
    { split; [apply Z.div_pos; lia|apply Z.div_le_mono; lia]. }
    { lia. }
    intros bytes Hu2. wp_steps.
    eapply wp_mono; [apply flag_each_wp; [apply Hu2|lia|]|].
    { rewrite (upd_size _ _ _ Hu2). lia. }
    intros [? s2] [-> Hu3]. wp_steps. split; [done|].
    eapply updates_ext.
    { eapply updates_trans; [exact Hu1|]. eapply updates_trans; [exact Hu2|exact Hu3]. }
    intros i x _. unfold flag_range_effect, flag_each_effect. simpl.
    rewrite H3, H4, (proj2 (Z.leb_le 8 _)) by lia. simpl.
    destruct fl, x; simpl; repeat case_match; simpl in *; lia.
Qed.

(** The reference definition [check_range] is compared with: bit by bit. *)
Definition all_bits (self : BitmapAllocator) (r : Z * Z) (set : bool) : bool :=
  forallb (fun i => Bool.eqb set (used self i)) (range r.1 r.2).

Lemma forallb_range f a b :
  forallb f (range a b) = true <-> forall i, a <= i < b -> f i = true.
Proof.
  rewrite forallb_forall. setoid_rewrite <- list_elem_of_In.
  by setoid_rewrite elem_of_range.
Qed.

Lemma check_ok self bit set :
  wf self -> 0 <= bit < size self ->
  check self bit set = Done (Ok (Bool.eqb set (used self bit))).
Proof.
  intros Hwf Hbit. destruct (wf_lookup self bit) as (x & Hx & _ & Hu & _); [done..|].
  pose proof (Z.mod_pos_bound bit 8). apply wp_eq. unfold check. wp_steps.
  rewrite in_range_wf by done. wp_steps.
  rewrite (proj2 (Z.ltb_lt bit (size self * 8))) by lia. cbn [negb].
  wp_steps. eapply wp_index; [done|]. wp_steps.
  rewrite (u8_mask true) by lia. wp_steps.
  by rewrite land_pow2_zero, negb_involutive, Hu by lia.
Qed.

Lemma check_each_wp self a b set acc :
  wf self -> 0 <= a -> b <= size self ->
  wp (for_each (range a b) (check_step self set) acc)
    (fun '(r, acc') => r = Ok tt /\ acc' = acc && all_bits self (a, b) set).
Proof.
  intros Hwf Ha Hb.
  eapply (wp_for_each _ _ (fun visited acc' =>
    acc' = acc && forallb (fun i => Bool.eqb set (used self i)) visited)).
  - by rewrite andb_true_r.
  - intros visited x todo s Hl ->. pose proof (range_split _ _ _ _ _ Hl) as (Hx & _ & _).
    rewrite forallb_app. simpl. rewrite andb_true_r.
    unfold check_step. wp_steps.
    destruct (acc && forallb (fun i => Bool.eqb set (used self i)) visited) eqn:Hacc.
    + wp_steps. rewrite check_ok by (done || lia). wp_steps.
      by rewrite andb_assoc, Hacc.
    + wp_steps. by rewrite andb_assoc, Hacc.
  - by intros s ->.
Qed.

Lemma check_bytes_wp test bytes acc :
  wp (for_all bytes (check_byte_step test) acc)
    (fun '(_, acc') => acc' = acc && forallb (fun byte => byte =? test) bytes).
Proof.
  eapply (wp_for_all _ _ (fun visited acc' =>
    acc' = acc && forallb (fun byte => byte =? test) visited)).
  - by rewrite andb_true_r.
  - intros visited x todo s _ ->. unfold check_byte_step. wp_steps.
    rewrite forallb_app. simpl. by rewrite andb_true_r, andb_assoc.
  - by intros s ->.
Qed.

(** A byte is all ones or all zeros exactly when its eight bits are. *)
Lemma fill_byte_bits x set :
  is_u8 x -> (x =? fill_byte set) = true <-> forall j, 0 <= j < 8 -> Z.testbit x j = set.
Proof.
  intros Hx. rewrite Z.eqb_eq. split.
  - intros -> j Hj. destruct set; simpl; [|apply Z.testbit_0_l].
    change 255 with (Z.ones 8). apply Z.ones_spec_low. lia.
  - intros Hbits. apply Z.bits_inj'. intros n Hn.
    assert (forall y, is_u8 y -> 8 <= n -> Z.testbit y n = false) as Hhigh.
    { intros y Hy Hn8. rewrite <- (Z.mod_small y (2 ^ 8)) by exact Hy.
      by apply Z.mod_pow2_bits_high. }
    destruct (Z.lt_ge_cases n 8).
    + rewrite Hbits by lia. destruct set; simpl; [|by rewrite Z.testbit_0_l].
      change 255 with (Z.ones 8). by rewrite Z.ones_spec_low by lia.
    + rewrite !Hhigh; [done|by destruct set|done|done|done].
Qed.

(** The whole bytes between two byte positions, compared with a filled byte. *)
Lemma slice_all_bits self s e set :
  wf self -> 0 <= s <= e -> e <= Z.of_nat (length (bitmap self)) ->
  forallb (fun byte => byte =? fill_byte set)
    (take (Z.to_nat (e - s)) (drop (Z.to_nat s) (bitmap self)))
  = all_bits self (s * 8, e * 8) set.
Proof.
  intros Hwf Hse He. apply eq_true_iff_eq. unfold all_bits. rewrite forallb_range.
  rewrite forallb_forall. setoid_rewrite <- list_elem_of_In. simpl.
  setoid_rewrite eqb_true_iff. split.
  - intros Hall i Hi. pose proof (Z.div_mod i 8). pose proof (Z.mod_pos_bound i 8).
    destruct (wf_lookup self i) as (x & Hx & Hx8 & -> & _); [done| |].
    { rewrite (wf_size _ Hwf). lia. }
    symmetry. apply fill_byte_bits; [done| |lia]. apply Hall.
    apply list_elem_of_lookup. exists (Z.to_nat (i / 8 - s)).
    rewrite lookup_take_lt, lookup_drop by lia. rewrite <- Hx. f_equal. lia.
  - intros Hall x Hx. apply list_elem_of_lookup in Hx as [k Hk].
    apply lookup_take_Some in Hk as [Hk Hlt]. rewrite lookup_drop in Hk.
    apply fill_byte_bits; [by eapply wf_byte|]. intros j Hj.
    specialize (Hall (((s + Z.of_nat k) * 8) + j)).
    destruct (wf_lookup self ((s + Z.of_nat k) * 8 + j)) as (y & Hy & _ & Hu & _); [done| |].
    { rewrite (wf_size _ Hwf). lia. }
    rewrite Hu in Hall. rewrite Z.div_add_l, (Z.div_small j) in Hy by lia.
    replace (Z.to_nat (s + Z.of_nat k + 0)) with (Z.to_nat s + k)%nat in Hy by lia.
    assert (y = x) as -> by congruence.
    rewrite Z.add_comm, Z_mod_plus_full, Z.mod_small in Hall by lia.
    symmetry. apply Hall. lia.
Qed.

Lemma all_bits_app self a b c set :
  a <= b <= c -> all_bits self (a, b) set && all_bits self (b, c) set = all_bits self (a, c) set.
Proof.
  intros H. apply eq_true_iff_eq. unfold all_bits.
  rewrite andb_true_iff, !forallb_range. simpl. split; [|intros H1; split; intros; apply H1; lia].
  intros [H1 H2] i Hi. destruct (Z.lt_ge_cases i b); [apply H1|apply H2]; lia.
Qed.

Lemma check_range_ok self r set :
  wf self -> 0 <= r.1 <= r.2 -> r.2 <= size self ->
  check_range self r set = Done (Ok (all_bits self r set)).
Proof.
  intros Hwf Hr Hs. pose proof (wf_bound _ Hwf). pose proof (wf_size_bound _ Hwf).
  destruct r as [a b]. simpl in *. apply wp_eq. unfold check_range. wp_step.
  apply wp_mono with (Q := fun '(res, _) => res = Ok (all_bits self (a, b) set));
    [|by intros [? ?] ->].
  unfold check_range_loops. wp_steps. rewrite range_in_bounds_wf by done. wp_steps. simpl.
  rewrite (proj2 (Z.leb_le b (size self * 8))) by lia. cbn [negb]. wp_steps.
  destruct (Z.ltb_spec (b - a) 8) as [Hlt|Hge].
  { wp_steps. eapply wp_mono; [apply check_each_wp; [done|lia..]|].
    intros [? acc] [-> ->]. by wp_steps. }
  destruct (aligned_bounds a b) as (H1 & H2 & H3 & H4); [lia..|].
  fold (aligned_start a) (aligned_end b). unfold u64_bound in *.
  wp_steps. apply wp_u64_add; [unfold aligned_start, u64_bound in *; lia|].
  fold (aligned_start a). wp_steps.
  apply wp_u64_sub; [unfold aligned_end in *; lia|]. fold (aligned_end b). wp_steps.
  eapply wp_mono; [apply check_each_wp; [done|lia..]|]. intros [? acc] [-> ->]. wp_steps.
  assert (0 <= aligned_start a / 8 <= aligned_end b / 8).
  { split; [apply Z.div_pos; lia|apply Z.div_le_mono; lia]. }
  assert (aligned_end b / 8 <= Z.of_nat (length (bitmap self))).
  { pose proof (wf_size _ Hwf). lia. }
  unfold slice_range. rewrite !(proj2 (Z.leb_le _ _)) by lia. cbn [andb]. wp_steps.
  eapply wp_mono; [apply check_bytes_wp|]. intros [? acc] ->. wp_steps.
  eapply wp_mono; [apply check_each_wp; [done|lia..]|]. intros [? acc] [-> ->]. wp_steps.
  rewrite slice_all_bits by done. rewrite H3, H4. simpl.
  by rewrite !all_bits_app by lia.
Qed.

(** ** Scanning by bits *)

(** [scan_bits] walks the bitmap eight times over: position [i] is bit
    [i mod size], for [i] up to [size * 8]. *)
Definition limit (self : BitmapAllocator) : Z := size self * 8.
Definition used_at (self : BitmapAllocator) (i : Z) : bool := used self (i mod size self).

Definition free_run (self : BitmapAllocator) (a n : Z) : Prop :=
  forall i, a <= i < a + n -> used_at self i = false.

(** A run of [target] positions from [j] meets a used bit before the end. *)
Definition blocked (self : BitmapAllocator) (target j : Z) : Prop :=
  exists i, j <= i < j + target /\ i < limit self /\ used_at self i = true.

(** What [scan_bits] promises, searching from position [c]. *)
Definition scan_bits_post (self : BitmapAllocator) (target c : Z)
    (r : result Z MemoryError) : Prop :=
  match r with
  | Ok start => c <= start < limit self /\
      (exists n, 0 <= n <= target /\ free_run self start n /\ start + n <= limit self /\
        (n = target \/ start + n = limit self)) /\
      forall j, c <= j < start -> blocked self target j
  | Err e => e = AllocationError /\
      forall j, c <= j < limit self -> blocked self target j
  end.

(** The byte and the bit [scan_bits] reads at position [c]. *)
Lemma scan_bits_position self c :
  wf self -> 0 <= c < limit self ->
  size self / 8 = Z.of_nat (length (bitmap self)) /\ 0 < size self / 8 /\
  exists x, bitmap self !! Z.to_nat ((c / 8) mod (size self / 8)) = Some x /\
    used_at self c = Z.testbit x (c mod 8).
Proof.
  unfold limit. intros Hwf Hc. pose proof (wf_size _ Hwf) as Hs.
  assert (size self / 8 = Z.of_nat (length (bitmap self))) as He.
  { rewrite Hs, Z.mul_comm. apply Z.div_mul. lia. }
  split_and!; [done|lia|]. rewrite He.
  set (len := Z.of_nat (length (bitmap self))) in *.
  pose proof (Z.mod_pos_bound c 8). pose proof (Z.mod_pos_bound (c / 8) len).
  assert (c mod size self = ((c / 8) mod len) * 8 + c mod 8) as Hm
    by (rewrite Hs, Z.rem_mul_r by lia; lia).
  destruct (wf_lookup self (c mod size self)) as (x & Hx & _ & Hu & _); [done| |].
  { apply Z.mod_pos_bound. lia. }
  unfold used_at. rewrite Hu. rewrite Hm in Hx |- *.
  rewrite Z.div_add_l, (Z.div_small (c mod 8)), Z.add_0_r in Hx by lia.
  exists x. split; [done|].
  by rewrite Z.add_comm, Z_mod_plus_full, (Z.mod_small (c mod 8)) by lia.
Qed.

(** The inner loop stops after a used bit, or at the end of a free run. *)
Lemma scan_bits_run_wp self target fuel : forall found c,
  wf self -> 0 <= c <= limit self -> 0 <= found <= target -> target < u64_bound ->
  (Z.to_nat (limit self - c) + 1 < fuel)%nat ->
  wp (scan_bits_run fuel self target 0 found c) (fun '(sum, found', c') =>
    exists n, 0 <= n /\ found' = found + n /\ c' = c + n /\ c' <= limit self /\ found' <= target /\
      ((sum = 0 /\ free_run self c n /\ (found' = target \/ c' = limit self)) \/
       (0 < sum /\ 0 < n /\ free_run self c (n - 1) /\ used_at self (c' - 1) = true))).
Proof.
  induction fuel as [|fuel IH]; intros found c Hwf Hc Hf Ht Hfuel; [lia|].
  pose proof (wf_bound _ Hwf). unfold limit in Hc. simpl. wp_steps.
  destruct (Z.ltb_spec found target) as [Hft|]; cbn [andb]; [|].
  2: { wp_steps. exists 0. split_and!; try lia; [unfold limit; lia|].
       left. split_and!; [done|intros i Hi; lia|lia]. }
  destruct (Z.ltb_spec c (size self * 8)) as [Hcl|]; [|].
  2: { wp_steps. exists 0. split_and!; try lia; [unfold limit; lia|].
       left. split_and!; [done|intros i Hi; lia|unfold limit; lia]. }
  destruct (scan_bits_position self c) as (He & Hpos & x & Hx & Hu); [done|unfold limit; lia|].
  pose proof (Z.mod_pos_bound c 8). wp_steps. eapply wp_index; [done|]. wp_steps.
  rewrite (u8_mask true) by lia. wp_steps. rewrite land_pow2 by lia. rewrite <- Hu.
  apply wp_u8_add.
  { destruct (used_at self c); [|done]. pose proof (pow2_u8 (c mod 8)).
    unfold is_u8 in *. lia. }
  wp_steps. destruct (used_at self c) eqn:Huc; rewrite Z.add_0_l.
  - destruct fuel as [|fuel]; [unfold limit in *; lia|]. simpl. wp_steps.
    assert (0 < 2 ^ (c mod 8)) by (apply Z.pow_pos_nonneg; lia).
    rewrite (proj2 (Z.eqb_neq (2 ^ (c mod 8)) 0)) by lia. cbn [andb]. wp_steps.
    exists 1. split_and!; try lia; [unfold limit; lia|]. right.
    split_and!; [lia|lia|intros i Hi; lia|]. by rewrite Z.add_simpl_r.
  - eapply wp_mono; [apply IH; unfold limit in *; auto; lia|].
    intros [[sum f'] c'] (n & Hn & -> & -> & Hl & Hft' & Hcase).
    exists (n + 1). split_and!; try lia.
    assert (forall m, free_run self (c + 1) m -> free_run self c (m + 1)) as Hrun.
    { intros m Hm i Hi. destruct (Z.eq_dec i c) as [->|]; [done|]. apply Hm. lia. }
    destruct Hcase as [(-> & Hr & Hend)|(Hs & Hn0 & Hr & Hu')].
    + left. split_and!; [done|by apply Hrun|lia].
    + right. split_and!; [done|lia| |].
      * apply Hrun in Hr. by replace (n + 1 - 1) with (n - 1 + 1) by lia.
      * by replace (c + (n + 1) - 1) with (c + 1 + n - 1) by lia.
Qed.

Lemma scan_bits_from_wp self target fuel : forall c,
  wf self -> 0 <= c -> 0 <= target < u64_bound ->
  (Z.to_nat (limit self - c) + 1 < fuel)%nat ->
  wp (scan_bits_from fuel self target c) (scan_bits_post self target c).
Proof.
  induction fuel as [|fuel IH]; intros c Hwf Hc Ht Hfuel; [lia|].
  pose proof (wf_bound _ Hwf). cbn [scan_bits_from]. wp_steps.
  fold (limit self). destruct (Z.ltb_spec c (limit self)) as [Hcl|Hcl].
  2: { wp_steps. split; [done|]. lia. }
  wp_steps. eapply wp_mono; [apply scan_bits_run_wp; auto; lia|].
  intros [[sum f] c'] (n & Hn & -> & -> & Hl & Hft & [(-> & Hr & Hend)|(Hs & Hn0 & Hr & Hu)]).
  - simpl. wp_steps. split_and!; [lia|lia| |lia].
    replace (c + n - (0 + n)) with c by lia. exists n. split_and!; auto; lia.
  - rewrite (proj2 (Z.ltb_lt 0 sum)) by lia.
    assert (forall j, c <= j < c + n -> blocked self target j) as Hblk.
    { intros j Hj. exists (c + n - 1). split_and!; [lia|lia|lia|done]. }
    eapply wp_mono; [apply IH; auto; lia|]. intros [start|e]; simpl.
    + intros (Hst & Hrun & Hall). split_and!; [lia|lia|done|].
      intros j Hj. destruct (Z.lt_ge_cases j (c + n)); [apply Hblk|apply Hall]; lia.
    + intros (-> & Hall). split; [done|].
      intros j Hj. destruct (Z.lt_ge_cases j (c + n)); [apply Hblk|apply Hall]; lia.
Qed.

Lemma scan_bits_wp self target :
  wf self -> 0 <= target < u64_bound ->
  wp (scan_bits self target) (scan_bits_post self target (last_allocated self)).
Proof.
  intros Hwf Ht. unfold scan_bits. pose proof (wf_last _ Hwf).
  apply scan_bits_from_wp; auto. unfold scan_fuel, limit. lia.
Qed.

(** ** Positions past the bitmap *)

Lemma flag_past_end self bit fl :
  wf self -> size self <= bit < size self * 8 ->
  flag bit fl self = Panicked IndexOutOfBounds.
Proof.
  intros Hwf Hbit. unfold flag. apply bind_panics. wp_steps.
  apply bind_panics, wp_lift. rewrite in_range_wf by done. cbn [wp].
  rewrite (proj2 (Z.ltb_lt bit (size self * 8))) by lia. cbn [negb].
  apply bind_panics_first. unfold lift, index. rewrite lookup_ge_None_2; [done|].
  pose proof (wf_size _ Hwf).
  assert (Z.of_nat (length (bitmap self)) <= bit / 8)
    by (apply Z.div_le_lower_bound; lia). lia.
Qed.

Lemma flag_each_past_end self a b fl :
  wf self -> 0 <= a < b -> size self < b <= size self * 8 ->
  for_each (range a b) (fun bit => flag bit fl) self = Panicked IndexOutOfBounds.
Proof.
  intros Hwf Ha Hb. destruct (Z.lt_ge_cases (size self) a).
  { rewrite range_cons by lia. apply bind_ok_panics_first, flag_past_end; [done|lia]. }
  rewrite (range_app a (size self) b), for_each_app by lia.
  apply bind_ok_panics. eapply wp_mono; [apply flag_each_wp; [done|lia..]|].
  intros [r s] [-> Hu]. exists tt. split; [done|].
  rewrite range_cons by lia. apply bind_ok_panics_first.
  pose proof (upd_size _ _ _ Hu). apply flag_past_end; [apply Hu|lia].
Qed.

Lemma flag_range_past_end self r fl :
  wf self -> 0 <= r.1 < r.2 -> size self < r.2 <= size self * 8 ->
  flag_range r fl self = Panicked IndexOutOfBounds.
Proof.
  intros Hwf Hr Hs. pose proof (wf_bound _ Hwf). pose proof (wf_size _ Hwf).
  unfold flag_range. apply bind_panics. wp_steps.
  apply bind_panics, wp_lift. rewrite range_in_bounds_wf by done. cbn [wp].
  rewrite (proj2 (Z.leb_le r.2 (size self * 8))) by lia. cbn [negb].
  apply bind_panics. wp_steps.
  destruct (Z.ltb_spec (r.2 - r.1) 8) as [Hlt|Hge].
  { by apply bind_ok_panics_first, flag_each_past_end. }
  destruct (aligned_bounds r.1 r.2) as (H1 & H2 & H3 & H4); [lia..|].
  apply bind_panics, wp_lift. fold (aligned_start r.1). apply wp_u64_add.
  { fold (aligned_start r.1). unfold u64_bound in *. lia. }
  apply bind_panics, wp_lift. fold (aligned_start r.1).
  apply wp_u64_sub; [unfold aligned_end in *; lia|]. fold (aligned_end r.2).
  destruct (Z.lt_ge_cases (size self) (aligned_start r.1)) as [Hp|Hp].
  { destruct (Z.eq_dec (aligned_start r.1) r.1) as [He|Hne].
    - apply bind_ok_panics. rewrite range_nil by lia. cbn [for_each]. wp_steps.
      exists tt. split; [done|]. apply bind_panics. wp_steps. apply bind_panics_first.
      unfold lift, slice_fill. rewrite (proj2 (Z.leb_gt (aligned_end r.2 / 8) _)) by lia.
      by rewrite andb_false_r.
    - apply bind_ok_panics_first, flag_each_past_end; [done|lia..]. }
  apply bind_ok_panics. eapply wp_mono; [apply flag_each_wp; [done|lia..]|].
  intros [? s1] [-> Hu1]. exists tt. split; [done|].
  pose proof (upd_size _ _ _ Hu1). pose proof (wf_size _ (upd_wf _ _ _ Hu1)).
  apply bind_panics. wp_steps.
  destruct (Z.lt_ge_cases (size self) (aligned_end r.2)) as [Hp2|Hp2].
  { apply bind_panics_first. unfold lift, slice_fill.
    rewrite (proj2 (Z.leb_gt (aligned_end r.2 / 8) _)) by lia. by rewrite andb_false_r. }
  apply bind_panics, wp_lift. eapply wp_mono.
  { apply slice_fill_updates; [apply Hu1| |lia].
    split; [apply Z.div_pos; lia|apply Z.div_le_mono; lia]. }
  intros bytes Hu2. apply bind_panics. wp_steps.
  apply bind_ok_panics_first, flag_each_past_end; [apply Hu2|simpl; lia..].
Qed.

(** ** Allocation *)

(** A request of at most 16 bits looks for this many free positions. *)
Definition round8 (bits : Z) : Z := - (- bits / 8) * 8.

Lemma round8_bounds bits : bits <= round8 bits < bits + 8.
Proof.
  unfold round8. pose proof (Z.div_mod (- bits) 8). pose proof (Z.mod_pos_bound (- bits) 8). lia.
Qed.

Section alloc_lemmas.
Context {X : X86} {XL : X86Laws}.

Lemma scan_small self bits :
  wf self -> 0 <= bits <= 16 -> bits < size self ->
  wp (scan self bits) (scan_bits_post self (round8 bits) (last_allocated self)).
Proof.
  intros Hwf Hb Hs. pose proof (round8_bounds bits). unfold scan.
  rewrite (proj2 (Z.leb_gt (size self) bits)), (proj2 (Z.ltb_ge 16 bits)) by lia.
  wp_step. pose proof (align_up_rounds bits 3) as Hal. change (2 ^ 3) with 8 in Hal.
  fold (round8 bits) in Hal. rewrite Hal; [|unfold u64_bound; lia..]. cbn [wp].
  apply scan_bits_wp; [done|]. unfold u64_bound. lia.
Qed.

Lemma scan_too_large self bits : size self <= bits -> scan self bits = Done (Err OutOfBounds).
Proof. intros H. unfold scan. by rewrite (proj2 (Z.leb_le _ _)). Qed.

(** The state an allocation leaves when it succeeds. *)
Definition allocated (self self' : BitmapAllocator) (start bits : Z) : Prop :=
  wf self' /\ bitmap_ptr self' = bitmap_ptr self /\ size self' = size self /\
  last_allocated self' = start + bits /\
  forall i, 0 <= i < size self ->
    used self' i = used self i || ((start <=? i) && (i <? start + bits)).

(** Marking a granted range: [alloc] after the scan. *)
Lemma alloc_mark self start bits :
  wf self -> 0 <= start -> 0 <= bits -> start + bits <= size self ->
  wp (flag_range (start, start + bits) true (set_last_allocated (start + bits) self))
    (fun '(r, s) => r = Ok tt /\ allocated self s start bits).
Proof.
  intros Hwf Hst Hb Hs.
  assert (wf (set_last_allocated (start + bits) self)) as Hwf'.
  { destruct Hwf. constructor; simpl; auto. lia. }
  eapply wp_mono; [apply flag_range_wp; [done|simpl; lia..]|].
  intros [r s] [-> Hu]. split; [done|]. destruct Hu as [W P S L U]. simpl in *.
  split_and!; auto. intros i Hi. rewrite U by lia.
  change (used (set_last_allocated (start + bits) self) i) with (used self i).
  unfold flag_range_effect, flag_each_effect. simpl.
  destruct (used self i); simpl; repeat case_match; try done;
    unfold aligned_start, aligned_end in *;
    pose proof (Z.mod_pos_bound start 8); pose proof (Z.mod_pos_bound (start + bits) 8);
    pose proof (Z.mod_pos_bound (8 - start mod 8) 8); lia.
Qed.

(** What [alloc] does to the state, whatever the result (small requests). *)
Definition alloc_post (self : BitmapAllocator) (bits : Z)
    (res : result Z MemoryError * BitmapAllocator) : Prop :=
  match res with
  | (Ok start, self') =>
      last_allocated self <= start /\ start + bits <= size self /\
      (forall i, start <= i < start + bits -> used self i = false) /\
      (forall j, last_allocated self <= j < start -> blocked self (round8 bits) j) /\
      allocated self self' start bits
  | (Err _, self') =>
      wf self' /\ size self' = size self /\ bitmap self' = bitmap self /\
      last_allocated self <= last_allocated self'
  end.

Lemma used_at_small self i : 0 <= i < size self -> used_at self i = used self i.
Proof. intros. unfold used_at. by rewrite Z.mod_small. Qed.

Lemma alloc_small_wlp self bits :
  wf self -> 0 < bits <= 16 -> wlp (alloc bits self) (alloc_post self bits).
Proof.
  intros Hwf Hb. pose proof (wf_last _ Hwf). pose proof (round8_bounds bits).
  unfold alloc. wp_steps. destruct (Z.le_gt_cases (size self) bits).
  { rewrite scan_too_large by done. wp_steps. by split_and!. }
  eapply wlp_mono; [by apply wp_wlp, scan_small; [|lia|]|].
  intros [start|e]; simpl; [|by intros _; wp_steps; split_and!].
  intros (Hst & (n & Hn & Hrun & Hlim & Hfull) & Hblk). unfold limit in *. wp_steps.
  destruct (Z.le_gt_cases (start + bits) (size self)) as [Hin|Hout].
  - eapply wlp_mono; [by apply wp_wlp, alloc_mark; [|lia..|]|].
    intros [r s] [-> Ha]. wp_steps. split_and!; try done; [lia|].
    intros i Hi. rewrite <- used_at_small by lia. apply Hrun. lia.
  - destruct (Z.le_gt_cases (start + bits) (size self * 8)).
    { rewrite flag_range_past_end; [done| |simpl; lia..].
      destruct Hwf. constructor; simpl; auto; lia. }
    unfold flag_range. wp_steps. rewrite range_in_bounds_wf.
    2: { destruct Hwf. constructor; simpl; auto; lia. }
    wp_steps. simpl. rewrite (proj2 (Z.leb_gt _ _)) by lia. cbn [negb]. wp_steps.
    split_and!; simpl; try done; [|lia]. destruct Hwf. constructor; simpl; auto; lia.
Qed.

Lemma alloc_finds self bits j
    (Hwf : wf self) (Hb : 0 < bits <= 16) (Hsz : bits < size self)
    (Hj : last_allocated self <= j)
    (Hin : j + round8 bits <= size self)
    (Hfree : forall i, j <= i < j + round8 bits -> used self i = false) :
  exists start self', alloc bits self = Done (Ok start, self') /\ start <= j
    /\ alloc_post self bits (Ok start, self').
Proof.
  pose proof (wf_last _ Hwf). pose proof (round8_bounds bits).
  assert (blocked self (round8 bits) j -> False) as Hnb.
  { intros (i & Hi & _ & Hu). rewrite used_at_small, Hfree in Hu by lia. done. }
  pose proof (scan_small self bits Hwf ltac:(lia) ltac:(lia)) as Hscan.
  apply wp_iff in Hscan as ([start|e] & Hrun & Hpost).
  2: { destruct Hpost as [_ Hblk]. destruct Hnb. apply Hblk. unfold limit. lia. }
  destruct Hpost as (Hst & _ & Hblk).
  assert (start <= j) by (destruct (Z.le_gt_cases start j); [done|]; destruct Hnb; auto).
  assert (wp (alloc bits self) (fun '(r, _) => r = Ok start)) as Halloc.
  { unfold alloc. wp_steps. rewrite Hrun. wp_steps.
    apply wp_u64_add; [pose proof (wf_bound _ Hwf); lia|]. wp_steps.
    eapply wp_mono; [apply alloc_mark; [done|lia..]|]. intros [r s] [-> _]. by wp_steps. }
  apply wp_iff in Halloc as ([r self'] & Halloc & ->). exists start, self'.
  split_and!; [done..|].
  pose proof (alloc_small_wlp self bits Hwf Hb) as Hpost. rewrite wlp_iff in Hpost. by apply Hpost.
Qed.

Lemma alloc_full_small self bits
    (Hwf : wf self) (Hb : 0 < bits <= 16) (Hs : bits < size self)
    (Hfull : forall i, 0 <= i < size self -> used self i = true) :
  alloc bits self = Done (Err AllocationError, self).
Proof.
  pose proof (scan_small self bits Hwf ltac:(lia) Hs) as Hscan.
  pose proof (round8_bounds bits). pose proof (wf_last _ Hwf).
  apply wp_eq. unfold alloc. wp_steps. eapply wp_mono; [exact Hscan|].
  intros [start|e]; simpl; [|by intros [-> _]].
  intros (Hst & (n & Hn & Hrun & Hlim & Hor) & _). exfalso.
  assert (used_at self start = true) as Hu.
  { apply Hfull. apply Z.mod_pos_bound. lia. }
  rewrite Hrun in Hu; [done|]. unfold limit in *. lia.
Qed.

End alloc_lemmas.

(** ** Sequences of requests *)

Section sequences.
Context {X : X86} {XL : X86Laws}.

(** Serves the requests in order and collects the ranges that were granted. *)
Fixpoint alloc_all (reqs : list Z) : M BitmapAllocator (list (Z * Z)) :=
  match reqs with
  | [] => ret []
  | bits :: reqs =>
      let! r := alloc bits in
      let! granted := alloc_all reqs in
      ret (match r with Ok start => (start, start + bits) :: granted | Err _ => granted end)
  end.

(** What a run of requests grants: free ranges, one after the other. *)
Inductive grants (self : BitmapAllocator) : Z -> list (Z * Z) -> Prop :=
| grants_nil from : grants self from []
| grants_cons from r granted :
    from <= r.1 -> r.1 < r.2 -> r.2 <= size self ->
    (forall i, r.1 <= i < r.2 -> used self i = false) ->
    grants self r.2 granted -> grants self from (r :: granted).

Lemma grants_from self from from' l : from' <= from -> grants self from l -> grants self from' l.
Proof. intros Hle Hg. destruct Hg; constructor; auto; lia. Qed.

(** Bits free after an allocation were free before. *)
Lemma grants_before s s' from l :
  size s' = size s -> 0 <= from ->
  (forall i, 0 <= i < size s -> used s i = true -> used s' i = true) ->
  grants s' from l -> grants s from l.
Proof.
  intros Hs Hf Hu Hg. induction Hg as [|from r l H1 H2 H3 H4 _ IH]; [constructor|].
  constructor; [lia..| |apply IH; lia].
  intros i Hi. specialize (H4 i Hi). destruct (used s i) eqn:He; [|done].
  rewrite Hu in H4; [done|lia|done].
Qed.

Lemma alloc_all_wlp reqs : forall self,
  wf self -> Forall (fun bits => 0 < bits <= 16) reqs ->
  wlp (alloc_all reqs self) (fun '(granted, s') =>
    wf s' /\ grants self (last_allocated self) granted /\
    (forall i, 0 <= i < size self -> used self i = true -> used s' i = true) /\
    size s' = size self /\
    Forall (fun r => forall i, r.1 <= i < r.2 -> used s' i = true) granted).
Proof.
  induction reqs as [|bits reqs IH]; intros self Hwf Hreqs; cbn [alloc_all].
  { wp_steps. split_and!; [done|constructor|auto|done|constructor]. }
  apply Forall_cons in Hreqs as [Hb Hreqs]. pose proof (wf_last _ Hwf). wp_steps.
  eapply wlp_mono; [by apply alloc_small_wlp|]. intros [[start|e] s1]; simpl.
  - intros (Hst & Hend & Hfree & _ & Hwf1 & _ & Hs1 & Hl1 & Hu1). wp_steps.
    eapply wlp_mono; [by apply IH|]. intros [granted s2] (Hwf2 & Hg & Hm & Hs2 & Hall).
    assert (forall i, 0 <= i < size self -> used self i = true -> used s1 i = true).
    { intros i Hi Hui. rewrite Hu1 by done. by rewrite Hui. }
    wp_steps. split_and!; [done| |intros; apply Hm; [lia|auto]|lia|].
    + rewrite Hl1 in Hg. constructor; simpl; [lia..|auto|].
      eapply grants_before; [| | |exact Hg]; [done|lia|done].
    + constructor; [|done]. simpl. intros i Hi. apply Hm; [lia|].
      rewrite Hu1 by lia. rewrite Hfree by done. apply andb_true_intro. lia.
  - intros (Hwf1 & Hs1 & Hb1 & Hl1). wp_steps.
    assert (forall i, used s1 i = used self i) as Hu1 by (intros; unfold used; congruence).
    eapply wlp_mono; [by apply IH|]. intros [granted s2] (Hwf2 & Hg & Hm & Hs2 & Hall).
    wp_steps. split_and!; [done| |intros i Hi ?; apply Hm; [lia|by rewrite Hu1]|lia|done].
    eapply grants_from; [exact Hl1|]. eapply grants_before; [| | |exact Hg]; [done|lia|].
    intros i _. by rewrite Hu1.
Qed.

End sequences.

(** ** Witness states *)

(** 24 pages, pages 0 to 4 and 16 in use, next search from page 3. *)
Definition sample : BitmapAllocator := mk 4096 [31; 0; 1] 24 3.

Lemma sample_wf : wf sample.
Proof.
  constructor; simpl; [|done|done|done]. repeat constructor; done.
Qed.

(** Every page in use, as [new] leaves the bitmap with [set_at_init]. *)
Definition full (n : nat) : BitmapAllocator := mk 4096 (replicate n 255) (8 * Z.of_nat n) 0.

Lemma full_wf n : Z.of_nat n < 2 ^ 50 -> wf (full n).
Proof.
  intros Hn. constructor; simpl; [|by rewrite length_replicate|unfold u64_bound; lia|done].
  by apply Forall_replicate.
Qed.

(** ** Properties *)

Lemma flag_range_sets self r :
  wf self -> 0 <= r.1 <= r.2 -> r.2 <= size self ->
  exists self', flag_range r true self = Done (Ok tt, self') /\
    updates self self' (fun i x => x || ((r.1 <=? i) && (i <? r.2))).
Proof.
  intros Hwf Hr Hs. pose proof (flag_range_wp self r true Hwf Hr Hs) as H.
  apply wp_iff in H as ([res self'] & -> & -> & Hu). exists self'. split; [done|].
  eapply updates_ext; [done|]. intros i x _. unfold flag_range_effect, flag_each_effect.
  pose proof (Z.mod_pos_bound (8 - r.1 mod 8) 8). pose proof (Z.mod_pos_bound r.2 8).
  unfold aligned_start, aligned_end. destruct x; simpl; case_match; lia.
Qed.

Lemma flag_range_clears self r :
  wf self -> 0 <= r.1 <= r.2 -> r.2 <= size self ->
  exists self', flag_range r false self = Done (Ok tt, self') /\
    updates self self' (fun i x =>
      x && negb ((8 <=? r.2 - r.1) && (aligned_start r.1 <=? i) && (i <? aligned_end r.2))).
Proof.
  intros Hwf Hr Hs. pose proof (flag_range_wp self r false Hwf Hr Hs) as H.
  apply wp_iff in H as ([res self'] & -> & -> & Hu). exists self'. split; [done|].
  eapply updates_ext; [done|]. intros i x _. unfold flag_range_effect, flag_each_effect.
  destruct x; simpl; case_match; by rewrite ?H.
Qed.

(** C21: [flag_range] on a range inside the bitmap succeeds and keeps the state well formed.
    Setting sets exactly the bits of the range, although it writes whole bytes where it can.
    Clearing clears exactly the whole bytes inside a range of at least eight bits: in a
    shorter range, and in the partial bytes at the ends of a longer one, bits in use stay in
    use, because [flag] can only set. *)
Theorem flag_range_correct self r
    (Hwf : wf self) (Hr : 0 <= r.1 <= r.2) (Hs : r.2 <= size self) :
  (exists self', flag_range r true self = Done (Ok tt, self') /\
     updates self self' (fun i x => x || ((r.1 <=? i) && (i <? r.2)))) /\
  (exists self', flag_range r false self = Done (Ok tt, self') /\
     updates self self' (fun i x =>
       x && negb ((8 <=? r.2 - r.1) && (aligned_start r.1 <=? i) && (i <? aligned_end r.2)))).
Proof. split; [by apply flag_range_sets|by apply flag_range_clears]. Qed.

Lemma flag_range_correct_witness :
  (exists self', flag_range (6, 20) true sample = Done (Ok tt, self') /\
     updates sample self' (fun i x => x || ((6 <=? i) && (i <? 20)))) /\
  (exists self', flag_range (1, 5) false sample = Done (Ok tt, self') /\
     updates sample self' (fun i x =>
       x && negb ((8 <=? 4) && (aligned_start 1 <=? i) && (i <? aligned_end 5)))).
Proof.
  split.
  - apply (flag_range_correct sample (6, 20)); [apply sample_wf|simpl; lia..].
  - apply (flag_range_correct sample (1, 5)); [apply sample_wf|simpl; lia..].
Defined.

(** C30: [check_range], which compares whole bytes in the middle of the range,
    computes the bit-by-bit definition [all_bits], for every range inside the
    bitmap and either value. *)
Theorem check_range_all_bits self r set
    (Hwf : wf self) (Hr : 0 <= r.1 <= r.2) (Hs : r.2 <= size self) :
  check_range self r set = Done (Ok (all_bits self r set)).
Proof. by apply check_range_ok. Qed.

Lemma check_range_all_bits_witness :
  check_range sample (5, 16) false = Done (Ok (all_bits sample (5, 16) false)).
Proof. apply check_range_all_bits; [apply sample_wf|simpl; lia..]. Defined.

(** Bounds of the range operations. A range that ends past [size * 8] is
    refused with [OutOfBounds]; one that ends between [size] and [size * 8],
    although [size] already counts bits, is accepted by the test and panics on
    the slice index. *)
Lemma flag_range_bounds self r fl
    (Hwf : wf self) (Hr : 0 <= r.1 < r.2) (Hs : size self < r.2) :
  flag_range r fl self
  = if r.2 <=? size self * 8 then Panicked IndexOutOfBounds
    else Done (Err OutOfBounds, self).
Proof.
  destruct (Z.leb_spec r.2 (size self * 8)) as [Hle|Hgt].
  - by apply flag_range_past_end.
  - apply wp_eq. unfold flag_range. wp_steps. rewrite range_in_bounds_wf by done.
    wp_steps. rewrite (proj2 (Z.leb_gt _ _)) by done. cbn [negb]. by wp_steps.
Qed.

Lemma flag_range_bounds_witness :
  flag_range (20, 25) true sample = Panicked IndexOutOfBounds.
Proof. apply (flag_range_bounds sample (20, 25) true); [apply sample_wf|simpl; lia..]. Defined.

(** C16: [scan_bits] always terminates without panicking, and it is a first-fit
    search over the positions from [last_allocated] to [size * 8] (position [i]
    being bit [i mod size]): it returns the first position from which [target]
    positions, or all the remaining ones, are free, and [AllocationError] when
    every position runs into a used bit. *)
Theorem scan_bits_first_fit self target
    (Hwf : wf self) (Ht : 0 <= target < u64_bound) :
  exists r, scan_bits self target = Done r /\
    scan_bits_post self target (last_allocated self) r.
Proof. apply wp_iff. by apply scan_bits_wp. Qed.

Lemma scan_bits_first_fit_witness :
  exists r, scan_bits sample 8 = Done r /\ scan_bits_post sample 8 3 r.
Proof.
  apply (scan_bits_first_fit sample 8); [apply sample_wf|unfold u64_bound; lia].
Defined.

Section alloc_theorems.
Context {X : X86} {XL : X86Laws}.

(** A successful [alloc] of up to 16 pages grants pages inside the bitmap,
    at or after [last_allocated], that were all free; it marks exactly those and
    moves [last_allocated] past them. A failed one changes no bit. *)
Lemma alloc_grants_free_pages self bits res self'
    (Hwf : wf self) (Hb : 0 < bits <= 16) (Hrun : alloc bits self = Done (res, self')) :
  alloc_post self bits (res, self').
Proof.
  pose proof (alloc_small_wlp self bits Hwf Hb) as H. rewrite wlp_iff in H. by apply H.
Qed.

(** C22: [alloc] of up to 16 pages finds space when there is some: if from some
    position [j] at or after [last_allocated] a multiple of eight pages covering
    the request is free, it succeeds, at [j] or before. *)
Theorem alloc_finds_space self bits j
    (Hwf : wf self) (Hb : 0 < bits <= 16) (Hsz : bits < size self)
    (Hj : last_allocated self <= j)
    (Hin : j + round8 bits <= size self)
    (Hfree : forall i, j <= i < j + round8 bits -> used self i = false) :
  exists start self', alloc bits self = Done (Ok start, self') /\ start <= j
    /\ alloc_post self bits (Ok start, self').
Proof. by apply alloc_finds. Qed.

(** No page is granted twice: over any sequence of requests of up to 16
    pages, the granted ranges were all free at the start, lie inside the bitmap,
    follow one another without overlap, and are all in use at the end. *)
Lemma alloc_never_twice self reqs granted self'
    (Hwf : wf self) (Hreqs : Forall (fun bits => 0 < bits <= 16) reqs)
    (Hrun : alloc_all reqs self = Done (granted, self')) :
  grants self (last_allocated self) granted /\
  Forall (fun r => forall i, r.1 <= i < r.2 -> used self' i = true) granted.
Proof.
  pose proof (alloc_all_wlp reqs self Hwf Hreqs) as H. rewrite wlp_iff in H.
  destruct (H _ Hrun) as (_ & Hg & _ & _ & Hall). done.
Qed.

End alloc_theorems.

(** The witnesses run on [X86Model]. *)
#[local] Existing Instances X86Model.x86 X86Model.x86_laws.

Lemma alloc_grants_free_pages_witness :
  exists self', alloc 3 sample = Done (Ok 5, self') /\ alloc_post sample 3 (Ok 5, self').
Proof.
  eexists. split; [vm_compute; reflexivity|].
  apply (alloc_grants_free_pages sample 3); [apply sample_wf|lia|by vm_compute].
Defined.

Lemma alloc_finds_space_witness :
  exists start self', alloc 3 sample = Done (Ok start, self') /\ start <= 6
    /\ alloc_post sample 3 (Ok start, self').
Proof.
  apply (alloc_finds_space sample 3 6); [apply sample_wf|lia|done|done|done|].
  intros i [H1 H2]. assert (i < 14) by exact H2. clear H2.
  assert (exists k, i = 6 + k /\ 0 <= k < 8) as (k & -> & Hk) by (exists (i - 6); lia).
  assert (k = 0 \/ k = 1 \/ k = 2 \/ k = 3 \/ k = 4 \/ k = 5 \/ k = 6 \/ k = 7) by lia.
  by destruct_or!; subst.
Defined.

Lemma alloc_never_twice_witness :
  exists granted self', alloc_all [2; 1; 16] sample = Done (granted, self')
    /\ granted = [(5, 7); (7, 8)] /\ grants sample (last_allocated sample) granted.
Proof.
  eexists _, _. split; [vm_compute; reflexivity|]. split; [reflexivity|].
  eapply (alloc_never_twice sample [2; 1; 16]); [apply sample_wf| |by vm_compute].
  repeat constructor; lia.
Defined.

(** C40: [free] of a page tells used from unused pages the wrong way round: on a
    page in use it fails with [DoubleFree], on an unused page it succeeds; either
    way no bit changes. Past the bitmap it fails with [OutOfBounds]. *)
Theorem free_result self bit (Hwf : wf self) (Hbit : 0 <= bit) :
  exists self', free bit self
  = Done (if size self <=? bit then Err OutOfBounds
          else if used self bit then Err DoubleFree else Ok tt, self')
  /\ updates self self' (fun _ x => x).
Proof.
  apply wp_state. unfold free. wp_steps.
  destruct (Z.leb_spec (size self) bit).
  { wp_steps. split; [done|by apply updates_refl]. }
  wp_steps. rewrite check_ok by (done || lia). wp_steps.
  destruct (used self bit); cbn [Bool.eqb negb]; wp_steps.
  { split; [done|by apply updates_refl]. }
  eapply wp_mono; [by apply flag_wp|]. intros [r s] [-> Hu]. wp_steps. split; [done|].
  eapply updates_ext; [done|]. intros i x _. unfold flag_effect. by rewrite orb_false_r.
Qed.

Lemma free_result_witness :
  exists self', free 4 sample = Done (Err DoubleFree, self')
  /\ updates sample self' (fun _ x => x).
Proof. apply (free_result sample 4); [apply sample_wf|lia]. Defined.

(** [free_range] never succeeds: if some page of the range is in use it fails
    with [DoubleFree] and changes nothing, and if none is it reaches [todo!()]. *)
Lemma free_range_result self r
    (Hwf : wf self) (Hr : 0 <= r.1 <= r.2) (Hs : r.2 <= size self) :
  free_range r self
  = if all_bits self r false then Panicked NotImplemented
    else Done (Err DoubleFree, self).
Proof.
  pose proof (flag_range_wp self r false Hwf Hr Hs) as Hflag.
  unfold free_range, bind_ok, bind, get, lift, obind.
  rewrite check_range_ok by done. destruct (all_bits self r false); cbn [negb]; [|done].
  apply wp_iff in Hflag as ([res s] & -> & -> & _). done.
Qed.

(** ** Scanning by bytes *)

(** [scan_bytes] advances its position by 8 per byte but uses the position itself
    as the index of the byte. *)
Definition byte_zero (self : BitmapAllocator) (p : Z) : Prop := bitmap self !! Z.to_nat p = Some 0.

(** Outcomes of [scan_bytes] from position [c] when the bitmap has two bytes or
    more: a position from which [target] bytes at distance eight are zero, or the
    panic of an index past the slice. *)
Definition scan_bytes_outcome (self : BitmapAllocator) (target c : Z)
    (o : outcome (result Z MemoryError)) : Prop :=
  match o with
  | Done (Ok start) => c <= start /\ start mod 8 = 0 /\
      forall k, 0 <= k < target -> byte_zero self (start + 8 * k)
  | Panicked p => p = IndexOutOfBounds
  | _ => False
  end.

(** A position within two bitmap lengths of a multiple of eight is met before the end. *)
Lemma multiple_before_size len c :
  2 <= len -> 0 <= c -> c mod 8 = 0 -> len <= c -> c < len + 8 -> c < 8 * len.
Proof.
  intros. pose proof (Z.div_mod c 8). lia.
Qed.

Lemma scan_bytes_run_outcome self target fuel : forall found c,
  wf self -> 2 <= Z.of_nat (length (bitmap self)) ->
  0 <= c -> c mod 8 = 0 -> c < Z.of_nat (length (bitmap self)) + 8 ->
  0 <= found <= target -> target < size self ->
  (Z.to_nat (size self - c) + 1 < fuel)%nat ->
  match scan_bytes_run fuel self target 0 found c with
  | Done (sum, found', c') => exists n, 0 <= n /\ found' = found + n /\ c' = c + 8 * n /\
      (forall k, 0 <= k < n - 1 -> byte_zero self (c + 8 * k)) /\
      ((sum = 0 /\ found' = target /\ (0 < n -> byte_zero self (c + 8 * (n - 1)))) \/
       (0 < sum /\ 0 < n /\ c' < Z.of_nat (length (bitmap self)) + 8))
  | Panicked p => p = IndexOutOfBounds
  | _ => False
  end.
Proof.
  induction fuel as [|fuel IH]; intros found c Hwf Hlen Hc Hc8 Hclt Hf Ht Hfuel; [lia|].
  pose proof (wf_size _ Hwf) as Hsz. pose proof (wf_bound _ Hwf).
  assert (c < size self).
  { rewrite Hsz. destruct (Z.lt_ge_cases c (Z.of_nat (length (bitmap self)))); [lia|].
    by apply multiple_before_size. }
  cbn [scan_bytes_run]. rewrite (proj2 (Z.ltb_lt c (size self))) by lia.
  destruct (Z.ltb_spec found target) as [Hft|]; cbn [andb Z.eqb].
  2: { exists 0. split_and!; [lia..|intros k Hk; lia|]. left. split_and!; [done|lia|lia]. }
  unfold u64_rem at 1. rewrite (proj2 (Z.eqb_neq (size self) 0)) by lia. cbn [obind].
  rewrite Z.mod_small by lia. unfold index.
  destruct (bitmap self !! Z.to_nat c) as [x|] eqn:Hx; cbn [obind]; [|done].
  pose proof (wf_byte _ _ _ Hwf Hx) as Hx8. unfold is_u8, u8_bound in Hx8.
  pose proof (lookup_lt_Some _ _ _ Hx). unfold u8_add, u64_add, u8_bound, u64_bound in *.
  rewrite !Z.add_0_l, !(proj2 (Z.ltb_lt _ _)) by lia. cbn [obind].
  destruct (Z.eq_dec x 0) as [->|Hx0].
  - specialize (IH (found + 1) (c + 8) Hwf Hlen ltac:(lia)).
    rewrite <- Z.add_mod_idemp_l, Hc8 in IH by lia.
    specialize (IH eq_refl ltac:(lia) ltac:(lia) Ht ltac:(lia)).
    destruct (scan_bytes_run fuel self target 0 (found + 1) (c + 8)) as [[[s f] c']| | |]; auto.
    destruct IH as (n & Hn & -> & -> & Hz & Hor). exists (n + 1). split_and!; [lia..| |].
    + intros k Hk. destruct (Z.eq_dec k 0) as [->|]; [by rewrite Z.mul_0_r, Z.add_0_r|].
      specialize (Hz (k - 1) ltac:(lia)). by replace (c + 8 * k) with (c + 8 + 8 * (k - 1)) by lia.
    + destruct Hor as [(-> & Hft' & Hlast)|Hor]; [left|right; lia].
      split_and!; [done|lia|]. intros _. destruct (Z.eq_dec n 0) as [->|].
      * by replace (c + 8 * (0 + 1 - 1)) with c by lia.
      * replace (c + 8 * (n + 1 - 1)) with (c + 8 + 8 * (n - 1)) by lia. apply Hlast. lia.
  - destruct fuel as [|fuel]; [lia|]. cbn [scan_bytes_run].
    rewrite (proj2 (Z.eqb_neq x 0)) by lia. cbn [andb].
    exists 1. split_and!; [lia..|intros; lia|right; lia].
Qed.

Lemma scan_bytes_from_outcome self target fuel : forall c,
  wf self -> 2 <= Z.of_nat (length (bitmap self)) ->
  0 <= c -> c mod 8 = 0 -> c < Z.of_nat (length (bitmap self)) + 8 ->
  0 < target < size self -> (Z.to_nat (size self - c) + 1 < fuel)%nat ->
  scan_bytes_outcome self target c (scan_bytes_from fuel self target c).
Proof.
  induction fuel as [|fuel IH]; intros c Hwf Hlen Hc Hc8 Hclt Ht Hfuel; [lia|].
  pose proof (wf_size _ Hwf) as Hsz. pose proof (wf_bound _ Hwf). cbn [scan_bytes_from].
  assert (c < size self).
  { rewrite Hsz. destruct (Z.lt_ge_cases c (Z.of_nat (length (bitmap self)))); [lia|].
    by apply multiple_before_size. }
  rewrite (proj2 (Z.ltb_lt c (size self))) by lia.
  pose proof (scan_bytes_run_outcome self target (S fuel) 0 c Hwf Hlen Hc Hc8 Hclt
    ltac:(lia) ltac:(lia) ltac:(lia)) as Hrun.
  destruct (scan_bytes_run (S fuel) self target 0 0 c) as [[[s f] c']| | |]; simpl; auto.
  destruct Hrun as (n & Hn & -> & -> & Hz & [(-> & Hft & Hlast)|(Hs & Hn0 & Hlt)]).
  - cbn [Z.ltb Z.compare]. unfold u64_mul, u64_sub. unfold u64_bound in *.
    rewrite (proj2 (Z.ltb_lt _ _)) by lia. cbn [obind].
    rewrite (proj2 (Z.leb_le _ _)) by lia. cbn [obind scan_bytes_outcome].
    replace (c + 8 * n - (0 + n) * 8) with c by lia. split_and!; [lia|exact Hc8|].
    intros k Hk. destruct (Z.eq_dec k (n - 1)) as [->|]; [apply Hlast; lia|apply Hz; lia].
  - rewrite (proj2 (Z.ltb_lt 0 s)) by lia.
    assert ((c + 8 * n) mod 8 = 0) as Hm
      by (rewrite Z.mul_comm, Z_mod_plus_full; done).
    specialize (IH (c + 8 * n) Hwf Hlen ltac:(lia) Hm Hlt Ht ltac:(lia)).
    destruct (scan_bytes_from fuel self target (c + 8 * n)) as [[start|e]| | |]; auto.
    destruct IH as (? & ? & Hzero). split_and!; [lia|done|exact Hzero].
Qed.

Section scan_bytes_theorems.
Context {X : X86} {XL : X86Laws}.

Lemma align_up_8 a : 0 <= a < 2 ^ 63 -> align_up a 8 = Done (round8 a).
Proof.
  intros Ha. pose proof (round8_bounds a). pose proof (align_up_rounds a 3) as Hal.
  change (2 ^ 3) with 8 in Hal. apply Hal; [lia..|].
  fold (round8 a). unfold u64_bound. lia.
Qed.

Lemma round8_mod a : round8 a mod 8 = 0.
Proof. unfold round8. apply Z_mod_mult. Qed.

Lemma scan_bytes_outcome_holds self target
    (Hwf : wf self) (Hlen : 2 <= Z.of_nat (length (bitmap self)))
    (Hlast : last_allocated self <= Z.of_nat (length (bitmap self)))
    (Ht : 0 < target < size self) :
  scan_bytes_outcome self target (last_allocated self) (scan_bytes self target).
Proof.
  pose proof (wf_size _ Hwf). pose proof (wf_bound _ Hwf). pose proof (wf_last _ Hwf).
  pose proof (round8_bounds (last_allocated self)). unfold u64_bound in *.
  unfold scan_bytes. rewrite align_up_8 by lia. cbn [obind].
  pose proof (scan_bytes_from_outcome self target (scan_fuel self)
    (round8 (last_allocated self)) Hwf Hlen ltac:(lia) (round8_mod _) ltac:(lia) Ht
    ltac:(unfold scan_fuel; lia)) as Hout.
  destruct (scan_bytes_from _ _ _ _) as [[start|e]| | |]; auto.
  destruct Hout as (? & ? & Hzero). split_and!; [lia|done|exact Hzero].
Qed.

(** On a bitmap whose pages are all in use no request is granted. *)
Lemma alloc_full_wlp self bits
    (Hwf : wf self) (Hlen : 2 <= Z.of_nat (length (bitmap self)))
    (Hlast : last_allocated self <= Z.of_nat (length (bitmap self))) (Hb : 0 < bits)
    (Hfull : forall i, 0 <= i < size self -> used self i = true) :
  wlp (alloc bits self) (fun '(r, self') => self' = self /\ exists e, r = Err e).
Proof.
  destruct (Z.le_gt_cases (size self) bits) as [Hbig|Hsz].
  { unfold alloc. wp_steps. rewrite scan_too_large by done. wp_steps. eauto. }
  destruct (Z.le_gt_cases bits 16) as [Hs|Hl].
  { rewrite alloc_full_small by (done || lia). wp_steps. eauto. }
  unfold alloc. wp_steps. unfold scan.
  rewrite (proj2 (Z.leb_gt _ _)), (proj2 (Z.ltb_lt 16 bits)) by lia.
  pose proof (scan_bytes_outcome_holds self bits Hwf Hlen Hlast ltac:(lia)) as Hout.
  destruct (scan_bytes self bits) as [[start|e]| | |]; simpl; [|eauto|done..].
  destruct Hout as (Hst & _ & Hz). specialize (Hz 0 ltac:(lia)).
  rewrite Z.mul_0_r, Z.add_0_r in Hz. unfold byte_zero in Hz.
  pose proof (lookup_lt_Some _ _ _ Hz). pose proof (wf_size _ Hwf). pose proof (wf_last _ Hwf).
  specialize (Hfull (8 * start) ltac:(lia)). unfold used, bit_at in Hfull.
  rewrite Z.mul_comm, Z.div_mul, Hz, Z_mod_mult in Hfull by done. done.
Qed.

(** A search that starts past the slice ends at once: at [size] or later with
    [AllocationError], before it with a panic on its first access. *)
Lemma scan_bytes_late self target :
  wf self -> 0 < target < size self -> last_allocated self < 2 ^ 63 ->
  let c := round8 (last_allocated self) in
  (size self <= c -> scan_bytes self target = Done (Err AllocationError)) /\
  (Z.of_nat (length (bitmap self)) <= c < size self -> scan_bytes self target = Panicked IndexOutOfBounds).
Proof.
  intros Hwf Ht Hmax c. pose proof (wf_size _ Hwf). pose proof (wf_bound _ Hwf). pose proof (wf_last _ Hwf).
  pose proof (round8_bounds (last_allocated self)). unfold u64_bound in *.
  assert (scan_bytes self target = scan_bytes_from (scan_fuel self) self target c) as ->
    by (unfold scan_bytes; by rewrite align_up_8 by lia).
  assert (exists fuel, scan_fuel self = S (S fuel)) as [fuel ->].
  { unfold scan_fuel. exists (Nat.pred (Nat.pred (scan_fuel self))). unfold scan_fuel. lia. }
  split; intros Hc; cbn [scan_bytes_from]; [by rewrite (proj2 (Z.ltb_ge _ _))|].
  rewrite (proj2 (Z.ltb_lt c (size self))) by lia. cbn [scan_bytes_run Z.eqb].
  rewrite !(proj2 (Z.ltb_lt _ _)) by lia. cbn [andb].
  unfold u64_rem at 1. rewrite (proj2 (Z.eqb_neq (size self) 0)) by lia. cbn [obind].
  rewrite Z.mod_small by lia. unfold index.
  by rewrite (lookup_ge_None_2 (bitmap self) (Z.to_nat c)) by lia.
Qed.

(** C39: what a request of more than 16 pages meets. [scan_bytes] always terminates. From a
    search position within the slice it either returns a position from which [target] bytes
    {e eight bytes apart} are zero, or panics on an index past the slice, but never reports
    that memory is exhausted; from a later one it panics, and reports [AllocationError] only
    when the position is at [size], eight times the slice's length, or past it. *)
Theorem scan_bytes_outcomes self target
    (Hwf : wf self) (Hlen : 2 <= Z.of_nat (length (bitmap self))) (Ht : 0 < target < size self)
    (Hmax : last_allocated self < 2 ^ 63) :
  (last_allocated self <= Z.of_nat (length (bitmap self)) ->
     scan_bytes_outcome self target (last_allocated self) (scan_bytes self target)) /\
  (Z.of_nat (length (bitmap self)) <= round8 (last_allocated self) < size self ->
     scan_bytes self target = Panicked IndexOutOfBounds) /\
  (size self <= round8 (last_allocated self) -> scan_bytes self target = Done (Err AllocationError)).
Proof.
  destruct (scan_bytes_late self target Hwf Ht Hmax) as [Hend Hpast].
  split; [intros Hl; by apply scan_bytes_outcome_holds|]. split; [exact Hpast|exact Hend].
Qed.

End scan_bytes_theorems.

#[local] Existing Instances X86Model.x86 X86Model.x86_laws.

Lemma scan_bytes_outcomes_witness :
  scan_bytes_outcome (full 32) 17 0 (scan_bytes (full 32) 17).
Proof.
  apply (scan_bytes_outcomes (full 32) 17); [by apply full_wf|simpl; lia|simpl; lia|done|simpl; lia].
Defined.

(** 137 bytes, of which only the second is in use. *)
Definition second_byte_used : BitmapAllocator :=
  mk 4096 (0 :: 255 :: replicate 135 0) 1096 0.

(** Because of that, [alloc] of more than 16 pages can grant pages that are
    in use: with pages 8 to 15 in use, a request for 17 pages on an otherwise
    free bitmap is granted pages 0 to 16. *)
Example alloc_large_grants_used_pages :
  wf second_byte_used /\ used second_byte_used 8 = true /\
  exists self', alloc 17 second_byte_used = Done (Ok 0, self').
Proof.
  split_and!; [|done|].
  - constructor; [|done|done|done]. repeat (constructor; [done|]). constructor.
  - eexists. vm_compute. reflexivity.
Qed.
