(* ===== verification/BitmapReach.v ===== *)
(** The bitmap allocator as a state machine: whatever operations its clients run, in whatever
    order, its state stays well formed, and pages that are in use stay in use, but for those
    [flag_range] is asked to clear. *)
From S2P Require Import Prelude X86 Memory FrameAllocation Bitmap BitmapProofs.
Import BitmapAllocator.

(** ** Evolution of the state *)

(** What every operation does to the state: the slice stays the same slice, the search
    position only advances, and no bit is cleared. *)
Record evolves (s s' : BitmapAllocator) : Prop := {
  ev_ptr : bitmap_ptr s' = bitmap_ptr s;
  ev_size : size s' = size s;
  ev_last : last_allocated s <= last_allocated s';
  ev_used i : 0 <= i < size s -> used s i = true -> used s' i = true
}.

#[export] Instance evolves_preorder : PreOrder evolves.
Proof.
  split.
  - intros s. by constructor.
  - intros s1 s2 s3 [P1 S1 L1 U1] [P2 S2 L2 U2]. constructor; [congruence|congruence|lia|].
    intros i Hi Hu. apply U2; [lia|]. by apply U1.
Qed.

(** A well-formed state whose search position no alignment can overflow. *)
Record reachable_wf (s : BitmapAllocator) : Prop := {
  rw_wf : wf s;
  rw_last : last_allocated s <= 9 * size s;
  rw_bound : 32 * size s < u64_bound
}.

(** What an operation promises about the state it leaves. *)
Definition preserves (s s' : BitmapAllocator) : Prop := reachable_wf s' /\ evolves s s'.

Lemma preserves_refl s : reachable_wf s -> preserves s s.
Proof. done. Qed.

Lemma updates_preserves s s' f :
  reachable_wf s -> updates s s' f -> (forall i, f i true = true) -> preserves s s'.
Proof.
  intros [Hwf Hl Hb] [W P S L U] Hf. split; constructor; try done; try congruence; [lia|].
  intros i Hi Hu. by rewrite U, Hu.
Qed.

(** ** Marking *)

(** The bits [flag_range r false] clears. *)
Definition clears_range (r : Z * Z) (i : Z) : bool :=
  (8 <=? r.2 - r.1) && (aligned_start r.1 <=? i) && (i <? aligned_end r.2).

(** [flag_range] on any two numbers leaves the state well formed; a panic leaves none. *)
Lemma flag_range_wlp s r fl :
  wf s -> 0 <= r.1 -> 0 <= r.2 ->
  wlp (flag_range r fl s) (fun '(res, s') => exists f, updates s s' f /\
    (forall i, fl = true \/ clears_range r i = false -> f i true = true) /\ (is_ok res = false -> s' = s)).
Proof.
  intros Hwf Hr1 Hr2. pose proof (updates_refl s Hwf) as Hid.
  assert (forall res, is_ok res = false \/ res = Ok tt -> exists f, updates s s f /\
    (forall i, fl = true \/ clears_range r i = false -> f i true = true) /\
    (is_ok (A := unit) (E := MemoryError) res = false -> s = s)) as Hsame by (intros; by eexists).
  destruct (Z.le_gt_cases r.2 (size s * 8)) as [Hin|Hpast].
  2: { unfold flag_range. wp_steps. rewrite range_in_bounds_wf by done. wp_steps.
    rewrite (proj2 (Z.leb_gt _ _)) by done. cbn [negb]. wp_steps. apply Hsame. by left. }
  destruct (Z.lt_trichotomy r.1 r.2) as [Hr|[Hr|Hr]].
  - destruct (Z.le_gt_cases r.2 (size s)) as [Hsz|Hout]; [|by rewrite flag_range_past_end by (done || lia)].
    eapply wlp_mono; [apply wp_wlp, flag_range_wp; [done|lia|done]|]. intros [res s'] [-> Hu].
    eexists. split; [exact Hu|]. split; [|done]. intros i. unfold flag_range_effect, flag_each_effect.
    fold (clears_range r i). destruct (clears_range r i); [by intros [->|]|done].
  - unfold flag_range. wp_steps. rewrite range_in_bounds_wf by done. wp_steps.
    rewrite (proj2 (Z.leb_le _ _)) by done. cbn [negb]. wp_steps.
    rewrite (proj2 (Z.ltb_lt _ _)), range_nil by lia. cbn [for_each]. wp_steps. apply Hsame. by right.
  - unfold flag_range. wp_steps. rewrite range_in_bounds_wf by done. wp_steps.
    rewrite (proj2 (Z.leb_le _ _)) by done. cbn [negb]. wp_step. wp_step. wp_step. lia.
Qed.

Lemma mark_preserves s r :
  reachable_wf s -> 0 <= r.1 -> 0 <= r.2 -> wlp (flag_range r true s) (fun '(_, s') => preserves s s').
Proof.
  intros Hs Hr1 Hr2. eapply wlp_mono; [apply flag_range_wlp; [apply Hs|done|done]|].
  intros [res s'] (f & Hu & Hf & _). eapply updates_preserves; [done|exact Hu|]. intros i. apply Hf. by left.
Qed.

(** ** Searching *)

(** The byte-wise search never looks behind the position it starts from. *)
Lemma scan_bytes_run_back fuel self target : forall sum found c,
  wlp (scan_bytes_run fuel self target sum found c) (fun '(_, found', c') =>
    c' - c = 8 * (found' - found) /\ found <= found').
Proof.
  induction fuel as [|fuel IH]; intros sum found c; [done|]. cbn [scan_bytes_run].
  destruct ((sum =? 0) && (found <? target) && (c <? size self)); [|simpl; lia].
  wp_step. unfold u64_rem. case_match; [done|]. wp_step. wp_step.
  apply wlp_index. intros byte _. wp_step. unfold u8_add. case_match; [|done].
  wp_step. wp_step. apply wlp_u64_add. intros _. wp_step. apply wlp_u64_add. intros _.
  eapply wlp_mono; [apply IH|]. intros [[s f] c'] [H1 H2]. lia.
Qed.

Lemma scan_bytes_from_start fuel self target : forall c,
  wlp (scan_bytes_from fuel self target c) (fun r =>
    match r with Ok start => c <= start < size self | Err _ => True end).
Proof.
  induction fuel as [|fuel IH]; intros c; [done|]. cbn [scan_bytes_from].
  destruct (Z.ltb_spec c (size self)); [|done]. wp_step.
  eapply wlp_mono; [apply scan_bytes_run_back|]. intros [[sum found] c'] [Hc Hf].
  destruct (0 <? sum).
  - eapply wlp_mono; [apply IH|]. intros [start|e]; [lia|done].
  - wp_step. apply wlp_u64_mul. intros _. wp_step. apply wlp_u64_sub. intros _. wp_step. lia.
Qed.

Section operations.
Context {X : X86} {XL : X86Laws}.

Lemma scan_start self bits :
  reachable_wf self -> 0 <= bits < size self ->
  wlp (scan self bits) (fun r =>
    match r with Ok start => last_allocated self <= start <= 8 * size self | Err _ => True end).
Proof.
  intros [Hwf Hlast H32] Hb. pose proof (wf_last _ Hwf).
  destruct (Z.le_gt_cases bits 16) as [Hs|Hl].
  { eapply wlp_mono; [by apply wp_wlp, scan_small; [|lia|lia]|].
    intros [start|e]; [|done]. intros (Hst & _). unfold limit in Hst. lia. }
  unfold scan. rewrite (proj2 (Z.leb_gt _ _)), (proj2 (Z.ltb_lt 16 bits)) by lia.
  unfold scan_bytes. unfold u64_bound in *.
  rewrite align_up_8 by lia. pose proof (round8_bounds (last_allocated self)).
  cbn [obind]. eapply wlp_mono; [apply scan_bytes_from_start|].
  intros [start|e]; [|done]. intros Hst. lia.
Qed.

Lemma alloc_preserves s bits :
  reachable_wf s -> 0 <= bits -> wlp (alloc bits s) (fun '(_, s') => preserves s s').
Proof.
  intros Hs Hb. pose proof Hs as [Hwf Hlast H32]. pose proof (wf_last _ Hwf).
  unfold alloc. wp_steps. destruct (Z.le_gt_cases (size s) bits) as [Hbig|Hsm].
  { rewrite scan_too_large by done. by wp_steps. }
  eapply wlp_mono; [by apply scan_start; [|lia]|]. intros [start|e]; simpl; [|by intros _; wp_steps].
  intros Hst. wp_steps.
  assert (preserves s (set_last_allocated (start + bits) s)) as Hp.
  { split; constructor; simpl; try done; try lia. destruct Hwf. constructor; simpl; auto. lia. }
  eapply wlp_mono; [apply mark_preserves; [apply Hp|simpl; lia|simpl; lia]|].
  intros [r s'] [Hw He]. assert (preserves s s') as Hps
    by (split; [done|]; etrans; [apply Hp|done]).
  by destruct r; wp_steps.
Qed.

Lemma free_preserves s bit :
  reachable_wf s -> 0 <= bit -> wlp (free bit s) (fun '(_, s') => preserves s s').
Proof.
  intros Hs Hb. pose proof (rw_wf _ Hs) as Hwf. unfold free. wp_steps.
  destruct (Z.leb_spec (size s) bit); [by wp_steps|]. wp_steps.
  rewrite check_ok by (done || lia). wp_steps.
  destruct (negb (Bool.eqb false (used s bit))); [by wp_steps|]. wp_steps.
  eapply wlp_mono; [by apply wp_wlp, flag_wp|]. intros [r s'] [-> Hu]. wp_steps.
  eapply updates_preserves; [done|exact Hu|done].
Qed.

Lemma free_range_preserves s r :
  reachable_wf s -> 0 <= r.1 -> 0 <= r.2 -> wlp (free_range r s) (fun '(_, s') => preserves s s').
Proof.
  intros Hs Hr1 Hr2. unfold free_range. wp_steps. apply wlp_true. intros [c|e]; wp_steps; [|done].
  destruct c; cbn [negb]; wp_steps; [|done].
  eapply wlp_mono; [apply flag_range_wlp; [apply Hs|done|done]|].
  intros [[[]|e] s'] (f & _ & _ & Heq); [done|]. by rewrite Heq.
Qed.

Lemma flag_preserves s bit fl :
  reachable_wf s -> 0 <= bit -> wlp (flag bit fl s) (fun '(_, s') => preserves s s').
Proof.
  intros Hs Hb. pose proof (rw_wf _ Hs) as Hwf. destruct (Z.lt_ge_cases bit (size s)) as [Hin|Hout].
  - eapply wlp_mono; [by apply wp_wlp, flag_wp|]. intros [r s'] [_ Hu]. by eapply updates_preserves.
  - unfold flag. wp_steps. rewrite in_range_wf by done. wp_steps. destruct (negb _); [by wp_steps|].
    wp_steps. apply wlp_index. intros x Hx%lookup_lt_Some. pose proof (wf_size _ Hwf).
    pose proof (Z.div_le_lower_bound bit 8 (Z.of_nat (length (bitmap s))) ltac:(lia) ltac:(lia)). lia.
Qed.

(** ** The state machine *)

(** The operations of the allocator that change its state, with the arguments a client passes. *)
Inductive op : Type :=
| Alloc (bits : Z)
| Free (bit : Z)
| FreeRange (r : Z * Z)
| Flag (bit : Z) (fl : bool)
| FlagRange (r : Z * Z) (fl : bool).

(** The arguments are unsigned. *)
Definition op_ok (o : op) : Prop :=
  match o with
  | Alloc n | Free n | Flag n _ => 0 <= n
  | FreeRange r | FlagRange r _ => 0 <= r.1 /\ 0 <= r.2
  end.

(** One operation, whatever it answers; a panic ends the run. *)
Definition run_op (o : op) : M BitmapAllocator unit :=
  match o with
  | Alloc bits => let! _ := alloc bits in ret tt
  | Free bit => let! _ := free bit in ret tt
  | FreeRange r => let! _ := free_range r in ret tt
  | Flag bit fl => let! _ := flag bit fl in ret tt
  | FlagRange r fl => let! _ := flag_range r fl in ret tt
  end.

Definition run_ops (ops : list op) : M BitmapAllocator unit := for_all ops run_op.

(** Whether an operation clears a bit: only [flag_range r false] does, in its whole bytes. *)
Definition clears (o : op) (i : Z) : bool :=
  match o with FlagRange r false => clears_range r i | _ => false end.
Definition cleared (ops : list op) (i : Z) : bool := existsb (fun o => clears o i) ops.

(** The state after some operations: well formed, in place, and with every page in use that
    was in use and was not cleared. *)
Record follows (ops : list op) (s s' : BitmapAllocator) : Prop := {
  fo_wf : reachable_wf s';
  fo_ptr : bitmap_ptr s' = bitmap_ptr s;
  fo_size : size s' = size s;
  fo_last : last_allocated s <= last_allocated s';
  fo_used i : 0 <= i < size s -> cleared ops i = false -> used s i = true -> used s' i = true
}.

Lemma preserves_follows o s s' : preserves s s' -> follows [o] s s'.
Proof. intros [Hw [P S L U]]. constructor; auto. Qed.

Lemma run_op_follows o s :
  reachable_wf s -> op_ok o -> wlp (run_op o s) (fun '(_, s') => follows [o] s s').
Proof.
  intros Hs Ho. destruct o as [n|n|r|n fl|r fl]; cbn [run_op op_ok] in *; wp_step.
  - eapply wlp_mono; [by apply alloc_preserves|]. intros [r s'] H. by apply preserves_follows.
  - eapply wlp_mono; [by apply free_preserves|]. intros [r s'] H. by apply preserves_follows.
  - eapply wlp_mono; [by apply free_range_preserves; [|apply Ho..]|]. intros [c s'] H. by apply preserves_follows.
  - eapply wlp_mono; [by apply flag_preserves|]. intros [r s'] H. by apply preserves_follows.
  - eapply wlp_mono; [by apply flag_range_wlp; [apply Hs|apply Ho..]|].
    intros [c s'] (f & [W P S L U] & Hf & _). pose proof Hs as [_ Hl Hb].
    wp_steps. constructor; try done; [by constructor; [|lia..]|lia|].
    intros i Hi Hc Hu. rewrite U, Hu by done. apply Hf. destruct fl; [by left|right].
    unfold cleared in Hc. cbn [existsb clears] in Hc. by rewrite orb_false_r in Hc.
Qed.

Lemma run_ops_follows ops : forall s,
  reachable_wf s -> Forall op_ok ops -> wlp (run_ops ops s) (fun '(_, s') => follows ops s s').
Proof.
  unfold run_ops. induction ops as [|o ops IH]; intros s Hs Hok; cbn [for_all]; [by wp_steps|].
  apply Forall_cons in Hok as [Ho Hok]. wp_step. eapply wlp_mono; [by apply run_op_follows|].
  intros [[] s1] [W1 P1 S1 L1 U1]. eapply wlp_mono; [by apply IH|].
  intros [[] s2] [W2 P2 S2 L2 U2]. constructor; [done|congruence|congruence|lia|].
  intros i Hi Hc Hu. unfold cleared in Hc. cbn [existsb] in Hc. apply orb_false_elim in Hc as [Ho1 Hc].
  apply U2; [lia|done|]. apply U1; [done| |done]. unfold cleared. cbn [existsb]. by rewrite Ho1.
Qed.

Lemma run_ops_done ops s s' :
  reachable_wf s -> Forall op_ok ops -> run_ops ops s = Done (tt, s') -> follows ops s s'.
Proof. intros Hs Hok Hrun. pose proof (run_ops_follows ops s Hs Hok) as H. by rewrite Hrun in H. Qed.

(** C11: the invariant of the bitmap allocator. Whatever operations its clients run on it, in any
    order, with any unsigned arguments and any answers, requests, releases, markings and
    clearings: its state stays well formed, its slice stays where it is, the search position
    never goes back, and a page that is in use stays in use until a [flag_range] clears it;
    [free], [free_range] and [flag] never release a page. *)
Theorem pages_stay_in_use s ops s' (Hs : reachable_wf s) (Hok : Forall op_ok ops)
    (Hrun : run_ops ops s = Done (tt, s')) :
  wf s' /\ bitmap_ptr s' = bitmap_ptr s /\ size s' = size s /\
  last_allocated s <= last_allocated s' /\
  forall i, 0 <= i < size s -> cleared ops i = false -> used s i = true -> used s' i = true.
Proof. destruct (run_ops_done ops s s' Hs Hok Hrun) as [[Hwf _ _] P S L U]. by split_and!. Qed.

(** C12: no page is granted twice by requests of up to 16 pages (larger ones are granted pages in
    use, [alloc_large_grants_used_pages]). The pages such a request is granted lie at or after
    the search position of every earlier time; none was in use at an earlier time unless a
    [flag_range] cleared it since, whatever was requested, released and marked in between; and
    they are in use at every later time until one clears them. *)
Theorem pages_are_granted_once s1 before s2 bits start s3
    (Hs : reachable_wf s1) (Hok : Forall op_ok before) (Hrun1 : run_ops before s1 = Done (tt, s2))
    (Hb : 0 < bits <= 16) (Hrun : alloc bits s2 = Done (Ok start, s3)) :
  last_allocated s1 <= start /\ start + bits <= size s1 /\
  forall i, start <= i < start + bits ->
    (cleared before i = false -> used s1 i = false) /\
    forall after s4, Forall op_ok after -> run_ops after s3 = Done (tt, s4) ->
      cleared after i = false -> used s4 i = true.
Proof.
  destruct (run_ops_done before s1 s2 Hs Hok Hrun1) as [Hs2 _ Hsize Hlast Hused].
  pose proof (alloc_small_wlp s2 bits (rw_wf _ Hs2) Hb) as Hpost. rewrite Hrun in Hpost.
  destruct Hpost as (Hst & Hend & Hfree & _ & _ & _ & Hs3 & _ & Hu3).
  pose proof (alloc_preserves s2 bits Hs2 ltac:(lia)) as Hp. rewrite Hrun in Hp.
  pose proof (wf_last _ (rw_wf _ Hs2)). split; [lia|]. split; [lia|]. intros i Hi. split.
  - intros Hc. destruct (used s1 i) eqn:Hu; [|done]. rewrite <- (Hfree i Hi). symmetry.
    apply Hused; [lia|done|done].
  - intros after s4 Hok4 Hrun4 Hc.
    destruct (run_ops_done after s3 s4 (proj1 Hp) Hok4 Hrun4) as [_ _ _ _ Hkeep].
    apply Hkeep; [lia|done|]. rewrite Hu3, Hfree by lia. simpl. apply andb_true_intro. lia.
Qed.

End operations.

(** *** Instances *)

#[local] Existing Instances X86Model.x86 X86Model.x86_laws.

Lemma sample_reachable : reachable_wf sample.
Proof. constructor; [apply sample_wf|by vm_compute..]. Qed.

(** A request for two pages is granted pages 5 and 6; releasing page 5 is refused, and clearing
    pages 1 to 3, less than a byte, does nothing. *)
Definition two_pages : list op := [Alloc 2; Free 5; FlagRange (1, 4) false].
Definition after_two_pages : BitmapAllocator := mk 4096 [127; 0; 1] 24 7.

Lemma two_pages_ok : Forall op_ok two_pages.
Proof. repeat constructor; simpl; lia. Qed.

Lemma two_pages_run : run_ops two_pages sample = Done (tt, after_two_pages).
Proof. vm_compute. reflexivity. Qed.

Lemma pages_stay_in_use_witness :
  last_allocated sample <= last_allocated after_two_pages /\ used after_two_pages 4 = true.
Proof.
  destruct (pages_stay_in_use sample two_pages after_two_pages sample_reachable two_pages_ok two_pages_run) as (_ & _ & _ & Hl & Hu).
  split; [exact Hl|]. apply Hu; [split; vm_compute; congruence|reflexivity|reflexivity].
Defined.

Lemma pages_are_granted_once_witness :
  exists start s, alloc 1 after_two_pages = Done (Ok start, s) /\ 3 <= start /\ used sample start = false.
Proof.
  eexists _, _. split; [vm_compute; reflexivity|].
  destruct (pages_are_granted_once sample two_pages after_two_pages 1 7 _ sample_reachable two_pages_ok two_pages_run ltac:(lia) ltac:(vm_compute; reflexivity)) as (Hl & _ & Hu).
  split; [exact Hl|]. apply Hu; [lia|reflexivity].
Defined.

(** Clearing a range of eight bits or more does release pages. *)
Example cleared_page :
  used after_two_pages 0 = true /\ cleared [FlagRange (0, 16) false] 0 = true /\
  exists s, run_ops [FlagRange (0, 16) false] after_two_pages = Done (tt, s) /\ used s 0 = false.
Proof. split_and!; [done|done|]. eexists. by vm_compute. Qed.
