(* ===== verification/PageTable.v ===== *)
(** The kernel's page table ([memory/paging/page_table.rs]).

    A page table lives at a virtual address ([*mut PageTable]); [tables] is the
    part of memory that holds page tables, by that address. References into a
    table ([&'static mut PageTable]) are addresses too, so that two references to
    one table see each other's writes. An access at an address where no table
    lives is [Faulted]. *)
From S2P Require Import Prelude X86 Memory FrameAllocation.

Section flags.
Context {X : X86}.

(** [pub_pseudo_const!] of [page_table.rs]. *)
Definition flags_r : PageTableFlags :=
  flags_union (flag_bit PRESENT) (flag_bit NO_EXECUTE).
Definition flags_rw : PageTableFlags :=
  flags_union (flags_union (flag_bit WRITABLE) (flag_bit PRESENT)) (flag_bit NO_EXECUTE).
Definition flags_rx : PageTableFlags := flag_bit PRESENT.
Definition flags_rwx : PageTableFlags :=
  flags_union (flag_bit WRITABLE) (flag_bit PRESENT).
End flags.

Module RecursivePageTable.

Definition LEVEL4 : Z := 0xFFFFFF7FFFFFF000.

(** ** State *)

(** [struct RecursivePageTable]. *)
Record RecursivePageTable : Type := mk {
  lvl4 : Z;
  internal_offset : Z
}.

Section page_table.
Context {X : X86}.

Abbreviation Tables := (gmap Z PageTable).

(** What the page table code changes outside its own record: the tables in
    memory and the allocator it was given ([&mut dyn FrameAllocator]). *)
Record Env (F : Type) : Type := mkEnv {
  tables : Tables;
  allocator : F
}.
#[global] Arguments mkEnv {F}.
#[global] Arguments tables {F}.
#[global] Arguments allocator {F}.

Definition set_tables {F} (t : Tables) (e : Env F) : Env F := mkEnv t (allocator e).
Definition set_allocator {F} (a : F) (e : Env F) : Env F := mkEnv (tables e) a.

(** The registers [load] and [flush] write: CR3, and the pages whose TLB entries
    were flushed. *)
Record Cpu : Type := mkCpu { cr3 : option Z; tlb_flushed : list Z }.

(** ** Address arithmetic *)

Definition get_page_index (level addr : Z) : outcome Z :=
  if (1 <=? level) && (level <=? 4)
  then Done (Z.land (Z.shiftr addr (9 * level + 3)) 511)
  else Panicked AssertionFailed.

Definition phys_page_table_as_virt (self : RecursivePageTable) (page_table : Z) : outcome Z :=
  let* a := u64_add page_table (internal_offset self) in virt_new a.

(** ** Memory accesses *)

(** [&*table]. *)
Definition deref (m : Tables) (table : Z) : outcome PageTable :=
  match m !! table with Some t => Done t | None => Faulted table end.

Definition read_entry (m : Tables) (table i : Z) : outcome PageTableEntry :=
  let* t := deref m table in table_index t i.

Definition write_entry (table i : Z) (e : PageTableEntry) : M Tables unit :=
  let! m := get in
  let^ t := deref m table in
  let^ t' := table_index_set t i e in
  put (<[table := t']> m).

(** [new_page_table_level]: writes an empty table at [at_]. *)
Definition new_page_table_level (at_ : Z) : M Tables Z :=
  if negb (at_ mod PAGE_SIZE =? 0) then throw ExplicitPanic else
  let! m := get in
  let! _ := put (<[at_ := page_table_new]> m) in
  ret at_.

(** ** Walking *)

(** The loop of [get_page_table] over [level]. *)
Fixpoint descend (self : RecursivePageTable) (m : Tables) (to : Z) (levels : list Z)
    (current_table : Z) : outcome (option Z) :=
  match levels with
  | [] => Done (Some current_table)
  | level :: levels =>
      let* i := get_page_index (4 - level) to in
      let* entry := read_entry m current_table i in
      if entry_is_unused entry then Done None else
      let* next_table := phys_page_table_as_virt self (entry_addr entry) in
      descend self m to levels next_table
  end.

Definition get_page_table (self : RecursivePageTable) (m : Tables) (target_lvl to : Z) :
    outcome (option Z) :=
  if negb ((1 <=? target_lvl) && (target_lvl <=? 4)) then Panicked AssertionFailed
  else descend self m to (range 0 (4 - target_lvl)) (lvl4 self).

Definition translate (self : RecursivePageTable) (m : Tables) (from : Z) : outcome (option Z) :=
  let* page_table := get_page_table self m 1 from in
  match page_table with
  | None => Done None
  | Some page_table =>
      let* i := get_page_index 1 from in
      let* entry := read_entry m page_table i in
      if entry_is_unused entry then Done None else
      let* phys := phys_add (entry_addr entry) (from mod PAGE_SIZE) in
      Done (Some phys)
  end.

(** ** Mapping *)

Section map.
Context {F : Type} {FA : FrameAllocator F}.

Definition with_tables {A} (k : M Tables A) : M (Env F) A := zoom tables set_tables k.

(** The loop of [map] that creates the levels below the lowest existing one. *)
Fixpoint create_levels (self : RecursivePageTable) (to : Z) (levels : list Z)
    (current_table : Z) : M (Env F) (result Z PagingError) :=
  match levels with
  | [] => ret (Ok current_table)
  | new_level :: levels =>
      let^ i := get_page_index new_level to in
      let! env := get in
      let^ entry := read_entry (tables env) current_table i in
      if negb (entry_is_unused entry) then throw AssertionFailed else
      let! r := zoom allocator set_allocator frame_alloc in
      match r with
      | Err _ => ret (Err TableAllocationFailed)
      | Ok frame =>
          let^ entry := entry_set_addr entry frame flags_rwx in
          let! _ := with_tables (write_entry current_table i entry) in
          let^ at_ := phys_page_table_as_virt self (entry_addr entry) in
          let! next_table := with_tables (new_page_table_level at_) in
          create_levels self to levels next_table
      end
  end.

(** The body of [map] once the table [page_table] of [level] is found. *)
Definition map_at (self : RecursivePageTable) (from to : Z) (flags : PageTableFlags)
    (level page_table : Z) : M (Env F) (result unit PagingError) :=
  let? current_table := create_levels self to (rev (range 2 (level + 1))) page_table in
  let^ i := get_page_index 1 to in
  let! env := get in
  let^ entry := read_entry (tables env) current_table i in
  if negb (entry_is_unused entry) then ret (Err (AlreadyMapped to)) else
  let^ entry := entry_set_addr entry from flags in
  let! _ := with_tables (write_entry current_table i entry) in
  ret (Ok tt).

(** The loop of [map] over [level in 1..=4]. *)
Fixpoint map_levels (self : RecursivePageTable) (from to : Z) (flags : PageTableFlags)
    (levels : list Z) : M (Env F) (result unit PagingError) :=
  match levels with
  | [] => throw UnreachableReached
  | level :: levels =>
      let! env := get in
      let^ page_table := get_page_table self (tables env) level to in
      match page_table with
      | Some page_table => map_at self from to flags level page_table
      | None => map_levels self from to flags levels
      end
  end.

Definition map (self : RecursivePageTable) (from to : Z) (flags : PageTableFlags) :
    M (Env F) (result unit PagingError) :=
  let^ i := get_page_index 4 to in
  if i =? 510 then ret (Err (AttemptedMappingToReserved to))
  else map_levels self from to flags (range 1 5).

Definition map_contiguous (self : RecursivePageTable) (pages from to : Z)
    (flags : PageTableFlags) : M (Env F) (result unit PagingError) :=
  let^ bytes := u64_mul pages PAGE_SIZE in
  for_each (range_step 0 bytes PAGE_SIZE) (fun page =>
    let^ from := phys_add from page in
    let^ to := virt_add to page in
    map self from to flags).

(** The allocator argument of [unmap] is not used. *)
Definition unmap (self : RecursivePageTable) (address : Z) :
    M (Env F) (result unit PagingError) :=
  let! env := get in
  let^ page_table := get_page_table self (tables env) 1 address in
  match page_table with
  | None => ret (Err (NotMapped address))
  | Some page_table =>
      let^ i := get_page_index 1 address in
      let^ entry := read_entry (tables env) page_table i in
      if entry_is_unused entry then ret (Err (NotMapped address)) else
      let! _ := with_tables (write_entry page_table i (entry_set_unused entry)) in
      ret (Ok tt)
  end.

Definition unmap_contiguous (self : RecursivePageTable) (pages address : Z) :
    M (Env F) (result unit PagingError) :=
  let^ bytes := u64_mul pages PAGE_SIZE in
  for_each (range_step 0 bytes PAGE_SIZE) (fun page =>
    let^ address := virt_add address page in
    unmap self address).

Definition update_flags (self : RecursivePageTable) (to : Z) (flags : PageTableFlags) :
    M (Env F) (result unit PagingError) :=
  let! env := get in
  let^ page_table := get_page_table self (tables env) 1 to in
  match page_table with
  | None => ret (Ok tt)
  | Some page_table =>
      let^ i := get_page_index 1 to in
      let^ entry := read_entry (tables env) page_table i in
      if entry_is_unused entry then ret (Err (NotMapped to)) else
      let! _ := with_tables (write_entry page_table i (entry_set_flags entry flags)) in
      ret (Ok tt)
  end.

(** ** Creation *)

(** [RecursivePageTable::new]; [hhdm] is the boot loader's answer to
    [HHDM_REQUEST], its offset. *)
Definition new (hhdm : option Z) : M (Env F) RecursivePageTable :=
  let^ internal_offset := unwrap hhdm in
  let! r := zoom allocator set_allocator frame_alloc in
  let^ frame := unwrap_result r in
  let^ virt := virt_new frame in
  let^ at_ := virt_add virt internal_offset in
  let! lvl4 := with_tables (new_page_table_level at_) in
  let! env := get in
  let^ entry := read_entry (tables env) lvl4 510 in
  let^ entry := entry_set_frame entry (frame_containing_address frame) flags_rw in
  let! _ := with_tables (write_entry lvl4 510 entry) in
  ret (mk lvl4 internal_offset).

End map.

(** ** Activation *)

Definition load : M (RecursivePageTable * Cpu) unit :=
  let! '(self, cpu) := get in
  let^ a := u64_sub (lvl4 self) (internal_offset self) in
  let^ page_table := phys_new a in
  let^ frame := unwrap (frame_from_start_address page_table) in
  if negb (Z.land page_table 0xFFF =? 0) then throw AssertionFailed else
  put (mk LEVEL4 (internal_offset self), mkCpu (Some frame) (tlb_flushed cpu)).

Definition flush : M (RecursivePageTable * Cpu) unit :=
  let! '(self, cpu) := get in
  let^ page := virt_new (lvl4 self) in
  put (self, mkCpu (cr3 cpu) (page :: tlb_flushed cpu)).

End page_table.
End RecursivePageTable.
