(* ===== verification/PageTableProofs.v ===== *)
(** The page table as a map from pages to frames: the invariant that the tables
    form a tree, and what [map], [unmap], [update_flags] and [translate] do to
    the mapping it stores. *)
From S2P Require Import Prelude X86 Memory FrameAllocation PageTable.
Import RecursivePageTable.

(** ** Indices of an address *)

Definition page_index (level addr : Z) : Z := Z.land (Z.shiftr addr (9 * level + 3)) 511.

(** The path of an address: its indices in the tables of levels 4, 3 and 2. *)
Definition table_path (addr : Z) : list Z :=
  [page_index 4 addr; page_index 3 addr; page_index 2 addr].

(** The page an address lies in, of the 2^36 pages of the address space. *)
Definition vpage (addr : Z) : Z := (addr / 4096) mod 2 ^ 36.

(** Entry 510 of the level-4 table is the recursive one. *)
Definition reserved (addr : Z) : Prop := page_index 4 addr = 510.

#[export] Instance reserved_dec a : Decision (reserved a).
Proof. unfold reserved. apply _. Defined.

(** Paths of tables below the root that avoid the recursive entry. *)
Definition valid_path (path : list Z) : Prop :=
  (length path <= 3)%nat /\ Forall (fun i => 0 <= i < 512) path /\ head path <> Some 510.

Lemma page_index_mod level addr :
  1 <= level -> page_index level addr = (addr / 2 ^ (9 * level + 3)) mod 512.
Proof.
  intros Hl. unfold page_index. change 511 with (Z.ones 9).
  by rewrite Z.land_ones, Z.shiftr_div_pow2 by lia.
Qed.

Lemma page_index_bounds level addr : 1 <= level -> 0 <= page_index level addr < 512.
Proof. intros. rewrite page_index_mod by done. apply Z.mod_pos_bound. lia. Qed.

Lemma get_page_index_eq level addr :
  1 <= level <= 4 -> get_page_index level addr = Done (page_index level addr).
Proof.
  intros Hl. unfold get_page_index. by rewrite !(proj2 (Z.leb_le _ _)) by lia.
Qed.

(** The four indices of an address are the base-512 digits of its page. *)
Lemma vpage_digits addr :
  vpage addr = ((page_index 4 addr * 512 + page_index 3 addr) * 512 + page_index 2 addr) * 512
    + page_index 1 addr.
Proof.
  rewrite !page_index_mod by lia. unfold vpage.
  replace (2 ^ (9 * 4 + 3)) with (4096 * 512 * 512 * 512) by reflexivity.
  replace (2 ^ (9 * 3 + 3)) with (4096 * 512 * 512) by reflexivity.
  replace (2 ^ (9 * 2 + 3)) with (4096 * 512) by reflexivity.
  replace (2 ^ (9 * 1 + 3)) with 4096 by reflexivity.
  replace (2 ^ 36) with (512 * (512 * (512 * 512))) by reflexivity.
  rewrite <- !Z.div_div by lia. set (q := addr / 4096).
  rewrite !Z.rem_mul_r by lia. lia.
Qed.

Lemma vpage_path a b :
  vpage a = vpage b <-> table_path a = table_path b /\ page_index 1 a = page_index 1 b.
Proof.
  rewrite !vpage_digits. unfold table_path.
  pose proof (page_index_bounds 4 a). pose proof (page_index_bounds 4 b).
  pose proof (page_index_bounds 3 a). pose proof (page_index_bounds 3 b).
  pose proof (page_index_bounds 2 a). pose proof (page_index_bounds 2 b).
  pose proof (page_index_bounds 1 a). pose proof (page_index_bounds 1 b).
  split.
  - intros. assert (page_index 4 a = page_index 4 b) by lia.
    assert (page_index 3 a = page_index 3 b) by lia.
    assert (page_index 2 a = page_index 2 b) by lia. split; [congruence|lia].
  - intros [[= -> -> ->] ->]. done.
Qed.

Lemma table_path_valid addr n : ~ reserved addr -> valid_path (take n (table_path addr)).
Proof.
  intros Hr. pose proof (page_index_bounds 4 addr). pose proof (page_index_bounds 3 addr).
  pose proof (page_index_bounds 2 addr). split_and!.
  - rewrite length_take. simpl. lia.
  - apply Forall_take. repeat constructor; lia.
  - destruct n; simpl; [done|]. intros [= Hi]. by apply Hr.
Qed.

(** Canonical addresses of one page differ by their offset only. *)
Lemma canonical_vpage a b :
  canonical a -> canonical b -> vpage a = vpage b <-> a / 4096 = b / 4096.
Proof.
  unfold canonical, vpage. intros Ha Hb.
  pose proof (Z.div_mod a 4096). pose proof (Z.mod_pos_bound a 4096).
  pose proof (Z.div_mod b 4096). pose proof (Z.mod_pos_bound b 4096).
  assert (forall q, 0 <= q < 2 ^ 35 -> q mod 2 ^ 36 = q) as Hlow
    by (intros; apply Z.mod_small; lia).
  assert (forall q, 2 ^ 52 - 2 ^ 35 <= q < 2 ^ 52 -> q mod 2 ^ 36 = q - (2 ^ 52 - 2 ^ 36)) as Hhigh.
  { intros q Hq. symmetry. apply (Z.mod_unique q (2 ^ 36) (2 ^ 16 - 1)); lia. }
  split; [|by intros ->]. intros Heq.
  pose proof (Hlow (a / 4096)). pose proof (Hlow (b / 4096)).
  pose proof (Hhigh (a / 4096)). pose proof (Hhigh (b / 4096)). clear Hlow Hhigh.
  set (qa := a / 4096) in *. set (qb := b / 4096) in *.
  set (ma := qa mod 2 ^ 36) in *. set (mb := qb mod 2 ^ 36) in *. clearbody ma mb.
  destruct Ha, Hb; lia.
Qed.

Section tree.
Context {X : X86} {XL : X86Laws}.

Abbreviation Tables := (gmap Z PageTable).
Implicit Types (m : Tables) (self : RecursivePageTable) (e : PageTableEntry) (t : PageTable).

(** ** Resolution of paths *)

(** The table the entry [i] of the table at [q] points to. *)
Definition child self m (i q : Z) : option Z :=
  t ← m !! q;
  let e := page_table_get t i in
  if entry_is_unused e then None else Some (entry_addr e + internal_offset self).

(** The table at the end of a path from the root. *)
Definition resolve self m (path : list Z) : option Z :=
  foldl (fun o i => o ≫= child self m i) (Some (lvl4 self)) path.

(** The entry of an address in its level-1 table, when it is in use. *)
Definition leaf self m (addr : Z) : option PageTableEntry :=
  q ← resolve self m (table_path addr);
  t ← m !! q;
  let e := page_table_get t (page_index 1 addr) in
  if entry_is_unused e then None else Some e.

(** The invariant: every path leads to a table in memory at a canonical address, no
    two paths lead to the same table, and entry 510 of the root points to the root. *)
Record wf self m : Prop := {
  wf_offset : 0 <= internal_offset self;
  wf_table path q : valid_path path -> resolve self m path = Some q ->
    is_Some (m !! q) /\ canonical q;
  wf_tree path1 path2 q : valid_path path1 -> valid_path path2 ->
    resolve self m path1 = Some q -> resolve self m path2 = Some q -> path1 = path2;
  wf_recursive : child self m 510 (lvl4 self) = Some (lvl4 self)
}.

Lemma resolve_snoc self m path i :
  resolve self m (path ++ [i]) = resolve self m path ≫= child self m i.
Proof. unfold resolve. by rewrite foldl_app. Qed.

Lemma resolve_none self m path rest :
  resolve self m path = None -> resolve self m (path ++ rest) = None.
Proof.
  unfold resolve. intros H. rewrite foldl_app, H. by induction rest.
Qed.

Lemma valid_path_nil : valid_path [].
Proof. split_and!; simpl; [lia|constructor|done]. Qed.

Lemma valid_path_snoc path i :
  valid_path (path ++ [i]) <->
  valid_path path /\ (length path < 3)%nat /\ 0 <= i < 512 /\ (path = [] -> i <> 510).
Proof.
  unfold valid_path. rewrite length_app, Forall_app, Forall_singleton. simpl. split.
  - intros (Hl & (Hf & Hi) & Hh). split_and!; try lia; try done; destruct path; simpl in *; auto; congruence.
  - intros ((Hl & Hf & Hh) & Hl3 & Hi & Hn). split_and!; try lia; auto.
    destruct path; simpl in *; [|done]. intros [= ->]. by destruct Hn.
Qed.

(** A property of all paths, proved along them from the root. *)
Lemma path_ind (P : list Z -> Prop) :
  P [] -> (forall path i, valid_path (path ++ [i]) -> P path -> P (path ++ [i])) ->
  forall path, valid_path path -> P path.
Proof.
  intros H0 Hs path. induction path as [|i path IH] using rev_ind; [done|].
  intros Hv. apply Hs; [done|]. apply IH. by apply valid_path_snoc in Hv as [? _].
Qed.

Lemma read_entry_eq m q t i :
  m !! q = Some t -> 0 <= i < 512 -> read_entry m q i = Done (page_table_get t i).
Proof.
  intros Hq Hi. unfold read_entry, deref. rewrite Hq. simpl. unfold table_index.
  by rewrite (proj2 (Z.leb_le 0 i)), (proj2 (Z.ltb_lt i 512)) by lia.
Qed.

Lemma write_entry_eq m q t i e :
  m !! q = Some t -> 0 <= i < 512 ->
  write_entry q i e m = Done (tt, <[q := page_table_set t i e]> m).
Proof.
  intros Hq Hi. unfold write_entry, bind, get, lift, deref, table_index_set. simpl.
  rewrite Hq. simpl.
  by rewrite (proj2 (Z.leb_le 0 i)), (proj2 (Z.ltb_lt i 512)) by lia.
Qed.

Lemma wf_root self m : wf self m -> is_Some (m !! lvl4 self) /\ canonical (lvl4 self).
Proof.
  intros Hwf. by apply (wf_table _ _ Hwf []); [apply valid_path_nil|].
Qed.

(** One step of a walk, along the path or through the recursive entry. *)
Lemma descend_step self m to level levels path i q :
  wf self m -> valid_path (path ++ [i]) -> resolve self m path = Some q ->
  1 <= 4 - level <= 4 -> page_index (4 - level) to = i ->
  descend self m to (level :: levels) q
  = match resolve self m (path ++ [i]) with
    | Some q' => descend self m to levels q'
    | None => Done None
    end.
Proof.
  intros Hwf Hv Hq Hl Hi. pose proof Hv as (Hvp & _ & Hi512 & _)%valid_path_snoc.
  cbn [descend]. rewrite get_page_index_eq, Hi by done. cbn [obind].
  destruct (wf_table _ _ Hwf _ _ Hvp Hq) as [[t Ht] _].
  rewrite (read_entry_eq _ _ t) by done. cbn [obind].
  pose proof (resolve_snoc self m path i) as Hres. rewrite Hq in Hres.
  unfold child in Hres. simpl in Hres. rewrite Ht in Hres. simpl in Hres. rewrite Hres.
  destruct (entry_is_unused _); [done|].
  destruct (wf_table _ _ Hwf _ _ Hv Hres) as [_ Hcan]. pose proof (wf_offset _ _ Hwf).
  unfold phys_page_table_as_virt, u64_add, u64_bound.
  rewrite (proj2 (Z.ltb_lt _ _)) by (unfold canonical in Hcan; lia). cbn [obind].
  by rewrite virt_new_canonical.
Qed.

Lemma descend_step_recursive self m to level levels :
  wf self m -> 1 <= 4 - level <= 4 -> page_index (4 - level) to = 510 ->
  descend self m to (level :: levels) (lvl4 self) = descend self m to levels (lvl4 self).
Proof.
  intros Hwf Hl Hi. cbn [descend]. rewrite get_page_index_eq, Hi by done. cbn [obind].
  destruct (wf_root _ _ Hwf) as [[t Ht] Hcan].
  rewrite (read_entry_eq _ _ t) by (done || lia). cbn [obind].
  pose proof (wf_recursive _ _ Hwf) as Hrec. unfold child in Hrec. rewrite Ht in Hrec.
  simpl in Hrec. destruct (entry_is_unused (page_table_get t 510)); [done|].
  injection Hrec as Hrec. unfold phys_page_table_as_virt, u64_add, u64_bound.
  rewrite Hrec, (proj2 (Z.ltb_lt _ _)) by (unfold canonical in Hcan; lia).
  cbn [obind]. by rewrite virt_new_canonical.
Qed.

(** [get_page_table] walks the path of the address. *)
Lemma descend_resolve self m to n : forall k q,
  wf self m -> ~ reserved to -> (k + n <= 3)%nat ->
  resolve self m (take k (table_path to)) = Some q ->
  descend self m to (range (Z.of_nat k) (Z.of_nat (k + n))) q
  = Done (resolve self m (take (k + n) (table_path to))).
Proof.
  induction n as [|n IH]; intros k q Hwf Hr Hkn Hq.
  { rewrite range_nil by lia. by rewrite Nat.add_0_r, Hq. }
  assert (take (S k) (table_path to)
    = take k (table_path to) ++ [page_index (4 - Z.of_nat k) to]) as Hsnoc
    by (by destruct k as [|[|[|k]]]; [..|lia]).
  pose proof (table_path_valid to (S k) Hr) as Hv. rewrite Hsnoc in Hv.
  rewrite range_cons by lia. erewrite descend_step by (done || lia).
  rewrite <- Hsnoc. replace (k + S n)%nat with (S k + n)%nat by lia.
  destruct (resolve self m (take (S k) (table_path to))) as [q'|] eqn:Hq'.
  - replace (Z.of_nat k + 1) with (Z.of_nat (S k)) by lia. apply IH; auto. lia.
  - f_equal. symmetry. rewrite <- take_take_drop. by apply resolve_none.
Qed.

Lemma get_page_table_eq self m lvl to :
  wf self m -> ~ reserved to -> 1 <= lvl <= 4 ->
  get_page_table self m lvl to
  = Done (resolve self m (take (Z.to_nat (4 - lvl)) (table_path to))).
Proof.
  intros Hwf Hr Hl. unfold get_page_table.
  rewrite !(proj2 (Z.leb_le _ _)) by lia. cbn [andb negb].
  pose proof (descend_resolve self m to (Z.to_nat (4 - lvl)) 0 (lvl4 self) Hwf Hr ltac:(lia) eq_refl) as H.
  rewrite Nat.add_0_l, Z2Nat.id in H by lia. exact H.
Qed.

(** ** Updates of the tree *)

(** Overwriting an entry of the table at the end of [path0]: the other tables'
    children, and the other entries', stay. *)
Lemma child_set self m q0 t0 i0 e i q :
  m !! q0 = Some t0 -> 0 <= i0 < 512 -> 0 <= i < 512 ->
  child self (<[q0 := page_table_set t0 i0 e]> m) i q
  = if decide (q = q0 /\ i = i0)
    then if entry_is_unused e then None else Some (entry_addr e + internal_offset self)
    else child self m i q.
Proof.
  intros Hq Hi0 Hi. unfold child. destruct (decide (q = q0)) as [->|Hne].
  - rewrite lookup_insert_eq, Hq. simpl. rewrite table_get_set by done.
    destruct (decide (i0 = i)) as [->|Hi'].
    + by rewrite decide_True.
    + rewrite decide_False; [done|]. by intros [_ ->].
  - rewrite lookup_insert_ne by done. rewrite decide_False; [done|]. by intros [-> _].
Qed.

Lemma child_new self m q0 i q :
  0 <= i < 512 ->
  child self (<[q0 := page_table_new]> m) i q
  = if decide (q = q0) then None else child self m i q.
Proof.
  intros Hi. unfold child. case_decide as Hq.
  - subst. rewrite lookup_insert_eq. simpl. by rewrite table_new_unused.
  - by rewrite lookup_insert_ne.
Qed.

(** The tables after entry [i0] of the table of [path0] was pointed to a new, empty
    table at [q1]. *)
Definition with_level m q0 t0 i0 e q1 : Tables :=
  <[q1 := page_table_new]> (<[q0 := page_table_set t0 i0 e]> m).

Section with_level.
Context self m path0 q0 t0 i0 e q1 (Hwf : wf self m)
  (Hpath : valid_path (path0 ++ [i0])) (Hq0 : resolve self m path0 = Some q0)
  (Ht0 : m !! q0 = Some t0)
  (Hunused : entry_is_unused (page_table_get t0 i0) = true)
  (He : entry_is_unused e = false) (Haddr : entry_addr e + internal_offset self = q1)
  (Hcan : canonical q1)
  (Hfresh : forall path, valid_path path -> resolve self m path <> Some q1).

Lemma with_level_old : resolve self m (path0 ++ [i0]) = None.
Proof. rewrite resolve_snoc, Hq0. simpl. unfold child. rewrite Ht0. simpl. by rewrite Hunused. Qed.

(** Only the new path resolves differently. *)
Lemma with_level_resolve path : valid_path path ->
  resolve self (with_level m q0 t0 i0 e q1) path
  = if decide (path = path0 ++ [i0]) then Some q1 else resolve self m path.
Proof.
  pose proof with_level_old as Hold.
  pose proof Hpath as (Hp0 & _ & Hi0 & _)%valid_path_snoc.
  revert path. apply path_ind.
  { rewrite decide_False; [done|]. by destruct path0. }
  intros path i Hv IH. pose proof Hv as (Hvp & _ & Hi & _)%valid_path_snoc.
  rewrite !resolve_snoc, IH.
  assert (q0 <> q1) as Hne by (intros ->; by apply (Hfresh path0)).
  destruct (decide (path = path0 ++ [i0])) as [->|Hnp]; simpl.
  - unfold with_level. rewrite child_new, decide_True by done.
    rewrite decide_False; [by rewrite Hold|].
    intros Heq%(f_equal length). rewrite !length_app in Heq. simpl in Heq. lia.
  - destruct (resolve self m path) as [q|] eqn:Hq; simpl.
    2: { rewrite decide_False; [done|]. intros [-> _]%app_inj_2; [|done]. congruence. }
    assert (q <> q1) by (intros ->; by apply (Hfresh path)).
    unfold with_level. rewrite child_new, decide_False, child_set by done.
    destruct (decide (path ++ [i] = path0 ++ [i0])) as [Heq|Hneq].
    + apply app_inj_2 in Heq as [-> [= ->]]; [|done].
      rewrite decide_True by (split; congruence). by rewrite He, Haddr.
    + rewrite decide_False; [done|]. intros [-> ->]. apply Hneq. f_equal.
      by eapply wf_tree.
Qed.

Lemma with_level_wf : wf self (with_level m q0 t0 i0 e q1).
Proof.
  constructor; [apply Hwf|..].
  - intros path q Hv. rewrite with_level_resolve by done. unfold with_level.
    case_decide; intros Hq.
    + injection Hq as <-. split; [|done]. rewrite lookup_insert_eq. eauto.
    + destruct (wf_table _ _ Hwf path q) as [[t Ht] Hc]; [done..|]. split; [|done].
      rewrite !lookup_insert. by repeat case_decide; eauto.
  - intros p1 p2 q Hv1 Hv2. rewrite !with_level_resolve by done.
    repeat case_decide; try congruence; intros H1 H2.
    + injection H1 as <-. by destruct (Hfresh p2).
    + injection H2 as <-. by destruct (Hfresh p1).
    + by eapply wf_tree.
  - pose proof (valid_path_nil) as Hnil. pose proof Hpath as (Hp0 & _ & Hi0 & H510)%valid_path_snoc.
    assert (lvl4 self <> q1) by (intros <-; by apply (Hfresh [])).
    unfold with_level. rewrite child_new, decide_False, child_set by done.
    rewrite decide_False; [apply Hwf|]. intros [<- <-].
    apply H510; [|done]. symmetry. by eapply wf_tree.
Qed.

(** The new level maps nothing. *)
Lemma with_level_leaf addr : ~ reserved addr ->
  leaf self (with_level m q0 t0 i0 e q1) addr = leaf self m addr.
Proof.
  intros Hr. pose proof (table_path_valid addr 3 Hr) as Hv.
  pose proof Hpath as (Hp0 & Hl3 & _)%valid_path_snoc.
  change (take 3 (table_path addr)) with (table_path addr) in Hv.
  unfold leaf. rewrite with_level_resolve by done. case_decide as Hp.
  - simpl. unfold with_level. rewrite lookup_insert_eq. simpl.
    rewrite table_new_unused by (apply page_index_bounds; lia).
    by rewrite Hp, with_level_old.
  - destruct (resolve self m (table_path addr)) as [q|] eqn:Hq; simpl; [|done].
    assert (q <> q1) by (intros ->; by apply (Hfresh (table_path addr))).
    assert (q <> q0).
    { intros ->. assert (table_path addr = path0) as <- by by eapply wf_tree.
      simpl in Hl3. lia. }
    unfold with_level. by rewrite !lookup_insert_ne by done.
Qed.

End with_level.

(** Overwriting the entry of an address in its level-1 table. *)
Definition with_leaf m q t addr e : Tables := <[q := page_table_set t (page_index 1 addr) e]> m.

Section with_leaf.
Context self m to q t e (Hwf : wf self m) (Hr : ~ reserved to)
  (Hq : resolve self m (table_path to) = Some q) (Ht : m !! q = Some t).

Lemma with_leaf_resolve path : valid_path path ->
  resolve self (with_leaf m q t to e) path = resolve self m path.
Proof.
  revert path. apply path_ind; [done|]. intros path i Hv IH.
  pose proof Hv as (Hvp & Hl & Hi & _)%valid_path_snoc.
  rewrite !resolve_snoc, IH. destruct (resolve self m path) as [p|] eqn:Hp; [|done]. simpl.
  unfold with_leaf. rewrite child_set; [|done|apply page_index_bounds; lia|done].
  rewrite decide_False; [done|]. intros [-> _].
  assert (path = table_path to) as ->
    by (eapply wf_tree; [done|done|exact (table_path_valid to 3 Hr)|done|done]).
  simpl in Hl. lia.
Qed.

Lemma with_leaf_wf : wf self (with_leaf m q t to e).
Proof.
  constructor; [apply Hwf|..].
  - intros path p Hv. rewrite with_leaf_resolve by done. intros Hp.
    destruct (wf_table _ _ Hwf path p) as [[t' Ht'] Hc]; [done..|]. split; [|done].
    unfold with_leaf. rewrite lookup_insert. case_decide; eauto.
  - intros p1 p2 p Hv1 Hv2. rewrite !with_leaf_resolve by done. by eapply wf_tree.
  - unfold with_leaf. rewrite child_set; [|done|apply page_index_bounds; lia|done].
    rewrite decide_False; [apply Hwf|]. intros [<- _].
    assert ([] = table_path to); [|done].
    eapply wf_tree; [done|apply valid_path_nil|exact (table_path_valid to 3 Hr)|done|done].
Qed.

Lemma with_leaf_leaf addr : ~ reserved addr ->
  leaf self (with_leaf m q t to e) addr
  = if decide (vpage addr = vpage to)
    then if entry_is_unused e then None else Some e
    else leaf self m addr.
Proof.
  intros Hra. pose proof (table_path_valid addr 3 Hra) as Hv.
  pose proof (table_path_valid to 3 Hr) as Hvto.
  change (take 3 (table_path addr)) with (table_path addr) in Hv.
  change (take 3 (table_path to)) with (table_path to) in Hvto.
  unfold leaf. rewrite with_leaf_resolve by done.
  destruct (decide (vpage addr = vpage to)) as [Heq|Hne].
  - apply vpage_path in Heq as [-> ->]. rewrite Hq. simpl. unfold with_leaf.
    rewrite lookup_insert_eq. simpl.
    by rewrite table_get_set, decide_True by (done || (apply page_index_bounds; lia)).
  - destruct (resolve self m (table_path addr)) as [p|] eqn:Hp; [|done]. simpl.
    unfold with_leaf. destruct (decide (p = q)) as [->|Hpq].
    + rewrite lookup_insert_eq, Ht. simpl.
      rewrite table_get_set, decide_False; [done| |apply page_index_bounds; lia..].
      intros Hi. apply Hne, vpage_path. split; [by eapply wf_tree|done].
    + by rewrite lookup_insert_ne.
Qed.

End with_leaf.

(** What a walk finds at level 1, in terms of [leaf]. *)
Lemma leaf_none self m addr q t :
  resolve self m (table_path addr) = Some q -> m !! q = Some t ->
  entry_is_unused (page_table_get t (page_index 1 addr))
  = bool_decide (leaf self m addr = None).
Proof.
  intros Hq Ht. unfold leaf. rewrite Hq. simpl. rewrite Ht. simpl.
  by destruct (entry_is_unused _).
Qed.

Lemma leaf_some self m addr q t e :
  resolve self m (table_path addr) = Some q -> m !! q = Some t ->
  leaf self m addr = Some e ->
  page_table_get t (page_index 1 addr) = e /\ entry_is_unused e = false.
Proof.
  intros Hq Ht. unfold leaf. rewrite Hq. simpl. rewrite Ht. simpl.
  destruct (entry_is_unused _) eqn:Hu; [done|]. intros [= <-]. done.
Qed.

(** ** The allocator's frames *)

Section operations.
Context {F : Type} {FA : FrameAllocator F} {FS : FrameSource F}.
Implicit Types env : Env F.

(** Frames that end below [limit] lie, through the offset mapping, at canonical
    page-aligned addresses. *)
Definition offset_ok self (limit : Z) : Prop :=
  2 ^ 64 - 2 ^ 47 <= internal_offset self /\ internal_offset self + limit <= 2 ^ 64
  /\ limit <= 2 ^ 52 /\ page_aligned (internal_offset self).

(** The invariant of the operations: the tables form a tree, the allocator can
    serve [n] more requests below [limit], and no frame it can still hand out
    holds a table of the tree. *)
Record inv (limit : Z) (n : nat) self env : Prop := {
  inv_wf : wf self (tables env);
  inv_offset : offset_ok self limit;
  inv_room : room limit (allocator env) n;
  inv_fresh path q : valid_path path -> resolve self (tables env) path = Some q ->
    ~ available (allocator env) (q - internal_offset self)
}.

Lemma rwx_unused (e : PageTableEntry) a :
  entry_is_unused e = bool_decide (a = 0 /\ flags_rwx = flags_empty) ->
  entry_is_unused e = false.
Proof.
  intros ->. apply bool_decide_eq_false_2. intros [_ Hf].
  pose proof (flags_contains_empty PRESENT) as H. rewrite <- Hf in H. unfold flags_rwx in H.
  rewrite flags_contains_union, !flags_contains_bit in H. done.
Qed.

(** The state after a level was created for [to], below a table of level [4 - k]. *)
Lemma with_level_inv limit n self env a' to k i q t e f :
  inv limit (S n) self env -> ~ reserved to -> (k < 3)%nat ->
  take (S k) (table_path to) = take k (table_path to) ++ [i] -> 0 <= i < 512 ->
  resolve self (tables env) (take k (table_path to)) = Some q ->
  tables env !! q = Some t -> entry_is_unused (page_table_get t i) = true ->
  entry_is_unused e = false -> entry_addr e = f ->
  available (allocator env) f -> 0 <= f -> f + 4096 <= limit ->
  room limit a' n -> ~ available a' f ->
  (forall g, available a' g -> available (allocator env) g) ->
  let q1 := f + internal_offset self in
  let env' := mkEnv (with_level (tables env) q t i e q1) a' in
  inv limit n self env' /\
  (forall addr, ~ reserved addr -> leaf self (tables env') addr = leaf self (tables env) addr) /\
  resolve self (tables env') (take (S k) (table_path to)) = Some q1 /\
  ((S k < 3)%nat -> resolve self (tables env') (take (S (S k)) (table_path to)) = None).
Proof.
  intros [Hwf Ho Hroom Hfresh] Hr Hk Hsnoc Hi Hq Ht Hu He Ha Hav Hf0 Hfl Hroom' Hnav Hmono q1 env'.
  pose proof (table_path_valid to (S k) Hr) as HvS. rewrite Hsnoc in HvS.
  assert (forall path, valid_path path -> resolve self (tables env) path <> Some q1) as Hfq.
  { intros path Hv Hp. apply (Hfresh path q1 Hv Hp). subst q1. by rewrite Z.add_simpl_r. }
  assert (entry_addr e + internal_offset self = q1) as Haq by (by rewrite Ha).
  assert (canonical q1) as Hcan by (destruct Ho as (? & ? & ? & ?); unfold q1, canonical; lia).
  pose proof (with_level_resolve self (tables env) _ q t i e q1 Hwf HvS Hq Ht Hu He Haq Hfq) as Hres.
  split_and!; subst env'; cbn [tables allocator].
  - constructor; cbn [tables allocator];
      [by apply (with_level_wf _ _ (take k (table_path to)))|done|done|].
    intros path p Hv. rewrite Hres by done. case_decide.
    + intros [= <-]. subst q1. by rewrite Z.add_simpl_r.
    + intros Hp Hap. by apply (Hfresh path p), Hmono.
  - intros addr Hra. by apply (with_level_leaf _ _ (take k (table_path to))).
  - rewrite Hsnoc, Hres by done. by rewrite decide_True.
  - intros HSS. rewrite Hres by by apply table_path_valid.
    rewrite decide_False.
    + assert (exists j, take (S (S k)) (table_path to) = take (S k) (table_path to) ++ [j]) as [j ->]
        by (destruct k as [|[|k]]; [eexists; done..|lia]).
      rewrite Hsnoc. apply resolve_none. by apply (with_level_old _ _ _ q t).
    + intros Heq%(f_equal length). rewrite length_app, !length_take in Heq. simpl in Heq. lia.
Qed.

(** One turn of the loop of [map] that creates levels. *)
Lemma create_levels_step self limit n to k q env levels Q :
  inv limit (S n) self env -> ~ reserved to -> (k < 3)%nat ->
  resolve self (tables env) (take k (table_path to)) = Some q ->
  resolve self (tables env) (take (S k) (table_path to)) = None ->
  (forall env' q', inv limit n self env' ->
    (forall addr, ~ reserved addr -> leaf self (tables env') addr = leaf self (tables env) addr) ->
    resolve self (tables env') (take (S k) (table_path to)) = Some q' ->
    ((S k < 3)%nat -> resolve self (tables env') (take (S (S k)) (table_path to)) = None) ->
    wp (create_levels self to levels q' env') Q) ->
  wp (create_levels self to (4 - Z.of_nat k :: levels) q env) Q.
Proof.
  intros Hinv Hr Hk Hq Hnone Hrest. pose proof Hinv as [Hwf (Ho1 & Ho2 & Ho3 & Ho4) Hroom _].
  set (i := page_index (4 - Z.of_nat k) to).
  assert (0 <= i < 512) as Hi by (apply page_index_bounds; lia).
  assert (take (S k) (table_path to) = take k (table_path to) ++ [i]) as Hsnoc
    by (by destruct k as [|[|[|k]]]; [..|lia]).
  destruct (wf_table _ _ Hwf _ _ (table_path_valid to k Hr) Hq) as [[t Ht] _].
  assert (entry_is_unused (page_table_get t i) = true) as Hu.
  { rewrite Hsnoc, resolve_snoc, Hq in Hnone. simpl in Hnone. unfold child in Hnone.
    rewrite Ht in Hnone. simpl in Hnone. by destruct (entry_is_unused _). }
  cbn [create_levels]. wp_steps. rewrite get_page_index_eq by lia. wp_steps.
  fold i. erewrite read_entry_eq by done. wp_steps. rewrite Hu. cbn [negb]. wp_steps.
  eapply wp_mono; [by apply frame_alloc_available|].
  intros [r a'] (f & -> & Hav & Hal & Hf0 & Hfl & Hroom' & Hnav & Hmono).
  destruct (set_addr_aligned (page_table_get t i) f flags_rwx) as (e & He & Ha & _ & Hue);
    [address|done|]. apply rwx_unused in Hue.
  wp_steps. rewrite He. wp_steps. unfold with_tables. wp_steps.
  rewrite (write_entry_eq _ _ t) by done. wp_steps. rewrite Ha.
  unfold phys_page_table_as_virt. wp_steps. apply wp_u64_add; [unfold u64_bound; lia|].
  rewrite virt_new_canonical by address. wp_steps.
  unfold new_page_table_level.
  assert ((f + internal_offset self) mod PAGE_SIZE = 0) as ->.
  { unfold page_aligned in *. rewrite PAGE_SIZE_eq, Z.add_mod, Hal, Ho4 by lia. done. }
  cbn [Z.eqb negb]. wp_steps.
  destruct (with_level_inv limit n self env a' to k i q t e f) as (H1 & H2 & H3 & H4); auto.
Qed.

Lemma inv_le limit n n' self env : inv limit n self env -> (n' <= n)%nat -> inv limit n' self env.
Proof. intros [Hwf Ho Hroom Hfresh] Hn. constructor; auto. by eapply room_le. Qed.

(** The mapping two states store is the same. *)
Definition same_leaves self m m' : Prop :=
  forall addr, ~ reserved addr -> leaf self m' addr = leaf self m addr.

(** The loop of [map] that creates the levels from [4 - k] down to 2. *)
Lemma create_levels_wp self limit n to d : forall k q env,
  (k + d = 3)%nat -> inv limit (n + d) self env -> ~ reserved to ->
  resolve self (tables env) (take k (table_path to)) = Some q ->
  ((k < 3)%nat -> resolve self (tables env) (take (S k) (table_path to)) = None) ->
  wp (create_levels self to (rev (range 2 (5 - Z.of_nat k))) q env) (fun '(r, env') =>
    exists q', r = Ok q' /\ inv limit n self env' /\ same_leaves self (tables env) (tables env') /\
      resolve self (tables env') (table_path to) = Some q' /\ (d = 0%nat -> env' = env)).
Proof.
  induction d as [|d IH]; intros k q env Hk Hinv Hr Hq Hnone.
  - assert (k = 3%nat) as -> by lia. rewrite range_nil by lia. cbn [rev create_levels].
    wp_steps. exists q. split_and!; try done. by apply (inv_le _ _ n) in Hinv; [|lia].
  - rewrite (range_app 2 (4 - Z.of_nat k)), rev_app_distr by lia.
    rewrite (range_cons (4 - Z.of_nat k)), range_nil by lia. cbn [rev app].
    rewrite Nat.add_succ_r in Hinv.
    eapply create_levels_step; [done|done|lia|done|by apply Hnone; lia|].
    intros env1 q1 Hinv1 Hleaf1 Hq1 Hnone1.
    replace (4 - Z.of_nat k) with (5 - Z.of_nat (S k)) by lia.
    eapply wp_mono; [apply (IH (S k)); auto; lia|].
    intros [r env'] (q' & -> & Hinv' & Hleaf' & Hq' & _). exists q'.
    split_and!; try done. intros addr Ha. by rewrite Hleaf', Hleaf1.
Qed.

(** What [map] does when it is not refused at once. *)
Definition map_post self (limit : Z) (n : nat) env (from to : Z) (flags : PageTableFlags)
    (res : result unit PagingError * Env F) : Prop :=
  let '(r, env') := res in
  inv limit n self env' /\
  match leaf self (tables env) to with
  | Some _ => r = Err (AlreadyMapped to) /\ env' = env
  | None => r = Ok tt /\ exists e, entry_addr e = from /\ entry_flags e = flags /\
      forall addr, ~ reserved addr -> leaf self (tables env') addr
        = if decide (vpage addr = vpage to) then Some e else leaf self (tables env) addr
  end.

Section map_proof.
Context self (limit : Z) (n : nat) (from to : Z) (flags : PageTableFlags)
  (Hfrom : phys_valid from) (Hal : page_aligned from)
  (Hused : ~ (from = 0 /\ flags = flags_empty)) (Hr : ~ reserved to).

Lemma map_at_wp env k q :
  (k <= 3)%nat -> inv limit (n + 3) self env ->
  resolve self (tables env) (take k (table_path to)) = Some q ->
  ((k < 3)%nat -> resolve self (tables env) (take (S k) (table_path to)) = None) ->
  wp (map_at self from to flags (4 - Z.of_nat k) q env) (map_post self limit n env from to flags).
Proof.
  intros Hk Hinv Hq Hnone. unfold map_at. wp_steps.
  replace (4 - Z.of_nat k + 1) with (5 - Z.of_nat k) by lia.
  eapply wp_mono.
  { apply (create_levels_wp self limit n to (3 - k)); auto; [lia|].
    eapply inv_le; [done|lia]. }
  intros [r env1] (q1 & -> & Hinv1 & Hleaf1 & Hq1 & Hsame).
  pose proof Hinv1 as [Hwf1 _ _ Hfresh1].
  destruct (wf_table _ _ Hwf1 _ _ (table_path_valid to 3 Hr) Hq1) as [[t Ht] _].
  pose proof (page_index_bounds 1 to ltac:(lia)) as Hi.
  wp_steps. rewrite get_page_index_eq by lia. wp_steps.
  erewrite read_entry_eq by done. wp_steps.
  rewrite (leaf_none self _ _ q1 t Hq1 Ht), Hleaf1 by done.
  destruct (leaf self (tables env) to) as [e0|] eqn:Hleaf; case_bool_decide; try done; cbn [negb].
  - wp_steps. unfold map_post. rewrite Hleaf. split_and!; try done.
    apply Hsame. destruct (decide (k = 3%nat)) as [->|]; [lia|].
    exfalso. unfold leaf in Hleaf.
    rewrite <- (take_drop (S k) (table_path to)), resolve_none in Hleaf; [done|].
    apply Hnone. lia.
  - wp_steps.
    destruct (set_addr_aligned (page_table_get t (page_index 1 to)) from flags)
      as (e & -> & Ha & Hf & Hu); [done..|].
    rewrite bool_decide_eq_false_2 in Hu by done. wp_steps. unfold with_tables. wp_steps.
    rewrite (write_entry_eq _ _ t) by done. wp_steps. unfold map_post. rewrite Hleaf.
    fold (with_leaf (tables env1) q1 t to e). split.
    + destruct Hinv1. constructor; cbn [tables allocator set_tables]; auto.
      * by apply with_leaf_wf.
      * intros path p Hv. rewrite (with_leaf_resolve self) by done. by apply Hfresh1.
    + split; [done|]. exists e. split_and!; [done..|]. intros addr Hra.
      cbn [tables set_tables]. rewrite (with_leaf_leaf self) by done. rewrite Hu.
      by rewrite Hleaf1.
Qed.

(** The loop of [map] over the levels from [4 - k], the level below having no table. *)
Lemma map_levels_wp env k :
  (k <= 3)%nat -> inv limit (n + 3) self env ->
  ((k < 3)%nat -> resolve self (tables env) (take (S k) (table_path to)) = None) ->
  wp (map_levels self from to flags (range (4 - Z.of_nat k) 5) env)
    (map_post self limit n env from to flags).
Proof.
  intros Hk Hinv. induction k as [|k IH]; intros Hnone;
    rewrite range_cons by lia; cbn [map_levels]; wp_steps;
    rewrite get_page_table_eq by (done || lia || apply Hinv); wp_steps.
  - simpl (Z.to_nat _). cbn [take]. by apply (map_at_wp env 0).
  - replace (Z.to_nat (4 - (4 - Z.of_nat (S k)))) with (S k) by lia.
    destruct (resolve self (tables env) (take (S k) (table_path to))) as [q|] eqn:Hq.
    + by apply (map_at_wp env (S k)).
    + replace (4 - Z.of_nat (S k) + 1) with (4 - Z.of_nat k) by lia.
      apply IH; [lia|done].
Qed.

Lemma map_wp env :
  inv limit (n + 3) self env ->
  wp (map self from to flags env) (map_post self limit n env from to flags).
Proof.
  intros Hinv. unfold map. wp_steps. rewrite get_page_index_eq by lia. wp_steps.
  rewrite (proj2 (Z.eqb_neq _ _)) by exact Hr.
  apply (map_levels_wp env 3); [lia|done|lia].
Qed.

End map_proof.

Lemma map_reserved self from to flags env :
  reserved to ->
  map self from to flags env = Done (Err (AttemptedMappingToReserved to), env).
Proof.
  intros Hr. apply wp_eq. unfold map. wp_steps. rewrite get_page_index_eq by lia. wp_steps.
  rewrite (proj2 (Z.eqb_eq _ _)) by exact Hr. by wp_steps.
Qed.

(** The level-1 table of a mapped address. *)
Lemma leaf_table self m addr e :
  leaf self m addr = Some e ->
  exists q t, resolve self m (table_path addr) = Some q /\ m !! q = Some t /\
    page_table_get t (page_index 1 addr) = e /\ entry_is_unused e = false.
Proof.
  unfold leaf. destruct (resolve self m (table_path addr)) as [q|]; [|done]. simpl.
  destruct (m !! q) as [t|] eqn:Ht; [|done]. simpl.
  destruct (entry_is_unused _) eqn:Hu; [done|]. intros [= <-]. eauto 10.
Qed.

Lemma get_page_table_leaf self m addr :
  wf self m -> ~ reserved addr ->
  get_page_table self m 1 addr = Done (resolve self m (table_path addr)).
Proof. intros Hwf Hr. by rewrite get_page_table_eq by (done || lia). Qed.

(** The state after the entry of a mapped address was overwritten by [e']. *)
Lemma with_leaf_inv limit n self env addr q t e' :
  inv limit n self env -> ~ reserved addr ->
  resolve self (tables env) (table_path addr) = Some q -> tables env !! q = Some t ->
  inv limit n self (set_tables (with_leaf (tables env) q t addr e') env).
Proof.
  intros [Hwf Ho Hroom Hfresh] Hr Hq Ht. constructor; cbn [tables allocator set_tables]; auto.
  - by apply with_leaf_wf.
  - intros path p Hv. rewrite (with_leaf_resolve self) by done. by apply Hfresh.
Qed.

Lemma unmap_wp limit n self env addr :
  inv limit n self env -> ~ reserved addr ->
  wp (unmap self addr env) (fun '(r, env') =>
    inv limit n self env' /\
    match leaf self (tables env) addr with
    | None => r = Err (NotMapped addr) /\ env' = env
    | Some _ => r = Ok tt /\ forall a, ~ reserved a -> leaf self (tables env') a
        = if decide (vpage a = vpage addr) then None else leaf self (tables env) a
    end).
Proof.
  intros Hinv Hr. pose proof Hinv as [Hwf _ _ _]. unfold unmap. wp_steps.
  rewrite get_page_table_leaf by done. wp_steps.
  destruct (resolve self (tables env) (table_path addr)) as [q|] eqn:Hq.
  2: { wp_steps. unfold leaf. by rewrite Hq. }
  destruct (wf_table _ _ Hwf _ _ (table_path_valid addr 3 Hr) Hq) as [[t Ht] _].
  wp_steps. rewrite get_page_index_eq by lia. wp_steps.
  erewrite read_entry_eq by (done || (apply page_index_bounds; lia)). wp_steps.
  rewrite (leaf_none self _ _ q t Hq Ht).
  destruct (leaf self (tables env) addr) eqn:Hleaf; case_bool_decide; try done.
  wp_steps. unfold with_tables. wp_steps.
    rewrite (write_entry_eq _ _ t) by (done || (apply page_index_bounds; lia)). wp_steps.
    match goal with |- context [page_table_set t _ ?e'] =>
      fold (with_leaf (tables env) q t addr e') end.
    split; [by apply with_leaf_inv|]. split; [done|]. intros a Ha.
    cbn [tables set_tables]. rewrite (with_leaf_leaf self) by done.
    by rewrite set_unused_unused.
Qed.

Lemma update_flags_wp limit n self env addr flags :
  inv limit n self env -> ~ reserved addr -> flags <> flags_empty ->
  wp (update_flags self addr flags env) (fun '(r, env') =>
    inv limit n self env' /\
    match leaf self (tables env) addr with
    | None => env' = env /\
        r = match resolve self (tables env) (table_path addr) with
            | Some _ => Err (NotMapped addr)
            | None => Ok tt
            end
    | Some e => r = Ok tt /\ exists e', entry_addr e' = entry_addr e /\ entry_flags e' = flags /\
        forall a, ~ reserved a -> leaf self (tables env') a
        = if decide (vpage a = vpage addr) then Some e' else leaf self (tables env) a
    end).
Proof.
  intros Hinv Hr Hne. pose proof Hinv as [Hwf _ _ _]. unfold update_flags. wp_steps.
  rewrite get_page_table_leaf by done. wp_steps.
  destruct (resolve self (tables env) (table_path addr)) as [q|] eqn:Hq.
  2: { wp_steps. unfold leaf. by rewrite Hq. }
  destruct (wf_table _ _ Hwf _ _ (table_path_valid addr 3 Hr) Hq) as [[t Ht] _].
  wp_steps. rewrite get_page_index_eq by lia. wp_steps.
  erewrite read_entry_eq by (done || (apply page_index_bounds; lia)). wp_steps.
  rewrite (leaf_none self _ _ q t Hq Ht).
  destruct (leaf self (tables env) addr) as [e|] eqn:Hleaf; case_bool_decide; try done.
  destruct (leaf_some self _ _ q t e Hq Ht Hleaf) as [He Hu].
    wp_steps. unfold with_tables. wp_steps.
    rewrite (write_entry_eq _ _ t) by (done || (apply page_index_bounds; lia)). wp_steps.
    match goal with |- context [page_table_set t _ ?e'] =>
      fold (with_leaf (tables env) q t addr e') end.
    split; [by apply with_leaf_inv|]. split; [done|]. rewrite He.
    exists (entry_set_flags e flags). rewrite set_flags_addr, set_flags_flags.
    split_and!; [done..|]. intros a Ha. cbn [tables set_tables].
    rewrite (with_leaf_leaf self), set_flags_unused by done.
    by rewrite bool_decide_eq_false_2 by (by intros [_ ?]).
Qed.

Lemma translate_eq self m addr :
  wf self m -> ~ reserved addr ->
  (forall e, leaf self m addr = Some e -> phys_valid (entry_addr e) /\ page_aligned (entry_addr e)) ->
  translate self m addr
  = Done (match leaf self m addr with
          | Some e => Some (entry_addr e + addr mod PAGE_SIZE)
          | None => None
          end).
Proof.
  intros Hwf Hr Hvalid. unfold translate. rewrite get_page_table_leaf by done. cbn [obind].
  destruct (resolve self m (table_path addr)) as [q|] eqn:Hq.
  2: { unfold leaf. by rewrite Hq. }
  destruct (wf_table _ _ Hwf _ _ (table_path_valid addr 3 Hr) Hq) as [[t Ht] _].
  rewrite get_page_index_eq by lia. cbn [obind].
  erewrite read_entry_eq by (done || (apply page_index_bounds; lia)). cbn [obind].
  rewrite (leaf_none self _ _ q t Hq Ht).
  destruct (leaf self m addr) as [e|] eqn:Hleaf; case_bool_decide; try done.
  destruct (leaf_some self _ _ q t e Hq Ht Hleaf) as [-> _].
  destruct (Hvalid e) as [Hv Ha]; [done|]. rewrite PAGE_SIZE_eq.
  pose proof (Z.mod_pos_bound addr 4096 ltac:(lia)).
  rewrite phys_add_valid; [done|done|lia|].
  unfold phys_valid, page_aligned in *.
  pose proof (Z.div_mod (entry_addr e) 4096). lia.
Qed.

(** ** Contiguous pages *)

Lemma leaf_vpage self m a b : vpage a = vpage b -> leaf self m a = leaf self m b.
Proof. intros [Hp Hi]%vpage_path. unfold leaf. by rewrite Hp, Hi. Qed.

(** The [k]-th page from [to]. *)
Definition nth_page (to k : Z) : Z := to + k * PAGE_SIZE.

Lemma nth_page_inj to j k :
  canonical (nth_page to j) -> canonical (nth_page to k) ->
  vpage (nth_page to j) = vpage (nth_page to k) -> j = k.
Proof.
  intros Hj Hk Heq%canonical_vpage; [|done..]. unfold nth_page in Heq.
  rewrite PAGE_SIZE_eq, !Z.div_add in Heq by lia. lia.
Qed.

(** Every page of a block of pages can be mapped: canonical, not reserved. *)
Definition mappable (to pages : Z) : Prop :=
  canonical to /\ forall k, 0 <= k < pages -> canonical (nth_page to k) /\ ~ reserved (nth_page to k).

(** The block of [pages] pages at [to] is mapped to the frames from [from] on in [m'];
    the other pages are as in [m]. *)
Definition block_mapped self m m' (from to pages : Z) (flags : PageTableFlags) : Prop :=
  (forall k, 0 <= k < pages -> exists e, leaf self m' (nth_page to k) = Some e /\
     entry_addr e = from + k * PAGE_SIZE /\ entry_flags e = flags) /\
  (forall a, ~ reserved a -> (forall k, 0 <= k < pages -> vpage a <> vpage (nth_page to k)) ->
     leaf self m' a = leaf self m a).

Definition block_unmapped self m m' (to pages : Z) : Prop :=
  (forall k, 0 <= k < pages -> leaf self m' (nth_page to k) = None) /\
  (forall a, ~ reserved a -> (forall k, 0 <= k < pages -> vpage a <> vpage (nth_page to k)) ->
     leaf self m' a = leaf self m a).

(** Pages of a block are different pages. *)
Lemma mappable_distinct to pages j k :
  mappable to pages -> 0 <= j < pages -> 0 <= k < pages ->
  vpage (nth_page to j) = vpage (nth_page to k) -> j = k.
Proof. intros [_ Hm] Hj Hk. by apply nth_page_inj; apply Hm. Qed.

Lemma block_mapped_extend self m m1 m2 from to k pages flags e :
  mappable to pages -> 0 <= k < pages -> block_mapped self m m1 from to k flags ->
  entry_addr e = from + k * PAGE_SIZE -> entry_flags e = flags ->
  (forall a, ~ reserved a -> leaf self m2 a
     = if decide (vpage a = vpage (nth_page to k)) then Some e else leaf self m1 a) ->
  block_mapped self m m2 from to (k + 1) flags.
Proof.
  intros Hmap Hk [Hdone Hother] He Hf Hleaf. split.
  - intros j Hj. rewrite Hleaf by (apply Hmap; lia). case_decide as Hv.
    + assert (j = k) as -> by (apply (mappable_distinct to pages); [done|lia|done|done]). by exists e.
    + destruct (Z.eq_dec j k) as [->|]; [done|]. apply Hdone. lia.
  - intros a Ha Hne. rewrite Hleaf by done. rewrite decide_False.
    + apply Hother; [done|]. intros j Hj. apply Hne. lia.
    + apply Hne. lia.
Qed.

Lemma block_unmapped_extend self m m1 m2 to k pages :
  mappable to pages -> 0 <= k < pages -> block_unmapped self m m1 to k ->
  (forall a, ~ reserved a -> leaf self m2 a
     = if decide (vpage a = vpage (nth_page to k)) then None else leaf self m1 a) ->
  block_unmapped self m m2 to (k + 1).
Proof.
  intros Hmap Hk [Hdone Hother] Hleaf. split.
  - intros j Hj. rewrite Hleaf by (apply Hmap; lia). case_decide as Hv; [done|].
    destruct (Z.eq_dec j k) as [->|]; [done|]. apply Hdone. lia.
  - intros a Ha Hne. rewrite Hleaf by done. rewrite decide_False.
    + apply Hother; [done|]. intros j Hj. apply Hne. lia.
    + apply Hne. lia.
Qed.

Lemma map_contiguous_wp self limit n pages from to flags env :
  inv limit (n + 3 * Z.to_nat pages) self env ->
  0 <= pages -> mappable to pages -> flags <> flags_empty ->
  0 <= from -> from + pages * PAGE_SIZE <= 2 ^ 52 -> page_aligned from ->
  (forall k, 0 <= k < pages -> leaf self (tables env) (nth_page to k) = None) ->
  wp (map_contiguous self pages from to flags env) (fun '(r, env') =>
    r = Ok tt /\ inv limit n self env' /\
    block_mapped self (tables env) (tables env') from to pages flags).
Proof.
  intros Hinv Hp Hmap Hfl Hf0 Hf52 Hal Hnone. pose proof PAGE_SIZE_eq.
  unfold map_contiguous. wp_steps. apply wp_u64_mul; [unfold u64_bound; lia|].
  apply wp_for_range_step with (n := pages) (I := fun k s =>
    inv limit (n + 3 * Z.to_nat (pages - k)) self s /\
    block_mapped self (tables env) (tables s) from to k flags).
  - rewrite Z.sub_0_r. by apply div_ceil_mul.
  - done.
  - split; [by rewrite Z.sub_0_r|]. split; [intros; lia|done].
  - intros k s Hk [HI Hb]. destruct (proj2 Hmap k Hk) as [Hck Hrk]. rewrite Z.add_0_l. wp_steps.
    rewrite phys_add_valid by address. wp_steps.
    rewrite virt_add_canonical; [|by destruct Hmap|lia|exact Hck]. wp_steps. fold (nth_page to k).
    eapply wp_mono.
    { apply (map_wp self limit (n + 3 * Z.to_nat (pages - (k + 1)))).
      - unfold phys_valid. lia.
      - unfold page_aligned in *. rewrite PAGE_SIZE_eq. by rewrite Z_mod_plus_full.
      - by intros [_ ?].
      - done.
      - by replace (n + 3 * Z.to_nat (pages - (k + 1)) + 3)%nat
          with (n + 3 * Z.to_nat (pages - k))%nat by lia. }
    intros [r s'] [Hinv' Hpost]. rewrite (proj2 Hb) in Hpost; [|done|].
    2: { intros j Hj Heq. apply (mappable_distinct _ pages) in Heq; [lia|done|lia..]. }
    rewrite Hnone in Hpost by done. destruct Hpost as (-> & e & He & Hef & Hleaf).
    split; [done|]. by eapply block_mapped_extend.
  - intros s [HI Hb]. split_and!; [done| |done].
    apply (inv_le _ (n + 3 * Z.to_nat (pages - pages))); [done|lia].
Qed.

Lemma unmap_contiguous_wp self limit n pages to env :
  inv limit n self env -> 0 <= pages < 2 ^ 52 -> mappable to pages ->
  (forall k, 0 <= k < pages -> leaf self (tables env) (nth_page to k) <> None) ->
  wp (unmap_contiguous self pages to env) (fun '(r, env') =>
    r = Ok tt /\ inv limit n self env' /\ block_unmapped self (tables env) (tables env') to pages).
Proof.
  intros Hinv Hp Hmap Hsome. pose proof PAGE_SIZE_eq.
  unfold unmap_contiguous. wp_steps. apply wp_u64_mul; [unfold u64_bound; lia|].
  apply wp_for_range_step with (n := pages) (I := fun k s =>
    inv limit n self s /\ block_unmapped self (tables env) (tables s) to k).
  - rewrite Z.sub_0_r. by apply div_ceil_mul.
  - lia.
  - split; [done|]. split; [intros; lia|done].
  - intros k s Hk [HI Hb]. destruct (proj2 Hmap k Hk) as [Hck Hrk]. rewrite Z.add_0_l. wp_steps.
    rewrite virt_add_canonical; [|by destruct Hmap|lia|exact Hck]. wp_steps. fold (nth_page to k).
    eapply wp_mono; [by apply (unmap_wp limit n)|].
    intros [r s'] [Hinv' Hpost]. rewrite (proj2 Hb) in Hpost; [|done|].
    2: { intros j Hj Heq. apply (mappable_distinct _ pages) in Heq; [lia|done|lia..]. }
    specialize (Hsome k Hk). destruct (leaf self (tables env) (nth_page to k)); [|done].
    destruct Hpost as [-> Hleaf]. split; [done|]. by eapply block_unmapped_extend.
  - by intros s [HI Hb].
Qed.

(** ** Creation *)

Lemma rw_not_empty : flags_rw <> flags_empty.
Proof.
  intros Hf. pose proof (flags_contains_empty PRESENT) as H. rewrite <- Hf in H.
  unfold flags_rw in H. rewrite !flags_contains_union, !flags_contains_bit in H. done.
Qed.

Lemma rw_not_huge : flags_contains flags_rw (flag_bit HUGE_PAGE) = false.
Proof. unfold flags_rw. by rewrite !flags_contains_union, !flags_contains_bit. Qed.

(** A root table with nothing but its recursive entry. *)
Lemma fresh_root_wf m f offset e :
  0 <= offset -> canonical (f + offset) -> entry_is_unused e = false -> entry_addr e = f ->
  let self := mk (f + offset) offset in
  let m' := <[f + offset := page_table_set page_table_new 510 e]> m in
  wf self m' /\
  (forall path q, valid_path path -> resolve self m' path = Some q -> q = f + offset) /\
  forall a, ~ reserved a -> leaf self m' a = None.
Proof.
  intros Ho Hc Hu Ha self m'.
  assert (forall i, 0 <= i < 512 -> i <> 510 -> child self m' i (f + offset) = None) as Hchild.
  { intros i Hi Hne. unfold child, m'. rewrite lookup_insert_eq. simpl.
    rewrite table_get_set, decide_False by (done || lia). by rewrite table_new_unused. }
  assert (forall path q, valid_path path -> resolve self m' path = Some q ->
    path = [] /\ q = f + offset) as Hroot.
  { intros path q Hv. revert q. revert path Hv.
    apply (path_ind (fun path => forall q, resolve self m' path = Some q ->
      path = [] /\ q = f + offset)).
    - intros q [= <-]. done.
    - intros path i Hv IH q. rewrite resolve_snoc.
      destruct (resolve self m' path) as [p|] eqn:Hp; [|done]. simpl.
      destruct (IH p eq_refl) as [-> ->]. apply valid_path_snoc in Hv as (_ & _ & Hi & Hn).
      rewrite Hchild; [done|done|by apply Hn]. }
  split_and!.
  - constructor; [done| | |].
    + intros path q Hv Hq. destruct (Hroot path q Hv Hq) as [-> ->]. split; [|done].
      unfold m'. rewrite lookup_insert_eq. eauto.
    + intros p1 p2 q Hv1 Hv2 H1 H2. destruct (Hroot p1 q Hv1 H1) as [-> _].
      by destruct (Hroot p2 q Hv2 H2) as [-> _].
    + unfold child, m'. simpl. rewrite lookup_insert_eq. simpl.
      rewrite table_get_set, decide_True by (done || lia). by rewrite Hu, Ha.
  - intros path q Hv Hq. by destruct (Hroot path q Hv Hq).
  - intros a Hr. unfold leaf. destruct (resolve self m' (table_path a)) as [q|] eqn:Hq; [|done].
    by destruct (Hroot _ q (table_path_valid a 3 Hr) Hq) as [? _].
Qed.

Lemma new_wp limit n offset env :
  offset_ok (mk 0 offset) limit -> limit <= 2 ^ 47 -> room limit (allocator env) (S n) ->
  wp (new (Some offset) env) (fun '(self, env') =>
    inv limit n self env' /\ internal_offset self = offset /\
    available (allocator env) (lvl4 self - offset) /\ lvl4 self - offset + 4096 <= limit /\
    page_aligned (lvl4 self - offset) /\
    forall a, ~ reserved a -> leaf self (tables env') a = None).
Proof.
  intros Ho H47 Hroom. pose proof Ho as (Ho1 & Ho2 & Ho3 & Ho4). simpl in *.
  unfold new. wp_steps. cbn [unwrap]. wp_steps.
  eapply wp_mono; [by apply frame_alloc_available|].
  intros [r a'] (f & -> & Hav & Hal & Hf0 & Hfl & Hroom' & Hnav & Hmono).
  assert (canonical (f + offset)) as Hcan by address.
  wp_steps. cbn [unwrap_result]. wp_steps.
  rewrite virt_new_canonical by address. wp_steps.
  rewrite virt_add_canonical by address. wp_steps.
  unfold with_tables, new_page_table_level. wp_steps.
  assert ((f + offset) mod PAGE_SIZE = 0) as ->.
  { unfold page_aligned in *. rewrite PAGE_SIZE_eq, Z.add_mod, Hal, Ho4 by lia. done. }
  cbn [Z.eqb negb]. wp_steps. cbn [tables set_tables set_allocator].
  erewrite read_entry_eq by (rewrite ?lookup_insert_eq; done || lia). wp_steps.
  assert (f - f mod 4096 = f) as Hff by (unfold page_aligned in Hal; lia).
  rewrite frame_containing, Hff by address.
  rewrite set_frame_set_addr by (apply rw_not_huge || done || address).
  destruct (set_addr_aligned (page_table_get page_table_new 510) f flags_rw)
    as (e & -> & Ha & _ & Hu); [address|done|].
  rewrite bool_decide_eq_false_2 in Hu by (intros [_ ?]; by apply rw_not_empty).
  wp_steps. erewrite write_entry_eq by (cbn [tables set_tables]; rewrite ?lookup_insert_eq; done || lia).
  wp_steps. cbn [tables set_tables]. rewrite insert_insert_eq.
  destruct (fresh_root_wf (tables env) f offset e) as (Hwf & Hroot & Hleaf); [lia|done..|].
  split_and!; [|done|simpl; by rewrite Z.add_simpl_r|simpl; lia|simpl; by rewrite Z.add_simpl_r|done].
  constructor; cbn [tables allocator set_tables set_allocator]; [done|done|done|].
  intros path q Hv Hq. rewrite (Hroot path q Hv Hq). simpl. by rewrite Z.add_simpl_r.
Qed.

End operations.
End tree.
