(* ===== verification/PageTableSpec.v ===== *)
(** What the page table promises: an abstract map from pages to frames, and the
    refinement of every operation, and of every sequence of operations, to it; and where
    the recursive addresses lead. *)
From S2P Require Import Prelude X86 Memory FrameAllocation PageTable PageTableProofs.
Import RecursivePageTable.

Section spec.
Context {X : X86} {XL : X86Laws}.

(** ** Abstract specification *)

(** Which frame each page is mapped to, and how. *)
Abbreviation AddressSpace := (gmap Z (Z * PageTableFlags)).

(** The calls a client can make, and their replies. *)
Inductive call : Type :=
| CMap (from to : Z) (flags : PageTableFlags)
| CUnmap (addr : Z)
| CUpdateFlags (addr : Z) (flags : PageTableFlags)
| CTranslate (addr : Z).

Inductive reply : Type :=
| RUnit (r : result unit PagingError)
| RAddr (o : option Z).

(** What the caller owes: frames are page bases, entries are not empty, the
    recursive range is only ever passed to [map]. *)
Definition valid_call (c : call) : Prop :=
  match c with
  | CMap from to flags => phys_valid from /\ page_aligned from /\ flags <> flags_empty
  | CUnmap addr => ~ reserved addr
  | CUpdateFlags addr flags => ~ reserved addr /\ flags <> flags_empty
  | CTranslate addr => ~ reserved addr
  end.

Inductive spec_step (pm : AddressSpace) : call -> reply -> AddressSpace -> Prop :=
| spec_map_reserved from to flags : reserved to ->
    spec_step pm (CMap from to flags) (RUnit (Err (AttemptedMappingToReserved to))) pm
| spec_map_already from to flags x : ~ reserved to -> pm !! vpage to = Some x ->
    spec_step pm (CMap from to flags) (RUnit (Err (AlreadyMapped to))) pm
| spec_map_ok from to flags : ~ reserved to -> pm !! vpage to = None ->
    spec_step pm (CMap from to flags) (RUnit (Ok tt)) (<[vpage to := (from, flags)]> pm)
| spec_unmap_ok addr x : pm !! vpage addr = Some x ->
    spec_step pm (CUnmap addr) (RUnit (Ok tt)) (delete (vpage addr) pm)
| spec_unmap_not addr : pm !! vpage addr = None ->
    spec_step pm (CUnmap addr) (RUnit (Err (NotMapped addr))) pm
| spec_update_ok addr flags f fl : pm !! vpage addr = Some (f, fl) ->
    spec_step pm (CUpdateFlags addr flags) (RUnit (Ok tt)) (<[vpage addr := (f, flags)]> pm)
    (** An unmapped page is reported only when it has a level-1 table. *)
| spec_update_not addr flags r : pm !! vpage addr = None ->
    r = Ok tt \/ r = Err (NotMapped addr) ->
    spec_step pm (CUpdateFlags addr flags) (RUnit r) pm
| spec_translate addr :
    spec_step pm (CTranslate addr)
      (RAddr ((fun x => x.1 + addr mod PAGE_SIZE) <$> pm !! vpage addr)) pm.

Inductive spec_steps : AddressSpace -> list call -> list reply -> AddressSpace -> Prop :=
| spec_done pm : spec_steps pm [] [] pm
| spec_next pm1 pm2 pm3 c cs r rs :
    spec_step pm1 c r pm2 -> spec_steps pm2 cs rs pm3 ->
    spec_steps pm1 (c :: cs) (r :: rs) pm3.

(** ** The calls, run *)

Section run.
Context {F : Type} {FA : FrameAllocator F}.

Definition run_call (self : RecursivePageTable) (c : call) : M (Env F) reply :=
  match c with
  | CMap from to flags => let! r := map self from to flags in ret (RUnit r)
  | CUnmap addr => let! r := unmap self addr in ret (RUnit r)
  | CUpdateFlags addr flags => let! r := update_flags self addr flags in ret (RUnit r)
  | CTranslate addr =>
      let! env := get in
      let^ o := translate self (tables env) addr in ret (RAddr o)
  end.

Fixpoint run_calls (self : RecursivePageTable) (cs : list call) : M (Env F) (list reply) :=
  match cs with
  | [] => ret []
  | c :: cs => let! r := run_call self c in let! rs := run_calls self cs in ret (r :: rs)
  end.
End run.

(** ** Representation *)

(** The tables store the map [pm], all of whose frames are page bases. *)
Definition represents (self : RecursivePageTable) (m : gmap Z PageTable) (pm : AddressSpace) : Prop :=
  (forall a, ~ reserved a ->
     (fun e => (entry_addr e, entry_flags e)) <$> leaf self m a = pm !! vpage a) /\
  (forall p x, pm !! p = Some x -> phys_valid x.1 /\ page_aligned x.1).

Lemma represents_none self m pm a :
  represents self m pm -> ~ reserved a -> leaf self m a = None <-> pm !! vpage a = None.
Proof. intros [Hr _] Ha. rewrite <- Hr by done. by rewrite fmap_None. Qed.

Lemma represents_some self m pm a e :
  represents self m pm -> ~ reserved a -> leaf self m a = Some e ->
  pm !! vpage a = Some (entry_addr e, entry_flags e).
Proof. intros [Hr _] Ha He. rewrite <- Hr by done. by rewrite He. Qed.

Lemma represents_set self m m' pm a e :
  represents self m pm -> ~ reserved a -> phys_valid (entry_addr e) -> page_aligned (entry_addr e) ->
  (forall b, ~ reserved b -> leaf self m' b
     = if decide (vpage b = vpage a) then Some e else leaf self m b) ->
  represents self m' (<[vpage a := (entry_addr e, entry_flags e)]> pm).
Proof.
  intros [Hr Hv] Ha Hpv Hpa Hleaf. split.
  - intros b Hb. rewrite Hleaf by done. destruct (decide (vpage b = vpage a)) as [->|Hne].
    + by rewrite lookup_insert_eq.
    + rewrite lookup_insert_ne by (by intros ?). by apply Hr.
  - intros p x Hx. destruct (decide (vpage a = p)) as [<-|Hne].
    + rewrite lookup_insert_eq in Hx. injection Hx as <-. exact (conj Hpv Hpa).
    + rewrite lookup_insert_ne in Hx by exact Hne. exact (Hv p x Hx).
Qed.

Lemma represents_delete self m m' pm a :
  represents self m pm -> ~ reserved a ->
  (forall b, ~ reserved b -> leaf self m' b
     = if decide (vpage b = vpage a) then None else leaf self m b) ->
  represents self m' (delete (vpage a) pm).
Proof.
  intros [Hr Hv] Ha Hleaf. split.
  - intros b Hb. rewrite Hleaf by done. destruct (decide (vpage b = vpage a)) as [->|Hne].
    + by rewrite lookup_delete_eq.
    + rewrite lookup_delete_ne by (by intros ?). by apply Hr.
  - intros p x Hx. apply lookup_delete_Some in Hx as [_ Hx]. exact (Hv p x Hx).
Qed.

Section refinement.
Context {F : Type} {FA : FrameAllocator F} {FS : FrameSource F}.
Implicit Types env : Env F.

Lemma run_call_refines self limit n c env pm :
  inv limit (n + 3) self env -> represents self (tables env) pm -> valid_call c ->
  wp (run_call self c env) (fun '(r, env') => exists pm',
    spec_step pm c r pm' /\ inv limit n self env' /\ represents self (tables env') pm').
Proof.
  intros Hinv Hrep Hc. assert (inv limit n self env) as Hinv0 by (eapply inv_le; [done|lia]).
  destruct c as [from to flags|addr|addr flags|addr]; cbn [run_call valid_call] in *; wp_steps.
  - destruct Hc as (Hv & Hal & Hne). destruct (decide (reserved to)) as [Hr|Hr].
    { rewrite map_reserved by done. wp_steps. exists pm. split_and!; [by constructor|done..]. }
    eapply wp_mono; [apply (map_wp self limit n); auto; by intros [_ ?]|].
    intros [r env'] [Hinv' Hpost]. wp_steps.
    destruct (leaf self (tables env) to) as [e|] eqn:Hleaf.
    + destruct Hpost as [-> ->]. exists pm. split_and!; [|done..].
      eapply spec_map_already; [done|]. by eapply represents_some.
    + destruct Hpost as (-> & e & <- & <- & Hset). eexists. split_and!; [|done|].
      * apply spec_map_ok; [done|]. by eapply represents_none.
      * by eapply represents_set.
  - eapply wp_mono; [by apply (unmap_wp limit n)|]. intros [r env'] [Hinv' Hpost]. wp_steps.
    destruct (leaf self (tables env) addr) as [e|] eqn:Hleaf.
    + destruct Hpost as [-> Hset]. eexists. split_and!; [|done|].
      * eapply spec_unmap_ok. by eapply represents_some.
      * by eapply represents_delete.
    + destruct Hpost as [-> ->]. exists pm. split_and!; [|done..].
      apply spec_unmap_not. by eapply represents_none.
  - destruct Hc as [Hr Hne].
    eapply wp_mono; [by apply (update_flags_wp limit n)|]. intros [r env'] [Hinv' Hpost]. wp_steps.
    destruct (leaf self (tables env) addr) as [e|] eqn:Hleaf.
    + destruct Hpost as (-> & e' & Ha & <- & Hset).
      pose proof (represents_some _ _ _ _ _ Hrep Hr Hleaf) as Hpm.
      destruct (proj2 Hrep _ _ Hpm) as [Hv Hal]. simpl in *. rewrite <- Ha in *.
      eexists. split_and!; [by eapply spec_update_ok|done|by eapply represents_set].
    + destruct Hpost as [-> ->]. exists pm. split_and!; [|done..].
      apply spec_update_not; [by eapply represents_none|]. case_match; auto.
  - rewrite translate_eq; [|apply Hinv|done|].
    2: { intros e He. apply (represents_some _ _ _ _ _ Hrep) in He; [|done].
         by apply (proj2 Hrep) in He. }
    wp_steps. exists pm. split_and!; [|done..].
    pose proof (proj1 Hrep addr Hc) as Hlk.
    destruct (leaf self (tables env) addr) as [e|]; simpl in Hlk.
    + pose proof (spec_translate pm addr) as Hs. by rewrite <- Hlk in Hs.
    + pose proof (spec_translate pm addr) as Hs. by rewrite <- Hlk in Hs.
Qed.

Lemma run_calls_refine self limit n cs : forall env pm,
  inv limit (n + 3 * length cs) self env -> represents self (tables env) pm ->
  Forall valid_call cs ->
  wp (run_calls self cs env) (fun '(rs, env') => exists pm',
    spec_steps pm cs rs pm' /\ inv limit n self env' /\ represents self (tables env') pm').
Proof.
  induction cs as [|c cs IH]; intros env pm Hinv Hrep Hcs; cbn [run_calls].
  { wp_steps. exists pm. split_and!; [constructor| |done]. eapply inv_le; [done|lia]. }
  apply Forall_cons in Hcs as [Hc Hcs]. simpl in Hinv. wp_steps.
  eapply wp_mono.
  { apply (run_call_refines self limit (n + 3 * length cs)); [|done..].
    eapply inv_le; [done|lia]. }
  intros [r env1] (pm1 & Hstep & Hinv1 & Hrep1). wp_steps.
  eapply wp_mono; [by apply IH|]. intros [rs env2] (pm2 & Hsteps & Hinv2 & Hrep2).
  wp_steps. exists pm2. split_and!; [by econstructor|done..].
Qed.

End refinement.
(** ** The recursive entry *)

(** The address whose four indices are all 510. *)
Definition RECURSIVE_LEVEL4 : Z := 0xFFFFFF7FBFDFE000.

(** What [translate] finds at [LEVEL4] and at [RECURSIVE_LEVEL4]. *)
Lemma get_page_table_recursive self m :
  wf self m -> get_page_table self m 1 RECURSIVE_LEVEL4 = Done (Some (lvl4 self)).
Proof.
  intros Hwf. unfold get_page_table. change (range 0 (4 - 1)) with [0; 1; 2].
  change (negb ((1 <=? 1) && (1 <=? 4))) with false. cbv iota.
  rewrite !descend_step_recursive by (done || lia). done.
Qed.

Lemma get_page_table_LEVEL4 self m :
  wf self m -> get_page_table self m 1 LEVEL4 = Done (resolve self m [511; 511]).
Proof.
  intros Hwf. unfold get_page_table. change (range 0 (4 - 1)) with [0; 1; 2].
  change (negb ((1 <=? 1) && (1 <=? 4))) with false. cbv iota.
  assert (valid_path [511; 511]) as Hv2 by (split_and!; simpl; [lia|repeat constructor; lia|done]).
  assert (valid_path [511]) as Hv1 by (split_and!; simpl; [lia|repeat constructor; lia|done]).
  rewrite descend_step_recursive by (done || lia).
  rewrite (descend_step self m _ 1 _ [] 511) by (done || lia). cbn [app].
  destruct (resolve self m [511]) as [q1|] eqn:Hq1.
  - rewrite (descend_step self m _ 2 _ [511] 511) by (done || lia). cbn [app].
    by destruct (resolve self m [511; 511]).
  - pose proof (resolve_none self m [511] [511] Hq1) as Hn. cbn [app] in Hn. by rewrite Hn.
Qed.

End spec.
