(* ===== verification/PageTableTheorems.v ===== *)
(** What the kernel's page table guarantees: the theorems about creating a page
    table, mapping, translating, unmapping and updating single pages and blocks of
    pages, the refinement to a map from pages to frames, and the recursive entry.
    Each has an instance on a page table the model itself creates ([boot]). *)
From S2P Require Import Prelude X86 Memory FrameAllocation PageTable PageTableProofs PageTableSpec.
Import RecursivePageTable.

Section properties.
Context {X : X86} {XL : X86Laws}.
Context {F : Type} {FA : FrameAllocator F} {FS : FrameSource F}.
Implicit Types (env : Env F) (self : RecursivePageTable).

(** The frame and flags of the page of an address. *)
Definition mapping self (m : gmap Z PageTable) (a : Z) : option (Z * PageTableFlags) :=
  (fun e => (entry_addr e, entry_flags e)) <$> leaf self m a.

(** Every page that is mapped is mapped to a page base. *)
Definition frames_ok self (m : gmap Z PageTable) : Prop :=
  forall a f fl, ~ reserved a -> mapping self m a = Some (f, fl) -> phys_valid f /\ page_aligned f.

Lemma translate_mapping self m a :
  wf self m -> ~ reserved a -> frames_ok self m ->
  translate self m a = Done ((fun x => x.1 + a mod PAGE_SIZE) <$> mapping self m a).
Proof.
  intros Hwf Hr Hf. rewrite translate_eq; [|done|done|].
  - unfold mapping. by destruct (leaf self m a).
  - intros e He. eapply Hf; [done|]. unfold mapping. by rewrite He.
Qed.

(** A state that differs from [m] in the page of [to] only. *)
Definition mapping_set self (m m' : gmap Z PageTable) (to : Z) (x : option (Z * PageTableFlags)) : Prop :=
  forall a, ~ reserved a ->
    mapping self m' a = if decide (vpage a = vpage to) then x else mapping self m a.

Lemma frames_ok_set self m m' to f fl :
  frames_ok self m -> mapping_set self m m' to (Some (f, fl)) ->
  phys_valid f -> page_aligned f -> frames_ok self m'.
Proof.
  intros Hf Hs Hv Ha a f' fl' Hr. rewrite Hs by done. case_decide; [by intros [= <- <-]|].
  by apply Hf.
Qed.

Lemma mapping_none self m a : mapping self m a = None <-> leaf self m a = None.
Proof. unfold mapping. by rewrite fmap_None. Qed.

Lemma map_mapping self limit n from to flags env :
  inv limit (n + 3) self env -> phys_valid from -> page_aligned from -> flags <> flags_empty ->
  ~ reserved to ->
  wp (map self from to flags env) (fun '(r, env') => inv limit n self env' /\
    match mapping self (tables env) to with
    | Some _ => r = Err (AlreadyMapped to) /\ env' = env
    | None => r = Ok tt /\ mapping_set self (tables env) (tables env') to (Some (from, flags))
    end).
Proof.
  intros Hinv Hv Ha Hne Hr.
  eapply wp_mono; [apply (map_wp self limit n); auto; by intros [_ ?]|].
  intros [r env'] [Hinv' Hpost]. split; [done|]. unfold mapping at 1.
  destruct (leaf self (tables env) to); simpl; [done|].
  destruct Hpost as (-> & e & <- & <- & Hleaf). split; [done|].
  intros a Hra. unfold mapping. rewrite Hleaf by done. by case_decide.
Qed.

Lemma unmap_mapping self limit n env addr :
  inv limit n self env -> ~ reserved addr ->
  wp (unmap self addr env) (fun '(r, env') => inv limit n self env' /\
    match mapping self (tables env) addr with
    | None => r = Err (NotMapped addr) /\ env' = env
    | Some _ => r = Ok tt /\ mapping_set self (tables env) (tables env') addr None
    end).
Proof.
  intros Hinv Hr. eapply wp_mono; [by apply (unmap_wp limit n)|].
  intros [r env'] [Hinv' Hpost]. split; [done|]. unfold mapping at 1.
  destruct (leaf self (tables env) addr); simpl; [|done].
  destruct Hpost as [-> Hleaf]. split; [done|].
  intros a Hra. unfold mapping. rewrite Hleaf by done. by case_decide.
Qed.

Lemma load_eq self cpu limit
    (Hoff : offset_ok self limit) (Hcan : canonical (lvl4 self))
    (Hal : page_aligned (lvl4 self)) (Hlow : internal_offset self <= lvl4 self < internal_offset self + limit) :
  load (self, cpu)
  = Done (tt, (mk LEVEL4 (internal_offset self),
               mkCpu (Some (lvl4 self - internal_offset self)) (tlb_flushed cpu))).
Proof.
  destruct Hoff as (Ho1 & Ho2 & Ho3 & Ho4). unfold page_aligned in *.
  assert ((lvl4 self - internal_offset self) mod 4096 = 0) as Hm
    by (rewrite Zminus_mod, Hal, Ho4; done).
  apply wp_eq. unfold load. wp_steps.
  rewrite phys_new_valid by address. wp_steps.
  rewrite frame_from_start, decide_True by address.
  cbn [unwrap]. wp_steps. change 0xFFF with (Z.ones 12).
  rewrite Z.land_ones by lia. change (2 ^ 12) with 4096. rewrite Hm.
  cbn [Z.eqb negb]. by wp_steps.
Qed.

(** ** Properties *)

(** C6: [map] never panics or faults: it refuses a page that is mapped and leaves
    everything as it was; otherwise it creates the missing tables, the page is then
    mapped to the frame with the flags, and no other page's mapping changes. The
    tables stay a tree, and three frames at most are taken from the allocator. *)
Theorem map_correct self limit n from to flags env
    (Hinv : inv limit (n + 3) self env) (Hfrom : phys_valid from) (Hal : page_aligned from)
    (Hflags : flags <> flags_empty) (Hr : ~ reserved to) :
  exists r env', map self from to flags env = Done (r, env') /\ inv limit n self env' /\
    match mapping self (tables env) to with
    | Some _ => r = Err (AlreadyMapped to) /\ env' = env
    | None => r = Ok tt /\
        forall a, ~ reserved a -> mapping self (tables env') a
          = if decide (vpage a = vpage to) then Some (from, flags)
            else mapping self (tables env) a
    end.
Proof.
  pose proof (map_mapping self limit n from to flags env Hinv Hfrom Hal Hflags Hr) as H.
  apply wp_iff in H as ([r env'] & -> & Hi & Hp). by exists r, env'.
Qed.

(** After a successful [map], [translate] finds the frame for every address of the
    page, with the address's offset in the page, and finds for the other pages what it
    found before. *)
Lemma map_translate self limit n from to flags env
    (Hinv : inv limit (n + 3) self env) (Hok : frames_ok self (tables env))
    (Hfrom : phys_valid from) (Hal : page_aligned from) (Hflags : flags <> flags_empty)
    (Hr : ~ reserved to) (Hnone : mapping self (tables env) to = None) :
  exists env', map self from to flags env = Done (Ok tt, env') /\
    frames_ok self (tables env') /\
    forall a, ~ reserved a ->
      translate self (tables env') a
      = if decide (vpage a = vpage to) then Done (Some (from + a mod PAGE_SIZE))
        else translate self (tables env) a.
Proof.
  pose proof (map_mapping self limit n from to flags env Hinv Hfrom Hal Hflags Hr) as H.
  apply wp_iff in H as ([r env'] & -> & Hi & Hp). rewrite Hnone in Hp. destruct Hp as [-> Hset].
  exists env'. split; [done|].
  assert (frames_ok self (tables env')) as Hok' by (by eapply frames_ok_set).
  split; [done|]. intros a Hra.
  rewrite !translate_mapping by (done || apply Hi || apply Hinv). rewrite Hset by done.
  by case_decide.
Qed.

(** [unmap] undoes [map]: unmapping a page that was just mapped succeeds and
    leaves the mapping of every page as it was before. *)
Lemma map_unmap_roundtrip self limit n from to flags env
    (Hinv : inv limit (n + 3) self env) (Hfrom : phys_valid from) (Hal : page_aligned from)
    (Hflags : flags <> flags_empty) (Hr : ~ reserved to)
    (Hnone : mapping self (tables env) to = None) :
  exists env', (let? _ := map self from to flags in unmap self to) env = Done (Ok tt, env') /\
    inv limit n self env' /\
    forall a, ~ reserved a -> mapping self (tables env') a = mapping self (tables env) a.
Proof.
  apply wp_state. wp_step. eapply wp_mono; [by apply (map_mapping self limit n)|].
  intros [r env1] [Hinv1 Hp]. rewrite Hnone in Hp. destruct Hp as [-> Hset].
  eapply wp_mono; [by apply (unmap_mapping self limit n)|].
  intros [r2 env2] [Hinv2 Hp]. rewrite Hset, decide_True in Hp by done.
  destruct Hp as [-> Hset2]. split; [done|]. split; [done|].
  intros a Ha. rewrite Hset2, Hset by done. case_decide as Hv; [|done].
  rewrite <- Hnone. unfold mapping. by rewrite (leaf_vpage self _ a to).
Qed.

(** C18: [unmap] removes exactly the page of the address, and reports a page that
    is not mapped without changing anything. *)
Theorem unmap_correct self limit n addr env
    (Hinv : inv limit n self env) (Hr : ~ reserved addr) :
  exists r env', unmap self addr env = Done (r, env') /\ inv limit n self env' /\
    match mapping self (tables env) addr with
    | None => r = Err (NotMapped addr) /\ env' = env
    | Some _ => r = Ok tt /\
        forall a, ~ reserved a -> mapping self (tables env') a
          = if decide (vpage a = vpage addr) then None else mapping self (tables env) a
    end.
Proof.
  pose proof (unmap_mapping self limit n env addr Hinv Hr) as H.
  apply wp_iff in H as ([r env'] & -> & Hi & Hp). by exists r, env'.
Qed.

(** C24: [update_flags] gives a mapped page new flags and keeps its frame; on a page
    that is not mapped it changes nothing, and reports it only when the page's level-1
    table exists: without that table it answers [Ok]. *)
Theorem update_flags_correct self limit n addr flags env
    (Hinv : inv limit n self env) (Hr : ~ reserved addr) (Hflags : flags <> flags_empty) :
  exists r env', update_flags self addr flags env = Done (r, env') /\ inv limit n self env' /\
    match mapping self (tables env) addr with
    | Some (f, _) => r = Ok tt /\
        forall a, ~ reserved a -> mapping self (tables env') a
          = if decide (vpage a = vpage addr) then Some (f, flags)
            else mapping self (tables env) a
    | None => env' = env /\
        (r = Err (NotMapped addr) <-> get_page_table self (tables env) 1 addr <> Done None) /\
        (r = Ok tt <-> get_page_table self (tables env) 1 addr = Done None)
    end.
Proof.
  pose proof (update_flags_wp limit n self env addr flags Hinv Hr Hflags) as H.
  apply wp_iff in H as ([r env'] & -> & Hi & Hp). exists r, env'. split; [done|]. split; [done|].
  unfold mapping at 1. destruct (leaf self (tables env) addr) as [e|] eqn:Hl; simpl.
  - destruct Hp as (-> & e' & Ha & Hf & Hleaf). split; [done|]. intros a Hra.
    unfold mapping. rewrite Hleaf by done. case_decide; [|done]. simpl. by rewrite Ha, Hf.
  - destruct Hp as [-> ->]. rewrite get_page_table_leaf by (done || apply Hinv).
    split; [done|]. by destruct (resolve self (tables env) (table_path addr)).
Qed.

(** C7: [map_contiguous] on a block of free pages maps every page of it, so that
    translating the byte at offset [o] of the block gives the byte at offset [o] of the
    physical range, and it changes the mapping of no page outside the block. *)
Theorem map_contiguous_translate self limit n pages from to flags env
    (Hinv : inv limit (n + 3 * Z.to_nat pages) self env)
    (Hpages : 0 <= pages) (Hto : mappable to pages) (Hflags : flags <> flags_empty)
    (Hfrom : 0 <= from /\ from + pages * PAGE_SIZE <= 2 ^ 52) (Hal : page_aligned from)
    (Htoal : page_aligned to) (Hok : frames_ok self (tables env))
    (Hnone : forall k, 0 <= k < pages -> mapping self (tables env) (nth_page to k) = None) :
  exists env', map_contiguous self pages from to flags env = Done (Ok tt, env') /\
    inv limit n self env' /\
    (forall o, 0 <= o < pages * PAGE_SIZE ->
       translate self (tables env') (to + o) = Done (Some (from + o))) /\
    (forall a, ~ reserved a -> (forall k, 0 <= k < pages -> vpage a <> vpage (nth_page to k)) ->
       mapping self (tables env') a = mapping self (tables env) a).
Proof.
  apply wp_state. destruct Hfrom as [Hf0 Hf52].
  eapply wp_mono.
  { apply (map_contiguous_wp self limit n); auto. intros k Hk. by apply mapping_none, Hnone. }
  intros [r env'] (-> & Hinv' & Hblock & Hother). split; [done|]. split; [done|]. split.
  - intros o Ho. rewrite PAGE_SIZE_eq in *.
    assert (0 <= o / 4096 < pages) as Hk
      by (split; [apply Z.div_pos; lia|apply Z.div_lt_upper_bound; lia]).
    destruct (Hblock _ Hk) as (e & He & Hea & _).
    pose proof (Z.div_mod o 4096 ltac:(lia)) as Hdm. pose proof (Z.mod_pos_bound o 4096 ltac:(lia)).
    unfold page_aligned in *.
    assert (vpage (to + o) = vpage (nth_page to (o / 4096))) as Hv.
    { unfold vpage, nth_page. rewrite PAGE_SIZE_eq. f_equal.
      rewrite Hdm at 1. pose proof (Z.div_mod to 4096 ltac:(lia)).
      rewrite Z.div_add by lia. symmetry.
      apply (Z.div_unique _ _ _ (o mod 4096)); lia. }
    assert (~ reserved (to + o)) as Hr.
    { unfold reserved. pose proof Hv as [[= -> _ _] _]%vpage_path. apply Hto, Hk. }
    assert (leaf self (tables env') (to + o) = Some e) as Hle
      by by rewrite (leaf_vpage self _ _ _ Hv).
    rewrite translate_eq; [|apply Hinv'|done|].
    + rewrite Hle, Hea, PAGE_SIZE_eq. do 2 f_equal. rewrite Z.add_mod, Htoal, Z.add_0_l by lia.
      rewrite Z.mod_mod by lia. lia.
    + rewrite Hle. intros e' [= <-]. rewrite Hea. unfold phys_valid. split; [lia|].
      unfold page_aligned. by rewrite Z_mod_plus_full.
  - intros a Ha Hne. unfold mapping. by rewrite Hother.
Qed.

(** C19: [unmap_contiguous] undoes [map_contiguous]: after both, every page has the
    mapping it had before. *)
Theorem contiguous_roundtrip self limit n pages from to flags env
    (Hinv : inv limit (n + 3 * Z.to_nat pages) self env)
    (Hpages : 0 <= pages) (Hto : mappable to pages) (Hflags : flags <> flags_empty)
    (Hfrom : 0 <= from /\ from + pages * PAGE_SIZE <= 2 ^ 52) (Hal : page_aligned from)
    (Hnone : forall k, 0 <= k < pages -> mapping self (tables env) (nth_page to k) = None) :
  exists env',
    (let? _ := map_contiguous self pages from to flags in unmap_contiguous self pages to) env
    = Done (Ok tt, env') /\ inv limit n self env' /\
    forall a, ~ reserved a -> mapping self (tables env') a = mapping self (tables env) a.
Proof.
  apply wp_state. destruct Hfrom as [Hf0 Hf52]. wp_step. eapply wp_mono.
  { apply (map_contiguous_wp self limit n); auto. intros k Hk. by apply mapping_none, Hnone. }
  intros [r env1] (-> & Hinv1 & Hblock & Hother). eapply wp_mono.
  { apply (unmap_contiguous_wp self limit n); [done| |done|].
    - pose proof PAGE_SIZE_eq. lia.
    - intros k Hk. by destruct (Hblock k Hk) as (e & -> & _). }
  intros [r env2] (-> & Hinv2 & Hblock2 & Hother2). split; [done|]. split; [done|].
  intros a Ha.
  destruct (decide (Exists (fun k => vpage a = vpage (nth_page to k)) (range 0 pages)))
    as [(k & Hk%elem_of_range & Hv)%list.Exists_exists|Hne].
  - unfold mapping. rewrite !(leaf_vpage self _ a _ Hv), Hblock2 by done. symmetry. by apply Hnone.
  - assert (forall k, 0 <= k < pages -> vpage a <> vpage (nth_page to k)) as Hne'.
    { intros k Hk Hv. apply Hne, list.Exists_exists. exists k. by rewrite elem_of_range. }
    unfold mapping. by rewrite Hother2, Hother.
Qed.

(** C25: [new] on an allocator with a free frame makes a page table that satisfies the
    invariant, maps no page, and whose root is the frame it took, seen through the
    offset mapping. *)
Theorem new_correct limit n offset env
    (Hoff : offset_ok (mk 0 offset) limit) (Hlimit : limit <= 2 ^ 47)
    (Hroom : room limit (allocator env) (S n)) :
  exists self env', new (Some offset) env = Done (self, env') /\
    inv limit n self env' /\ internal_offset self = offset /\
    available (allocator env) (lvl4 self - offset) /\
    (forall a, ~ reserved a -> translate self (tables env') a = Done None).
Proof.
  pose proof (new_wp limit n offset env Hoff Hlimit Hroom) as H.
  apply wp_iff in H as ([self env'] & -> & Hinv & Ho & Hav & _ & _ & Hleaf). exists self, env'.
  split_and!; try done. intros a Ha. rewrite translate_eq.
  - by rewrite Hleaf.
  - apply Hinv.
  - done.
  - intros e. by rewrite Hleaf.
Qed.

(** C1: refinement. Run on a page table that stores the map [pm] from pages to frames,
    a sequence of calls to [map], [unmap], [update_flags] and [translate] finishes, and
    its replies and the map the tables then store are those of the abstract map. *)
Theorem address_space_refinement self limit n cs env pm
    (Hinv : inv limit (n + 3 * length cs) self env)
    (Hrep : represents self (tables env) pm) (Hcs : Forall valid_call cs) :
  exists rs env' pm', run_calls self cs env = Done (rs, env') /\
    spec_steps pm cs rs pm' /\ inv limit n self env' /\ represents self (tables env') pm'.
Proof.
  pose proof (run_calls_refine self limit n cs env pm Hinv Hrep Hcs) as H.
  apply wp_iff in H as ([rs env'] & -> & pm' & H). by exists rs, env', pm'.
Qed.

(** C34: the four indices of a canonical address are in bounds for a page table, and two
    canonical addresses have the same indices exactly when they lie in the same page. *)
Theorem page_indices_identify_pages a b (Ha : canonical a) (Hb : canonical b) :
  (forall level, 1 <= level <= 4 -> exists i, get_page_index level a = Done i /\ 0 <= i < 512) /\
  ((forall level, 1 <= level <= 4 -> get_page_index level a = get_page_index level b)
   <-> a / PAGE_SIZE = b / PAGE_SIZE).
Proof.
  split.
  - intros l Hl. rewrite get_page_index_eq by done. eexists. split; [done|].
    apply page_index_bounds. lia.
  - rewrite PAGE_SIZE_eq, <- canonical_vpage, vpage_path by done. unfold table_path. split.
    + intros H.
      assert (forall l, 1 <= l <= 4 -> page_index l a = page_index l b) as Hp.
      { intros l Hl. specialize (H l Hl). rewrite !get_page_index_eq in H by done. by injection H. }
      by rewrite !Hp by lia.
    + intros [[= H4 H3 H2] H1] l Hl. rewrite !get_page_index_eq by done. f_equal.
      assert (l = 1 \/ l = 2 \/ l = 3 \/ l = 4) as [->|[->|[->| ->]]] by lia; done.
Qed.

(** Walking from the active table, the address whose four indices are 510 leads to
    the level-4 table itself; [LEVEL4], the address [load] leaves in the record, has the
    indices 510, 511, 511, 511 instead, and leads to what the last entries of the level-4
    and of the table below it point to: nothing, on a table as [new] makes it. *)
Lemma recursive_address self m (Hwf : wf self m) :
  get_page_table self m 1 RECURSIVE_LEVEL4 = Done (Some (lvl4 self)) /\
  (forall level, 1 <= level <= 4 -> get_page_index level RECURSIVE_LEVEL4 = Done 510) /\
  get_page_index 4 LEVEL4 = Done 510 /\
  (forall level, 1 <= level <= 3 -> get_page_index level LEVEL4 = Done 511) /\
  get_page_table self m 1 LEVEL4 = Done (resolve self m [511; 511]).
Proof.
  split_and!.
  - by apply get_page_table_recursive.
  - intros l Hl. assert (l = 1 \/ l = 2 \/ l = 3 \/ l = 4) as [->|[->|[->| ->]]] by lia; done.
  - done.
  - intros l Hl. assert (l = 1 \/ l = 2 \/ l = 3) as [->|[->| ->]] by lia; done.
  - by apply get_page_table_LEVEL4.
Qed.

End properties.

(** ** Instances *)

#[local] Existing Instances X86Model.x86 X86Model.x86_laws.

Definition example_limit : Z := 2 ^ 46.
Definition example_offset : Z := 0xFFFF800000000000.

(** The page table [new] makes with a linear allocator at 1 MiB. *)
Definition boot_env : Env LinearFrameAllocator.LinearFrameAllocator :=
  mkEnv ∅ (LinearFrameAllocator.mk 0x100000).
Definition boot : RecursivePageTable * Env LinearFrameAllocator.LinearFrameAllocator :=
  match new (Some example_offset) boot_env with
  | Done r => r
  | _ => (mk 0 0, boot_env)
  end.

Lemma example_room n : (n <= 1000)%nat -> room example_limit (allocator boot_env) n.
Proof.
  intros Hn. simpl. unfold LinearFrameAllocator.wf, phys_valid, page_aligned, example_limit.
  simpl. rewrite PAGE_SIZE_eq. split_and!; try done; lia.
Qed.

Lemma example_offset_ok : offset_ok (mk 0 example_offset) example_limit.
Proof. by vm_compute. Qed.

Lemma boot_wp n : (n < 1000)%nat ->
  wp (new (Some example_offset) boot_env) (fun '(self, env) =>
    inv example_limit n self env /\ internal_offset self = example_offset /\
    available (allocator boot_env) (lvl4 self - example_offset) /\
    lvl4 self - example_offset + 4096 <= example_limit /\
    page_aligned (lvl4 self - example_offset) /\
    forall a, ~ reserved a -> leaf self (tables env) a = None).
Proof.
  intros Hn. apply new_wp; [apply example_offset_ok|done|apply example_room; lia].
Qed.

Lemma boot_new : new (Some example_offset) boot_env = Done boot.
Proof.
  pose proof (boot_wp 0 ltac:(lia)) as H. unfold boot.
  by destruct (new (Some example_offset) boot_env).
Qed.

Lemma boot_inv n : (n < 1000)%nat -> inv example_limit n boot.1 boot.2.
Proof.
  intros Hn. pose proof (boot_wp n Hn) as H. rewrite boot_new in H. cbn [wp] in H.
  destruct boot as [self env]. apply H.
Qed.

Lemma boot_empty a : ~ reserved a -> mapping boot.1 (tables boot.2) a = None.
Proof.
  intros Ha. pose proof (boot_wp 0 ltac:(lia)) as H. rewrite boot_new in H. cbn [wp] in H.
  destruct boot as [self env]. destruct H as (_ & _ & _ & _ & _ & H).
  apply mapping_none. by apply H.
Qed.

Lemma boot_frames_ok : frames_ok boot.1 (tables boot.2).
Proof. intros a f fl Ha. by rewrite boot_empty. Qed.

Lemma boot_represents : represents boot.1 (tables boot.2) ∅.
Proof. split; [|by intros p x]. intros a Ha. rewrite lookup_empty. by apply boot_empty. Qed.

Lemma boot_wf : wf boot.1 (tables boot.2).
Proof. apply (boot_inv 0). lia. Qed.

Lemma example_free : ~ reserved 0x400000.
Proof. by intros ?. Qed.

Lemma example_mapping : mapping boot.1 (tables boot.2) 0x400000 = None.
Proof. apply boot_empty, example_free. Qed.

#[local] Opaque boot.

Lemma example_mappable : mappable 0x400000 3.
Proof.
  split; [left; by vm_compute|]. intros k Hk.
  assert (k = 0 \/ k = 1 \/ k = 2) as [->|[->| ->]] by lia;
    (split; [left; by vm_compute|by intros ?]).
Qed.

Lemma map_correct_witness :
  mapping boot.1 (tables boot.2) 0x400000 = None /\
  exists r env', map boot.1 0x200000 0x400000 flags_rw boot.2 = Done (r, env') /\ r = Ok tt.
Proof.
  split; [exact example_mapping|].
  destruct (map_correct boot.1 example_limit 0 0x200000 0x400000 flags_rw boot.2)
    as (r & env' & H & _ & Hp); [apply boot_inv; lia|by vm_compute|done|done|done|].
  exists r, env'. split; [exact H|]. rewrite example_mapping in Hp. apply Hp.
Defined.

Lemma map_translate_witness :
  exists env', map boot.1 0x200000 0x400000 flags_rw boot.2 = Done (Ok tt, env') /\
    translate boot.1 (tables env') 0x400123 = Done (Some 0x200123).
Proof.
  destruct (map_translate boot.1 example_limit 0 0x200000 0x400000 flags_rw boot.2)
    as (env' & H & _ & Ht);
    [apply boot_inv; lia|apply boot_frames_ok|by vm_compute|done|done|done|exact example_mapping|].
  exists env'. split; [exact H|]. by rewrite Ht.
Defined.

Lemma map_unmap_roundtrip_witness :
  exists env', (let? _ := map boot.1 0x200000 0x400000 flags_rw in unmap boot.1 0x400000) boot.2
    = Done (Ok tt, env') /\ mapping boot.1 (tables env') 0x400000 = None.
Proof.
  destruct (map_unmap_roundtrip boot.1 example_limit 0 0x200000 0x400000 flags_rw boot.2)
    as (env' & H & _ & Ht);
    [apply boot_inv; lia|by vm_compute|done|done|done|exact example_mapping|].
  exists env'. split; [exact H|]. rewrite Ht by done. exact example_mapping.
Defined.

Lemma unmap_correct_witness :
  exists r env', unmap boot.1 0x400000 boot.2 = Done (r, env') /\ r = Err (NotMapped 0x400000).
Proof.
  destruct (unmap_correct boot.1 example_limit 0 0x400000 boot.2) as (r & env' & H & _ & Hp);
    [apply boot_inv; lia|done|].
  exists r, env'. split; [exact H|]. rewrite example_mapping in Hp. apply Hp.
Defined.

Lemma update_flags_correct_witness :
  exists r env', update_flags boot.1 0x400000 flags_r boot.2 = Done (r, env') /\ r = Ok tt.
Proof.
  destruct (update_flags_correct boot.1 example_limit 0 0x400000 flags_r boot.2)
    as (r & env' & H & _ & Hp); [apply boot_inv; lia|done|done|].
  exists r, env'. split; [exact H|]. rewrite example_mapping in Hp.
  apply Hp. rewrite get_page_table_leaf; [by vm_compute|apply boot_wf|exact example_free].
Defined.

Lemma map_contiguous_translate_witness :
  exists env', map_contiguous boot.1 3 0x200000 0x400000 flags_rw boot.2 = Done (Ok tt, env') /\
    translate boot.1 (tables env') 0x402fff = Done (Some 0x202fff).
Proof.
  destruct (map_contiguous_translate boot.1 example_limit 0 3 0x200000 0x400000 flags_rw boot.2)
    as (env' & H & _ & Ht & _);
    [apply boot_inv; lia|done|apply example_mappable|done|by vm_compute|done|done
    |apply boot_frames_ok|intros k Hk; apply boot_empty; by apply example_mappable|].
  exists env'. split; [exact H|]. apply (Ht 0x2fff).
  rewrite PAGE_SIZE_eq. lia.
Defined.

Lemma contiguous_roundtrip_witness :
  exists env', (let? _ := map_contiguous boot.1 3 0x200000 0x400000 flags_rw in
      unmap_contiguous boot.1 3 0x400000) boot.2 = Done (Ok tt, env').
Proof.
  destruct (contiguous_roundtrip boot.1 example_limit 0 3 0x200000 0x400000 flags_rw boot.2)
    as (env' & H & _);
    [apply boot_inv; lia|done|apply example_mappable|done|by vm_compute|done
    |intros k Hk; apply boot_empty; by apply example_mappable|].
  exists env'. exact H.
Defined.

Lemma new_correct_witness :
  exists self env', new (Some example_offset) boot_env = Done (self, env') /\
    internal_offset self = example_offset /\ translate self (tables env') 0x400000 = Done None.
Proof.
  destruct (new_correct example_limit 0 example_offset boot_env)
    as (self & env' & H & _ & Ho & _ & Ht); [by vm_compute|done|apply example_room; lia|].
  exists self, env'. split; [exact H|]. split; [exact Ho|]. apply Ht. done.
Defined.

Lemma address_space_refinement_witness :
  exists rs env' pm', run_calls boot.1
      [CMap 0x200000 0x400000 flags_rw; CTranslate 0x400010; CUnmap 0x400000] boot.2
    = Done (rs, env') /\
    spec_steps ∅ [CMap 0x200000 0x400000 flags_rw; CTranslate 0x400010; CUnmap 0x400000] rs pm'.
Proof.
  destruct (address_space_refinement boot.1 example_limit 0
      [CMap 0x200000 0x400000 flags_rw; CTranslate 0x400010; CUnmap 0x400000] boot.2 ∅)
    as (rs & env' & pm' & H & Hs & _);
    [apply boot_inv; simpl; lia|apply boot_represents|repeat constructor; by vm_compute|].
  exists rs, env', pm'. split; [exact H|exact Hs].
Defined.

Lemma page_indices_identify_pages_witness :
  (exists i, get_page_index 3 0xFFFF800000123456 = Done i /\ 0 <= i < 512) /\
  get_page_index 2 0xFFFF800000123456 = get_page_index 2 0xFFFF800000123FFF.
Proof.
  destruct (page_indices_identify_pages 0xFFFF800000123456 0xFFFF800000123FFF) as [H1 [_ H2]];
    [address|address|].
  split; [apply H1; lia|]. apply H2; [reflexivity|lia].
Defined.

Lemma recursive_address_witness :
  get_page_table boot.1 (tables boot.2) 1 RECURSIVE_LEVEL4 = Done (Some (lvl4 boot.1)) /\
  get_page_table boot.1 (tables boot.2) 1 LEVEL4 = Done None.
Proof.
  destruct (recursive_address boot.1 (tables boot.2)) as (H1 & _ & _ & _ & H2);
    [apply boot_wf|].
  split; [exact H1|]. rewrite H2. vm_compute. reflexivity.
Defined.
