(* ===== verification/PageTableDebug.v ===== *)
(** The listing of the page tables ([impl Debug for RecursivePageTable] of
    [memory/paging/page_table.rs]): it terminates, reads page tables only, and lists every
    table and every mapped page, the ones behind the recursive entry included. *)
From Stdlib Require Import Ascii String.
From S2P Require Import Prelude Format X86 Memory FrameAllocation PageTable PageTableProofs.
Import RecursivePageTable.

Section debug.
Context {X : X86}.

Abbreviation Tables := (gmap Z PageTable).

(** The formatter: [W] is what it writes to, [write] is [Formatter::write_fmt] of a
    formatted text, which can fail with [fmt::Error]. [entry_debug] is the crate's
    [{:x?}] of a page table entry. *)
Context {W : Type} (write : list Z -> M W (result unit unit)) (entry_debug : PageTableEntry -> list Z).

(** The texts of the [write!] calls. *)
Definition page_line (i : Z) (entry : PageTableEntry) : list Z :=
  replicate 4 9 ++ decimal i ++ chars " => " ++ entry_debug entry ++ [10].
Definition table_line (level i next below : Z) : list Z :=
  chars "(table level " ++ decimal level ++ chars ")[" ++ decimal i ++ chars "] = " ++ pointer next
  ++ chars " = (table level " ++ decimal below ++ chars ") " ++ [10].

Definition debug_page (m : Tables) (page : Z) : M W (result unit unit) :=
  for_each (range 0 512) (fun i =>
    let^ entry := read_entry m page i in
    if negb (entry_is_unused entry) then write (page_line i entry) else ret (Ok tt)).

(** The [if] for the recursive entry has no body. A table of level [level] needs [level]
    units of fuel ([debug_recursive_eq]). *)
Fixpoint debug_recursive (fuel : nat) (self : RecursivePageTable) (m : Tables) (level current : Z) :
    M W (result unit unit) :=
  match fuel with
  | O => fun _ => OutOfFuel
  | S fuel =>
      if level =? 1 then debug_page m current else
      for_each (range 0 512) (fun i =>
        let^ entry := read_entry m current i in
        if negb (entry_is_unused entry) then
          let^ next := phys_page_table_as_virt self (entry_addr entry) in
          let^ tabs := u64_sub 4 level in
          let? _ := for_each (range 0 tabs) (fun _ => write [9]) in
          let^ below := u64_sub level 1 in
          let? _ := write (table_line level i next below) in
          debug_recursive fuel self m below next
        else ret (Ok tt))
  end.

(** [Debug::fmt]. *)
Definition fmt (self : RecursivePageTable) (m : Tables) : M W (result unit unit) :=
  debug_recursive 4 self m 4 (lvl4 self).

End debug.

(** ** The listing *)

Section listing.
Context {X : X86} {XL : X86Laws} (entry_debug : PageTableEntry -> list Z).

Abbreviation Tables := (gmap Z PageTable).
Implicit Types (m : Tables) (self : RecursivePageTable).

(** The entries in use of the table at [q], with their indices. *)
Definition entries m (q : Z) : list (Z * PageTableEntry) :=
  match m !! q with
  | None => []
  | Some t => List.filter (fun '(_, e) => negb (entry_is_unused e))
                ((fun i => (i, page_table_get t i)) <$> range 0 512)
  end.

(** The texts for the table at [q] of level [S depth]. *)
Fixpoint listing (depth : nat) self m (q : Z) : list (list Z) :=
  match depth with
  | O => (fun '(i, e) => page_line entry_debug i e) <$> entries m q
  | S below =>
      entries m q ≫= (fun '(i, e) =>
        let next := entry_addr e + internal_offset self in
        replicate (3 - depth) [9]
        ++ table_line (Z.of_nat depth + 1) i next (Z.of_nat depth) :: listing below self m next)
  end.

(** A loop whose body writes the texts of an element writes the texts of all. *)
Lemma for_each_texts {W A} (write : list Z -> M W (result unit unit))
    (body : A -> M W (result unit unit)) (texts : A -> list (list Z)) l :
  (forall x, x ∈ l -> forall w, body x w = for_each (texts x) write w) ->
  forall w, for_each l body w = for_each (l ≫= texts) write w.
Proof.
  induction l as [|x l IH]; intros Hb w; [done|]. cbn [mbind list_bind].
  change (flat_map texts l) with (l ≫= texts).
  cbn [for_each]. rewrite for_each_app. unfold bind_ok, bind. rewrite Hb by left.
  destruct (for_each (texts x) write w) as [[[[]|e] w']| | |]; simpl; [|done..].
  apply IH. intros y Hy. apply Hb. by right.
Qed.

(** The texts of the entries, from texts for each index. *)
Lemma bind_entries {B} m q t (f : Z * PageTableEntry -> list B) :
  m !! q = Some t ->
  entries m q ≫= f = range 0 512 ≫= (fun i =>
    if negb (entry_is_unused (page_table_get t i)) then f (i, page_table_get t i) else []).
Proof.
  intros Hq. unfold entries. rewrite Hq. induction (range 0 512) as [|i l IH]; [done|].
  cbn. destruct (entry_is_unused _); cbn; by rewrite <- IH.
Qed.

(** ** Tables behind the recursive entry *)

(** Paths may pass through entry 510 of the root: they lead to tables all the same. *)
Lemma any_table self m path : forall q,
  wf self m -> (length path <= 3)%nat -> Forall (fun i => 0 <= i < 512) path ->
  resolve self m path = Some q -> is_Some (m !! q) /\ canonical q.
Proof.
  induction path as [|i path IH]; intros q Hwf Hl Hf Hq.
  { by apply (wf_table _ _ Hwf []); [apply valid_path_nil|]. }
  destruct (decide (i = 510)) as [->|Hi].
  - apply IH; [done|simpl in Hl; lia|by apply Forall_cons in Hf as [_ ?]|].
    rewrite <- Hq. unfold resolve. cbn [foldl]. simpl. by rewrite (wf_recursive _ _ Hwf).
  - apply (wf_table _ _ Hwf (i :: path)); [|done]. split_and!; [done|done|]. simpl. congruence.
Qed.

Lemma resolve_step self m path i q t :
  resolve self m path = Some q -> m !! q = Some t ->
  entry_is_unused (page_table_get t i) = false ->
  resolve self m (path ++ [i]) = Some (entry_addr (page_table_get t i) + internal_offset self).
Proof. intros Hq Ht Hu. rewrite resolve_snoc, Hq. unfold child. simpl. rewrite Ht. simpl. by rewrite Hu. Qed.

Section run.
Context {W : Type} (write : list Z -> M W (result unit unit)).

Lemma debug_page_eq m q t w :
  m !! q = Some t ->
  debug_page write entry_debug m q w
  = for_each ((fun '(i, e) => page_line entry_debug i e) <$> entries m q) write w.
Proof.
  intros Ht. unfold debug_page.
  assert (((fun '(i, e) => page_line entry_debug i e) <$> entries m q)
    = entries m q ≫= (fun '(i, e) => [page_line entry_debug i e])) as ->.
  { induction (entries m q) as [|[i e] l IH]; [done|]. cbn. by f_equal. }
  rewrite (bind_entries m q t) by done. apply for_each_texts. intros i Hi w'.
  apply elem_of_range in Hi. unfold bind, lift. rewrite (read_entry_eq m q t) by done. simpl.
  destruct (entry_is_unused _); simpl; [done|].
  unfold bind_ok, bind. by destruct (write _ w') as [[[[]|[]] ?]| | |].
Qed.

Lemma for_each_tabs n w :
  for_each (range 0 (Z.of_nat n)) (fun _ => write [9]) w = for_each (replicate n [9]) write w.
Proof.
  assert (replicate n [9] = range 0 (Z.of_nat n) ≫= (fun _ => [[9]])) as ->.
  { replace n with (length (range 0 (Z.of_nat n))) at 1 by (unfold range; rewrite length_seqZ; lia).
    induction (range 0 (Z.of_nat n)) as [|i l IH]; [done|]. cbn. by f_equal. }
  apply for_each_texts. intros i _ w'. simpl. unfold bind_ok, bind.
  by destruct (write _ w') as [[[[]|[]] ?]| | |].
Qed.

Lemma debug_recursive_eq self m depth : forall path q w,
  wf self m -> (length path + depth = 3)%nat -> Forall (fun i => 0 <= i < 512) path ->
  resolve self m path = Some q ->
  debug_recursive write entry_debug (S depth) self m (Z.of_nat depth + 1) q w
  = for_each (listing depth self m q) write w.
Proof.
  induction depth as [|depth IH]; intros path q w Hwf Hl Hf Hq;
    destruct (any_table self m path q) as [[t Ht] Hc]; try done; try lia.
  { by apply debug_page_eq with (t := t). }
  cbn [debug_recursive listing]. rewrite (proj2 (Z.eqb_neq _ _)) by lia.
  rewrite (bind_entries m q t) by done. apply for_each_texts. intros i Hi w'.
  apply elem_of_range in Hi. unfold bind at 1, lift at 1. rewrite (read_entry_eq m q t) by done.
  cbn [obind]. destruct (entry_is_unused _) eqn:Hu; cbn [negb]; [done|].
  pose proof (resolve_step self m path i q t Hq Ht Hu) as Hnext.
  assert (Forall (fun i => 0 <= i < 512) (path ++ [i])) as Hf' by (apply Forall_app; auto).
  assert (length (path ++ [i]) <= 3)%nat as Hl' by (rewrite length_app; simpl; lia).
  destruct (any_table self m (path ++ [i]) _ Hwf Hl' Hf' Hnext) as [_ Hcan].
  pose proof (wf_offset _ _ Hwf).
  unfold phys_page_table_as_virt, u64_add.
  rewrite (proj2 (Z.ltb_lt _ u64_bound)) by (unfold u64_bound; unfold canonical in Hcan; lia).
  cbn [obind]. rewrite virt_new_canonical by done.
  rewrite for_each_app. unfold bind_ok, bind, lift, u64_sub.
  rewrite (proj2 (Z.leb_le _ 4)), (proj2 (Z.leb_le 1 _)) by lia. cbn [obind].
  replace (4 - (Z.of_nat (S depth) + 1)) with (Z.of_nat (3 - S depth)) by lia.
  replace (Z.of_nat (S depth) + 1 - 1) with (Z.of_nat (S depth)) by lia.
  rewrite for_each_tabs.
  destruct (for_each (replicate _ _) write w') as [[[[]|e] w1]| | |]; cbn [obind for_each]; [|done..].
  unfold bind_ok, bind.
  replace (Z.of_nat (S depth)) with (Z.of_nat depth + 1) by lia.
  destruct (write _ w1) as [[[[]|e] w2]| | |]; cbn [obind for_each]; [|done..].
  apply (IH (path ++ [i])); [done|rewrite length_app; simpl; lia|done|done].
Qed.
End run.
(** ** What is listed *)

Lemma elem_of_entries m q t i :
  m !! q = Some t -> 0 <= i < 512 -> entry_is_unused (page_table_get t i) = false ->
  (i, page_table_get t i) ∈ entries m q.
Proof.
  intros Ht Hi Hu. unfold entries. rewrite Ht. apply list_elem_of_In, filter_In. split.
  - apply list_elem_of_In, list_elem_of_fmap. exists i. split; [done|by apply elem_of_range].
  - by rewrite Hu.
Qed.

(** The listing of a table holds the listing of its children. *)
Lemma listing_child self m depth i q q' x :
  0 <= i < 512 -> child self m i q = Some q' ->
  x ∈ listing depth self m q' -> x ∈ listing (S depth) self m q.
Proof.
  intros Hi Hc Hx. unfold child in Hc. destruct (m !! q) as [t|] eqn:Ht; [|done]. simpl in Hc.
  destruct (entry_is_unused (page_table_get t i)) eqn:Hu; [done|]. injection Hc as <-.
  cbn [listing]. apply list_elem_of_bind. exists (i, page_table_get t i). split.
  - apply elem_of_app. right. by right.
  - by apply (elem_of_entries m q t).
Qed.

Lemma listing_path self m path : forall x,
  wf self m -> (length path <= 3)%nat -> Forall (fun i => 0 <= i < 512) path ->
  forall q, resolve self m path = Some q ->
  x ∈ listing (3 - length path) self m q -> x ∈ listing 3 self m (lvl4 self).
Proof.
  induction path as [|i path IH] using rev_ind; intros x Hwf Hl Hf q Hq Hx.
  { injection Hq as <-. done. }
  rewrite length_app in Hl, Hx. simpl in Hl, Hx. apply Forall_app in Hf as [Hf Hi].
  apply Forall_cons in Hi as [Hi _]. rewrite resolve_snoc in Hq.
  destruct (resolve self m path) as [q0|] eqn:Hq0; [|done]. simpl in Hq.
  apply (IH x Hwf ltac:(lia) Hf q0 eq_refl).
  replace (3 - length path)%nat with (S (3 - (length path + 1))) by lia.
  exact (listing_child self m _ i q0 q x Hi Hq Hx).
Qed.

Lemma page_listed self m path q t i :
  wf self m -> length path = 3%nat -> Forall (fun i => 0 <= i < 512) path ->
  resolve self m path = Some q -> m !! q = Some t -> 0 <= i < 512 ->
  entry_is_unused (page_table_get t i) = false ->
  page_line entry_debug i (page_table_get t i) ∈ listing 3 self m (lvl4 self).
Proof.
  intros Hwf Hl Hf Hq Ht Hi Hu. apply (listing_path self m path) with (q := q); [done|lia|done|done|].
  rewrite Hl. apply list_elem_of_fmap. exists (i, page_table_get t i).
  split; [done|]. by apply (elem_of_entries m q t).
Qed.

(** C17: printing well-formed page tables terminates without a fault or a panic, and writes
    exactly the lines of their listing, in order, stopping where the formatter reports an
    error. The listing has a line for every mapped page; the recursive entry is followed
    like any other, so that the root's own entries, which map no page, are listed as
    pages too. *)
Theorem debug_lists_tables self m (Hwf : wf self m) :
  (forall W (write : list Z -> M W (result unit unit)) w,
     fmt write entry_debug self m w = for_each (listing 3 self m (lvl4 self)) write w) /\
  (forall addr e, ~ reserved addr -> leaf self m addr = Some e ->
     page_line entry_debug (page_index 1 addr) e ∈ listing 3 self m (lvl4 self)) /\
  (forall t i, m !! lvl4 self = Some t -> 0 <= i < 512 ->
     entry_is_unused (page_table_get t i) = false ->
     page_line entry_debug i (page_table_get t i) ∈ listing 3 self m (lvl4 self)).
Proof.
  split_and!.
  - intros W write w. by apply (debug_recursive_eq write self m 3 []).
  - intros addr e Hr Hleaf. unfold leaf in Hleaf.
    destruct (resolve self m (table_path addr)) as [q|] eqn:Hq; [|done]. simpl in Hleaf.
    destruct (m !! q) as [t|] eqn:Ht; [|done]. simpl in Hleaf.
    destruct (entry_is_unused _) eqn:Hu; [done|]. injection Hleaf as <-.
    pose proof (table_path_valid addr 3 Hr) as (_ & Hf & _).
    by apply (page_listed self m (table_path addr) q); try done; apply page_index_bounds.
  - intros t i Ht Hi Hu. apply (page_listed self m [510; 510; 510] (lvl4 self)); try done.
    + repeat constructor; lia.
    + unfold resolve. cbn [foldl].
      repeat (cbn [mbind option_bind]; rewrite (wf_recursive _ _ Hwf)). done.
Qed.

End listing.

(** *** Instances *)

#[local] Existing Instances X86Model.x86 X86Model.x86_laws.

(** A root with its recursive entry only, and a formatter that collects the texts. *)
Definition debug_root_entry : @PageTableEntry X86Model.x86 := (0x200000, 3).
Definition show_entry (e : @PageTableEntry X86Model.x86) : list Z := decimal (entry_addr e).
Definition debug_tables : gmap Z (@PageTable X86Model.x86) :=
  {[ 0x300000 := page_table_set page_table_new 510 debug_root_entry ]}.
Definition collect (t : list Z) : M (list (list Z)) (result unit unit) :=
  let! w := get in let! _ := put (w ++ [t]) in ret (Ok tt).

Lemma debug_lists_tables_witness :
  fmt collect show_entry (mk 0x300000 0x100000) debug_tables []
  = Done (Ok tt, [table_line 4 510 0x300000 3; [9]; table_line 3 510 0x300000 2; [9]; [9];
                  table_line 2 510 0x300000 1; page_line show_entry 510 debug_root_entry]).
Proof.
  destruct (debug_lists_tables show_entry
    (mk 0x300000 0x100000) debug_tables) as [H _].
  - apply (fresh_root_wf ∅ 0x200000 0x100000 debug_root_entry); [done|left; by vm_compute|done|done].
  - rewrite H. vm_compute. reflexivity.
Defined.
