(* ===== verification/Mmu.v ===== *)
(** Page tables as the processor uses them: once a level-4 table is loaded, an access to a
    virtual address, also one of the kernel to a page table, goes through it. What the code
    finds then is a view of the tables in memory. *)
From S2P Require Import Prelude X86 Memory FrameAllocation PageTable PageTableProofs PageTableSpec.
Import RecursivePageTable.

Section mmu.
Context {X : X86} {XL : X86Laws}.

Abbreviation Tables := (gmap Z PageTable).
Implicit Types (m view : Tables) (self : RecursivePageTable).

(** Where the processor's walk from the root of [self] leads for the page of [v]: the frame,
    as its address in the offset mapping, by which [m] holds the tables. *)
Definition mmu self m (v : Z) : option Z :=
  match get_page_table self m 1 v with
  | Done (Some q) => child self m (page_index 1 v) q
  | _ => None
  end.

(** [view] holds the tables of [m] at the virtual addresses that lead to them. *)
Definition sees self m view : Prop :=
  forall v t, view !! v = Some t -> exists q, mmu self m v = Some q /\ m !! q = Some t.

(** For addresses outside the recursive region it is the leaf entry. *)
Lemma mmu_leaf self m v :
  wf self m -> ~ reserved v ->
  mmu self m v = (fun e => entry_addr e + internal_offset self) <$> leaf self m v.
Proof.
  intros Hwf Hr. unfold mmu, leaf, child. rewrite get_page_table_leaf by done.
  destruct (resolve self m (table_path v)) as [q|]; [|done]. simpl.
  destruct (m !! q); [|done]. simpl. by destruct (entry_is_unused _).
Qed.

(** The recursive address leads to the root. *)
Lemma mmu_recursive self m : wf self m -> mmu self m RECURSIVE_LEVEL4 = Some (lvl4 self).
Proof.
  intros Hwf. unfold mmu. rewrite get_page_table_recursive by done.
  change (page_index 1 RECURSIVE_LEVEL4) with 510. apply Hwf.
Qed.

(** [LEVEL4] leads to the level-1 table of the last two MiB, if there is one. *)
Lemma mmu_LEVEL4 self m : wf self m -> mmu self m LEVEL4 = resolve self m [511; 511; 511].
Proof.
  intros Hwf. unfold mmu. rewrite get_page_table_LEVEL4 by done.
  pose proof (resolve_snoc self m [511; 511] 511) as Hs. cbn [app] in Hs. rewrite Hs.
  by destruct (resolve self m [511; 511]).
Qed.

Lemma mmu_LEVEL4_not_root self m : wf self m -> mmu self m LEVEL4 <> Some (lvl4 self).
Proof.
  intros Hwf. rewrite mmu_LEVEL4 by done. intros Hq.
  assert ([511; 511; 511] = []) as Heq; [|done].
  eapply wf_tree; [done| |apply valid_path_nil|exact Hq|done].
  split_and!; simpl; [lia|repeat constructor; lia|done].
Qed.

Lemma sees_unmapped self m view v : sees self m view -> mmu self m v = None -> view !! v = None.
Proof.
  intros Hs Hv. destruct (view !! v) as [t|] eqn:Ht; [|done].
  destruct (Hs v t Ht) as (q & Hq & _). congruence.
Qed.

(** ** Operations without a root *)

(** Where no table is at the root's address, every walk faults there. *)
Lemma walk_faults self view lvl to :
  view !! lvl4 self = None -> 1 <= lvl <= 3 ->
  get_page_table self view lvl to = Faulted (lvl4 self).
Proof.
  intros Hv Hl. unfold get_page_table. rewrite !(proj2 (Z.leb_le _ _)) by lia. cbn [andb negb].
  rewrite range_cons by lia. cbn [descend]. rewrite get_page_index_eq by lia. cbn [obind].
  unfold read_entry, deref. by rewrite Hv.
Qed.

Lemma translate_faults self view a :
  view !! lvl4 self = None -> translate self view a = Faulted (lvl4 self).
Proof. intros Hv. unfold translate. by rewrite walk_faults by (done || lia). Qed.

Section operations.
Context {F : Type} {FA : FrameAllocator F}.

Lemma map_faults self from to flags (env : Env F) :
  tables env !! lvl4 self = None -> ~ reserved to ->
  map self from to flags env = Faulted (lvl4 self).
Proof.
  intros Hv Hr. unfold map, bind at 1, lift at 1. rewrite get_page_index_eq by lia. cbn [obind].
  rewrite (proj2 (Z.eqb_neq _ _)) by exact Hr. rewrite range_cons by lia. cbn [map_levels].
  unfold bind at 1, get at 1. cbn [obind]. unfold bind at 1, lift at 1.
  by rewrite walk_faults by (done || lia).
Qed.

Lemma unmap_faults self a (env : Env F) :
  tables env !! lvl4 self = None -> unmap self a env = Faulted (lvl4 self).
Proof.
  intros Hv. unfold unmap, bind at 1, get at 1. cbn [obind]. unfold bind at 1, lift at 1.
  by rewrite walk_faults by (done || lia).
Qed.

Lemma pages_of_block pages : 0 < pages < 2 ^ 40 ->
  u64_mul pages PAGE_SIZE = Done (pages * PAGE_SIZE) /\
  exists l, range_step 0 (pages * PAGE_SIZE) PAGE_SIZE = 0 :: l.
Proof.
  intros Hp. rewrite PAGE_SIZE_eq. split.
  { unfold u64_mul. by rewrite (proj2 (Z.ltb_lt _ _)) by (unfold u64_bound; lia). }
  unfold range_step. rewrite Z.sub_0_r, div_ceil_mul, seqZ_cons by lia. by eexists.
Qed.

Lemma map_contiguous_faults self pages from to flags (env : Env F) :
  tables env !! lvl4 self = None -> ~ reserved to -> 0 < pages < 2 ^ 40 ->
  phys_valid from -> canonical to ->
  map_contiguous self pages from to flags env = Faulted (lvl4 self).
Proof.
  intros Hv Hr Hp Hf Hc. destruct (pages_of_block pages Hp) as (Hm & l & Hl).
  unfold map_contiguous, bind at 1, lift at 1. rewrite Hm. cbn [obind]. rewrite Hl. cbn [for_each].
  unfold bind_ok, bind at 1. unfold bind at 1, lift at 1.
  rewrite phys_add_valid by (rewrite ?Z.add_0_r; done || lia). cbn [obind].
  unfold bind at 1, lift at 1. rewrite virt_add_canonical by (rewrite ?Z.add_0_r; done || lia). cbn [obind].
  by rewrite !Z.add_0_r, map_faults.
Qed.

Lemma unmap_contiguous_faults self pages a (env : Env F) :
  tables env !! lvl4 self = None -> 0 < pages < 2 ^ 40 -> canonical a ->
  unmap_contiguous self pages a env = Faulted (lvl4 self).
Proof.
  intros Hv Hp Hc. destruct (pages_of_block pages Hp) as (Hm & l & Hl).
  unfold unmap_contiguous, bind at 1, lift at 1. rewrite Hm. cbn [obind]. rewrite Hl. cbn [for_each].
  unfold bind_ok, bind at 1. unfold bind at 1, lift at 1.
  rewrite virt_add_canonical by (rewrite ?Z.add_0_r; done || lia). cbn [obind].
  by rewrite !Z.add_0_r, unmap_faults.
Qed.

End operations.
End mmu.
