(* ===== verification/Framebuffer.v ===== *)
(** The linear framebuffer ([display/linear_framebuffer.rs]): a slice of 32-bit
    pixels, plotted one by one, glyph by glyph, cleared and scrolled. *)
From S2P Require Import Prelude.

(** [Framebuffer] of the boot protocol, as far as the kernel reads it; [fb_memory]
    is the memory behind [address], as 32-bit words. *)
Record BootFramebuffer : Type := {
  fb_bpp : Z;
  fb_width : Z;
  fb_height : Z;
  fb_memory : list Z
}.

Module LinearFramebuffer.

Inductive LinearFramebufferError : Type := UnsupportedPixelDepth | OutOfBounds.

(** [struct LinearFramebuffer]; [dimensions] is (width, height). *)
Record LinearFramebuffer : Type := mk {
  dimensions : Z * Z;
  buffer : list Z
}.

Definition width (self : LinearFramebuffer) : Z := (dimensions self).1.
Definition height (self : LinearFramebuffer) : Z := (dimensions self).2.
Definition set_buffer (l : list Z) (self : LinearFramebuffer) : LinearFramebuffer :=
  mk (dimensions self) l.

(** [slice::from_raw_parts_mut] over the pixels the boot loader describes. *)
Definition new (framebuffer : BootFramebuffer) :
    outcome (result LinearFramebuffer LinearFramebufferError) :=
  if negb (fb_bpp framebuffer =? 32) then Done (Err UnsupportedPixelDepth) else
  let* pixels := u64_mul (fb_width framebuffer) (fb_height framebuffer) in
  Done (Ok (mk (fb_width framebuffer, fb_height framebuffer)
              (take (Z.to_nat pixels) (fb_memory framebuffer)))).

Definition plot (x y color : Z) : M LinearFramebuffer unit :=
  let! self := get in
  let^ line := u64_mul y (width self) in
  let^ offset := u64_add x line in
  let^ pixels := index_set (buffer self) offset color in
  put (set_buffer pixels self).

(** The place and the colors [plot_glyph] is called with. *)
Record Glyph : Type := mkGlyph {
  g_x : Z; g_y : Z; g_width : Z; g_height : Z;
  g_color : Z; g_background : Z
}.

(** The loop over the bits of one byte. [None]: the loop was left with
    [break 'outer]; otherwise the next [current_x] and [current_y]. *)
Fixpoint plot_bits (g : Glyph) (glyph_byte : Z) (bits : list Z) (current_x current_y : Z) :
    M LinearFramebuffer (option (Z * Z)) :=
  match bits with
  | [] => ret (Some (current_x, current_y))
  | bit :: bits =>
      let used_color :=
        if Z.land (Z.shiftr glyph_byte (7 - bit)) 1 =? 0 then g_background g else g_color g in
      let^ px := u64_add current_x (g_x g) in
      let^ py := u64_add current_y (g_y g) in
      let! _ := plot px py used_color in
      let^ current_x := u64_add current_x 1 in
      if g_width g <=? current_x then
        let^ current_y := u64_add current_y 1 in
        if g_height g <=? current_y then ret None
        else plot_bits g glyph_byte bits 0 current_y
      else plot_bits g glyph_byte bits current_x current_y
  end.

(** The loop over the bytes of the bitmap. *)
Fixpoint plot_bytes (g : Glyph) (glyph_bitmap : list Z) (current_x current_y : Z) :
    M LinearFramebuffer unit :=
  match glyph_bitmap with
  | [] => ret tt
  | glyph_byte :: glyph_bitmap =>
      let! next := plot_bits g glyph_byte (range 0 8) current_x current_y in
      match next with
      | None => ret tt
      | Some (current_x, current_y) => plot_bytes g glyph_bitmap current_x current_y
      end
  end.

Definition plot_glyph (g : Glyph) (glyph_bitmap : list Z) :
    M LinearFramebuffer (result unit LinearFramebufferError) :=
  let! self := get in
  let^ right := u64_add (g_x g) (g_width g) in
  let^ out := (if width self <? right then Done true
               else let* bottom := u64_add (g_y g) (g_height g) in
                    Done (height self <? bottom)) in
  if (out : bool) then ret (Err OutOfBounds) else
  let! _ := plot_bytes g glyph_bitmap 0 0 in
  ret (Ok tt).

Definition clear (color : Z) : M LinearFramebuffer unit :=
  let! self := get in
  put (set_buffer (replicate (length (buffer self)) color) self).

(** [ptr::copy(buffer + src, buffer + dst, count)]: a copy of overlapping memory; it
    leaves the buffer when a range exceeds it. *)
Definition ptr_copy (l : list Z) (src dst count : Z) : outcome (list Z) :=
  if (src + count <=? Z.of_nat (length l)) && (dst + count <=? Z.of_nat (length l))
  then Done (take (Z.to_nat dst) l ++ take (Z.to_nat count) (drop (Z.to_nat src) l)
             ++ drop (Z.to_nat (dst + count)) l)
  else Faulted src.

(** [buffer.as_mut_ptr().add(i).write(color)]. *)
Definition ptr_write (l : list Z) (i color : Z) : outcome (list Z) :=
  if i <? Z.of_nat (length l) then Done (<[Z.to_nat i := color]> l) else Faulted i.

Definition scroll (layers color : Z) : M LinearFramebuffer unit :=
  let! self := get in
  let^ src := u64_mul layers (width self) in
  let^ kept := u64_sub (height self) layers in
  let^ count := u64_mul (width self) kept in
  let^ pixels := ptr_copy (buffer self) src 0 count in
  let! _ := put (set_buffer pixels self) in
  let^ cleared := u64_mul layers (width self) in
  for_all (range 0 cleared) (fun i =>
    let! self := get in
    let^ kept := u64_sub (height self) layers in
    let^ start := u64_mul (width self) kept in
    let^ at_ := u64_add start i in
    let^ pixels := ptr_write (buffer self) at_ color in
    put (set_buffer pixels self)).

End LinearFramebuffer.
