(* ===== verification/FramebufferProofs.v ===== *)
(** What the framebuffer's operations do to the pixels of the screen. *)
From S2P Require Import Prelude Framebuffer.
Import LinearFramebuffer.

(** ** Pixels *)

(** The buffer holds one pixel per position of the screen. *)
Record wf (fb : LinearFramebuffer) : Prop := {
  wf_width : 0 <= width fb < u64_bound;
  wf_height : 0 <= height fb < u64_bound;
  wf_area : width fb * height fb < u64_bound;
  wf_length : Z.of_nat (length (buffer fb)) = width fb * height fb
}.

Definition pixel (fb : LinearFramebuffer) (x y : Z) : option Z :=
  buffer fb !! Z.to_nat (x + y * width fb).

Definition on_screen (fb : LinearFramebuffer) (x y : Z) : Prop :=
  0 <= x < width fb /\ 0 <= y < height fb.

#[export] Instance on_screen_dec fb x y : Decision (on_screen fb x y).
Proof. unfold on_screen. apply _. Defined.

Lemma on_screen_offset fb x y :
  on_screen fb x y -> 0 <= x + y * width fb < width fb * height fb.
Proof. intros [Hx Hy]. nia. Qed.

Lemma offset_inj fb x y x' y' :
  on_screen fb x y -> on_screen fb x' y' -> x + y * width fb = x' + y' * width fb ->
  x = x' /\ y = y'.
Proof.
  intros [Hx Hy] [Hx' Hy'] Heq. assert (y = y') by nia. subst. lia.
Qed.

Lemma wf_set_buffer fb l :
  wf fb -> length l = length (buffer fb) -> wf (set_buffer l fb).
Proof. intros [Hw Hh Ha Hl] Hlen. constructor; try done. simpl. by rewrite Hlen. Qed.

(** ** Plotting *)

Lemma plot_wp fb x y color Q :
  wf fb -> on_screen fb x y ->
  (forall fb', wf fb' -> dimensions fb' = dimensions fb ->
     (forall px py, on_screen fb px py -> pixel fb' px py
        = if decide (px = x /\ py = y) then Some color else pixel fb px py) ->
     Q (tt, fb')) ->
  wp (plot x y color fb) Q.
Proof.
  intros Hwf Hs HQ. pose proof (on_screen_offset _ _ _ Hs) as Ho.
  pose proof Hwf as [Hw Hh Ha Hl]. destruct Hs as [Hx Hy].
  unfold plot. wp_step. unfold get. cbn [wp].
  wp_step. wp_step. apply wp_u64_mul; [nia|]. wp_step. wp_step.
  apply wp_u64_add; [lia|]. wp_step. wp_step.
  apply wp_index_set; [lia|]. wp_steps. apply HQ; [|done|].
  - apply wf_set_buffer; [done|]. by rewrite length_insert.
  - intros px py Hp. unfold pixel. change (width (set_buffer _ fb)) with (width fb). simpl.
    pose proof (on_screen_offset _ _ _ Hp). case_decide as Heq.
    + destruct Heq as [-> ->]. apply list_lookup_insert_eq. lia.
    + apply list_lookup_insert_ne. intros Hn. apply Heq.
      destruct (offset_inj fb x y px py) as [-> ->]; done || lia.
Qed.

(** ** Glyphs *)

(** Bit [n] of a glyph bitmap, the first bit being the highest of the first byte. *)
Definition glyph_bit (bitmap : list Z) (n : Z) : bool :=
  Z.testbit (default 0 (bitmap !! Z.to_nat (n / 8))) (7 - n mod 8).

Definition glyph_color (g : Glyph) (bitmap : list Z) (n : Z) : Z :=
  if glyph_bit bitmap n then g_color g else g_background g.

Definition in_glyph (g : Glyph) (x y : Z) : Prop :=
  g_x g <= x < g_x g + g_width g /\ g_y g <= y < g_y g + g_height g.

#[export] Instance in_glyph_dec g x y : Decision (in_glyph g x y).
Proof. unfold in_glyph. apply _. Defined.

(** The index of a pixel in its glyph, counted line by line. *)
Definition glyph_index (g : Glyph) (x y : Z) : Z := (y - g_y g) * g_width g + (x - g_x g).

(** [fb'] is [fb] with the first [n] pixels of the glyph plotted. *)
Definition plotted (g : Glyph) (bitmap : list Z) (fb : LinearFramebuffer) (n : Z)
    (fb' : LinearFramebuffer) : Prop :=
  wf fb' /\ dimensions fb' = dimensions fb /\
  forall x y, on_screen fb x y -> pixel fb' x y
    = if decide (in_glyph g x y /\ glyph_index g x y < n)
      then Some (glyph_color g bitmap (glyph_index g x y)) else pixel fb x y.

Definition fits (g : Glyph) (fb : LinearFramebuffer) : Prop :=
  0 <= g_x g /\ 0 <= g_y g /\ 0 < g_width g /\ 0 < g_height g /\
  g_x g + g_width g <= width fb /\ g_y g + g_height g <= height fb.

Section glyph.
Context (g : Glyph) (bitmap : list Z) (fb : LinearFramebuffer) (Hfb : wf fb) (Hfits : fits g fb).

Lemma in_glyph_index x y cx cy :
  in_glyph g x y -> 0 <= cx < g_width g -> 0 <= cy ->
  glyph_index g x y = cy * g_width g + cx -> x = cx + g_x g /\ y = cy + g_y g.
Proof. unfold in_glyph, glyph_index. intros [Hx Hy] Hcx Hcy Heq. assert (y - g_y g = cy) by nia. nia. Qed.

(** One turn of the loop over bits. *)
Lemma plotted_next n cx cy color fb' Q :
  plotted g bitmap fb n fb' -> n = cy * g_width g + cx ->
  0 <= cx < g_width g -> 0 <= cy < g_height g -> color = glyph_color g bitmap n ->
  (forall fb'', plotted g bitmap fb (n + 1) fb'' -> Q (tt, fb'')) ->
  wp (plot (cx + g_x g) (cy + g_y g) color fb') Q.
Proof.
  intros (Hwf & Hd & Hp) Hn Hcx Hcy -> HQ. destruct Hfits as (? & ? & ? & ? & ? & ?).
  assert (width fb' = width fb /\ height fb' = height fb) as [Hw Hh]
    by (unfold width, height; by rewrite Hd).
  apply plot_wp; [done| |].
  { unfold on_screen. rewrite Hw, Hh. lia. }
  intros fb'' Hwf' Hd' Hp'. apply HQ. split; [done|]. split; [by rewrite Hd', Hd|].
  intros x y Hs. rewrite Hp' by (unfold on_screen; by rewrite Hw, Hh).
  rewrite Hp by done. destruct (decide (x = cx + g_x g /\ y = cy + g_y g)) as [[-> ->]|Hne].
  - assert (glyph_index g (cx + g_x g) (cy + g_y g) = n) as Hi by (unfold glyph_index; nia).
    rewrite decide_True; [by rewrite Hi|]. unfold in_glyph. lia.
  - destruct (decide (in_glyph g x y)) as [Hin|Hin].
    + assert (glyph_index g x y <> n) as Hni.
      { intros Heq. apply Hne. apply in_glyph_index; try done; lia. }
      repeat case_decide; try done; exfalso; intuition lia.
    + by rewrite !decide_False by (by intros [? _]).
Qed.

Lemma glyph_bit_shift k b byte :
  bitmap !! Z.to_nat k = Some byte -> 0 <= k -> 0 <= b < 8 ->
  (if Z.land (Z.shiftr byte (7 - b)) 1 =? 0 then g_background g else g_color g)
  = glyph_color g bitmap (8 * k + b).
Proof.
  intros Hk Hk0 Hb. unfold glyph_color, glyph_bit.
  assert ((8 * k + b) / 8 = k) as -> by (symmetry; apply (Z.div_unique _ _ _ b); lia).
  assert ((8 * k + b) mod 8 = b) as -> by (symmetry; apply (Z.mod_unique _ _ k); lia).
  rewrite Hk. simpl. change 1 with (2 ^ 0) at 1. rewrite land_pow2_zero by done.
  rewrite Z.shiftr_spec by done. rewrite Z.add_0_l. by destruct (Z.testbit byte (7 - b)).
Qed.

Lemma plot_bits_wp k byte m : forall b cx cy fb',
  bitmap !! Z.to_nat k = Some byte -> 0 <= k -> 0 <= b -> b + Z.of_nat m = 8 ->
  plotted g bitmap fb (8 * k + b) fb' -> 8 * k + b = cy * g_width g + cx ->
  0 <= cx < g_width g -> 0 <= cy < g_height g ->
  wp (plot_bits g byte (range b 8) cx cy fb') (fun '(r, fb'') =>
    match r with
    | Some (cx', cy') => plotted g bitmap fb (8 * (k + 1)) fb'' /\
        8 * (k + 1) = cy' * g_width g + cx' /\ 0 <= cx' < g_width g /\ 0 <= cy' < g_height g
    | None => plotted g bitmap fb (g_width g * g_height g) fb'' /\
        g_width g * g_height g <= 8 * (k + 1)
    end).
Proof.
  induction m as [|m IH]; intros b cx cy fb' Hbyte Hk Hb Hbm Hp Hn Hcx Hcy.
  { rewrite range_nil by lia. cbn [plot_bits]. wp_steps.
    replace (8 * (k + 1)) with (8 * k + b) by lia. done. }
  pose proof Hfits as (? & ? & ? & ? & ? & ?). destruct Hfb.
  rewrite range_cons by lia. cbn [plot_bits].
  wp_step. wp_step. apply wp_u64_add; [lia|].
  wp_step. wp_step. apply wp_u64_add; [lia|]. wp_step.
  eapply plotted_next; [exact Hp|exact Hn|done|done|apply glyph_bit_shift; [done|lia|lia]|].
  intros fb'' Hp'. wp_step. wp_step. apply wp_u64_add; [lia|].
  destruct (Z.leb_spec (g_width g) (cx + 1)).
  - wp_step. wp_step. apply wp_u64_add; [lia|].
    destruct (Z.leb_spec (g_height g) (cy + 1)).
    + wp_steps. replace (8 * k + b + 1) with (g_width g * g_height g) in Hp' by nia.
      split; [done|]. nia.
    + apply IH; try done; try lia. by replace (8 * k + (b + 1)) with (8 * k + b + 1) by lia.
  - apply IH; try done; try lia. by replace (8 * k + (b + 1)) with (8 * k + b + 1) by lia.
Qed.

Lemma plot_bytes_wp rest : forall pre cx cy fb',
  bitmap = pre ++ rest ->
  plotted g bitmap fb (8 * Z.of_nat (length pre)) fb' ->
  8 * Z.of_nat (length pre) = cy * g_width g + cx ->
  0 <= cx < g_width g -> 0 <= cy < g_height g ->
  wp (plot_bytes g rest cx cy fb') (fun '(_, fb'') =>
    plotted g bitmap fb (8 * Z.of_nat (length bitmap)) fb'').
Proof.
  induction rest as [|byte rest IH]; intros pre cx cy fb' Hbm Hp Hn Hcx Hcy; cbn [plot_bytes].
  { wp_steps. replace (length bitmap) with (length pre) by (by rewrite Hbm, app_nil_r). done. }
  wp_step. eapply wp_mono.
  { apply (plot_bits_wp (Z.of_nat (length pre)) byte 8 0 cx cy fb'); try done; try lia.
    - rewrite Nat2Z.id, Hbm. by apply list_lookup_middle.
    - by rewrite Z.add_0_r. }
  intros [[[cx' cy']|] fb''].
  - intros (Hp' & Hn' & Hcx' & Hcy'). eapply (IH (pre ++ [byte])); try done.
    + by rewrite <- app_assoc.
    + rewrite length_app. simpl. by replace (Z.of_nat (length pre + 1)) with (Z.of_nat (length pre) + 1) by lia.
    + rewrite length_app. simpl. lia.
  - intros ((Hwf & Hd & Hp') & Hle). wp_steps. split; [done|]. split; [done|].
    intros x y Hs. rewrite Hp' by done.
    assert (8 * (Z.of_nat (length pre) + 1) <= 8 * Z.of_nat (length bitmap)) as Hlen
      by (rewrite Hbm, length_app; simpl; lia).
    assert (in_glyph g x y -> glyph_index g x y < g_width g * g_height g) as Hlt
      by (unfold in_glyph, glyph_index; nia).
    repeat case_decide; try done; exfalso; intuition lia.
Qed.

Lemma plot_glyph_wp :
  wp (plot_glyph g bitmap fb) (fun '(r, fb') => r = Ok tt /\
    plotted g bitmap fb (8 * Z.of_nat (length bitmap)) fb').
Proof.
  destruct Hfits as (? & ? & ? & ? & ? & ?). destruct Hfb.
  unfold plot_glyph. wp_step. unfold get. cbn [wp]. wp_step. wp_step.
  apply wp_u64_add; [lia|]. wp_step. wp_step.
  rewrite (proj2 (Z.ltb_ge _ _)) by lia. wp_step. apply wp_u64_add; [lia|]. wp_step.
  rewrite (proj2 (Z.ltb_ge _ _)) by lia. wp_step.
  eapply wp_mono.
  - apply (plot_bytes_wp bitmap [] 0 0 fb); try done. split; [done|]. split; [done|].
    intros x y Hs. rewrite decide_False; [done|].
    intros [[Hx Hy] Hi]. unfold glyph_index in Hi. cbn [length Z.of_nat] in Hi. nia.
  - intros [[] fb'] Hp. by wp_steps.
Qed.

End glyph.

(** ** Clearing and scrolling *)

Lemma clear_wp color fb : wf fb ->
  wp (clear color fb) (fun '(_, fb') => wf fb' /\ dimensions fb' = dimensions fb /\
    forall x y, on_screen fb x y -> pixel fb' x y = Some color).
Proof.
  intros Hwf. unfold clear. wp_steps. split; [|split; [done|]].
  - apply wf_set_buffer; [done|]. apply length_replicate.
  - intros x y Hs. pose proof (on_screen_offset _ _ _ Hs). destruct Hwf.
    unfold pixel. change (width (set_buffer _ fb)) with (width fb). simpl.
    apply lookup_replicate_2. lia.
Qed.

Lemma ptr_copy_down l src count :
  0 <= src -> 0 <= count -> src + count <= Z.of_nat (length l) ->
  exists l', ptr_copy l src 0 count = Done l' /\ length l' = length l /\
    forall i, 0 <= i < count -> l' !! Z.to_nat i = l !! Z.to_nat (i + src).
Proof.
  intros Hs Hc Hl. unfold ptr_copy. rewrite !(proj2 (Z.leb_le _ _)) by lia.
  eexists. split; [done|]. split.
  - rewrite !length_app, !length_take, !length_drop. lia.
  - intros i Hi. simpl. rewrite lookup_app_l by (rewrite length_take, length_drop; lia).
    rewrite lookup_take_lt by lia. rewrite lookup_drop. f_equal. lia.
Qed.

(** The state of [scroll] once [k] pixels below the moved lines are cleared. *)
Definition scrolled (fb : LinearFramebuffer) (layers color k : Z) (fb' : LinearFramebuffer) : Prop :=
  dimensions fb' = dimensions fb /\ length (buffer fb') = length (buffer fb) /\
  let count := width fb * (height fb - layers) in
  forall i, 0 <= i < count + k ->
    buffer fb' !! Z.to_nat i
    = if i <? count then buffer fb !! Z.to_nat (i + layers * width fb) else Some color.

Lemma scroll_wp layers color fb : wf fb -> 0 <= layers <= height fb ->
  wp (scroll layers color fb) (fun '(_, fb') => wf fb' /\ dimensions fb' = dimensions fb /\
    forall x y, on_screen fb x y -> pixel fb' x y
      = if y + layers <? height fb then pixel fb x (y + layers) else Some color).
Proof.
  intros Hwf Hl. pose proof Hwf as [Hw Hh Ha Hlen].
  assert (0 <= layers * width fb <= width fb * height fb) as Hsrc by nia.
  assert (0 <= width fb * (height fb - layers) <= width fb * height fb) as Hcount by nia.
  destruct (ptr_copy_down (buffer fb) (layers * width fb) (width fb * (height fb - layers)))
    as (l & Hcopy & Hll & Hlk); [lia|lia|nia|].
  unfold scroll. wp_step. unfold get. cbn [wp]. wp_step. wp_step. apply wp_u64_mul; [lia|].
  wp_step. wp_step. apply wp_u64_sub; [lia|]. wp_step. wp_step. apply wp_u64_mul; [lia|].
  rewrite Hcopy. wp_steps.
  apply wp_for_all with (I := fun visited fb' =>
    scrolled fb layers color (Z.of_nat (length visited)) fb').
  - split; [done|]. split; [done|]. intros count i Hi. simpl.
    rewrite (proj2 (Z.ltb_lt _ _)) by (simpl in Hi; lia). apply Hlk. simpl in Hi. lia.
  - intros visited i todo fb' Hr (Hd & Hbl & Hb). apply range_split in Hr as (Hi & -> & _).
    unfold range in *. rewrite length_app, length_seqZ in *. cbn [length].
    assert (width fb' = width fb /\ height fb' = height fb) as [Hw' Hh']
      by (unfold width, height; by rewrite Hd).
    wp_step. unfold get. cbn [wp]. wp_step. wp_step. rewrite Hw', Hh'.
    apply wp_u64_sub; [lia|]. wp_step. wp_step. apply wp_u64_mul; [lia|].
    wp_step. wp_step. apply wp_u64_add; [nia|]. unfold ptr_write.
    rewrite (proj2 (Z.ltb_lt _ _)) by (rewrite Hbl; nia). wp_steps.
    split; [done|]. split; [simpl; by rewrite length_insert|]. intros count j Hj. simpl.
    destruct (Z.eq_dec j (count + i)) as [->|Hne].
    + rewrite list_lookup_insert_eq by (rewrite Hbl; unfold count in *; nia).
      by rewrite (proj2 (Z.ltb_ge _ _)) by lia.
    + rewrite list_lookup_insert_ne by lia. apply Hb. fold count. lia.
  - intros fb' (Hd & Hbl & Hb). assert (width fb' = width fb) as Hw' by (unfold width; by rewrite Hd).
    split; [|split; [done|]].
    { constructor; unfold width, height in *; rewrite ?Hd; try done. by rewrite Hbl. }
    intros x y Hs. pose proof (on_screen_offset _ _ _ Hs). destruct Hs as [Hx Hy].
    unfold pixel. rewrite Hw'. rewrite Hb.
    2: { unfold range. rewrite length_seqZ. nia. }
    destruct (Z.ltb_spec (y + layers) (height fb)), (Z.ltb_spec (x + y * width fb) (width fb * (height fb - layers)));
      try nia; [|done]. do 2 f_equal. lia.
Qed.

Lemma framebuffer_new_eq (bf : BootFramebuffer)
    (Hw : is_u64 (fb_width bf)) (Hh : is_u64 (fb_height bf))
    (Ha : fb_width bf * fb_height bf < u64_bound)
    (Hmem : fb_width bf * fb_height bf <= Z.of_nat (length (fb_memory bf))) :
  if fb_bpp bf =? 32 then
    exists fb, new bf = Done (Ok fb) /\ wf fb /\ dimensions fb = (fb_width bf, fb_height bf) /\
      forall x y, on_screen fb x y ->
        pixel fb x y = fb_memory bf !! Z.to_nat (x + y * fb_width bf)
  else new bf = Done (Err UnsupportedPixelDepth).
Proof.
  unfold new. destruct (Z.eqb_spec (fb_bpp bf) 32); cbn [negb]; [|done].
  unfold u64_mul. rewrite (proj2 (Z.ltb_lt _ _)) by done. cbn [obind].
  unfold is_u64 in *. eexists. split; [done|]. split; [|split; [done|]].
  - constructor; unfold width, height; cbn [dimensions fst snd buffer]; try done.
    rewrite length_take. lia.
  - intros x y Hs%on_screen_offset. unfold pixel, width, height in *. cbn [dimensions fst snd buffer] in *.
    apply lookup_take_lt. lia.
Qed.

(** ** Properties *)

(** C27: [plot_glyph] inside the screen paints its rectangle, pixel by pixel, in the color or
    the background color by the bits of the bitmap, read line by line from the highest bit
    of each byte, as far as the bitmap goes, and no other pixel. A glyph that exceeds the
    screen is refused without painting. *)
Theorem plot_glyph_paints g bitmap fb (Hfb : wf fb)
    (Hx : 0 <= g_x g) (Hy : 0 <= g_y g) (Hw : 0 < g_width g) (Hh : 0 < g_height g)
    (Hright : g_x g + g_width g < u64_bound) (Hbottom : g_y g + g_height g < u64_bound) :
  exists r fb', plot_glyph g bitmap fb = Done (r, fb') /\ wf fb' /\
    if (g_x g + g_width g <=? width fb) && (g_y g + g_height g <=? height fb) then
      r = Ok tt /\ dimensions fb' = dimensions fb /\
      forall x y, on_screen fb x y -> pixel fb' x y
        = if decide (in_glyph g x y /\ glyph_index g x y < 8 * Z.of_nat (length bitmap))
          then Some (if glyph_bit bitmap (glyph_index g x y) then g_color g else g_background g)
          else pixel fb x y
    else r = Err OutOfBounds /\ fb' = fb.
Proof.
  destruct (Z.leb_spec (g_x g + g_width g) (width fb)), (Z.leb_spec (g_y g + g_height g) (height fb));
    cbn [andb].
  - pose proof (plot_glyph_wp g bitmap fb Hfb) as H1. apply wp_iff in H1 as ([r fb'] & -> & -> & Hwf & Hd & Hp).
    + by exists (Ok tt), fb'.
    + unfold fits. lia.
  - exists (Err OutOfBounds), fb. split; [|done]. apply wp_eq. unfold plot_glyph.
    wp_step. unfold get. cbn [wp]. wp_step. wp_step. apply wp_u64_add; [lia|]. wp_step. wp_step.
    rewrite (proj2 (Z.ltb_ge _ _)) by lia. wp_step. apply wp_u64_add; [lia|]. wp_step.
    rewrite (proj2 (Z.ltb_lt _ _)) by lia. by wp_steps.
  - exists (Err OutOfBounds), fb. split; [|done]. apply wp_eq. unfold plot_glyph.
    wp_step. unfold get. cbn [wp]. wp_step. wp_step. apply wp_u64_add; [lia|]. wp_step. wp_step.
    rewrite (proj2 (Z.ltb_lt _ _)) by lia. by wp_steps.
  - exists (Err OutOfBounds), fb. split; [|done]. apply wp_eq. unfold plot_glyph.
    wp_step. unfold get. cbn [wp]. wp_step. wp_step. apply wp_u64_add; [lia|]. wp_step. wp_step.
    rewrite (proj2 (Z.ltb_lt _ _)) by lia. by wp_steps.
Qed.

(** C29: [scroll] moves every line up by [layers] and paints the lowest [layers] lines in
    the color; more layers than the screen has lines panic. *)
Theorem scroll_moves_lines layers color fb (Hfb : wf fb) (Hl : 0 <= layers) 
    (Hsrc : layers * width fb < u64_bound) :
  if layers <=? height fb then
    exists fb', scroll layers color fb = Done (tt, fb') /\ wf fb' /\
      dimensions fb' = dimensions fb /\
      forall x y, on_screen fb x y -> pixel fb' x y
        = if y + layers <? height fb then pixel fb x (y + layers) else Some color
  else scroll layers color fb = Panicked ArithmeticOverflow.
Proof.
  destruct (Z.leb_spec layers (height fb)).
  - pose proof (scroll_wp layers color fb Hfb (conj Hl H)) as H1.
    apply wp_iff in H1 as ([[] fb'] & -> & H1). by exists fb'.
  - unfold scroll, bind, get, lift, u64_mul, u64_sub. cbn [obind].
    rewrite (proj2 (Z.ltb_lt _ _)) by done. cbn [obind].
    by rewrite (proj2 (Z.leb_gt _ _)).
Qed.

(** *** Instances *)

(** A screen of three by two pixels. *)
Definition small_screen : LinearFramebuffer := mk (3, 2) [1; 2; 3; 4; 5; 6].

Lemma small_screen_wf : wf small_screen.
Proof. by constructor. Qed.

Lemma plot_glyph_paints_witness :
  exists fb', plot_glyph (mkGlyph 1 0 2 2 7 0) [0x90] small_screen = Done (Ok tt, fb') /\
    pixel fb' 2 1 = Some 7 /\ pixel fb' 0 1 = Some 4.
Proof.
  destruct (plot_glyph_paints (mkGlyph 1 0 2 2 7 0) [0x90] small_screen small_screen_wf)
    as (r & fb' & H & _ & Hr & _ & Hp); [done..|].
  exists fb'. rewrite <- Hr. split; [exact H|]. split; rewrite Hp; done.
Defined.

Lemma scroll_moves_lines_witness :
  exists fb', scroll 1 9 small_screen = Done (tt, fb') /\
    pixel fb' 1 0 = Some 5 /\ pixel fb' 1 1 = Some 9.
Proof.
  destruct (scroll_moves_lines 1 9 small_screen small_screen_wf) as (fb' & H & _ & _ & Hp); [done..|].
  exists fb'. split; [exact H|]. split; rewrite Hp; done.
Defined.
