(* ===== verification/VgaText.v ===== *)
(** The text mode emulation ([display/vga_text_emulation.rs]): an 8 by 16 font for
    ASCII, and the operations that draw and scroll characters on the framebuffer. *)
From S2P Require Import Prelude Framebuffer.

Definition VGA_FONT_WIDTH : Z := 8.
Definition VGA_FONT_HEIGHT : Z := 16.

(** ** The font

    One list of 16 lines per character; the array is split in four. *)
Definition font_control : list (list Z) := [
  replicate 16 0;
  replicate 16 0;
  replicate 16 0;
  replicate 16 0;
  replicate 16 0;
  replicate 16 0;
  replicate 16 0;
  replicate 16 0;
  replicate 16 0;
  replicate 16 0;
  replicate 16 0;
  replicate 16 0;
  replicate 16 0;
  replicate 16 0;
  replicate 16 0;
  replicate 16 0;
  replicate 16 0;
  replicate 16 0;
  replicate 16 0;
  replicate 16 0;
  replicate 16 0;
  replicate 16 0;
  replicate 16 0;
  replicate 16 0;
  replicate 16 0;
  replicate 16 0;
  replicate 16 0;
  replicate 16 0;
  replicate 16 0;
  replicate 16 0;
  replicate 16 0;
  replicate 16 0
].

Definition font_symbols : list (list Z) := [
  replicate 16 0;
  [0x00; 0x00; 0x18; 0x3C; 0x3C; 0x3C; 0x18; 0x18; 0x18; 0x00; 0x18; 0x18; 0x00; 0x00; 0x00; 0x00];
  [0x00; 0x66; 0x66; 0x66; 0x24; 0x00; 0x00; 0x00; 0x00; 0x00; 0x00; 0x00; 0x00; 0x00; 0x00; 0x00];
  [0x00; 0x00; 0x00; 0x6C; 0x6C; 0xFE; 0x6C; 0x6C; 0x6C; 0xFE; 0x6C; 0x6C; 0x00; 0x00; 0x00; 0x00];
  [0x18; 0x18; 0x7C; 0xC6; 0xC2; 0xC0; 0x7C; 0x06; 0x06; 0x86; 0xC6; 0x7C; 0x18; 0x18; 0x00; 0x00];
  [0x00; 0x00; 0x00; 0x00; 0xC2; 0xC6; 0x0C; 0x18; 0x30; 0x60; 0xC6; 0x86; 0x00; 0x00; 0x00; 0x00];
  [0x00; 0x00; 0x38; 0x6C; 0x6C; 0x38; 0x76; 0xDC; 0xCC; 0xCC; 0xCC; 0x76; 0x00; 0x00; 0x00; 0x00];
  [0x00; 0x30; 0x30; 0x30; 0x60; 0x00; 0x00; 0x00; 0x00; 0x00; 0x00; 0x00; 0x00; 0x00; 0x00; 0x00];
  [0x00; 0x00; 0x0C; 0x18; 0x30; 0x30; 0x30; 0x30; 0x30; 0x30; 0x18; 0x0C; 0x00; 0x00; 0x00; 0x00];
  [0x00; 0x00; 0x30; 0x18; 0x0C; 0x0C; 0x0C; 0x0C; 0x0C; 0x0C; 0x18; 0x30; 0x00; 0x00; 0x00; 0x00];
  [0x00; 0x00; 0x00; 0x00; 0x00; 0x66; 0x3C; 0xFF; 0x3C; 0x66; 0x00; 0x00; 0x00; 0x00; 0x00; 0x00];
  [0x00; 0x00; 0x00; 0x00; 0x00; 0x18; 0x18; 0x7E; 0x18; 0x18; 0x00; 0x00; 0x00; 0x00; 0x00; 0x00];
  [0x00; 0x00; 0x00; 0x00; 0x00; 0x00; 0x00; 0x00; 0x00; 0x18; 0x18; 0x18; 0x30; 0x00; 0x00; 0x00];
  [0x00; 0x00; 0x00; 0x00; 0x00; 0x00; 0x00; 0x7E; 0x00; 0x00; 0x00; 0x00; 0x00; 0x00; 0x00; 0x00];
  [0x00; 0x00; 0x00; 0x00; 0x00; 0x00; 0x00; 0x00; 0x00; 0x00; 0x18; 0x18; 0x00; 0x00; 0x00; 0x00];
  [0x00; 0x00; 0x00; 0x00; 0x02; 0x06; 0x0C; 0x18; 0x30; 0x60; 0xC0; 0x80; 0x00; 0x00; 0x00; 0x00];
  [0x00; 0x00; 0x7C; 0xC6; 0xC6; 0xCE; 0xDE; 0xF6; 0xE6; 0xC6; 0xC6; 0x7C; 0x00; 0x00; 0x00; 0x00];
  [0x00; 0x00; 0x18; 0x38; 0x78; 0x18; 0x18; 0x18; 0x18; 0x18; 0x18; 0x7E; 0x00; 0x00; 0x00; 0x00];
  [0x00; 0x00; 0x7C; 0xC6; 0x06; 0x0C; 0x18; 0x30; 0x60; 0xC0; 0xC6; 0xFE; 0x00; 0x00; 0x00; 0x00];
  [0x00; 0x00; 0x7C; 0xC6; 0x06; 0x06; 0x3C; 0x06; 0x06; 0x06; 0xC6; 0x7C; 0x00; 0x00; 0x00; 0x00];
  [0x00; 0x00; 0x0C; 0x1C; 0x3C; 0x6C; 0xCC; 0xFE; 0x0C; 0x0C; 0x0C; 0x1E; 0x00; 0x00; 0x00; 0x00];
  [0x00; 0x00; 0xFE; 0xC0; 0xC0; 0xC0; 0xFC; 0x06; 0x06; 0x06; 0xC6; 0x7C; 0x00; 0x00; 0x00; 0x00];
  [0x00; 0x00; 0x38; 0x60; 0xC0; 0xC0; 0xFC; 0xC6; 0xC6; 0xC6; 0xC6; 0x7C; 0x00; 0x00; 0x00; 0x00];
  [0x00; 0x00; 0xFE; 0xC6; 0x06; 0x06; 0x0C; 0x18; 0x30; 0x30; 0x30; 0x30; 0x00; 0x00; 0x00; 0x00];
  [0x00; 0x00; 0x7C; 0xC6; 0xC6; 0xC6; 0x7C; 0xC6; 0xC6; 0xC6; 0xC6; 0x7C; 0x00; 0x00; 0x00; 0x00];
  [0x00; 0x00; 0x7C; 0xC6; 0xC6; 0xC6; 0x7E; 0x06; 0x06; 0x06; 0x0C; 0x78; 0x00; 0x00; 0x00; 0x00];
  [0x00; 0x00; 0x00; 0x00; 0x18; 0x18; 0x00; 0x00; 0x00; 0x18; 0x18; 0x00; 0x00; 0x00; 0x00; 0x00];
  [0x00; 0x00; 0x00; 0x00; 0x18; 0x18; 0x00; 0x00; 0x00; 0x18; 0x18; 0x30; 0x00; 0x00; 0x00; 0x00];
  [0x00; 0x00; 0x00; 0x06; 0x0C; 0x18; 0x30; 0x60; 0x30; 0x18; 0x0C; 0x06; 0x00; 0x00; 0x00; 0x00];
  [0x00; 0x00; 0x00; 0x00; 0x00; 0x7E; 0x00; 0x00; 0x7E; 0x00; 0x00; 0x00; 0x00; 0x00; 0x00; 0x00];
  [0x00; 0x00; 0x00; 0x60; 0x30; 0x18; 0x0C; 0x06; 0x0C; 0x18; 0x30; 0x60; 0x00; 0x00; 0x00; 0x00];
  [0x00; 0x00; 0x7C; 0xC6; 0xC6; 0x0C; 0x18; 0x18; 0x18; 0x00; 0x18; 0x18; 0x00; 0x00; 0x00; 0x00]
].

Definition font_uppercase : list (list Z) := [
  [0x00; 0x00; 0x7C; 0xC6; 0xC6; 0xC6; 0xDE; 0xDE; 0xDE; 0xDC; 0xC0; 0x7C; 0x00; 0x00; 0x00; 0x00];
  [0x00; 0x00; 0x10; 0x38; 0x6C; 0xC6; 0xC6; 0xFE; 0xC6; 0xC6; 0xC6; 0xC6; 0x00; 0x00; 0x00; 0x00];
  [0x00; 0x00; 0xFC; 0x66; 0x66; 0x66; 0x7C; 0x66; 0x66; 0x66; 0x66; 0xFC; 0x00; 0x00; 0x00; 0x00];
  [0x00; 0x00; 0x3C; 0x66; 0xC2; 0xC0; 0xC0; 0xC0; 0xC0; 0xC2; 0x66; 0x3C; 0x00; 0x00; 0x00; 0x00];
  [0x00; 0x00; 0xF8; 0x6C; 0x66; 0x66; 0x66; 0x66; 0x66; 0x66; 0x6C; 0xF8; 0x00; 0x00; 0x00; 0x00];
  [0x00; 0x00; 0xFE; 0x66; 0x62; 0x68; 0x78; 0x68; 0x60; 0x62; 0x66; 0xFE; 0x00; 0x00; 0x00; 0x00];
  [0x00; 0x00; 0xFE; 0x66; 0x62; 0x68; 0x78; 0x68; 0x60; 0x60; 0x60; 0xF0; 0x00; 0x00; 0x00; 0x00];
  [0x00; 0x00; 0x3C; 0x66; 0xC2; 0xC0; 0xC0; 0xDE; 0xC6; 0xC6; 0x66; 0x3A; 0x00; 0x00; 0x00; 0x00];
  [0x00; 0x00; 0xC6; 0xC6; 0xC6; 0xC6; 0xFE; 0xC6; 0xC6; 0xC6; 0xC6; 0xC6; 0x00; 0x00; 0x00; 0x00];
  [0x00; 0x00; 0x3C; 0x18; 0x18; 0x18; 0x18; 0x18; 0x18; 0x18; 0x18; 0x3C; 0x00; 0x00; 0x00; 0x00];
  [0x00; 0x00; 0x1E; 0x0C; 0x0C; 0x0C; 0x0C; 0x0C; 0xCC; 0xCC; 0xCC; 0x78; 0x00; 0x00; 0x00; 0x00];
  [0x00; 0x00; 0xE6; 0x66; 0x66; 0x6C; 0x78; 0x78; 0x6C; 0x66; 0x66; 0xE6; 0x00; 0x00; 0x00; 0x00];
  [0x00; 0x00; 0xF0; 0x60; 0x60; 0x60; 0x60; 0x60; 0x60; 0x62; 0x66; 0xFE; 0x00; 0x00; 0x00; 0x00];
  [0x00; 0x00; 0xC6; 0xEE; 0xFE; 0xFE; 0xD6; 0xC6; 0xC6; 0xC6; 0xC6; 0xC6; 0x00; 0x00; 0x00; 0x00];
  [0x00; 0x00; 0xC6; 0xE6; 0xF6; 0xFE; 0xDE; 0xCE; 0xC6; 0xC6; 0xC6; 0xC6; 0x00; 0x00; 0x00; 0x00];
  [0x00; 0x00; 0x7C; 0xC6; 0xC6; 0xC6; 0xC6; 0xC6; 0xC6; 0xC6; 0xC6; 0x7C; 0x00; 0x00; 0x00; 0x00];
  [0x00; 0x00; 0xFC; 0x66; 0x66; 0x66; 0x7C; 0x60; 0x60; 0x60; 0x60; 0xF0; 0x00; 0x00; 0x00; 0x00];
  [0x00; 0x00; 0x7C; 0xC6; 0xC6; 0xC6; 0xC6; 0xC6; 0xC6; 0xD6; 0xDE; 0x7C; 0x0C; 0x0E; 0x00; 0x00];
  [0x00; 0x00; 0xFC; 0x66; 0x66; 0x66; 0x7C; 0x6C; 0x66; 0x66; 0x66; 0xE6; 0x00; 0x00; 0x00; 0x00];
  [0x00; 0x00; 0x7C; 0xC6; 0xC6; 0x60; 0x38; 0x0C; 0x06; 0xC6; 0xC6; 0x7C; 0x00; 0x00; 0x00; 0x00];
  [0x00; 0x00; 0x7E; 0x7E; 0x5A; 0x18; 0x18; 0x18; 0x18; 0x18; 0x18; 0x3C; 0x00; 0x00; 0x00; 0x00];
  [0x00; 0x00; 0xC6; 0xC6; 0xC6; 0xC6; 0xC6; 0xC6; 0xC6; 0xC6; 0xC6; 0x7C; 0x00; 0x00; 0x00; 0x00];
  [0x00; 0x00; 0xC6; 0xC6; 0xC6; 0xC6; 0xC6; 0xC6; 0xC6; 0x6C; 0x38; 0x10; 0x00; 0x00; 0x00; 0x00];
  [0x00; 0x00; 0xC6; 0xC6; 0xC6; 0xC6; 0xD6; 0xD6; 0xD6; 0xFE; 0xEE; 0x6C; 0x00; 0x00; 0x00; 0x00];
  [0x00; 0x00; 0xC6; 0xC6; 0x6C; 0x7C; 0x38; 0x38; 0x7C; 0x6C; 0xC6; 0xC6; 0x00; 0x00; 0x00; 0x00];
  [0x00; 0x00; 0x66; 0x66; 0x66; 0x66; 0x3C; 0x18; 0x18; 0x18; 0x18; 0x3C; 0x00; 0x00; 0x00; 0x00];
  [0x00; 0x00; 0xFE; 0xC6; 0x86; 0x0C; 0x18; 0x30; 0x60; 0xC2; 0xC6; 0xFE; 0x00; 0x00; 0x00; 0x00];
  [0x00; 0x00; 0x3C; 0x30; 0x30; 0x30; 0x30; 0x30; 0x30; 0x30; 0x30; 0x3C; 0x00; 0x00; 0x00; 0x00];
  [0x00; 0x00; 0x00; 0x80; 0xC0; 0xE0; 0x70; 0x38; 0x1C; 0x0E; 0x06; 0x02; 0x00; 0x00; 0x00; 0x00];
  [0x00; 0x00; 0x3C; 0x0C; 0x0C; 0x0C; 0x0C; 0x0C; 0x0C; 0x0C; 0x0C; 0x3C; 0x00; 0x00; 0x00; 0x00];
  [0x10; 0x38; 0x6C; 0xC6; 0x00; 0x00; 0x00; 0x00; 0x00; 0x00; 0x00; 0x00; 0x00; 0x00; 0x00; 0x00];
  [0x00; 0x00; 0x00; 0x00; 0x00; 0x00; 0x00; 0x00; 0x00; 0x00; 0x00; 0x00; 0x00; 0xFF; 0x00; 0x00]
].

Definition font_lowercase : list (list Z) := [
  [0x30; 0x30; 0x18; 0x00; 0x00; 0x00; 0x00; 0x00; 0x00; 0x00; 0x00; 0x00; 0x00; 0x00; 0x00; 0x00];
  [0x00; 0x00; 0x00; 0x00; 0x00; 0x78; 0x0C; 0x7C; 0xCC; 0xCC; 0xCC; 0x76; 0x00; 0x00; 0x00; 0x00];
  [0x00; 0x00; 0xE0; 0x60; 0x60; 0x78; 0x6C; 0x66; 0x66; 0x66; 0x66; 0x7C; 0x00; 0x00; 0x00; 0x00];
  [0x00; 0x00; 0x00; 0x00; 0x00; 0x7C; 0xC6; 0xC0; 0xC0; 0xC0; 0xC6; 0x7C; 0x00; 0x00; 0x00; 0x00];
  [0x00; 0x00; 0x1C; 0x0C; 0x0C; 0x3C; 0x6C; 0xCC; 0xCC; 0xCC; 0xCC; 0x76; 0x00; 0x00; 0x00; 0x00];
  [0x00; 0x00; 0x00; 0x00; 0x00; 0x7C; 0xC6; 0xFE; 0xC0; 0xC0; 0xC6; 0x7C; 0x00; 0x00; 0x00; 0x00];
  [0x00; 0x00; 0x38; 0x6C; 0x64; 0x60; 0xF0; 0x60; 0x60; 0x60; 0x60; 0xF0; 0x00; 0x00; 0x00; 0x00];
  [0x00; 0x00; 0x00; 0x00; 0x00; 0x76; 0xCC; 0xCC; 0xCC; 0xCC; 0xCC; 0x7C; 0x0C; 0xCC; 0x78; 0x00];
  [0x00; 0x00; 0xE0; 0x60; 0x60; 0x6C; 0x76; 0x66; 0x66; 0x66; 0x66; 0xE6; 0x00; 0x00; 0x00; 0x00];
  [0x00; 0x00; 0x18; 0x18; 0x00; 0x38; 0x18; 0x18; 0x18; 0x18; 0x18; 0x3C; 0x00; 0x00; 0x00; 0x00];
  [0x00; 0x00; 0x06; 0x06; 0x00; 0x0E; 0x06; 0x06; 0x06; 0x06; 0x06; 0x06; 0x66; 0x66; 0x3C; 0x00];
  [0x00; 0x00; 0xE0; 0x60; 0x60; 0x66; 0x6C; 0x78; 0x78; 0x6C; 0x66; 0xE6; 0x00; 0x00; 0x00; 0x00];
  [0x00; 0x00; 0x38; 0x18; 0x18; 0x18; 0x18; 0x18; 0x18; 0x18; 0x18; 0x3C; 0x00; 0x00; 0x00; 0x00];
  [0x00; 0x00; 0x00; 0x00; 0x00; 0xEC; 0xFE; 0xD6; 0xD6; 0xD6; 0xD6; 0xC6; 0x00; 0x00; 0x00; 0x00];
  [0x00; 0x00; 0x00; 0x00; 0x00; 0xDC; 0x66; 0x66; 0x66; 0x66; 0x66; 0x66; 0x00; 0x00; 0x00; 0x00];
  [0x00; 0x00; 0x00; 0x00; 0x00; 0x7C; 0xC6; 0xC6; 0xC6; 0xC6; 0xC6; 0x7C; 0x00; 0x00; 0x00; 0x00];
  [0x00; 0x00; 0x00; 0x00; 0x00; 0xDC; 0x66; 0x66; 0x66; 0x66; 0x66; 0x7C; 0x60; 0x60; 0xF0; 0x00];
  [0x00; 0x00; 0x00; 0x00; 0x00; 0x76; 0xCC; 0xCC; 0xCC; 0xCC; 0xCC; 0x7C; 0x0C; 0x0C; 0x1E; 0x00];
  [0x00; 0x00; 0x00; 0x00; 0x00; 0xDC; 0x76; 0x66; 0x60; 0x60; 0x60; 0xF0; 0x00; 0x00; 0x00; 0x00];
  [0x00; 0x00; 0x00; 0x00; 0x00; 0x7C; 0xC6; 0x60; 0x38; 0x0C; 0xC6; 0x7C; 0x00; 0x00; 0x00; 0x00];
  [0x00; 0x00; 0x10; 0x30; 0x30; 0xFC; 0x30; 0x30; 0x30; 0x30; 0x36; 0x1C; 0x00; 0x00; 0x00; 0x00];
  [0x00; 0x00; 0x00; 0x00; 0x00; 0xCC; 0xCC; 0xCC; 0xCC; 0xCC; 0xCC; 0x76; 0x00; 0x00; 0x00; 0x00];
  [0x00; 0x00; 0x00; 0x00; 0x00; 0xC6; 0xC6; 0xC6; 0xC6; 0xC6; 0x6C; 0x38; 0x00; 0x00; 0x00; 0x00];
  [0x00; 0x00; 0x00; 0x00; 0x00; 0xC6; 0xC6; 0xD6; 0xD6; 0xD6; 0xFE; 0x6C; 0x00; 0x00; 0x00; 0x00];
  [0x00; 0x00; 0x00; 0x00; 0x00; 0xC6; 0x6C; 0x38; 0x38; 0x38; 0x6C; 0xC6; 0x00; 0x00; 0x00; 0x00];
  [0x00; 0x00; 0x00; 0x00; 0x00; 0xC6; 0xC6; 0xC6; 0xC6; 0xC6; 0xC6; 0x7E; 0x06; 0x0C; 0xF8; 0x00];
  [0x00; 0x00; 0x00; 0x00; 0x00; 0xFE; 0xCC; 0x18; 0x30; 0x60; 0xC6; 0xFE; 0x00; 0x00; 0x00; 0x00];
  [0x00; 0x00; 0x0E; 0x18; 0x18; 0x18; 0x70; 0x18; 0x18; 0x18; 0x18; 0x0E; 0x00; 0x00; 0x00; 0x00];
  [0x00; 0x00; 0x18; 0x18; 0x18; 0x18; 0x18; 0x18; 0x18; 0x18; 0x18; 0x18; 0x00; 0x00; 0x00; 0x00];
  [0x00; 0x00; 0x70; 0x18; 0x18; 0x18; 0x0E; 0x18; 0x18; 0x18; 0x18; 0x70; 0x00; 0x00; 0x00; 0x00];
  [0x00; 0x00; 0x76; 0xDC; 0x00; 0x00; 0x00; 0x00; 0x00; 0x00; 0x00; 0x00; 0x00; 0x00; 0x00; 0x00];
  replicate 16 0
].
Definition VGA_BASIC_FONT : list (list Z) :=
  font_control ++ font_symbols ++ font_uppercase ++ font_lowercase.

Definition UNKNOWN_CHARACTER : list Z :=
  [0x00; 0x00; 0xFF; 0xC1; 0xA1; 0xA1; 0x91; 0x91; 0x89; 0x89; 0x85; 0x85; 0x83; 0xFF; 0x00; 0x00].

(** The argument is a [u8]. *)
Definition get_char_glyph (char : Z) : outcome (list Z) :=
  if 127 <? char then Done UNKNOWN_CHARACTER else index VGA_BASIC_FONT char.

(** ** Characters on the screen *)

(** (columns, rows); [wrapping_div] by a constant that is not zero. *)
Definition get_text_buffer_dimensions (lfb : LinearFramebuffer.LinearFramebuffer) : Z * Z :=
  (LinearFramebuffer.width lfb / VGA_FONT_WIDTH, LinearFramebuffer.height lfb / VGA_FONT_HEIGHT).

Definition put_char (column row color background_color char : Z) :
    M LinearFramebuffer.LinearFramebuffer unit :=
  let^ x := u64_mul column VGA_FONT_WIDTH in
  let^ y := u64_mul row VGA_FONT_HEIGHT in
  let^ glyph := get_char_glyph char in
  let! r := LinearFramebuffer.plot_glyph
    (LinearFramebuffer.mkGlyph x y VGA_FONT_WIDTH VGA_FONT_HEIGHT color background_color) glyph in
  lift (unwrap_result r).

Definition scroll (rows background : Z) : M LinearFramebuffer.LinearFramebuffer unit :=
  let^ layers := u64_mul rows VGA_FONT_HEIGHT in
  LinearFramebuffer.scroll layers background.

(** ** Colors *)

Inductive VgaColor : Type :=
| Black | Blue | Green | Cyan | Red | Magenta | Brown | LightGray
| DarkGray | LightBlue | LightGreen | LightCyan | LightRed | Pink | Yellow | White.

(** [color as u32]. *)
Definition color_u32 (c : VgaColor) : Z :=
  match c with
  | Black => 0x0 | Blue => 0xAA | Green => 0xAA00 | Cyan => 0xAAAA
  | Red => 0xAA0000 | Magenta => 0xAA00AA | Brown => 0xAAAA00 | LightGray => 0xAAAAAA
  | DarkGray => 0x555555 | LightBlue => 0x5555FF | LightGreen => 0x55FF55
  | LightCyan => 0x55FFFF | LightRed => 0xFF5555 | Pink => 0xFF55FF
  | Yellow => 0xFFFF55 | White => 0xFFFFFF
  end.
