(* ===== verification/VgaWriter.v ===== *)
(** The text writer ([display/vga_text_writer.rs]): a cursor over the screen's text
    grid, line breaks, tabs and scrolling. *)
From S2P Require Import Prelude Framebuffer VgaText.

Definition TAB_SIZE : Z := 4.
Definition DEFAULT_COLOR : VgaColor := LightGray.

Module VGAWriter.

(** [struct VGAWriter]. *)
Record VGAWriter : Type := mk {
  lfb : LinearFramebuffer.LinearFramebuffer;
  column : Z;
  row : Z;
  default_text : Z;
  default_background : Z;
  scrolling : bool
}.

Definition set_lfb (l : LinearFramebuffer.LinearFramebuffer) (w : VGAWriter) : VGAWriter :=
  mk l (column w) (row w) (default_text w) (default_background w) (scrolling w).
Definition set_cursor (r c : Z) (w : VGAWriter) : VGAWriter :=
  mk (lfb w) c r (default_text w) (default_background w) (scrolling w).
Definition set_default_text (color : Z) (w : VGAWriter) : VGAWriter :=
  mk (lfb w) (column w) (row w) color (default_background w) (scrolling w).
Definition set_default_background (color : Z) (w : VGAWriter) : VGAWriter :=
  mk (lfb w) (column w) (row w) (default_text w) color (scrolling w).

Definition new (lfb : LinearFramebuffer.LinearFramebuffer) (scrolling : bool)
    (default_text default_background : Z) : VGAWriter :=
  mk lfb 0 0 default_text default_background scrolling.

(** A call on [&mut self.lfb]. *)
Definition with_lfb {A} (m : M LinearFramebuffer.LinearFramebuffer A) : M VGAWriter A :=
  zoom lfb set_lfb m.

Definition new_line : M VGAWriter unit :=
  let! self := get in
  let! _ := put (set_cursor (row self) 0 self) in
  let! self := get in
  let^ last := u64_sub (get_text_buffer_dimensions (lfb self)).2 1 in
  if last <=? row self then
    if scrolling self then with_lfb (scroll 1 (default_background self))
    else put (set_cursor 0 (column self) self)
  else
    let^ row' := u64_add (row self) 1 in
    put (set_cursor row' (column self) self).

(** The body of [write_char]; [write_space] is the recursive call for a tab. A [char]
    is its code point. *)
Definition write_char_body (write_space : M VGAWriter unit) (c : Z) : M VGAWriter unit :=
  let! _ :=
    (if c =? 9 then for_all (range 0 TAB_SIZE) (fun _ => write_space)
     else if c =? 10 then new_line
     else
       let! self := get in
       let! _ := with_lfb (put_char (column self) (row self) (default_text self)
                             (default_background self) (c mod u8_bound)) in
       let! self := get in
       let^ column' := u64_add (column self) 1 in
       put (set_cursor (row self) column' self)) in
  let! self := get in
  if (get_text_buffer_dimensions (lfb self)).1 <=? column self then new_line else ret tt.

(** The recursion is one deep: a space is not a tab ([write_char_eq]). *)
Definition write_char (c : Z) : M VGAWriter unit :=
  write_char_body (write_char_body (throw UnreachableReached) 32) c.

Definition write_string (string : list Z) : M VGAWriter unit := for_all string write_char.

Definition set_position (row column : Z) : M VGAWriter unit :=
  let! self := get in put (set_cursor row column self).

Definition get_position (self : VGAWriter) : Z * Z := (row self, column self).

(** [Write::write_str]. *)
Definition write_str (s : list Z) : M VGAWriter (result unit unit) :=
  let! _ := write_string s in ret (Ok tt).

Lemma write_char_eq c : write_char c = write_char_body (write_char 32) c.
Proof. reflexivity. Qed.

End VGAWriter.
