(* ===== verification/VgaProofs.v ===== *)
(** The text writer refines a terminal: a grid of character cells and a cursor. *)
From S2P Require Import Prelude Framebuffer FramebufferProofs VgaText VgaWriter.
Import VGAWriter.

(** ** The font *)

Lemma font_shape :
  length VGA_BASIC_FONT = 128%nat /\ Forall (fun g => length g = 16%nat) VGA_BASIC_FONT.
Proof. split; [done|]. by apply (bool_decide_unpack _). Qed.

(** The glyph of a byte. *)
Definition glyph_of (c : Z) : list Z :=
  if 127 <? c then UNKNOWN_CHARACTER else default [] (VGA_BASIC_FONT !! Z.to_nat c).

Lemma get_char_glyph_eq c :
  is_u8 c -> get_char_glyph c = Done (glyph_of c) /\ length (glyph_of c) = 16%nat.
Proof.
  unfold is_u8, get_char_glyph, glyph_of, index. intros Hc. destruct (Z.ltb_spec 127 c); [done|].
  destruct font_shape as [Hlen Hall].
  destruct (lookup_lt_is_Some_2 VGA_BASIC_FONT (Z.to_nat c)) as [g Hg]; [lia|].
  rewrite Hg. split; [done|]. by eapply Forall_lookup in Hall.
Qed.

(** ** The terminal *)

(** The colors of the 8 by 16 pixels of a character cell. *)
Definition cell : Type := Z -> Z -> Z.

Definition char_cell (fg bg c : Z) : cell :=
  fun i j => if glyph_bit (glyph_of c) (j * 8 + i) then fg else bg.
Definition blank_cell (bg : Z) : cell := fun _ _ => bg.

Record Terminal : Type := mkTerminal {
  cells : Z -> Z -> cell;   (* by row and column *)
  t_row : Z;
  t_column : Z
}.

(** What does not change while text is written. *)
Record Setup : Type := mkSetup {
  s_columns : Z; s_rows : Z; s_text : Z; s_background : Z; s_scrolling : bool
}.

Section terminal.
Context (s : Setup).

Definition t_set (r c : Z) (x : cell) (t : Terminal) : Terminal :=
  mkTerminal (fun r' c' => if decide (r' = r /\ c' = c) then x else cells t r' c')
    (t_row t) (t_column t).

Definition t_scroll (t : Terminal) : Terminal :=
  mkTerminal (fun r c => if r + 1 <? s_rows s then cells t (r + 1) c
                         else blank_cell (s_background s)) (t_row t) (t_column t).

Definition t_move (r c : Z) (t : Terminal) : Terminal := mkTerminal (cells t) r c.

(** To the start of the next line; on the last line the text scrolls up, or writing goes
    on at the top. *)
Definition t_newline (t : Terminal) : Terminal :=
  if t_row t <? s_rows s - 1 then t_move (t_row t + 1) 0 t
  else if s_scrolling s then t_scroll (t_move (t_row t) 0 t) else t_move 0 0 t.

(** A character in the cell at the cursor, which then moves on. *)
Definition t_put (c : Z) (t : Terminal) : Terminal :=
  let t' := t_move (t_row t) (t_column t + 1)
    (t_set (t_row t) (t_column t) (char_cell (s_text s) (s_background s) (c mod 256)) t) in
  if t_column t + 1 <? s_columns s then t' else t_newline t'.

Definition t_char (c : Z) (t : Terminal) : Terminal :=
  if c =? 9 then t_put 32 (t_put 32 (t_put 32 (t_put 32 t)))
  else if c =? 10 then t_newline t
  else t_put c t.

Definition t_string (l : list Z) (t : Terminal) : Terminal := foldl (fun t c => t_char c t) t l.

End terminal.

(** ** Representation *)

(** The screen shows the cells; the pixel lines below the last text row have the
    background color. *)
Definition shows (s : Setup) (fb : LinearFramebuffer.LinearFramebuffer) (t : Terminal) : Prop :=
  (forall r c i j, 0 <= r < s_rows s -> 0 <= c < s_columns s -> 0 <= i < 8 -> 0 <= j < 16 ->
     pixel fb (8 * c + i) (16 * r + j) = Some (cells t r c i j)) /\
  (forall x y, on_screen fb x y -> 16 * s_rows s <= y -> pixel fb x y = Some (s_background s)).

Record represents (s : Setup) (w : VGAWriter) (t : Terminal) : Prop := {
  r_wf : wf (lfb w);
  r_dims : get_text_buffer_dimensions (lfb w) = (s_columns s, s_rows s);
  r_grid : 1 <= s_columns s /\ 1 <= s_rows s;
  r_text : default_text w = s_text s;
  r_background : default_background w = s_background s;
  r_scrolling : scrolling w = s_scrolling s;
  r_row : row w = t_row t;
  r_column : column w = t_column t;
  r_shows : shows s (lfb w) t
}.

(** The same screen, written on in another color. *)
Definition with_text (s : Setup) (text : Z) : Setup :=
  mkSetup (s_columns s) (s_rows s) text (s_background s) (s_scrolling s).

(** The cursor is on the grid. *)
Definition on_grid (s : Setup) (t : Terminal) : Prop :=
  0 <= t_row t < s_rows s /\ 0 <= t_column t < s_columns s.

Lemma dims_bounds s fb :
  wf fb -> get_text_buffer_dimensions fb = (s_columns s, s_rows s) ->
  8 * s_columns s <= LinearFramebuffer.width fb /\
  16 * s_rows s <= LinearFramebuffer.height fb < 16 * s_rows s + 16.
Proof.
  intros [Hw Hh _ _] Hd. unfold get_text_buffer_dimensions, VGA_FONT_WIDTH, VGA_FONT_HEIGHT in Hd.
  injection Hd as <- <-.
  pose proof (Z.div_mod (LinearFramebuffer.width fb) 8).
  pose proof (Z.mod_pos_bound (LinearFramebuffer.width fb) 8).
  pose proof (Z.div_mod (LinearFramebuffer.height fb) 16).
  pose proof (Z.mod_pos_bound (LinearFramebuffer.height fb) 16). lia.
Qed.

Lemma dims_eq fb fb' :
  LinearFramebuffer.dimensions fb' = LinearFramebuffer.dimensions fb ->
  get_text_buffer_dimensions fb' = get_text_buffer_dimensions fb /\
  LinearFramebuffer.width fb' = LinearFramebuffer.width fb /\
  LinearFramebuffer.height fb' = LinearFramebuffer.height fb.
Proof.
  intros H. unfold get_text_buffer_dimensions, LinearFramebuffer.width, LinearFramebuffer.height.
  by rewrite H.
Qed.

Lemma represents_text s w t text :
  represents s w t -> represents (with_text s text) (set_default_text text w) t.
Proof. intros []. by constructor. Qed.

(** ** Drawing a character *)

Lemma put_char_wp s fb t r c fg bg ch Q :
  wf fb -> get_text_buffer_dimensions fb = (s_columns s, s_rows s) ->
  0 <= r < s_rows s -> 0 <= c < s_columns s -> is_u8 ch -> shows s fb t ->
  (forall fb', wf fb' -> LinearFramebuffer.dimensions fb' = LinearFramebuffer.dimensions fb ->
     shows s fb' (t_set r c (char_cell fg bg ch) t) -> Q (tt, fb')) ->
  wp (put_char c r fg bg ch fb) Q.
Proof.
  intros Hwf Hd Hr Hc Hch [Hcells Hstrip] HQ.
  destruct (dims_bounds s fb Hwf Hd) as [Hw Hh]. pose proof Hwf as [? ? _ _].
  destruct (get_char_glyph_eq ch Hch) as [Hg Hlen].
  unfold put_char. wp_step. wp_step. apply wp_u64_mul; [unfold VGA_FONT_WIDTH; lia|].
  wp_step. wp_step. apply wp_u64_mul; [unfold VGA_FONT_HEIGHT; lia|].
  rewrite Hg. wp_step. wp_step. wp_step. wp_step.
  set (g := LinearFramebuffer.mkGlyph _ _ _ _ _ _).
  eapply wp_mono; [apply (plot_glyph_wp g (glyph_of ch) fb Hwf)|].
  { unfold fits, g, VGA_FONT_WIDTH, VGA_FONT_HEIGHT. simpl. lia. }
  intros [res fb'] (-> & Hwf' & Hd' & Hp). cbn [unwrap_result]. wp_steps.
  apply HQ; [done|done|]. rewrite Hlen in Hp.
  destruct (dims_eq _ _ Hd') as (_ & Hw' & Hh'). split.
  - intros r' c' i j Hr' Hc' Hi Hj. rewrite Hp by (unfold on_screen; lia). simpl.
    unfold in_glyph, glyph_index, g, VGA_FONT_WIDTH, VGA_FONT_HEIGHT. simpl.
    destruct (decide (r' = r /\ c' = c)) as [[-> ->]|Hne].
    + rewrite decide_True by lia. unfold glyph_color, char_cell. simpl.
      by replace ((16 * r + j - r * 16) * 8 + (8 * c + i - c * 8)) with (j * 8 + i) by lia.
    + rewrite decide_False by lia. by apply Hcells.
  - intros x y Hs Hy. assert (on_screen fb x y) as Hs0 by (unfold on_screen in *; lia).
    rewrite Hp by done. rewrite decide_False; [by apply Hstrip|].
    unfold in_glyph, g, VGA_FONT_HEIGHT. simpl. lia.
Qed.

Lemma scroll_text_wp s fb t Q :
  wf fb -> get_text_buffer_dimensions fb = (s_columns s, s_rows s) -> 1 <= s_rows s -> shows s fb t ->
  (forall fb', wf fb' -> LinearFramebuffer.dimensions fb' = LinearFramebuffer.dimensions fb ->
     shows s fb' (t_scroll s t) -> Q (tt, fb')) ->
  wp (scroll 1 (s_background s) fb) Q.
Proof.
  intros Hwf Hd Hrows [Hcells Hstrip] HQ. destruct (dims_bounds s fb Hwf Hd) as [Hw Hh].
  unfold scroll. wp_step. wp_step. apply wp_u64_mul; [done|].
  change (1 * VGA_FONT_HEIGHT) with 16.
  eapply wp_mono; [apply scroll_wp; [done|lia]|].
  intros [[] fb'] (Hwf' & Hd' & Hp). apply HQ; [done|done|].
  destruct (dims_eq _ _ Hd') as (_ & Hw' & Hh'). split.
  - intros r c i j Hr Hc Hi Hj. rewrite Hp by (unfold on_screen; lia). simpl.
    destruct (Z.ltb_spec (r + 1) (s_rows s)).
    + rewrite (proj2 (Z.ltb_lt _ _)) by lia.
      replace (16 * r + j + 16) with (16 * (r + 1) + j) by lia. apply Hcells; lia.
    + destruct (Z.ltb_spec (16 * r + j + 16) (LinearFramebuffer.height fb)); [|done].
      unfold blank_cell. apply Hstrip; [unfold on_screen; lia|lia].
  - intros x y Hs Hy. assert (on_screen fb x y) as Hs0 by (unfold on_screen in *; lia).
    rewrite Hp by done. by rewrite (proj2 (Z.ltb_ge _ _)) by lia.
Qed.

(** ** The writer *)

Section writer.
Context (s : Setup).

Lemma represents_lfb w t fb t' :
  represents s w t -> wf fb -> LinearFramebuffer.dimensions fb = LinearFramebuffer.dimensions (lfb w) ->
  t_row t' = t_row t -> t_column t' = t_column t -> shows s fb t' ->
  represents s (set_lfb fb w) t'.
Proof.
  intros [] Hwf Hd Hr Hc Hs. destruct (dims_eq _ _ Hd) as [Hdims _].
  constructor; simpl; try done; congruence.
Qed.

Lemma represents_move w t r c :
  represents s w t -> represents s (set_cursor r c w) (t_move r c t).
Proof. intros []. by constructor. Qed.

(** What a computation on the writer does to the terminal. *)
Definition refines (m : M VGAWriter unit) (f : Terminal -> Terminal) (w : VGAWriter) (t : Terminal) : Prop :=
  wp (m w) (fun '(_, w') => represents s w' (f t) /\ on_grid s (f t)).

Lemma new_line_refines w t :
  represents s w t -> 0 <= t_row t < s_rows s -> refines new_line (t_newline s) w t.
Proof.
  intros Hrep Hrow. pose proof Hrep as [Hwf Hdims [Hc1 Hr1] Ht Hb Hs Hr Hc Hsh].
  destruct (dims_bounds s _ Hwf Hdims) as [Hw Hh]. destruct Hwf as [? [_ ?] _ _].
  unfold refines, new_line, t_newline, on_grid. wp_step. unfold get. cbn [wp].
  wp_step. unfold put at 1. cbn [wp]. wp_step. cbn [wp]. wp_step. wp_step.
  cbn [lfb set_cursor row column scrolling default_background]. rewrite Hdims. cbn [snd].
  apply wp_u64_sub; [lia|]. rewrite Hr, Hs, Hb.
  destruct (Z.leb_spec (s_rows s - 1) (t_row t)), (Z.ltb_spec (t_row t) (s_rows s - 1)); try lia.
  - destruct (s_scrolling s).
    + unfold with_lfb. wp_step. cbn [lfb set_cursor].
      apply (scroll_text_wp s _ t); try done; [by apply Hrep|].
      intros fb' Hwf' Hd' Hs'. split; [|simpl; lia].
      eapply represents_lfb; [by apply represents_move|..]; try done.
    + wp_steps. cbn [t_row t_column t_move]. split; [|lia].
      exact (represents_move w t 0 0 Hrep).
  - wp_step. wp_step. apply wp_u64_add; [lia|]. wp_steps. split; [|simpl; lia].
    exact (represents_move w t (t_row t + 1) 0 Hrep).
Qed.

(** The check after every character: past the last column, a new line. *)
Lemma wrap_refines w t f :
  represents s w (f t) -> 0 <= t_row (f t) < s_rows s -> 0 <= t_column (f t) ->
  refines (let! self := get in
    if (get_text_buffer_dimensions (lfb self)).1 <=? column self then new_line else ret tt)
    (fun _ => if t_column (f t) <? s_columns s then f t else t_newline s (f t)) w t.
Proof.
  intros Hrep Hrow Hcol. pose proof Hrep as [Hwf Hdims _ _ _ _ Hr Hc _].
  unfold refines. wp_step. unfold get. cbn [wp]. rewrite Hdims, Hc. cbn [fst].
  destruct (Z.leb_spec (s_columns s) (t_column (f t))), (Z.ltb_spec (t_column (f t)) (s_columns s)); try lia.
  - by apply new_line_refines.
  - wp_steps. unfold on_grid. split; [done|lia].
Qed.

Lemma wrap_none w t :
  represents s w t -> on_grid s t ->
  refines (let! self := get in
    if (get_text_buffer_dimensions (lfb self)).1 <=? column self then new_line else ret tt)
    (fun t => t) w t.
Proof.
  intros Hrep [Hrow Hcol]. pose proof (wrap_refines w t (fun t => t) Hrep Hrow ltac:(lia)) as H.
  unfold refines in *. by rewrite (proj2 (Z.ltb_lt _ _)) in H by lia.
Qed.

(** A character that is neither a tab nor a line break. *)
Lemma write_plain_refines space w t c :
  c <> 9 -> c <> 10 -> represents s w t -> on_grid s t ->
  refines (write_char_body space c) (t_put s c) w t.
Proof.
  intros H9 H10 Hrep [Hrow Hcol]. pose proof Hrep as [Hwf Hdims _ Ht Hb _ Hr Hc Hsh].
  destruct (dims_bounds s _ Hwf Hdims) as [Hw Hh]. pose proof Hwf as [[_ Hw64] _ _ _].
  unfold refines, write_char_body.
  rewrite (proj2 (Z.eqb_neq c 9)), (proj2 (Z.eqb_neq c 10)) by done.
  wp_step. wp_step. unfold get at 1. cbn [wp]. wp_step. unfold with_lfb at 1. wp_step.
  rewrite Hr, Hc, Ht, Hb.
  eapply (put_char_wp s _ t); try done.
  { unfold is_u8, u8_bound. apply Z.mod_pos_bound. lia. }
  intros fb' Hwf' Hd' Hs'. wp_step. unfold get at 1. cbn [wp]. wp_step. wp_step.
  cbn [column set_lfb]. rewrite Hc. apply wp_u64_add; [lia|]. unfold put. cbn [wp].
  set (t1 := t_set (t_row t) (t_column t) (char_cell (s_text s) (s_background s) (c mod u8_bound)) t) in *.
  set (w1 := set_lfb fb' w).
  assert (represents s w1 t1) as Hrep1 by (by eapply represents_lfb).
  cbn [row set_lfb w1]. rewrite Hr.
  pose proof (wrap_refines (set_cursor (t_row t) (t_column t + 1) w1) t
    (fun _ => t_move (t_row t) (t_column t + 1) t1)) as Hwrap.
  unfold refines in Hwrap. apply Hwrap; [by apply represents_move|done|simpl; lia].
Qed.

Lemma write_char_refines w t c :
  represents s w t -> on_grid s t -> refines (write_char c) (t_char s c) w t.
Proof.
  intros Hrep Hgrid. unfold t_char. rewrite write_char_eq.
  destruct (Z.eqb_spec c 9) as [->|H9].
  - assert (forall w t, represents s w t -> on_grid s t -> refines (write_char 32) (t_put s 32) w t)
      as Hspace by (intros; by apply write_plain_refines).
    unfold refines, write_char_body. rewrite Z.eqb_refl.
    change (range 0 TAB_SIZE) with [0; 1; 2; 3]. cbn [for_all]. wp_step.
    wp_step. eapply wp_mono; [by apply Hspace|]. intros [[] w1] [Hr1 Hg1].
    wp_step. eapply wp_mono; [by apply Hspace|]. intros [[] w2] [Hr2 Hg2].
    wp_step. eapply wp_mono; [by apply Hspace|]. intros [[] w3] [Hr3 Hg3].
    wp_step. eapply wp_mono; [by apply Hspace|]. intros [[] w4] [Hr4 Hg4].
    unfold ret at 1. cbn [wp]. by apply wrap_none.
  - destruct (Z.eqb_spec c 10) as [->|H10]; [|by apply write_plain_refines].
    unfold refines, write_char_body. cbn [Z.eqb Pos.eqb]. wp_step.
    eapply wp_mono; [apply new_line_refines; [done|apply Hgrid]|].
    intros [[] w'] [Hr' Hg']. by apply wrap_none.
Qed.

Lemma write_string_refines l : forall w t,
  represents s w t -> on_grid s t -> refines (write_string l) (t_string s l) w t.
Proof.
  induction l as [|c l IH]; intros w t Hrep Hgrid; unfold refines, write_string;
    cbn [for_all].
  - by wp_steps.
  - wp_step. eapply wp_mono; [by apply write_char_refines|].
    intros [[] w'] [Hr' Hg']. by apply IH.
Qed.

End writer.

(** ** Text on one line *)

Definition plain (c : Z) : Prop := c <> 9 /\ c <> 10.

(** Plain characters that fit in the line appear one after the other at the cursor. *)
Lemma t_string_plain s l : forall t,
  Forall plain l -> 0 <= t_column t -> t_column t + Z.of_nat (length l) < s_columns s ->
  t_row (t_string s l t) = t_row t /\
  t_column (t_string s l t) = t_column t + Z.of_nat (length l) /\
  forall r c, cells (t_string s l t) r c
    = if decide (r = t_row t /\ t_column t <= c < t_column t + Z.of_nat (length l))
      then char_cell (s_text s) (s_background s) (default 0 (l !! Z.to_nat (c - t_column t)) mod 256)
      else cells t r c.
Proof.
  induction l as [|ch l IH]; intros t Hp Hc Hfit; cbn [length Z.of_nat] in *.
  - cbn [t_string foldl]. split_and!; [done|lia|]. intros r c. by rewrite decide_False by lia.
  - apply Forall_cons in Hp as [[H9 H10] Hp].
    change (t_string s (ch :: l) t) with (t_string s l (t_char s ch t)).
    set (t1 := t_char s ch t).
    assert (t1 = t_move (t_row t) (t_column t + 1) (t_set (t_row t) (t_column t)
      (char_cell (s_text s) (s_background s) (ch mod 256)) t)) as Ht1.
    { unfold t1, t_char, t_put.
      rewrite (proj2 (Z.eqb_neq ch 9)), (proj2 (Z.eqb_neq ch 10)) by done.
      by rewrite (proj2 (Z.ltb_lt _ _)) by lia. }
    clearbody t1. pose proof (IH t1 Hp) as IH'. rewrite Ht1 in IH' |- *.
    cbn [t_row t_column t_move t_set cells] in IH'.
    destruct IH' as (Hr & Hcol & Hcells); [lia|lia|].
    split_and!; [by rewrite Hr|rewrite Hcol; lia|].
    intros r c. rewrite Hcells.
    destruct (decide (r = t_row t /\ t_column t + 1 <= c < t_column t + 1 + Z.of_nat (length l))) as [Hin|Hout].
    + rewrite decide_True by lia.
      replace (Z.to_nat (c - t_column t)) with (S (Z.to_nat (c - (t_column t + 1)))) by lia. done.
    + destruct (decide (r = t_row t /\ c = t_column t)) as [[-> ->]|Hne].
      * rewrite decide_True by lia. by rewrite Z.sub_diag.
      * by rewrite decide_False by lia.
Qed.

(** ** Properties *)

(** C10: refinement. Writing any string on a screen with at least one row and one column
    of text, with the cursor on the grid, does not panic; the screen then shows what the
    terminal shows, with the cursor where the terminal has it, on the grid: characters in
    their cells, tabs as four spaces, line breaks, wrapping at the last column, and
    scrolling at the last row (or going on at the top, without scrolling). *)
Theorem write_string_terminal s l w t (Hrep : represents s w t) (Hgrid : on_grid s t) :
  exists w', write_string l w = Done (tt, w') /\
    represents s w' (t_string s l t) /\ on_grid s (t_string s l t).
Proof.
  pose proof (write_string_refines s l w t Hrep Hgrid) as H. unfold refines in H.
  apply wp_iff in H as ([[] w'] & -> & H). by exists w'.
Qed.

(** A text without tabs and line breaks that fits in the line is shown, character after
    character, in the cells from the cursor on: pixel (i, j) of the k-th character has the text
    color where the font sets it and the background color elsewhere. *)
Lemma write_string_shows s l w t (Hrep : represents s w t) (Hgrid : on_grid s t)
    (Hplain : Forall plain l) (Hfit : t_column t + Z.of_nat (length l) < s_columns s) :
  exists w', write_string l w = Done (tt, w') /\
    row w' = row w /\ column w' = column w + Z.of_nat (length l) /\
    forall k ch i j, l !! Z.to_nat k = Some ch -> 0 <= k -> 0 <= i < 8 -> 0 <= j < 16 ->
      pixel (lfb w') (8 * (column w + k) + i) (16 * row w + j)
      = Some (if glyph_bit (glyph_of (ch mod 256)) (j * 8 + i)
              then default_text w else default_background w).
Proof.
  pose proof (write_string_refines s l w t Hrep Hgrid) as H. unfold refines in H.
  apply wp_iff in H as ([[] w'] & -> & Hrep' & Hgrid'). exists w'. split; [done|].
  destruct Hgrid as [Hrow Hcol].
  destruct (t_string_plain s l t Hplain) as (Hr & Hc & Hcells); [lia|done|].
  pose proof Hrep as [_ _ _ Ht Hb _ Hr0 Hc0 _]. pose proof Hrep' as [_ _ _ _ _ _ Hr1 Hc1 [Hsh _]].
  rewrite Hr0, Hc0, Ht, Hb, Hr1, Hc1, Hr, Hc. split_and!; [done..|].
  intros k ch i j Hk Hk0 Hi Hj.
  assert (Z.to_nat k < length l)%nat by by eapply lookup_lt_Some.
  rewrite Hsh by lia. rewrite Hcells, decide_True by lia.
  replace (t_column t + k - t_column t) with k by lia. by rewrite Hk.
Qed.

(** Every byte has a glyph of 16 lines of 8 pixels, the one marked unknown above 127;
    the glyphs of the printable characters are not blank and no two of them are equal. *)
Lemma font_complete :
  (forall c, is_u8 c -> exists g, get_char_glyph c = Done g /\ length g = 16%nat /\ Forall is_u8 g) /\
  (forall c, 32 < c < 127 -> get_char_glyph c <> Done (replicate 16 0)) /\
  (forall c d, 32 < c < 127 -> 32 < d < 127 -> get_char_glyph c = get_char_glyph d -> c = d).
Proof.
  assert (Forall (fun g => length g = 16%nat /\ Forall (fun b => 0 <= b < 256) g) VGA_BASIC_FONT) as Hfont
    by (apply (bool_decide_unpack _); vm_compute; exact I).
  assert (Forall (fun c => get_char_glyph c <> Done (replicate 16 0)) (seqZ 33 94)) as Hblank
    by (apply (bool_decide_unpack _); vm_compute; exact I).
  assert (Forall (fun c => Forall (fun d => get_char_glyph c = get_char_glyph d -> c = d) (seqZ 33 94))
    (seqZ 33 94)) as Hinj by (apply (bool_decide_unpack _); vm_compute; exact I).
  split_and!.
  - intros c Hc. destruct (get_char_glyph_eq c Hc) as [-> Hl]. exists (glyph_of c).
    split; [done|]. split; [done|]. unfold glyph_of, is_u8 in *. destruct (Z.ltb_spec 127 c).
    + apply (bool_decide_unpack _). vm_compute. exact I.
    + destruct (lookup_lt_is_Some_2 VGA_BASIC_FONT (Z.to_nat c)) as [g Hg];
        [rewrite (proj1 font_shape); lia|]. rewrite Hg. simpl.
      by eapply Forall_lookup in Hfont as [_ ?].
  - intros c Hc. rewrite Forall_forall in Hblank. apply Hblank, elem_of_seqZ. lia.
  - intros c d Hc Hd. rewrite Forall_forall in Hinj.
    specialize (Hinj c). rewrite Forall_forall in Hinj. apply Hinj; apply elem_of_seqZ; lia.
Qed.

(** *** Instances *)

(** A screen of 24 by 20 black pixels: one row of three characters. *)
Definition example_setup : Setup := mkSetup 3 1 7 0 true.
Definition example_writer : VGAWriter :=
  new (LinearFramebuffer.mk (24, 20) (replicate 480 0)) true 7 0.
Definition example_terminal : Terminal := mkTerminal (fun _ _ => blank_cell 0) 0 0.

Lemma example_pixel x y : on_screen (lfb example_writer) x y ->
  pixel (lfb example_writer) x y = Some 0.
Proof.
  unfold on_screen, pixel, LinearFramebuffer.width, LinearFramebuffer.height. intros Hs.
  apply lookup_replicate_2. cbn in Hs |- *. lia.
Qed.

Lemma example_represents : represents example_setup example_writer example_terminal.
Proof.
  constructor; try done.
  split.
  - intros r c i j Hr Hc Hi Hj. cbn [s_rows s_columns example_setup] in *.
    apply example_pixel. unfold on_screen, LinearFramebuffer.width, LinearFramebuffer.height.
    cbn. lia.
  - intros x y Hs _. by apply example_pixel.
Qed.

Lemma example_on_grid : on_grid example_setup example_terminal.
Proof. unfold on_grid. cbn. lia. Qed.

(** "A", a line break (which scrolls) and "B". *)
Lemma write_string_terminal_witness :
  exists w', write_string [65; 10; 66] example_writer = Done (tt, w') /\
    represents example_setup w' (t_string example_setup [65; 10; 66] example_terminal).
Proof.
  destruct (write_string_terminal example_setup [65; 10; 66] example_writer example_terminal
    example_represents example_on_grid) as (w' & H & Hr & _).
  exists w'. split; [exact H|exact Hr].
Defined.

Lemma write_string_shows_witness :
  glyph_bit (glyph_of (72 mod 256)) (2 * 8 + 0) = true /\
  exists w', write_string [72; 105] example_writer = Done (tt, w') /\
    column w' = column example_writer + 2 /\
    pixel (lfb w') (8 * (column example_writer + 0) + 0) (16 * row example_writer + 2)
    = Some (if glyph_bit (glyph_of (72 mod 256)) (2 * 8 + 0)
            then default_text example_writer else default_background example_writer).
Proof.
  split; [vm_compute; reflexivity|].
  destruct (write_string_shows example_setup [72; 105] example_writer example_terminal
    example_represents example_on_grid) as (w' & H & _ & Hc & Hp);
    [repeat constructor; done|cbn; lia|].
  exists w'. split; [exact H|]. split; [exact Hc|].
  apply (Hp 0 72 0 2); [reflexivity|lia|lia|lia].
Defined.
