(* ===== verification/VgaTypes.v ===== *)
(** The text writer under any sequence of uses: every use completes, the cursor is where a
    reference for the cursor alone has it, always on the grid, and the values on the screen and
    in the writer stay in their machine types: pixels and colors are [u32], sizes and the
    cursor [usize], glyphs arrays of 16 [u8]. *)
From S2P Require Import Prelude Framebuffer FramebufferProofs VgaText VgaWriter VgaProofs.
Import LinearFramebuffer.

(** ** Types *)

(** The fields of a [LinearFramebuffer] hold values of their types. *)
Record typed_framebuffer (fb : LinearFramebuffer) : Prop := {
  ty_width : is_u64 (width fb);
  ty_height : is_u64 (height fb);
  ty_buffer : Forall is_u32 (buffer fb)
}.

(** The fields of a [VGAWriter] do. *)
Record typed_writer (w : VGAWriter.VGAWriter) : Prop := {
  ty_lfb : typed_framebuffer (VGAWriter.lfb w);
  ty_column : is_u64 (VGAWriter.column w);
  ty_row : is_u64 (VGAWriter.row w);
  ty_text : is_u32 (VGAWriter.default_text w);
  ty_background : is_u32 (VGAWriter.default_background w)
}.

Create HintDb types.
#[export] Hint Resolve ty_lfb ty_column ty_row ty_text ty_background ty_width ty_height ty_buffer : types.

Lemma typed_set_buffer l fb : typed_framebuffer fb -> Forall is_u32 l -> typed_framebuffer (set_buffer l fb).
Proof. intros [] ?. by constructor. Qed.
#[export] Hint Resolve typed_set_buffer : types.

Lemma color_is_u32 c : is_u32 (color_u32 c).
Proof. by destruct c. Qed.
#[export] Hint Resolve color_is_u32 : types.

(** ** The framebuffer *)

Lemma plot_keeps x y color : is_u32 color -> keeps typed_framebuffer (plot x y color).
Proof.
  intros Hc. unfold plot. apply keeps_get. intros fb Hfb.
  apply keeps_bind; [auto with keeps|intros line]. apply keeps_bind; [auto with keeps|intros offset].
  apply (keeps_lift_post _ (Forall is_u32)).
  - apply wlp_index_set. intros _. apply Forall_insert; auto with types.
  - intros l Hl. apply keeps_put. auto with types.
Qed.
#[export] Hint Resolve plot_keeps : keeps.

Lemma plot_bits_keeps g byte bits : forall x y,
  is_u32 (g_color g) -> is_u32 (g_background g) -> keeps typed_framebuffer (plot_bits g byte bits x y).
Proof.
  induction bits as [|bit bits IH]; intros x y Hc Hb; cbn [plot_bits]; [auto with keeps|].
  apply keeps_bind; [auto with keeps|intros px]. apply keeps_bind; [auto with keeps|intros py].
  apply keeps_bind; [apply plot_keeps; by destruct (_ =? 0)|intros _].
  apply keeps_bind; [auto with keeps|intros x']. destruct (g_width g <=? x'); [|auto].
  apply keeps_bind; [auto with keeps|intros y']. destruct (g_height g <=? y'); auto with keeps.
Qed.

Lemma plot_bytes_keeps g bitmap : forall x y,
  is_u32 (g_color g) -> is_u32 (g_background g) -> keeps typed_framebuffer (plot_bytes g bitmap x y).
Proof.
  induction bitmap as [|byte bitmap IH]; intros x y Hc Hb; cbn [plot_bytes]; [auto with keeps|].
  apply keeps_bind; [by apply plot_bits_keeps|]. intros [[x' y']|]; auto with keeps.
Qed.

Lemma plot_glyph_keeps g bitmap :
  is_u32 (g_color g) -> is_u32 (g_background g) -> keeps typed_framebuffer (plot_glyph g bitmap).
Proof.
  intros Hc Hb. unfold plot_glyph. apply keeps_get. intros fb _.
  apply keeps_bind; [auto with keeps|intros right]. apply keeps_bind; [auto with keeps|intros out].
  destruct out; [auto with keeps|]. apply keeps_bind; [by apply plot_bytes_keeps|auto with keeps].
Qed.

Lemma clear_keeps color : is_u32 color -> keeps typed_framebuffer (clear color).
Proof.
  intros Hc. unfold clear. apply keeps_get. intros fb Hfb. apply keeps_put.
  apply typed_set_buffer; [done|]. by apply Forall_replicate.
Qed.

Lemma scroll_keeps layers color : is_u32 color -> keeps typed_framebuffer (LinearFramebuffer.scroll layers color).
Proof.
  intros Hc. unfold LinearFramebuffer.scroll. apply keeps_get. intros fb Hfb.
  do 3 (apply keeps_bind; [auto with keeps|intros ?]). apply (keeps_lift_post _ (Forall is_u32)).
  { unfold ptr_copy. destruct (_ && _); [|done]. cbn [wlp]. pose proof (ty_buffer _ Hfb).
    rewrite !Forall_app. split_and!; auto using Forall_take, Forall_drop. }
  intros l Hl. apply keeps_bind; [auto with keeps types|intros _].
  apply keeps_bind; [auto with keeps|intros cleared]. apply keeps_for_all. intros i.
  apply keeps_get. intros fb' Hfb'. do 3 (apply keeps_bind; [auto with keeps|intros ?]).
  apply (keeps_lift_post _ (Forall is_u32)).
  - unfold ptr_write. destruct (_ <? _); [|done]. cbn [wlp]. apply Forall_insert; auto with types.
  - intros l' Hl'. auto with keeps types.
Qed.

(** ** Text *)

(** The glyphs of the font are [u8; 16] arrays. *)
Definition is_glyph (g : list Z) : Prop := length g = 16%nat /\ Forall is_u8 g.

#[export] Instance is_glyph_dec g : Decision (is_glyph g).
Proof.
  assert (forall a, Decision (is_u8 a)) by (intros a; unfold is_u8; apply _).
  unfold is_glyph. apply _.
Defined.

Lemma font_typed : Forall is_glyph VGA_BASIC_FONT.
Proof. apply (bool_decide_unpack _). vm_compute. exact I. Qed.

Lemma get_char_glyph_typed c : is_u8 c -> wp (get_char_glyph c) is_glyph.
Proof.
  intros Hc. unfold get_char_glyph. destruct (Z.ltb_spec 127 c).
  { cbn [wp]. apply (bool_decide_unpack _). vm_compute. exact I. }
  assert (length VGA_BASIC_FONT = 128%nat) as Hlen by (vm_compute; reflexivity).
  unfold is_u8 in Hc. destruct (lookup_lt_is_Some_2 VGA_BASIC_FONT (Z.to_nat c)) as [g Hg]; [lia|].
  eapply wp_index; [exact Hg|]. pose proof font_typed as Hf. rewrite Forall_lookup in Hf. by eapply Hf.
Qed.

Lemma put_char_keeps column row color background c :
  is_u32 color -> is_u32 background -> keeps typed_framebuffer (put_char column row color background c).
Proof.
  intros Hc Hb. unfold put_char. do 3 (apply keeps_bind; [auto with keeps|intros ?]).
  apply keeps_bind; [by apply plot_glyph_keeps|auto with keeps].
Qed.

Lemma text_scroll_keeps rows background :
  is_u32 background -> keeps typed_framebuffer (VgaText.scroll rows background).
Proof. intros Hb. unfold VgaText.scroll. apply keeps_bind; [auto with keeps|intros layers]. by apply scroll_keeps. Qed.

(** ** The writer *)

Import VGAWriter.

Lemma with_lfb_keeps {A} (m : M LinearFramebuffer A) :
  keeps typed_framebuffer m -> keeps typed_writer (with_lfb m).
Proof.
  intros Hm. unfold with_lfb. eapply keeps_zoom; [exact Hm|auto with types|].
  intros fb w Hfb []. by constructor.
Qed.

Lemma typed_set_cursor r c w : typed_writer w -> is_u64 r -> is_u64 c -> typed_writer (set_cursor r c w).
Proof. intros [] ? ?. by constructor. Qed.

Lemma u64_add_typed a b : 0 <= a -> 0 <= b -> wlp (u64_add a b) is_u64.
Proof. intros Ha Hb. apply wlp_u64_add. intros H. unfold is_u64. lia. Qed.

Lemma zero_typed : is_u64 0.
Proof. done. Qed.
#[export] Hint Resolve typed_set_cursor zero_typed : types.

Lemma new_line_keeps : keeps typed_writer new_line.
Proof.
  unfold new_line. apply keeps_get. intros w Hw.
  apply keeps_bind; [auto with keeps types|intros _]. apply keeps_get. intros w1 Hw1.
  apply keeps_bind; [auto with keeps|intros last]. destruct (last <=? row w1).
  - destruct (scrolling w1); [|auto with keeps types].
    apply with_lfb_keeps, text_scroll_keeps. auto with types.
  - apply (keeps_lift_post _ is_u64); [|intros row' Hr; auto with keeps types].
    apply u64_add_typed; [apply (ty_row _ Hw1)|done].
Qed.

Lemma write_char_body_keeps write_space c :
  keeps typed_writer write_space -> keeps typed_writer (write_char_body write_space c).
Proof.
  intros Hs. unfold write_char_body. apply keeps_bind.
  - destruct (c =? 9); [auto with keeps|]. destruct (c =? 10); [apply new_line_keeps|].
    apply keeps_get. intros w Hw.
    apply keeps_bind; [apply with_lfb_keeps, put_char_keeps; auto with types|intros _].
    apply keeps_get. intros w1 Hw1. apply (keeps_lift_post _ is_u64).
    + apply u64_add_typed; [apply (ty_column _ Hw1)|done].
    + intros column' Hc. auto with keeps types.
  - intros _. apply keeps_get. intros w _. destruct (_ <=? _); [apply new_line_keeps|auto with keeps].
Qed.

Lemma write_string_keeps l : keeps typed_writer (write_string l).
Proof.
  apply keeps_for_all. intros c. apply write_char_body_keeps, write_char_body_keeps. auto with keeps.
Qed.

Lemma set_position_keeps r c : is_u64 r -> is_u64 c -> keeps typed_writer (set_position r c).
Proof. intros Hr Hc. unfold set_position. apply keeps_get. auto with keeps types. Qed.

(** ** Uses of a writer *)

(** One use of a writer: text, a move of the cursor, a change of color. *)
Inductive use : Type :=
| Write (l : list Z)
| MoveTo (row column : Z)
| TextColor (color : Z)
| BackgroundColor (color : Z).

Definition run_use (u : use) : M VGAWriter unit :=
  match u with
  | Write l => write_string l
  | MoveTo r c => set_position r c
  | TextColor color => let! w := get in put (set_default_text color w)
  | BackgroundColor color => let! w := get in put (set_default_background color w)
  end.
Definition run_uses (uses : list use) : M VGAWriter unit := for_all uses run_use.

(** A use of a writer over [columns] by [rows] cells: its colors are [u32], its moves stay on
    the grid. *)
Definition use_ok (columns rows : Z) (u : use) : Prop :=
  match u with
  | Write _ => True
  | MoveTo r c => 0 <= r < rows /\ 0 <= c < columns
  | TextColor color | BackgroundColor color => is_u32 color
  end.

(** *** The cursor *)

Section cursor.
Context (columns rows : Z) (scrolls : bool).

(** Where the cursor, row and column, is after a line break, a character, a text, a use. *)
Definition cursor_newline (p : Z * Z) : Z * Z :=
  (if p.1 <? rows - 1 then p.1 + 1 else if scrolls then p.1 else 0, 0).
Definition cursor_put (p : Z * Z) : Z * Z :=
  if p.2 + 1 <? columns then (p.1, p.2 + 1) else cursor_newline p.
Definition cursor_char (p : Z * Z) (c : Z) : Z * Z :=
  if c =? 9 then cursor_put (cursor_put (cursor_put (cursor_put p)))
  else if c =? 10 then cursor_newline p else cursor_put p.
Definition cursor_use (p : Z * Z) (u : use) : Z * Z :=
  match u with Write l => foldl cursor_char p l | MoveTo r c => (r, c) | _ => p end.

Definition on_cells (p : Z * Z) : Prop := 0 <= p.1 < rows /\ 0 <= p.2 < columns.

Context (size : Z * Z) (Hgrid : 1 <= columns /\ 1 <= rows).

(** The writer has its cursor at [p], on a screen that has kept its size. *)
Record writes_at (p : Z * Z) (w : VGAWriter) : Prop := {
  wa_wf : wf (lfb w);
  wa_size : LinearFramebuffer.dimensions (lfb w) = size;
  wa_cells : get_text_buffer_dimensions (lfb w) = (columns, rows);
  wa_scrolls : scrolling w = scrolls;
  wa_row : row w = p.1;
  wa_column : column w = p.2
}.

Lemma writes_at_lfb p w fb :
  writes_at p w -> wf fb -> LinearFramebuffer.dimensions fb = LinearFramebuffer.dimensions (lfb w) ->
  writes_at p (set_lfb fb w).
Proof.
  intros [] Hwf Hd. destruct (dims_eq _ _ Hd) as [Hc _]. constructor; simpl; try done; congruence.
Qed.

Lemma writes_at_cursor p w r c : writes_at p w -> writes_at (r, c) (set_cursor r c w).
Proof. intros []. by constructor. Qed.

(** A setup and terminal for the bounds lemmas of the screen. *)
Definition grid_setup : Setup := mkSetup columns rows 0 0 scrolls.

Lemma new_line_at p w :
  writes_at p w -> 0 <= p.1 < rows -> wp (new_line w) (fun '(_, w') => writes_at (cursor_newline p) w').
Proof.
  intros Hat Hrow. pose proof Hat as [Hwf Hs Hd Hsc Hr Hc].
  destruct (dims_bounds grid_setup _ Hwf Hd) as [Hw Hh]. pose proof Hwf as [_ Hh64 _ _]. simpl in Hw, Hh.
  unfold new_line, cursor_newline. wp_step. unfold get at 1. cbn [wp]. wp_step. unfold put at 1. cbn [wp].
  wp_step. unfold get at 1. cbn [wp]. wp_step. wp_step.
  cbn [lfb set_cursor row column scrolling default_background]. rewrite Hd. cbn [snd].
  apply wp_u64_sub; [lia|]. rewrite Hr, Hsc.
  destruct (Z.leb_spec (rows - 1) p.1), (Z.ltb_spec p.1 (rows - 1)); try lia.
  - destruct scrolls.
    + unfold with_lfb. wp_step. cbn [lfb set_cursor]. unfold VgaText.scroll. wp_step. wp_step.
      apply wp_u64_mul; [done|]. change (1 * VGA_FONT_HEIGHT) with 16.
      eapply wp_mono; [apply scroll_wp; [done|lia]|]. intros [[] fb'] (Hwf' & Hd' & _).
      apply writes_at_lfb; [by eapply writes_at_cursor|done|done].
    + wp_steps. cbn [column set_cursor]. by eapply (writes_at_cursor (p.1, 0)), writes_at_cursor.
  - wp_step. wp_step. apply wp_u64_add; [lia|]. wp_steps. cbn [column set_cursor].
    by eapply (writes_at_cursor (p.1, 0)), writes_at_cursor.
Qed.

Lemma cursor_newline_on p : on_cells p -> on_cells (cursor_newline p).
Proof. unfold on_cells, cursor_newline. simpl. destruct (Z.ltb_spec p.1 (rows - 1)); [|destruct scrolls]; lia. Qed.

Lemma cursor_put_on p : on_cells p -> on_cells (cursor_put p).
Proof.
  intros Hp. unfold cursor_put. destruct (Z.ltb_spec (p.2 + 1) columns); [|by apply cursor_newline_on].
  unfold on_cells in *. simpl. lia.
Qed.

Lemma cursor_char_on p c : on_cells p -> on_cells (cursor_char p c).
Proof.
  intros Hp. unfold cursor_char. destruct (c =? 9); [by repeat apply cursor_put_on|].
  destruct (c =? 10); [by apply cursor_newline_on|by apply cursor_put_on].
Qed.

(** The check after every character. *)
Lemma wrap_at p w :
  writes_at p w -> 0 <= p.1 < rows -> 0 <= p.2 ->
  wp ((let! self := get in
       if (get_text_buffer_dimensions (lfb self)).1 <=? column self then new_line else ret tt) w)
    (fun '(_, w') => writes_at (if p.2 <? columns then p else cursor_newline p) w').
Proof.
  intros Hat Hrow Hcol. pose proof Hat as [_ _ Hd _ _ Hc]. wp_step. unfold get. cbn [wp].
  rewrite Hd, Hc. cbn [fst].
  destruct (Z.leb_spec columns p.2), (Z.ltb_spec p.2 columns); try lia; [by apply new_line_at|by wp_steps].
Qed.

Lemma put_char_at p fb text background c Q :
  on_cells p -> wf fb -> get_text_buffer_dimensions fb = (columns, rows) -> is_u8 c ->
  (forall fb', wf fb' -> LinearFramebuffer.dimensions fb' = LinearFramebuffer.dimensions fb -> Q (tt, fb')) ->
  wp (put_char p.2 p.1 text background c fb) Q.
Proof.
  intros [Hr Hc] Hwf Hd Hch HQ. destruct (dims_bounds grid_setup _ Hwf Hd) as [Hw Hh]. simpl in Hw, Hh.
  pose proof Hwf as [? ? _ _]. destruct (get_char_glyph_eq c Hch) as [Hg _]. unfold put_char.
  wp_step. wp_step. apply wp_u64_mul; [unfold VGA_FONT_WIDTH; lia|].
  wp_step. wp_step. apply wp_u64_mul; [unfold VGA_FONT_HEIGHT; lia|].
  rewrite Hg. wp_step. wp_step. wp_step. wp_step. eapply wp_mono.
  { apply (plot_glyph_wp (mkGlyph _ _ _ _ _ _) (glyph_of c) fb Hwf).
    unfold fits, VGA_FONT_WIDTH, VGA_FONT_HEIGHT. simpl. lia. }
  intros [r fb'] (-> & Hwf' & Hd' & _). cbn [unwrap_result]. wp_steps. by apply HQ.
Qed.

Lemma write_plain_at space p w c :
  c <> 9 -> c <> 10 -> writes_at p w -> on_cells p ->
  wp (write_char_body space c w) (fun '(_, w') => writes_at (cursor_put p) w').
Proof.
  intros H9 H10 Hat Hp. pose proof Hat as [Hwf Hs Hd Hsc Hr Hc].
  destruct (dims_bounds grid_setup _ Hwf Hd) as [Hw Hh]. simpl in Hw, Hh. pose proof Hwf as [Hw64 _ _ _].
  unfold write_char_body. rewrite (proj2 (Z.eqb_neq c 9)), (proj2 (Z.eqb_neq c 10)) by done.
  wp_step. wp_step. unfold get at 1. cbn [wp]. wp_step. unfold with_lfb at 1. wp_step. rewrite Hr, Hc.
  eapply put_char_at; [done|done|done|unfold is_u8, u8_bound; apply Z.mod_pos_bound; lia|].
  intros fb' Hwf' Hd'. wp_step. unfold get at 1. cbn [wp]. wp_step. wp_step.
  cbn [column set_lfb]. rewrite Hc. destruct Hp as [Hrow Hcol]. apply wp_u64_add; [lia|].
  unfold put. cbn [wp]. cbn [row set_lfb]. rewrite Hr. eapply wp_mono.
  - apply (wrap_at (p.1, p.2 + 1)); [|simpl; lia|simpl; lia]. eapply writes_at_cursor, writes_at_lfb; [exact Hat|done|done].
  - intros [[] w'] Hw'. unfold cursor_put. simpl in Hw'. by destruct (p.2 + 1 <? columns).
Qed.

Lemma write_char_at p w c :
  writes_at p w -> on_cells p -> wp (write_char c w) (fun '(_, w') => writes_at (cursor_char p c) w').
Proof.
  intros Hat Hp. unfold cursor_char. rewrite write_char_eq.
  destruct (Z.eqb_spec c 9) as [->|H9].
  - assert (forall p w, writes_at p w -> on_cells p ->
      wp (write_char 32 w) (fun '(_, w') => writes_at (cursor_put p) w')) as Hspace
      by (intros; by apply write_plain_at).
    unfold write_char_body. rewrite Z.eqb_refl. change (range 0 TAB_SIZE) with [0; 1; 2; 3]. cbn [for_all].
    wp_step. do 4 (wp_step; eapply wp_mono; [apply Hspace; [eassumption|by repeat apply cursor_put_on]|];
      intros [[] ?] ?). unfold ret at 1. cbn [wp].
    assert (on_cells (cursor_put (cursor_put (cursor_put (cursor_put p))))) as Hon by by repeat apply cursor_put_on.
    eapply wp_mono; [apply wrap_at; [eassumption|apply Hon|apply Hon]|].
    intros [[] w'] Hw'. by rewrite (proj2 (Z.ltb_lt _ _)) in Hw' by apply Hon.
  - destruct (Z.eqb_spec c 10) as [->|H10]; [|by apply write_plain_at].
    unfold write_char_body. cbn [Z.eqb Pos.eqb]. wp_step.
    pose proof (cursor_newline_on p Hp) as Hon.
    eapply wp_mono; [apply new_line_at; [done|apply Hp]|]. intros [[] w1] Hw1.
    eapply wp_mono; [apply wrap_at; [exact Hw1|apply Hon|apply Hon]|].
    intros [[] w'] Hw'. by rewrite (proj2 (Z.ltb_lt _ _)) in Hw' by apply Hon.
Qed.

Lemma write_string_at l : forall p w,
  writes_at p w -> on_cells p ->
  wp (write_string l w) (fun '(_, w') => writes_at (foldl cursor_char p l) w' /\ on_cells (foldl cursor_char p l)).
Proof.
  unfold write_string. induction l as [|c l IH]; intros p w Hat Hp; cbn [for_all foldl]; [by wp_steps|].
  wp_step. eapply wp_mono; [by apply write_char_at|]. intros [[] w'] Hw'. apply IH; [done|by apply cursor_char_on].
Qed.

Lemma run_use_at u p w :
  writes_at p w -> on_cells p -> use_ok columns rows u ->
  wp (run_use u w) (fun '(_, w') => writes_at (cursor_use p u) w' /\ on_cells (cursor_use p u)).
Proof.
  intros Hat Hp Hu. destruct u as [l|r c|color|color]; cbn [run_use cursor_use].
  - by apply write_string_at.
  - unfold set_position. wp_steps. split; [by eapply writes_at_cursor|exact Hu].
  - wp_steps. split; [|done]. by destruct Hat; constructor.
  - wp_steps. split; [|done]. by destruct Hat; constructor.
Qed.

Lemma run_uses_at uses : forall p w,
  writes_at p w -> on_cells p -> Forall (use_ok columns rows) uses ->
  wp (run_uses uses w) (fun '(_, w') =>
    writes_at (foldl cursor_use p uses) w' /\ on_cells (foldl cursor_use p uses)).
Proof.
  unfold run_uses. induction uses as [|u uses IH]; intros p w Hat Hp Hok; cbn [for_all foldl]; [by wp_steps|].
  apply Forall_cons in Hok as [Hu Hok]. wp_step. eapply wp_mono; [by apply run_use_at|].
  intros [[] w'] [Hw' Hp']. by apply IH.
Qed.

End cursor.

(** *** The types *)

Lemma run_use_keeps columns rows u :
  columns < u64_bound -> rows < u64_bound -> use_ok columns rows u -> keeps typed_writer (run_use u).
Proof.
  intros Hc64 Hr64 Hu. destruct u as [l|r c|color|color]; cbn [run_use use_ok] in *.
  - apply write_string_keeps.
  - apply set_position_keeps; unfold is_u64; lia.
  - apply keeps_get. intros w []. apply keeps_put. by constructor.
  - apply keeps_get. intros w []. apply keeps_put. by constructor.
Qed.

Lemma run_uses_keeps columns rows uses :
  columns < u64_bound -> rows < u64_bound -> Forall (use_ok columns rows) uses -> keeps typed_writer (run_uses uses).
Proof.
  intros Hc Hr Hok. unfold run_uses. induction Hok as [|u uses Hu _ IH]; cbn [for_all]; [auto with keeps|].
  apply keeps_bind; [by apply (run_use_keeps columns rows)|done].
Qed.

(** ** Properties *)

(** C28: the writer stays on its grid and in its types. Over a framebuffer of [u32] pixels with room
    for at least one character, whatever is then done with the writer, any texts, moves of the
    cursor on the grid and colors, in any order, it completes; the cursor is where the
    reference has it, one cell on per character, at the start of the next line after a line
    break or a full line, on the last row there or, without scrolling, on the first; it is
    always on the grid; the screen keeps its size; pixels and colors are [u32], the cursor
    [usize]. And for every [u8] the font has a glyph of 16 [u8]. *)
Theorem writer_stays_on_grid fb scrolls text background uses
    (Hfb : typed_framebuffer fb) (Hwf : wf fb)
    (Hroom : 8 <= LinearFramebuffer.width fb /\ 16 <= LinearFramebuffer.height fb)
    (Ht : is_u32 text) (Hb : is_u32 background)
    (Huses : Forall (use_ok (LinearFramebuffer.width fb / 8) (LinearFramebuffer.height fb / 16)) uses) :
  let columns := LinearFramebuffer.width fb / 8 in
  let rows := LinearFramebuffer.height fb / 16 in
  (exists w, run_uses uses (new fb scrolls text background) = Done (tt, w) /\
     get_position w = foldl (cursor_use columns rows scrolls) (0, 0) uses /\
     0 <= row w < rows /\ 0 <= column w < columns /\
     LinearFramebuffer.dimensions (lfb w) = LinearFramebuffer.dimensions fb /\ typed_writer w) /\
  forall c, is_u8 c -> exists g, get_char_glyph c = Done g /\ length g = 16%nat /\ Forall is_u8 g.
Proof.
  intros columns rows. destruct Hroom as [Hw Hh]. split.
  - pose proof (Z.div_le_mono 8 _ 8 ltac:(lia) Hw) as Hc1. pose proof (Z.div_le_mono 16 _ 16 ltac:(lia) Hh) as Hr1.
    rewrite Z.div_same in Hc1, Hr1 by done. fold columns in Hc1. fold rows in Hr1.
    assert (writes_at columns rows scrolls (LinearFramebuffer.dimensions fb) (0, 0) (new fb scrolls text background))
      as Hat by (constructor; [exact Hwf|done|done|done|done|done]).
    pose proof (run_uses_at columns rows scrolls (LinearFramebuffer.dimensions fb) ltac:(lia) uses (0, 0) _ Hat) as H.
    destruct (proj1 (wp_iff _ _) (H ltac:(unfold on_cells; simpl; lia) Huses))
      as ([[] w] & Hrun & [_ Hs _ _ Hr Hc] & [Hon1 Hon2]).
    exists w. split; [exact Hrun|]. unfold get_position. rewrite Hr, Hc.
    split; [by destruct (foldl _ _ _)|]. do 2 (split; [done|]). split; [exact Hs|].
    eapply (keeps_run typed_writer); [eapply (run_uses_keeps columns rows uses); [| |exact Huses]| |exact Hrun].
    + unfold columns. pose proof (Z.div_le_upper_bound (LinearFramebuffer.width fb) 8 (LinearFramebuffer.width fb)).
      destruct Hwf. lia.
    + unfold rows. pose proof (Z.div_le_upper_bound (LinearFramebuffer.height fb) 16 (LinearFramebuffer.height fb)).
      destruct Hwf. lia.
    + by constructor.
  - intros c Hc. pose proof (get_char_glyph_typed c Hc) as H. apply wp_iff in H as (g & ? & ?). by exists g.
Qed.

(** *** Instances *)

(** Three columns, one row: the third letter fills the line, which scrolls; then the cursor moves. *)
Definition typed_screen : LinearFramebuffer := LinearFramebuffer.mk (24, 20) (replicate 480 0).
Definition typed_uses : list use := [TextColor (u32_bound - 1); Write [65; 66; 67; 68]; MoveTo 0 2; Write [10; 9]].

Lemma writer_stays_on_grid_witness :
  exists w, run_uses typed_uses (new typed_screen true 7 0) = Done (tt, w) /\
    get_position w = (0, 1) /\ typed_writer w.
Proof.
  destruct (writer_stays_on_grid typed_screen true 7 0 typed_uses) as [(w & Hrun & Hp & _ & _ & _ & Hw) _].
  - constructor; [done|done|by apply Forall_replicate].
  - by constructor.
  - split; vm_compute; congruence.
  - done.
  - done.
  - repeat constructor; vm_compute; congruence.
  - exists w. split; [exact Hrun|]. split; [exact Hp|exact Hw].
Defined.
