(* ===== verification/Allocators.v ===== *)
(** The kernel's two page allocators over the bitmap allocator: physical frames
    ([BitmapFrameAllocator] of [memory/paging/frame_allocation.rs]) and virtual pages
    ([VirtualMemoryAllocator] of [memory/paging/page_mapping.rs]). *)
From S2P Require Import Prelude X86 Memory FrameAllocation Bitmap.

(** [Result::map] with a function that can panic. *)
Definition then_map {S A B E} (f : A -> outcome B) (m : M S (result A E)) : M S (result B E) :=
  let? a := m in let^ b := f a in ret (Ok b).

Module BitmapFrameAllocator.

(** [struct BitmapFrameAllocator(pub BitmapAllocator)]. *)
Record BitmapFrameAllocator : Type := mk { bits : BitmapAllocator.BitmapAllocator }.

Definition set_bits (b : BitmapAllocator.BitmapAllocator) (_ : BitmapFrameAllocator) :
    BitmapFrameAllocator := mk b.

Definition with_bits {A} (m : M BitmapAllocator.BitmapAllocator A) : M BitmapFrameAllocator A :=
  zoom bits set_bits m.

Definition is_usable (r : MemoryRegionInfo) : bool := bool_decide (region_type r = Usable).

(** The closure of the [for_each]: clears the bits of a usable region. *)
Definition clear_region (r : MemoryRegionInfo) : M BitmapAllocator.BitmapAllocator unit :=
  let^ stop := u64_add (region_base r) (region_length r) in
  let! res := BitmapAllocator.flag_range (region_base r / PAGE_SIZE, stop / PAGE_SIZE) false in
  lift (unwrap_result res).

Definition clear_usable (mmap_entries : list MemoryRegionInfo) :
    M BitmapAllocator.BitmapAllocator unit :=
  for_all (List.filter is_usable mmap_entries) clear_region.

Section frames.
Context {X : X86}.

Definition new (bitmap_size internal_offset : Z) (mmap_entries : list MemoryRegionInfo) :
    M LinearFrameAllocator.LinearFrameAllocator (result BitmapFrameAllocator MemoryError) :=
  let? allocator := BitmapAllocator.new bitmap_size true internal_offset in
  let^ '(_, allocator) := clear_usable mmap_entries allocator in
  ret (Ok (mk allocator)).

(** The bit found is passed to [PhysAddr::new] as it is. *)
Definition alloc : M BitmapFrameAllocator (result Z MemoryError) :=
  then_map phys_new (with_bits (BitmapAllocator.alloc 1)).

Definition alloc_contiguous (pages : Z) : M BitmapFrameAllocator (result Z MemoryError) :=
  then_map phys_new (with_bits (BitmapAllocator.alloc pages)).

Definition free (phys_addr : Z) : M BitmapFrameAllocator (result unit MemoryError) :=
  let offset := phys_addr / PAGE_SIZE in
  with_bits (BitmapAllocator.free offset).

Definition free_contiguous (phys_addr pages : Z) : M BitmapFrameAllocator (result unit MemoryError) :=
  let offset := phys_addr / PAGE_SIZE in
  let^ stop := u64_add offset pages in
  with_bits (BitmapAllocator.free_range (offset, stop)).

#[global] Instance bitmap_frame_allocator : FrameAllocator BitmapFrameAllocator := {
  frame_alloc := alloc;
  frame_alloc_contiguous := alloc_contiguous;
  frame_free := free;
  frame_free_contiguous := free_contiguous
}.

End frames.
End BitmapFrameAllocator.

Definition PAGE_ALLOCATOR_START : Z := 0xFFFFE00000000000.

Module VirtualMemoryAllocator.

(** [struct VirtualMemoryAllocator(BitmapAllocator)]. *)
Record VirtualMemoryAllocator : Type := mk { bits : BitmapAllocator.BitmapAllocator }.

Definition set_bits (b : BitmapAllocator.BitmapAllocator) (_ : VirtualMemoryAllocator) :
    VirtualMemoryAllocator := mk b.

Section pages.
Context {X : X86}.

Definition new (size internal_offset : Z) :
    M LinearFrameAllocator.LinearFrameAllocator (result VirtualMemoryAllocator MemoryError) :=
  let? bitmap := BitmapAllocator.new size true internal_offset in
  ret (Ok (mk bitmap)).

Definition alloc_contiguous (pages : Z) : M VirtualMemoryAllocator (result Z MemoryError) :=
  then_map (fun page => let* bytes := u64_mul page PAGE_SIZE in virt_add PAGE_ALLOCATOR_START bytes)
    (zoom bits set_bits (BitmapAllocator.alloc pages)).

Definition free (addr pages : Z) : M VirtualMemoryAllocator (result unit MemoryError) :=
  let^ distance := u64_sub addr PAGE_ALLOCATOR_START in
  let offset := distance / PAGE_SIZE in
  let^ stop := u64_add offset pages in
  zoom bits set_bits (BitmapAllocator.free_range (offset, stop)).

End pages.
End VirtualMemoryAllocator.
