(* ===== verification/AllocatorsProofs.v ===== *)
(** The two page allocators as the kernel creates them: the frame allocator knows the
    usable memory, the virtual allocator never has anything to give; and the bit numbers
    the frame allocator returns in place of addresses. *)
From S2P Require Import Prelude X86 Memory FrameAllocation Bitmap BitmapProofs PageTable.
From S2P Require Import PageTableProofs Allocators.

(** ** Creation of a bitmap *)

Section creation.
Context {X : X86} {XL : X86Laws}.

(** A new allocator: every bit as [set]. *)
Record fresh (b : BitmapAllocator.BitmapAllocator) (bytes ptr : Z) (set : bool) : Prop := {
  fresh_wf : BitmapProofs.wf b;
  fresh_ptr : BitmapAllocator.bitmap_ptr b = ptr;
  fresh_size : BitmapAllocator.size b = 8 * bytes;
  fresh_last : BitmapAllocator.last_allocated b = 0;
  fresh_used i : 0 <= i < 8 * bytes -> used b i = set
}.

(** What creating a bitmap of [size] bytes needs of the linear allocator. *)
Record bitmap_fits (size offset : Z) (lin : LinearFrameAllocator.LinearFrameAllocator) : Prop := {
  fits_size : 0 <= size < 2 ^ 52;
  fits_next : 0 <= LinearFrameAllocator.next lin;
  fits_end : LinearFrameAllocator.next lin + size_in_pages size * PAGE_SIZE < 2 ^ 52;
  fits_offset : 0 <= offset;
  fits_canonical : canonical (LinearFrameAllocator.next lin + offset)
}.

Lemma size_in_pages_nonneg s : 0 <= s -> 0 <= size_in_pages s.
Proof. rewrite size_in_pages_div_ceil, PAGE_SIZE_eq. intros. by apply (div_ceil_spec s 4096). Qed.

Lemma filled_bits n (set : bool) i :
  0 <= i < 8 * n -> bit_at (replicate (Z.to_nat n) (BitmapAllocator.fill_byte set)) i = set.
Proof.
  intros Hi. unfold bit_at.
  assert (0 <= i / 8 < n) by (split; [apply Z.div_pos; lia|apply Z.div_lt_upper_bound; lia]).
  rewrite lookup_replicate_2 by lia. simpl. pose proof (Z.mod_pos_bound i 8).
  destruct set; simpl; [|by rewrite Z.testbit_0_l]. change 255 with (Z.ones 8).
  rewrite Z.ones_spec_low; [done|lia].
Qed.

Lemma bitmap_new_wp size set offset lin :
  bitmap_fits size offset lin ->
  wp (BitmapAllocator.new size set offset lin) (fun '(r, lin') =>
    exists b, r = Ok b /\ fresh b size (LinearFrameAllocator.next lin + offset) set /\
      LinearFrameAllocator.next lin' = LinearFrameAllocator.next lin + size_in_pages size * PAGE_SIZE).
Proof.
  intros [Hs Hn He Ho Hc]. pose proof (size_in_pages_nonneg size ltac:(lia)).
  pose proof PAGE_SIZE_eq. unfold BitmapAllocator.new. wp_step.
  rewrite LinearFrameAllocator.alloc_contiguous_eq by address. cbn [wp].
  wp_step. wp_step. apply wp_u64_add; [unfold u64_bound, canonical in *; lia|].
  rewrite virt_new_canonical by done. wp_steps. apply wp_u64_mul; [unfold u64_bound; lia|]. wp_steps.
  eexists. split; [done|]. split; [|done]. constructor; simpl; try done.
  - constructor; simpl; [|rewrite length_replicate; lia|unfold u64_bound; lia|done].
    apply Forall_replicate. by destruct set.
  - lia.
  - intros i Hi. by apply filled_bits.
Qed.

End creation.

(** ** Usable memory *)

(** The frames a usable region clears: the whole bytes inside it. *)
Definition region_range (r : MemoryRegionInfo) : Z * Z :=
  (region_base r / PAGE_SIZE, (region_base r + region_length r) / PAGE_SIZE).

Definition region_clears (r : MemoryRegionInfo) (i : Z) : bool :=
  BitmapFrameAllocator.is_usable r && (8 <=? (region_range r).2 - (region_range r).1)
  && (aligned_start (region_range r).1 <=? i) && (i <? aligned_end (region_range r).2).

(** A region of the boot loader's map: its end does not overflow. *)
Definition region_ok (r : MemoryRegionInfo) : Prop :=
  0 <= region_base r /\ 0 <= region_length r /\ region_base r + region_length r < u64_bound.

Lemma region_range_bounds r : region_ok r -> 0 <= (region_range r).1 <= (region_range r).2.
Proof.
  intros (Hb & Hl & _). unfold region_range. rewrite PAGE_SIZE_eq. simpl.
  split; [by apply Z.div_pos|apply Z.div_le_mono; lia].
Qed.

Lemma clear_region_wp r b :
  BitmapProofs.wf b -> region_ok r -> (region_range r).2 <= BitmapAllocator.size b -> 
  BitmapFrameAllocator.is_usable r = true ->
  wp (BitmapFrameAllocator.clear_region r b) (fun '(_, b') =>
    updates b b' (fun i x => x && negb (region_clears r i))).
Proof.
  intros Hwf Hok Hs Hu. pose proof (region_range_bounds r Hok) as Hr. destruct Hok as (_ & _ & H64).
  unfold BitmapFrameAllocator.clear_region. wp_steps. fold (region_range r).
  eapply wp_mono; [by apply flag_range_wp|]. intros [res b'] [-> Hupd]. cbn [unwrap_result].
  wp_steps. eapply updates_ext; [exact Hupd|]. intros i x Hi. simpl.
  unfold flag_range_effect, flag_each_effect, region_clears. rewrite Hu. cbn [andb].
  destruct x; repeat case_match; done.
Qed.

(** The bits left after the usable regions of the map were cleared. *)
Lemma clear_usable_wp entries : forall b,
  BitmapProofs.wf b -> Forall region_ok entries ->
  Forall (fun r => BitmapFrameAllocator.is_usable r = true ->
            (region_range r).2 <= BitmapAllocator.size b) entries ->
  wp (BitmapFrameAllocator.clear_usable entries b) (fun '(_, b') =>
    updates b b' (fun i x => x && negb (existsb (fun r => region_clears r i) entries))).
Proof.
  unfold BitmapFrameAllocator.clear_usable.
  induction entries as [|r entries IH]; intros b Hwf Hok Hs; cbn [List.filter].
  { cbn [for_all]. wp_steps. eapply updates_ext; [by apply updates_refl|].
    intros i x _. by rewrite andb_true_r. }
  apply Forall_cons in Hok as [Hr Hok]. apply Forall_cons in Hs as [Hrs Hs].
  destruct (BitmapFrameAllocator.is_usable r) eqn:Hu.
  - cbn [for_all]. wp_step. eapply wp_mono; [apply clear_region_wp; auto|].
    intros [[] b1] Hupd. eapply wp_mono; [apply IH|].
    + by destruct Hupd.
    + done.
    + eapply Forall_impl; [exact Hs|]. intros r' Hr'. by rewrite (upd_size _ _ _ Hupd).
    + intros [[] b2] Hupd2. eapply updates_ext; [by eapply updates_trans|].
      intros i x _. simpl. rewrite negb_orb. by rewrite andb_assoc.
  - eapply wp_mono; [by apply IH|]. intros [[] b1] Hupd. eapply updates_ext; [done|].
    intros i x _. simpl. unfold region_clears at 2. by rewrite Hu.
Qed.

(** A usable region whose last page lies past the bitmap makes the panic. *)
Lemma clear_usable_panics entries : forall b,
  BitmapProofs.wf b -> Forall region_ok entries ->
  Forall (fun r => (region_range r).1 < (region_range r).2 <= BitmapAllocator.size b * 8) entries ->
  Exists (fun r => BitmapFrameAllocator.is_usable r = true /\
            BitmapAllocator.size b < (region_range r).2) entries ->
  BitmapFrameAllocator.clear_usable entries b = Panicked IndexOutOfBounds.
Proof.
  unfold BitmapFrameAllocator.clear_usable.
  induction entries as [|r entries IH]; intros b Hwf Hok Hs Hex; [by apply Exists_nil in Hex|].
  apply Forall_cons in Hok as [Hr Hok]. apply Forall_cons in Hs as [Hrs Hs].
  pose proof (region_range_bounds r Hr) as Hb. pose proof Hr as (_ & _ & H64).
  cbn [List.filter]. destruct (BitmapFrameAllocator.is_usable r) eqn:Hu.
  - cbn [for_all]. destruct (Z.le_gt_cases (region_range r).2 (BitmapAllocator.size b)) as [Hin|Hout].
    + apply bind_panics. eapply wp_mono; [by apply clear_region_wp|].
      intros [[] b1] Hupd. apply IH; [by destruct Hupd|done| |].
      * eapply Forall_impl; [exact Hs|]. intros r' Hr'. by rewrite (upd_size _ _ _ Hupd).
      * apply Exists_cons in Hex as [[_ Hbad]|Hex]; [lia|].
        eapply Exists_impl; [exact Hex|]. intros r' Hr'. by rewrite (upd_size _ _ _ Hupd).
    + apply bind_panics_first. unfold BitmapFrameAllocator.clear_region.
      apply bind_panics. wp_steps. fold (region_range r). apply bind_panics_first.
      apply flag_range_past_end; [done|lia|lia].
  - apply IH; [done..|]. apply Exists_cons in Hex as [[Hbad _]|Hex]; [congruence|done].
Qed.

Section allocators.
Context {X : X86} {XL : X86Laws}.

Lemma frame_new_wp size offset entries lin :
  bitmap_fits size offset lin -> Forall region_ok entries ->
  Forall (fun r => BitmapFrameAllocator.is_usable r = true -> (region_range r).2 <= 8 * size) entries ->
  wp (BitmapFrameAllocator.new size offset entries lin) (fun '(r, lin') =>
    exists b, r = Ok (BitmapFrameAllocator.mk b) /\ BitmapProofs.wf b /\ BitmapAllocator.size b = 8 * size /\
      BitmapAllocator.bitmap_ptr b = LinearFrameAllocator.next lin + offset /\
      BitmapAllocator.last_allocated b = 0 /\
      (forall i, 0 <= i < 8 * size ->
         used b i = negb (existsb (fun r => region_clears r i) entries)) /\
      LinearFrameAllocator.next lin' = LinearFrameAllocator.next lin + size_in_pages size * PAGE_SIZE).
Proof.
  intros Hfit Hok Hin. unfold BitmapFrameAllocator.new. wp_step.
  eapply wp_mono; [by apply bitmap_new_wp|]. intros [r lin'] (b & -> & [W P S L U] & Hnext).
  wp_step. wp_step. eapply wp_mono; [apply clear_usable_wp; [done|done|]|].
  { eapply Forall_impl; [exact Hin|]. intros r0 Hr0. by rewrite S. }
  intros [[] b'] Hupd. wp_steps. exists b'. destruct Hupd as [W' P' S' L' U'].
  split_and!; [done|done|congruence|congruence|congruence| |done].
  intros i Hi. rewrite U', U by lia. done.
Qed.

Lemma virt_new_wp size offset lin :
  bitmap_fits size offset lin ->
  wp (VirtualMemoryAllocator.new size offset lin) (fun '(r, lin') =>
    exists b, r = Ok (VirtualMemoryAllocator.mk b) /\
      fresh b size (LinearFrameAllocator.next lin + offset) true /\
      LinearFrameAllocator.next lin' = LinearFrameAllocator.next lin + size_in_pages size * PAGE_SIZE).
Proof.
  intros Hfit. unfold VirtualMemoryAllocator.new. wp_step.
  eapply wp_mono; [by apply bitmap_new_wp|]. intros [r lin'] (b & -> & Hf & Hnext). wp_steps.
  by exists b.
Qed.

(** An allocator of virtual pages in which every page is in use. *)
Record exhausted (v : VirtualMemoryAllocator.VirtualMemoryAllocator) : Prop := {
  ex_wf : BitmapProofs.wf (VirtualMemoryAllocator.bits v);
  ex_length : 2 <= Z.of_nat (length (BitmapAllocator.bitmap (VirtualMemoryAllocator.bits v)));
  ex_last : BitmapAllocator.last_allocated (VirtualMemoryAllocator.bits v)
            <= Z.of_nat (length (BitmapAllocator.bitmap (VirtualMemoryAllocator.bits v)));
  ex_used i : 0 <= i < BitmapAllocator.size (VirtualMemoryAllocator.bits v) ->
    used (VirtualMemoryAllocator.bits v) i = true
}.

Lemma fresh_exhausted b size ptr :
  2 <= size -> fresh b size ptr true -> exhausted (VirtualMemoryAllocator.mk b).
Proof.
  intros Hs [W P S L U]. pose proof (wf_size _ W).
  constructor; simpl; [done|lia|lia|]. intros i Hi. apply U. lia.
Qed.

Lemma exhausted_alloc_wlp v pages :
  exhausted v -> 0 < pages ->
  wlp (VirtualMemoryAllocator.alloc_contiguous pages v) (fun '(r, v') =>
    v' = v /\ exists e, r = Err e).
Proof.
  intros [W Hlen Hlast Hu] Hp. unfold VirtualMemoryAllocator.alloc_contiguous, then_map.
  wp_step. wp_step. eapply wlp_mono; [by apply alloc_full_wlp|].
  intros [r b'] [-> [e ->]]. destruct v. simpl. eauto.
Qed.

(** ** Frames as addresses *)

(** A free run of eight frames at or after the search position, all of them with a bit
    number that is no page base: the next frame is one of them or an earlier one. *)
Record next_unaligned (a : BitmapFrameAllocator.BitmapFrameAllocator) (j : Z) : Prop := {
  nu_wf : BitmapProofs.wf (BitmapFrameAllocator.bits a);
  nu_last : 0 < BitmapAllocator.last_allocated (BitmapFrameAllocator.bits a) <= j;
  nu_small : j < 4096;
  nu_size : j + 8 <= BitmapAllocator.size (BitmapFrameAllocator.bits a);
  nu_free i : j <= i < j + 8 -> used (BitmapFrameAllocator.bits a) i = false
}.

Lemma frame_alloc_bit a j :
  next_unaligned a j ->
  wp (BitmapFrameAllocator.alloc a) (fun '(r, a') =>
    exists f, r = Ok f /\ 0 < f < 4096 /\ f <= j /\ used (BitmapFrameAllocator.bits a) f = false /\
      used (BitmapFrameAllocator.bits a') f = true).
Proof.
  intros [W [Hl1 Hl2] Hj Hs Hf].
  unfold BitmapFrameAllocator.alloc, then_map, BitmapFrameAllocator.with_bits. wp_step. wp_step.
  destruct (alloc_finds (BitmapFrameAllocator.bits a) 1 j W) as (start & b' & -> & Hle & Hpost);
    [lia|lia|done|exact Hs|exact Hf|].
  destruct Hpost as (H1 & H2 & H3 & _ & (_ & _ & _ & _ & H4)). cbn [wp].
  rewrite phys_new_valid by address. wp_steps.
  exists start. split_and!; [done|lia|lia|done|apply H3; lia|].
  simpl. rewrite H4 by lia. rewrite (proj2 (Z.leb_le _ _)), (proj2 (Z.ltb_lt _ _)) by lia.
  apply orb_true_r.
Qed.

(** Creating a table in an unaligned frame panics. *)
Lemma create_levels_unaligned {F} {FA : FrameAllocator F} self to k q levels (env : RecursivePageTable.Env F) f a' :
  wf self (RecursivePageTable.tables env) -> ~ reserved to -> (k < 3)%nat ->
  resolve self (RecursivePageTable.tables env) (take k (table_path to)) = Some q ->
  resolve self (RecursivePageTable.tables env) (take (S k) (table_path to)) = None ->
  frame_alloc (RecursivePageTable.allocator env) = Done (Ok f, a') ->
  phys_valid f -> ~ page_aligned f ->
  RecursivePageTable.create_levels self to (4 - Z.of_nat k :: levels) q env = Panicked LibraryPanic.
Proof.
  intros Hwf Hr Hk Hq Hnone Hf Hv Hal.
  set (i := page_index (4 - Z.of_nat k) to).
  assert (0 <= i < 512) as Hi by (apply page_index_bounds; lia).
  assert (take (S k) (table_path to) = take k (table_path to) ++ [i]) as Hsnoc
    by (by destruct k as [|[|[|k]]]; [..|lia]).
  destruct (wf_table _ _ Hwf _ _ (table_path_valid to k Hr) Hq) as [[t Ht] _].
  assert (entry_is_unused (page_table_get t i) = true) as Hu.
  { rewrite Hsnoc, resolve_snoc, Hq in Hnone. simpl in Hnone. unfold child in Hnone.
    rewrite Ht in Hnone. simpl in Hnone. by destruct (entry_is_unused _). }
  cbn [RecursivePageTable.create_levels]. apply bind_panics, wp_lift.
  rewrite get_page_index_eq by lia. cbn [wp]. fold i. apply bind_panics. wp_steps.
  apply bind_panics, wp_lift. erewrite read_entry_eq by done. cbn [wp]. rewrite Hu. cbn [negb].
  apply bind_panics. wp_step. rewrite Hf. cbn [wp]. apply bind_panics_first. unfold lift.
  by rewrite set_addr_unaligned.
Qed.

Section unaligned.
Context {F : Type} {FA : FrameAllocator F} (self : RecursivePageTable.RecursivePageTable)
  (from to : Z) (flags : PageTableFlags) (env : RecursivePageTable.Env F) (f : Z) (a' : F)
  (Hwf : wf self (RecursivePageTable.tables env)) (Hr : ~ reserved to)
  (Hnone : resolve self (RecursivePageTable.tables env) (table_path to) = None)
  (Hf : frame_alloc (RecursivePageTable.allocator env) = Done (Ok f, a'))
  (Hv : phys_valid f) (Hal : ~ page_aligned f).

Lemma map_levels_unaligned k :
  (k <= 3)%nat ->
  ((k < 3)%nat -> resolve self (RecursivePageTable.tables env) (take (S k) (table_path to)) = None) ->
  RecursivePageTable.map_levels self from to flags (range (4 - Z.of_nat k) 5) env
  = Panicked LibraryPanic.
Proof.
  induction k as [|k IH]; intros Hk Hn; rewrite range_cons by lia;
    cbn [RecursivePageTable.map_levels]; apply bind_panics; wp_steps;
    apply bind_panics, wp_lift; rewrite get_page_table_eq by (done || lia); cbn [wp].
  - simpl (Z.to_nat _). cbn [take resolve foldl]. unfold RecursivePageTable.map_at.
    apply bind_ok_panics_first. change (rev (range 2 (4 - Z.of_nat 0 + 1))) with [4 - Z.of_nat 0; 3; 2].
    eapply (create_levels_unaligned self to 0); try done; [lia|]. by apply Hn; lia.
  - replace (Z.to_nat (4 - (4 - Z.of_nat (S k)))) with (S k) by lia.
    destruct (resolve self (RecursivePageTable.tables env) (take (S k) (table_path to))) as [q|] eqn:Hq.
    + unfold RecursivePageTable.map_at. apply bind_ok_panics_first.
      assert (S k < 3)%nat as Hk3.
      { destruct (decide (S k = 3%nat)) as [He|]; [|lia]. rewrite He in Hq.
        change (take 3 (table_path to)) with (table_path to) in Hq. congruence. }
      replace (4 - Z.of_nat (S k) + 1) with (5 - Z.of_nat (S k)) by lia.
      rewrite (range_app 2 (4 - Z.of_nat (S k))), rev_app_distr by lia.
      rewrite (range_cons (4 - Z.of_nat (S k))), range_nil by lia. cbn [rev app].
      eapply (create_levels_unaligned self to (S k)); try done. by apply Hn.
    + replace (4 - Z.of_nat (S k) + 1) with (4 - Z.of_nat k) by lia. apply IH; [lia|done].
Qed.

(** [map] panics when it has to create a table and is given an unaligned frame. *)
Lemma map_unaligned :
  RecursivePageTable.map self from to flags env = Panicked LibraryPanic.
Proof.
  unfold RecursivePageTable.map. apply bind_panics, wp_lift.
  rewrite get_page_index_eq by lia. cbn [wp]. rewrite (proj2 (Z.eqb_neq _ _)) by exact Hr.
  apply (map_levels_unaligned 3); lia.
Qed.

End unaligned.
End allocators.

(** ** Properties *)

Section properties.
Context {X : X86} {XL : X86Laws}.

(** Frame [i] lies inside a usable region. *)
Definition frame_usable (entries : list MemoryRegionInfo) (i : Z) : Prop :=
  exists r, r ∈ entries /\ region_type r = Usable /\
    region_base r <= i * PAGE_SIZE /\ (i + 1) * PAGE_SIZE <= region_base r + region_length r.

Lemma region_clears_usable entries i :
  Forall (fun r => region_type r = Usable -> page_aligned (region_base r)) entries ->
  existsb (fun r => region_clears r i) entries = true -> frame_usable entries i.
Proof.
  intros Hal Hex. apply existsb_exists in Hex as (r & Hin & Hc).
  apply list_elem_of_In in Hin. rewrite Forall_forall in Hal. specialize (Hal r Hin).
  unfold region_clears in Hc. rewrite !andb_true_iff in Hc. destruct Hc as (((Hu & _) & Hs) & He).
  unfold BitmapFrameAllocator.is_usable in Hu. apply bool_decide_eq_true in Hu.
  specialize (Hal Hu). exists r. split; [done|]. split; [done|].
  unfold region_range, aligned_start, aligned_end, page_aligned in *. rewrite PAGE_SIZE_eq in *.
  cbn [fst snd] in *. set (a := region_base r) in *. set (n := region_length r) in *.
  pose proof (Z.div_mod a 4096). pose proof (Z.div_mod (a + n) 4096).
  pose proof (Z.mod_pos_bound (a + n) 4096). pose proof (Z.mod_pos_bound (8 - (a / 4096) mod 8) 8).
  pose proof (Z.mod_pos_bound ((a + n) / 4096) 8). lia.
Qed.

(** C20: the frame allocator only ever has usable memory to give: created over a boot memory
    map whose usable regions fit in its bitmap, it succeeds, and every frame it holds as free
    lies inside a usable region; a frame is free exactly when a usable region covers the
    whole byte of the bitmap its bit lies in. *)
Theorem frame_allocator_usable size offset entries lin
    (Hfit : bitmap_fits size offset lin) (Hok : Forall region_ok entries)
    (Hal : Forall (fun r => region_type r = Usable -> page_aligned (region_base r)) entries)
    (Hin : Forall (fun r => BitmapFrameAllocator.is_usable r = true -> (region_range r).2 <= 8 * size) entries) :
  exists a lin', BitmapFrameAllocator.new size offset entries lin = Done (Ok a, lin') /\
    BitmapAllocator.size (BitmapFrameAllocator.bits a) = 8 * size /\
    forall i, 0 <= i < 8 * size ->
      (used (BitmapFrameAllocator.bits a) i = false <->
         existsb (fun r => region_clears r i) entries = true) /\
      (used (BitmapFrameAllocator.bits a) i = false -> frame_usable entries i).
Proof.
  pose proof (frame_new_wp size offset entries lin Hfit Hok Hin) as H.
  apply wp_iff in H as ([r lin'] & -> & b & -> & _ & Hs & _ & _ & Hu & _).
  exists (BitmapFrameAllocator.mk b), lin'. split; [done|]. split; [done|].
  intros i Hi. simpl. rewrite Hu by done. rewrite negb_false_iff. split; [done|].
  by apply region_clears_usable.
Qed.

(** The bitmap is sized by rounding the end of memory down to whole bytes of eight frames.
    When a usable region ends in the last, partial byte, creating the frame allocator
    panics on the slice index. *)
Lemma frame_allocator_rounds_down size offset entries lin
    (Hfit : bitmap_fits size offset lin) (Hok : Forall region_ok entries)
    (Hin : Forall (fun r => (region_range r).1 < (region_range r).2 <= 8 * size * 8) entries)
    (Hlast : Exists (fun r => region_type r = Usable /\
       (region_range r).2 / 8 = size /\ (region_range r).2 mod 8 <> 0) entries) :
  BitmapFrameAllocator.new size offset entries lin = Panicked IndexOutOfBounds.
Proof.
  unfold BitmapFrameAllocator.new. apply bind_ok_panics.
  eapply wp_mono; [by apply bitmap_new_wp|]. intros [r lin'] (b & -> & [W _ S _ _] & _).
  exists b. split; [done|]. apply bind_panics_first. unfold lift.
  rewrite clear_usable_panics; [done|done|done| |].
  - eapply Forall_impl; [exact Hin|]. intros r Hr. by rewrite S.
  - eapply Exists_impl; [exact Hlast|]. intros r (Hu & Hd & Hm). rewrite S.
    split; [unfold BitmapFrameAllocator.is_usable; by rewrite bool_decide_eq_true|].
    pose proof (Z.div_mod (region_range r).2 8). pose proof (Z.mod_pos_bound (region_range r).2 8). lia.
Qed.

(** The virtual page allocator is created with every page in use and nothing clears
    them: whatever the size of the request, [alloc_contiguous] never grants pages, and the
    allocator stays as it is. *)
Lemma virtual_pages_never_granted size offset lin pages
    (Hfit : bitmap_fits size offset lin) (Hsize : 2 <= size) (Hp : 0 < pages) :
  exists v lin', VirtualMemoryAllocator.new size offset lin = Done (Ok v, lin') /\
    forall r v', VirtualMemoryAllocator.alloc_contiguous pages v = Done (r, v') ->
      v' = v /\ exists e, r = Err e.
Proof.
  pose proof (virt_new_wp size offset lin Hfit) as H.
  apply wp_iff in H as ([r lin'] & -> & b & -> & Hf & _).
  exists (VirtualMemoryAllocator.mk b), lin'. split; [done|].
  pose proof (exhausted_alloc_wlp _ pages (fresh_exhausted _ _ _ Hsize Hf) Hp) as Ha.
  rewrite wlp_iff in Ha. intros r' v' Hrun. by apply (Ha (r', v')).
Qed.


End properties.

(** *** Instances *)

#[local] Existing Instances X86Model.x86 X86Model.x86_laws.

Definition example_offset : Z := 0xFFFF800000000000.

(** 512 KiB of usable memory from 1 MiB on, below a reserved region. *)
Definition example_map (length : Z) : list MemoryRegionInfo :=
  [{| region_base := 0; region_length := 0x100000; region_type := Reserved |};
   {| region_base := 0x100000; region_length := length; region_type := Usable |}].

Lemma example_fits n : 0 <= n <= 4096 ->
  bitmap_fits n example_offset (LinearFrameAllocator.mk 0x100000).
Proof.
  intros Hn. pose proof (size_in_pages_nonneg n ltac:(lia)).
  assert (size_in_pages n <= 1).
  { rewrite size_in_pages_div_ceil, PAGE_SIZE_eq.
    pose proof (div_ceil_spec n 4096 ltac:(lia) ltac:(lia)). lia. }
  pose proof PAGE_SIZE_eq.
  constructor; simpl; unfold example_offset; try lia. right. lia.
Qed.

Lemma example_map_ok n : 0 <= n < 2 ^ 40 -> Forall region_ok (example_map n).
Proof. intros Hn. repeat constructor; simpl; unfold u64_bound; lia. Qed.

Lemma frame_allocator_usable_witness :
  exists a lin', BitmapFrameAllocator.new 48 example_offset (example_map 0x80000)
      (LinearFrameAllocator.mk 0x100000) = Done (Ok a, lin') /\
    used (BitmapFrameAllocator.bits a) 300 = false.
Proof.
  destruct (frame_allocator_usable 48 example_offset (example_map 0x80000)
    (LinearFrameAllocator.mk 0x100000)) as (a & lin' & H & _ & Hu);
    [apply example_fits; lia|apply example_map_ok; lia|repeat constructor; done
    |repeat constructor; by vm_compute|].
  exists a, lin'. split; [exact H|]. apply Hu; [lia|vm_compute; reflexivity].
Defined.

Lemma frame_allocator_rounds_down_witness :
  BitmapFrameAllocator.new 47 example_offset (example_map 0x7D000)
    (LinearFrameAllocator.mk 0x100000) = Panicked IndexOutOfBounds.
Proof.
  apply (frame_allocator_rounds_down 47 example_offset (example_map 0x7D000));
    [apply example_fits; lia|apply example_map_ok; lia|repeat constructor; by vm_compute
    |right; left; by vm_compute].
Defined.

Lemma virtual_pages_never_granted_witness :
  exists v lin', VirtualMemoryAllocator.new 64 example_offset (LinearFrameAllocator.mk 0x100000)
    = Done (Ok v, lin') /\
    forall r v', VirtualMemoryAllocator.alloc_contiguous 3 v = Done (r, v') -> v' = v.
Proof.
  destruct (virtual_pages_never_granted 64 example_offset (LinearFrameAllocator.mk 0x100000) 3)
    as (v & lin' & H & Ha); [apply example_fits; lia|lia|lia|].
  exists v, lin'. split; [exact H|]. intros r v' Hrun. apply (Ha r v' Hrun).
Defined.

Definition example_entry : @PageTableEntry X86Model.x86 := (0x200000, 3).

(** A page table with an empty root, and a frame allocator whose frames from 256 on are free. *)
Definition example_table : RecursivePageTable.RecursivePageTable :=
  RecursivePageTable.mk (0x200000 + example_offset) example_offset.
Definition example_env : RecursivePageTable.Env BitmapFrameAllocator.BitmapFrameAllocator :=
  RecursivePageTable.mkEnv
    {[ 0x200000 + example_offset := page_table_set page_table_new 510 example_entry ]}
    (BitmapFrameAllocator.mk (BitmapAllocator.mk 0 (replicate 32 255 ++ replicate 32 0) 512 256)).

