(* ===== verification/PagingController.v ===== *)
(** The kernel paging controller ([memory/paging/paging_controller.rs]): the page
    table and the two allocators it is used with. *)
From S2P Require Import Prelude X86 Memory FrameAllocation Bitmap PageTable Allocators.

(** [?] on a [PagingError] in a function that returns a [MemoryError]. *)
Definition paging {S A} (m : M S (result A PagingError)) : M S (result A MemoryError) :=
  let! r := m in ret (map_err from_paging_error r).

Module KernelPagingController.

(** [struct KernelPagingController]. *)
Record KernelPagingController : Type := mk {
  rec_page_table : RecursivePageTable.RecursivePageTable;
  frame_allocator : BitmapFrameAllocator.BitmapFrameAllocator;
  virt_mem_allocator : VirtualMemoryAllocator.VirtualMemoryAllocator
}.

Section controller.
Context {X : X86}.

(** The controller and the page tables in memory. *)
Record State : Type := mkState {
  controller : KernelPagingController;
  tables : gmap Z PageTable
}.

Definition set_frame_allocator (a : BitmapFrameAllocator.BitmapFrameAllocator) (s : State) : State :=
  mkState (mk (rec_page_table (controller s)) a (virt_mem_allocator (controller s))) (tables s).
Definition set_virt_mem_allocator (a : VirtualMemoryAllocator.VirtualMemoryAllocator) (s : State) : State :=
  mkState (mk (rec_page_table (controller s)) (frame_allocator (controller s)) a) (tables s).

(** What the page table's operations are given: the tables and [&mut self.frame_allocator]. *)
Definition env (s : State) : RecursivePageTable.Env BitmapFrameAllocator.BitmapFrameAllocator :=
  RecursivePageTable.mkEnv (tables s) (frame_allocator (controller s)).
Definition set_env (e : RecursivePageTable.Env BitmapFrameAllocator.BitmapFrameAllocator) (s : State) : State :=
  mkState (controller (set_frame_allocator (RecursivePageTable.allocator e) s))
    (RecursivePageTable.tables e).

Definition with_page_table {A}
    (m : RecursivePageTable.RecursivePageTable ->
         M (RecursivePageTable.Env BitmapFrameAllocator.BitmapFrameAllocator) A) : M State A :=
  let! s := get in zoom env set_env (m (rec_page_table (controller s))).
Definition with_frames {A} (m : M BitmapFrameAllocator.BitmapFrameAllocator A) : M State A :=
  zoom (fun s => frame_allocator (controller s)) set_frame_allocator m.
Definition with_pages {A} (m : M VirtualMemoryAllocator.VirtualMemoryAllocator A) : M State A :=
  zoom (fun s => virt_mem_allocator (controller s)) set_virt_mem_allocator m.

Definition map (from to page_count : Z) (flags : PageTableFlags) : M State (result unit MemoryError) :=
  paging (with_page_table (fun t => RecursivePageTable.map_contiguous t page_count from to flags)).

Definition unmap (addr page_count : Z) : M State (result unit MemoryError) :=
  paging (with_page_table (fun t => RecursivePageTable.unmap_contiguous t page_count addr)).

Definition alloc_and_map (pages : Z) (flags : PageTableFlags) : M State (result Z MemoryError) :=
  let? phys := with_frames (BitmapFrameAllocator.alloc_contiguous pages) in
  let? virt := with_pages (VirtualMemoryAllocator.alloc_contiguous pages) in
  let? _ := map phys virt pages flags in
  ret (Ok virt).

Definition free_and_unmap (addr page_count : Z) : M State (result unit MemoryError) :=
  let? _ := with_pages (VirtualMemoryAllocator.free addr page_count) in
  let! s := get in
  let^ found := RecursivePageTable.translate (rec_page_table (controller s)) (tables s) addr in
  let? phys := ret (ok_or PageNotPresent found) in
  let? _ := with_frames (BitmapFrameAllocator.free_contiguous phys page_count) in
  let? _ := unmap addr page_count in
  ret (Ok tt).

End controller.
End KernelPagingController.
