(* ===== verification/PagingControllerProofs.v ===== *)
(** The kernel paging controller over page tables that are there already: mapping and
    unmapping blocks of pages needs no frames then, and stops at the first page that is in
    the way, with the pages before it done. *)
From S2P Require Import Prelude X86 Memory FrameAllocation Bitmap PageTable PageTableProofs.
From S2P Require Import PageTableTheorems Allocators AllocatorsProofs PagingController.
Import RecursivePageTable.

Section existing.
Context {X : X86} {XL : X86Laws} {F : Type} {FA : FrameAllocator F}.
Implicit Types (self : RecursivePageTable) (env : Env F).

(** ** One page *)

(** Nothing but the entries of level-1 tables changed. *)
Record same_tree self env env' : Prop := {
  tree_wf : wf self (tables env');
  tree_allocator : allocator env' = allocator env;
  tree_resolve path : valid_path path -> resolve self (tables env') path = resolve self (tables env) path
}.

Lemma same_tree_refl self env : wf self (tables env) -> same_tree self env env.
Proof. by constructor. Qed.

Lemma same_tree_trans self env1 env2 env3 :
  same_tree self env1 env2 -> same_tree self env2 env3 -> same_tree self env1 env3.
Proof.
  intros [W1 A1 R1] [W2 A2 R2]. constructor; [done|congruence|]. intros path Hv. by rewrite R2, R1.
Qed.

Lemma with_leaf_tree self env to q t e :
  wf self (tables env) -> ~ reserved to ->
  resolve self (tables env) (table_path to) = Some q -> tables env !! q = Some t ->
  same_tree self env (set_tables (with_leaf (tables env) q t to e) env).
Proof.
  intros Hwf Hr Hq Ht. constructor; cbn [tables set_tables]; [by apply with_leaf_wf|done|].
  intros path Hv. by apply with_leaf_resolve.
Qed.

(** [map] of a page whose level-1 table exists. *)
Lemma map_existing self from to flags env q :
  wf self (tables env) -> ~ reserved to -> resolve self (tables env) (table_path to) = Some q ->
  phys_valid from -> page_aligned from -> flags <> flags_empty ->
  wp (map self from to flags env) (fun '(r, env') =>
    match leaf self (tables env) to with
    | Some _ => r = Err (AlreadyMapped to) /\ env' = env
    | None => r = Ok tt /\ same_tree self env env' /\
        exists e, entry_addr e = from /\ entry_flags e = flags /\
          forall a, ~ reserved a -> leaf self (tables env') a
            = if decide (vpage a = vpage to) then Some e else leaf self (tables env) a
    end).
Proof.
  intros Hwf Hr Hq Hf Hal Hfl. pose proof (page_index_bounds 1 to ltac:(lia)) as Hi.
  destruct (wf_table _ _ Hwf _ _ (table_path_valid to 3 Hr) Hq) as [[t Ht] _].
  unfold map. wp_steps. rewrite get_page_index_eq by lia. wp_steps.
  rewrite (proj2 (Z.eqb_neq _ _)) by exact Hr. rewrite range_cons by lia. cbn [map_levels]. wp_steps.
  rewrite get_page_table_leaf, Hq by done. cbn [wp]. unfold map_at.
  rewrite range_nil by lia. cbn [rev create_levels]. wp_steps. rewrite get_page_index_eq by lia. wp_steps.
  erewrite read_entry_eq by done. wp_steps. rewrite (leaf_none self _ _ q t Hq Ht).
  destruct (leaf self (tables env) to) as [e0|] eqn:Hleaf; case_bool_decide; try done; cbn [negb].
  wp_steps. destruct (set_addr_aligned (page_table_get t (page_index 1 to)) from flags)
    as (e & -> & Ha & He & Hu); [done..|].
  rewrite bool_decide_eq_false_2 in Hu by (by intros [_ ?]). wp_steps. unfold with_tables. wp_steps.
  rewrite (write_entry_eq _ _ t) by done. wp_steps. fold (with_leaf (tables env) q t to e).
  split; [done|]. split; [by apply with_leaf_tree|]. exists e. split_and!; [done..|].
  intros a Hra. cbn [tables set_tables]. rewrite (with_leaf_leaf self) by done. by rewrite Hu.
Qed.

(** [unmap] of any page. *)
Lemma unmap_existing self addr env :
  wf self (tables env) -> ~ reserved addr ->
  wp (unmap self addr env) (fun '(r, env') =>
    match leaf self (tables env) addr with
    | None => r = Err (NotMapped addr) /\ env' = env
    | Some _ => r = Ok tt /\ same_tree self env env' /\
        forall a, ~ reserved a -> leaf self (tables env') a
          = if decide (vpage a = vpage addr) then None else leaf self (tables env) a
    end).
Proof.
  intros Hwf Hr. pose proof (page_index_bounds 1 addr ltac:(lia)) as Hi. unfold unmap. wp_steps.
  rewrite get_page_table_leaf by done. wp_steps.
  destruct (resolve self (tables env) (table_path addr)) as [q|] eqn:Hq.
  2: { wp_steps. unfold leaf. by rewrite Hq. }
  destruct (wf_table _ _ Hwf _ _ (table_path_valid addr 3 Hr) Hq) as [[t Ht] _].
  wp_steps. rewrite get_page_index_eq by lia. wp_steps.
  erewrite read_entry_eq by done. wp_steps. rewrite (leaf_none self _ _ q t Hq Ht).
  destruct (leaf self (tables env) addr) eqn:Hleaf; case_bool_decide; try done.
  wp_steps. unfold with_tables. wp_steps. rewrite (write_entry_eq _ _ t) by done. wp_steps.
  match goal with |- context [page_table_set t _ ?e'] => fold (with_leaf (tables env) q t addr e') end.
  split; [done|]. split; [by apply with_leaf_tree|]. intros a Ha.
  cbn [tables set_tables]. rewrite (with_leaf_leaf self) by done. by rewrite set_unused_unused.
Qed.

End existing.

(** ** Blocks *)

(** [j] is the first page of the block for which [m] does not satisfy [P], or [pages]. *)
Definition first_failing (P : Z -> Prop) (pages j : Z) : Prop :=
  0 <= j <= pages /\ (forall k, 0 <= k < j -> P k) /\ (j < pages -> ~ P j).

Section blocks.
Context {X : X86} {XL : X86Laws} {F : Type} {FA : FrameAllocator F}.
Context (self : RecursivePageTable) (pages to : Z) (env : Env F)
  (Hwf : wf self (tables env)) (Hpages : 0 <= pages < 2 ^ 40) (Hto : mappable to pages).

(** Pages of a block that were not visited are as they were. *)
Lemma unvisited {m m' : gmap Z PageTable} k :
  0 <= k < pages ->
  (forall a, ~ reserved a -> (forall j, 0 <= j < k -> vpage a <> vpage (nth_page to j)) ->
     leaf self m' a = leaf self m a) ->
  leaf self m' (nth_page to k) = leaf self m (nth_page to k).
Proof.
  intros Hk Hsame. apply Hsame; [by apply Hto|]. intros j Hj Hv.
  apply (mappable_distinct to pages) in Hv; [lia|done|lia|lia].
Qed.

Lemma map_block_existing from flags :
  0 <= from -> from + pages * PAGE_SIZE <= 2 ^ 52 -> page_aligned from -> flags <> flags_empty ->
  (forall k, 0 <= k < pages -> is_Some (resolve self (tables env) (table_path (nth_page to k)))) ->
  wp (map_contiguous self pages from to flags env) (fun '(r, env') => exists j,
    first_failing (fun k => leaf self (tables env) (nth_page to k) = None) pages j /\
    r = (if j =? pages then Ok tt else Err (AlreadyMapped (nth_page to j))) /\
    same_tree self env env' /\ block_mapped self (tables env) (tables env') from to j flags).
Proof.
  intros Hf0 Hf52 Hal Hfl Htables. pose proof PAGE_SIZE_eq.
  unfold map_contiguous. wp_step. wp_step. apply wp_u64_mul; [unfold u64_bound; lia|].
  apply wp_for_range_step with (n := pages) (I := fun k s => same_tree self env s /\
    block_mapped self (tables env) (tables s) from to k flags /\
    forall j, 0 <= j < k -> leaf self (tables env) (nth_page to j) = None).
  - rewrite Z.sub_0_r. by apply div_ceil_mul.
  - lia.
  - split; [by apply same_tree_refl|]. split; [|lia]. split; [lia|done].
  - intros k s Hk (Htree & Hb & Hnone). destruct (proj2 Hto k Hk) as [Hck Hrk]. rewrite Z.add_0_l. wp_steps.
    rewrite phys_add_valid by address. wp_steps.
    rewrite virt_add_canonical; [|by destruct Hto|lia|exact Hck]. wp_steps. fold (nth_page to k).
    destruct (Htables k Hk) as [q Hq]. rewrite <- (tree_resolve _ _ _ Htree) in Hq
      by exact (table_path_valid _ 3 Hrk).
    eapply wp_mono.
    { apply (map_existing self _ _ flags s q); [by destruct Htree|done|done|unfold phys_valid; lia| |done].
      unfold page_aligned in *. rewrite PAGE_SIZE_eq. by rewrite Z_mod_plus_full. }
    intros [r s'] Hpost. rewrite (unvisited (m := tables env) k) in Hpost by (done || apply Hb).
    destruct (leaf self (tables env) (nth_page to k)) as [e|] eqn:Hleaf.
    + destruct Hpost as [-> ->]. exists k. split_and!; [split_and!; [lia|lia|done|congruence]| |done|done].
      by rewrite (proj2 (Z.eqb_neq _ _)) by lia.
    + destruct Hpost as (-> & Htree' & e & He & Hef & Hset). split; [by eapply same_tree_trans|].
      split; [by eapply block_mapped_extend|]. intros j Hj. destruct (Z.eq_dec j k) as [->|]; [done|].
      apply Hnone. lia.
  - intros s (Htree & Hb & Hnone). exists pages. rewrite Z.eqb_refl. split_and!; try done.
    split_and!; [lia|lia|done|lia].
Qed.

Lemma unmap_block_existing :
  wp (unmap_contiguous self pages to env) (fun '(r, env') => exists j,
    first_failing (fun k => leaf self (tables env) (nth_page to k) <> None) pages j /\
    r = (if j =? pages then Ok tt else Err (NotMapped (nth_page to j))) /\
    same_tree self env env' /\ block_unmapped self (tables env) (tables env') to j).
Proof.
  pose proof PAGE_SIZE_eq. unfold unmap_contiguous. wp_step. wp_step.
  apply wp_u64_mul; [unfold u64_bound; lia|].
  apply wp_for_range_step with (n := pages) (I := fun k s => same_tree self env s /\
    block_unmapped self (tables env) (tables s) to k /\
    forall j, 0 <= j < k -> leaf self (tables env) (nth_page to j) <> None).
  - rewrite Z.sub_0_r. by apply div_ceil_mul.
  - lia.
  - split; [by apply same_tree_refl|]. split; [|lia]. split; [lia|done].
  - intros k s Hk (Htree & Hb & Hsome). destruct (proj2 Hto k Hk) as [Hck Hrk]. rewrite Z.add_0_l. wp_steps.
    rewrite virt_add_canonical; [|by destruct Hto|lia|exact Hck]. wp_steps. fold (nth_page to k).
    eapply wp_mono; [apply unmap_existing; [by destruct Htree|done]|].
    intros [r s'] Hpost. rewrite (unvisited (m := tables env) k) in Hpost by (done || apply Hb).
    destruct (leaf self (tables env) (nth_page to k)) as [e|] eqn:Hleaf.
    + destruct Hpost as (-> & Htree' & Hset). split; [by eapply same_tree_trans|].
      split; [by eapply block_unmapped_extend|]. intros j Hj. destruct (Z.eq_dec j k) as [->|]; [congruence|].
      apply Hsome. lia.
    + destruct Hpost as [-> ->]. exists k. split_and!; [split_and!; [lia|lia|done|]| |done|done].
      * intros _ Hn. by apply Hn.
      * by rewrite (proj2 (Z.eqb_neq _ _)) by lia.
  - intros s (Htree & Hb & Hsome). exists pages. rewrite Z.eqb_refl. split_and!; try done.
    split_and!; [lia|lia|done|lia].
Qed.

End blocks.

(** ** Properties *)

Section properties.
Context {X : X86} {XL : X86Laws}.

(** C9: blocks of pages by the controller. Where every page of the block has its level-1 table
    already, so that no frame is needed, [map] completes and stops at the first page [j] that is
    mapped, which its error names; it says nothing of a page without a table, for which a frame
    is asked. On any block [unmap] completes and stops at the first page that is not mapped. The
    pages before [j] stay done, as the whole block is when there is none, and every other page
    and both allocators are as they were. *)
Theorem controller_blocks (s : KernelPagingController.State) from to pages flags
    (Hwf : wf (KernelPagingController.rec_page_table (KernelPagingController.controller s))
              (KernelPagingController.tables s))
    (Hpages : 0 <= pages < 2 ^ 40) (Hto : mappable to pages) (Hflags : flags <> flags_empty)
    (Hfrom : 0 <= from /\ from + pages * PAGE_SIZE <= 2 ^ 52) (Hal : page_aligned from) :
  let self := KernelPagingController.rec_page_table (KernelPagingController.controller s) in
  let m := KernelPagingController.tables s in
  ((forall k, 0 <= k < pages -> is_Some (resolve self m (table_path (nth_page to k)))) ->
   exists j m', first_failing (fun k => leaf self m (nth_page to k) = None) pages j /\
     KernelPagingController.map from to pages flags s
     = Done (if j =? pages then Ok tt else Err (PagingErr (AlreadyMapped (nth_page to j))),
             KernelPagingController.mkState (KernelPagingController.controller s) m') /\
     wf self m' /\ block_mapped self m m' from to j flags) /\
  (exists j m', first_failing (fun k => leaf self m (nth_page to k) <> None) pages j /\
     KernelPagingController.unmap to pages s
     = Done (if j =? pages then Ok tt else Err (PagingErr (NotMapped (nth_page to j))),
             KernelPagingController.mkState (KernelPagingController.controller s) m') /\
     wf self m' /\ block_unmapped self m m' to j).
Proof.
  intros self m. destruct Hfrom as [Hf0 Hf52].
  assert (forall env', allocator env' = allocator (KernelPagingController.env s) ->
    KernelPagingController.set_env env' s
    = KernelPagingController.mkState (KernelPagingController.controller s) (tables env')) as Hset.
  { intros env' Ha. destruct s as [[t f v] m0]. unfold KernelPagingController.set_env. simpl in *. by rewrite Ha. }
  split.
  - intros Htables.
    pose proof (map_block_existing self pages to (KernelPagingController.env s) Hwf Hpages Hto from flags
      Hf0 Hf52 Hal Hflags Htables) as H.
    apply wp_iff in H as ([r env'] & Hrun & j & Hj & -> & [Hwf' Ha _] & Hb).
    exists j, (tables env'). split; [done|]. split; [|done].
    unfold KernelPagingController.map, paging, KernelPagingController.with_page_table, bind, get, zoom, ret.
    cbn [obind]. fold self. rewrite Hrun. cbn [obind]. rewrite Hset by done.
    by destruct (j =? pages).
  - pose proof (unmap_block_existing self pages to (KernelPagingController.env s) Hwf Hpages Hto) as H.
    apply wp_iff in H as ([r env'] & Hrun & j & Hj & -> & [Hwf' Ha _] & Hb).
    exists j, (tables env'). split; [done|]. split; [|done].
    unfold KernelPagingController.unmap, paging, KernelPagingController.with_page_table, bind, get, zoom, ret.
    cbn [obind]. fold self. rewrite Hrun. cbn [obind]. rewrite Hset by done.
    by destruct (j =? pages).
Qed.

End properties.

(** *** Instances *)

#[local] Existing Instances X86Model.x86 X86Model.x86_laws.

#[local] Opaque boot.

(** A page table in which the second of three pages is mapped. *)
Definition second_mapped : gmap Z (@PageTable X86Model.x86) :=
  match map boot.1 0x200000 0x401000 flags_rw boot.2 with Done (_, env) => tables env | _ => ∅ end.

Lemma second_mapped_ok :
  wf boot.1 second_mapped /\ leaf boot.1 second_mapped 0x400000 = None /\
  leaf boot.1 second_mapped 0x401000 <> None /\
  forall k, 0 <= k < 3 -> is_Some (resolve boot.1 second_mapped (table_path (nth_page 0x400000 k))).
Proof.
  assert (wp (map boot.1 0x200000 0x401000 flags_rw boot.2)
    (map_post boot.1 example_limit 0 boot.2 0x200000 0x401000 flags_rw)) as H.
  { apply map_wp; [by vm_compute|done|by intros [? _]|by intros ?|apply boot_inv; lia]. }
  destruct (proj1 (wp_iff _ _) H) as ([r env'] & Hrun & Hinv & Hpost). unfold second_mapped. rewrite Hrun.
  pose proof (boot_empty 0x401000 ltac:(by intros ?)) as Hnone. apply mapping_none in Hnone. rewrite Hnone in Hpost.
  destruct Hpost as (-> & e & _ & _ & Hleaf).
  assert (leaf boot.1 (tables env') 0x401000 = Some e) as Hsome
    by (rewrite Hleaf by (by intros ?); by rewrite decide_True).
  split; [apply Hinv|]. split; [|split; [by rewrite Hsome|]].
  - rewrite Hleaf, decide_False by by intros ?. by apply mapping_none, boot_empty.
  - intros k Hk. apply leaf_table in Hsome as (q & t & Hq & _). exists q.
    by assert (k = 0 \/ k = 1 \/ k = 2) as [->|[->| ->]] by lia.
Qed.

#[local] Opaque second_mapped.

Definition second_state : KernelPagingController.State :=
  KernelPagingController.mkState
    (KernelPagingController.mk boot.1 (BitmapFrameAllocator.mk (BitmapAllocator.mk 0 [] 0 0))
       (VirtualMemoryAllocator.mk (BitmapAllocator.mk 0 [] 0 0))) second_mapped.

Lemma controller_blocks_witness :
  exists m', KernelPagingController.map 0x200000 0x400000 3 flags_rw second_state
    = Done (Err (PagingErr (AlreadyMapped 0x401000)),
            KernelPagingController.mkState (KernelPagingController.controller second_state) m') /\
    leaf boot.1 m' 0x400000 <> None.
Proof.
  destruct second_mapped_ok as (Hwf & Hnone & Hsome & Htables).
  destruct (controller_blocks second_state 0x200000 0x400000 3 flags_rw) as [H _];
    [exact Hwf|lia|exact example_mappable|discriminate|rewrite PAGE_SIZE_eq; lia|reflexivity|].
  destruct (H Htables) as (j & m' & (Hj & Hbefore & Hat) & Hrun & _ & Hb & _).
  assert (j = 1) as ->.
  { destruct (Z_le_gt_dec 2 j) as [Hge|Hlt]; [destruct Hsome; apply (Hbefore 1); lia|].
    destruct (Z.eq_dec j 0) as [->|]; [destruct (Hat ltac:(lia)); exact Hnone|lia]. }
  exists m'. split; [exact Hrun|]. destruct (Hb 0 ltac:(lia)) as (e & He & _).
  intros Hn. change (leaf boot.1 m' 0x400000 = Some e) in He.
  rewrite Hn in He. discriminate He.
Defined.
