(* ===== verification/PagingInit.v ===== *)
(** The kernel's own address space ([memory/paging/mod.rs]): the page table
    [init_paging] builds for the kernel image, the regions of the boot loader's memory map
    and the stack, before the kernel switches to it. *)
From S2P Require Import Prelude X86 Memory FrameAllocation Bitmap PageTable Allocators.
From S2P Require Import PagingController.

(** What the code takes from outside the repository's Rust sources: the addresses of the
    symbols of [linker.ld] and the boot loader's responses to the requests of
    [limine_requests.rs]. *)
Record Boot : Type := {
  limine_reqs_start : Z;
  text_start : Z;
  rodata_start : Z;
  data_start : Z;
  elf_end : Z;
  kernel_address : option (Z * Z);                 (* physical base, virtual base *)
  hhdm_offset : option Z;
  memory_map : option (list MemoryRegionInfo)
}.

(** The stack the kernel asks the boot loader for, [STACK_SIZE_REQUEST.stack_size]. *)
Definition stack_size : Z := 64 * KIBIBYTE.

(** [Iterator::max_by]: the last of the greatest elements. *)
Fixpoint max_by_from {A} (compare : A -> A -> outcome comparison) (x : A) (l : list A) : outcome A :=
  match l with
  | [] => Done x
  | y :: l =>
      let* c := compare x y in
      max_by_from compare (match c with Gt => x | _ => y end) l
  end.
Definition max_by {A} (compare : A -> A -> outcome comparison) (l : list A) : outcome (option A) :=
  match l with
  | [] => Done None
  | x :: l => let* m := max_by_from compare x l in Done (Some m)
  end.

Section paging.
Context {X : X86}.

Abbreviation Env := (RecursivePageTable.Env LinearFrameAllocator.LinearFrameAllocator).
Abbreviation Table := RecursivePageTable.RecursivePageTable.

(** [for page in (start..stop).step_by(n + 1)] over [VirtAddr]: [nth(0)] of the range, then
    [nth(n)] each time. The fuel is one more than the number of pages. *)
Fixpoint virt_for_each {W E} (fuel : nat) (start stop skip n : Z) (body : Z -> M W (result unit E)) :
    M W (result unit E) :=
  match fuel with
  | O => fun _ => OutOfFuel
  | S fuel =>
      match virt_forward start skip with
      | None => ret (Ok tt)
      | Some page =>
          if page <? stop then
            let^ start := unwrap (virt_forward page 1) in
            let? _ := body page in
            virt_for_each fuel start stop n n body
          else ret (Ok tt)
      end
  end.

Definition virt_step_by {W E} (start stop step : Z) (body : Z -> M W (result unit E)) :
    M W (result unit E) :=
  virt_for_each (S (S (Z.to_nat ((stop - start) / step)))) start stop 0 (step - 1) body.

(** ** The kernel image *)

Definition map_kernel_section (boot : Boot) (region_start region_end : Z) (flags : PageTableFlags)
    (page_table : Table) : M Env (result unit MemoryError) :=
  let^ '(physical_base, virtual_base) := unwrap (kernel_address boot) in
  if region_start =? region_end then ret (Ok tt) else
  for_each (range_step region_start region_end PAGE_SIZE) (fun page =>
    let^ offset := u64_sub page virtual_base in
    let^ phys := u64_add offset physical_base in
    let^ from := phys_new phys in
    let^ to := virt_new page in
    paging (RecursivePageTable.map page_table from to (flags_union flags (flag_bit GLOBAL)))).

Definition map_kernel (boot : Boot) (page_table : Table) (kernel_region : MemoryRegionInfo) :
    M Env (result unit MemoryError) :=
  let? _ := map_kernel_section boot (limine_reqs_start boot) (text_start boot) flags_r page_table in
  let? _ := map_kernel_section boot (text_start boot) (rodata_start boot) flags_rx page_table in
  let? _ := map_kernel_section boot (rodata_start boot) (data_start boot) flags_r page_table in
  let? _ := map_kernel_section boot (data_start boot) (elf_end boot) flags_rw page_table in
  let^ '(physical_base, virtual_base) := unwrap (kernel_address boot) in
  let^ mapped_sect_size := u64_sub (elf_end boot) (limine_reqs_start boot) in
  let^ remaining := u64_sub (region_length kernel_region) mapped_sect_size in
  let remaining_pages := size_in_pages remaining in
  let^ offset := u64_sub (elf_end boot) virtual_base in
  let^ phys := u64_add offset physical_base in
  let^ from := phys_new phys in
  let^ to := virt_new (elf_end boot) in
  paging (RecursivePageTable.map_contiguous page_table remaining_pages from to
    (flags_union flags_r (flag_bit GLOBAL))).

(** ** Other regions *)

(** The flags of the regions [map_misc] maps; [None] where it continues. *)
Definition misc_flags (t : MemoryRegionType) : option PageTableFlags :=
  match t with
  | Framebuffer => Some flags_rwx
  | AcpiNvs | AcpiReclaimable | AcpiTables | BootloaderReclaimable => Some flags_rwx
  | _ => None
  end.

Definition map_misc (rammap_entries : list MemoryRegionInfo) (page_table : Table) :
    M Env (result unit MemoryError) :=
  for_each rammap_entries (fun region =>
    match misc_flags (region_type region) with
    | None => ret (Ok tt)
    | Some flags =>
        let pages := size_in_pages (region_length region) in
        let^ from := phys_new (region_base region) in
        let^ virt := u64_add (region_base region) (RecursivePageTable.internal_offset page_table) in
        let^ to := virt_new virt in
        paging (RecursivePageTable.map_contiguous page_table pages from to flags)
    end).

(** ** The stack *)

Definition remap_stack (boot : Boot) (entry_stack_pointer : Z) (page_table : Table) :
    M Env (result unit MemoryError) :=
  let^ stack_top := virt_add entry_stack_pointer 16 in
  let^ stack_bottom := virt_sub stack_top stack_size in
  let? _ := paging (RecursivePageTable.unmap page_table stack_top) in
  let? _ := virt_step_by stack_bottom stack_top PAGE_SIZE (fun page =>
    paging (RecursivePageTable.update_flags page_table page flags_rw)) in
  ret (Ok tt).

(** ** Initialization *)

Definition is_kernel (r : MemoryRegionInfo) : bool :=
  bool_decide (region_type r = ExecutableAndModules).
Definition is_valid (r : MemoryRegionInfo) : bool :=
  negb (bool_decide (region_type r = Reserved)) && negb (bool_decide (region_type r = Framebuffer)).

Definition compare_ends (r a : MemoryRegionInfo) : outcome comparison :=
  let* x := u64_add (region_base r) (region_length r) in
  let* y := u64_add (region_base a) (region_length a) in
  Done (x ?= y).

Definition with_allocator {A} (m : M LinearFrameAllocator.LinearFrameAllocator A) : M Env A :=
  zoom RecursivePageTable.allocator RecursivePageTable.set_allocator m.

Definition init_paging (boot : Boot) (entry_stack_pointer : Z) (rammap_entries : list MemoryRegionInfo) :
    M Env (result KernelPagingController.KernelPagingController MemoryError) :=
  let! rec_page_table := RecursivePageTable.new (hhdm_offset boot) in
  let^ k_sect := unwrap (List.find is_kernel rammap_entries) in
  let? _ := map_kernel boot rec_page_table k_sect in
  let? _ := map_misc rammap_entries rec_page_table in
  let? _ := remap_stack boot entry_stack_pointer rec_page_table in
  let^ found := max_by compare_ends (List.filter is_valid rammap_entries) in
  let^ highest_valid_region := unwrap found in
  let^ stop := u64_add (region_base highest_valid_region) (region_length highest_valid_region) in
  let size_bytes := stop / PAGE_SIZE / 8 in
  let? frame_allocator := with_allocator (BitmapFrameAllocator.new size_bytes
    (RecursivePageTable.internal_offset rec_page_table) rammap_entries) in
  let^ virt_size := u64_mul size_bytes 2 in
  let? virt_mem_allocator := with_allocator (VirtualMemoryAllocator.new virt_size
    (RecursivePageTable.internal_offset rec_page_table)) in
  ret (Ok (KernelPagingController.mk rec_page_table frame_allocator virt_mem_allocator)).

End paging.
