(* ===== verification/PagingInitProofs.v ===== *)
(** The address space [init_paging] builds, region by region: which address is mapped to
    which frame, with which flags. *)
From S2P Require Import Prelude X86 Memory FrameAllocation Bitmap BitmapProofs PageTable.
From S2P Require Import PageTableProofs PageTableTheorems Allocators AllocatorsProofs.
From S2P Require Import PagingController PagingInit.

Abbreviation Env := (RecursivePageTable.Env LinearFrameAllocator.LinearFrameAllocator).
Abbreviation Table := RecursivePageTable.RecursivePageTable.
Abbreviation tables := RecursivePageTable.tables.
Abbreviation allocator := RecursivePageTable.allocator.

Section blocks.
Context {X : X86} {XL : X86Laws}.
Implicit Types (self : Table) (m : gmap Z PageTable).

(** ** Blocks of addresses *)

(** The base of the page of an address. *)
Definition page_base (a : Z) : Z := a - a mod PAGE_SIZE.

Definition in_block (to pages a : Z) : bool := (to <=? a) && (a <? to + pages * PAGE_SIZE).

(** [m'] maps the block to the physical block at [from], and the rest as [m]. *)
Definition maps_block self m m' (from to pages : Z) (flags : PageTableFlags) : Prop :=
  forall a, canonical a -> ~ reserved a -> mapping self m' a
    = if in_block to pages a then Some (from + (page_base a - to), flags) else mapping self m a.

Definition free_block self m (to pages : Z) : Prop :=
  forall a, canonical a -> ~ reserved a -> in_block to pages a = true -> mapping self m a = None.

Lemma in_block_iff to pages a :
  in_block to pages a = true <-> to <= a < to + pages * PAGE_SIZE.
Proof. unfold in_block. rewrite andb_true_iff, Z.leb_le, Z.ltb_lt. done. Qed.

Lemma in_block_false to pages a :
  in_block to pages a = false <-> ~ (to <= a < to + pages * PAGE_SIZE).
Proof. rewrite <- in_block_iff. by destruct (in_block to pages a). Qed.

(** The page of a block an address lies in. *)
Lemma block_page to pages a :
  page_aligned to -> in_block to pages a = true ->
  let k := (a - to) / PAGE_SIZE in
  0 <= k < pages /\ nth_page to k = page_base a /\ vpage a = vpage (nth_page to k).
Proof.
  intros Hal Hin%in_block_iff k. unfold nth_page, page_base, page_aligned, vpage, k in *.
  rewrite PAGE_SIZE_eq in *. pose proof (Z.div_mod (a - to) 4096). pose proof (Z.div_mod a 4096).
  pose proof (Z.mod_pos_bound (a - to) 4096). pose proof (Z.mod_pos_bound a 4096).
  assert ((a - to) mod 4096 = a mod 4096) by (rewrite Zminus_mod, Hal, Z.sub_0_r, Z.mod_mod; done).
  split_and!; [lia|lia|lia|]. f_equal.
  replace (to + (a - to) / 4096 * 4096) with (a - a mod 4096) by lia.
  apply (Z.div_unique _ _ _ 0); lia.
Qed.

Lemma block_page_inv to pages a k :
  page_aligned to -> mappable to pages -> canonical a -> 0 <= k < pages ->
  vpage a = vpage (nth_page to k) -> in_block to pages a = true.
Proof.
  intros Hal Hm Hc Hk Hv. apply canonical_vpage in Hv; [|done|by apply Hm].
  apply in_block_iff. unfold nth_page, page_aligned in *. rewrite PAGE_SIZE_eq in *.
  rewrite Z.div_add in Hv by done. pose proof (Z.div_mod to 4096). pose proof (Z.div_mod a 4096).
  pose proof (Z.mod_pos_bound a 4096). lia.
Qed.

Lemma block_not_reserved to pages a :
  page_aligned to -> mappable to pages -> in_block to pages a = true -> ~ reserved a.
Proof.
  intros Hal Hm Hin. destruct (block_page to pages a Hal Hin) as (Hk & _ & Hv).
  unfold reserved. apply vpage_path in Hv as [[= -> _ _] _]. by apply Hm.
Qed.

Lemma block_mapped_maps self m m' from to pages flags :
  page_aligned to -> mappable to pages -> block_mapped self m m' from to pages flags ->
  maps_block self m m' from to pages flags.
Proof.
  intros Hal Hm [Hin Hout] a Hc Hr. destruct (in_block to pages a) eqn:Hb.
  - destruct (block_page to pages a Hal Hb) as (Hk & Hp & Hv).
    destruct (Hin _ Hk) as (e & He & Ha & Hf). unfold mapping.
    rewrite (leaf_vpage self _ _ _ Hv), He. simpl. rewrite Ha, Hf, <- Hp. unfold nth_page.
    do 2 f_equal. lia.
  - unfold mapping. rewrite Hout; [done..|]. intros k Hk Hv.
    by rewrite (block_page_inv to pages a k) in Hb.
Qed.

(** Unmapped pages of a block, as [map_contiguous] asks for them. *)
Lemma free_block_leaf self m to pages k :
  mappable to pages -> free_block self m to pages -> 0 <= k < pages ->
  leaf self m (nth_page to k) = None.
Proof.
  intros Hm Hf Hk. destruct (proj2 Hm k Hk) as [Hc Hr]. apply mapping_none, Hf; [done|done|].
  apply in_block_iff. unfold nth_page. rewrite PAGE_SIZE_eq. lia.
Qed.

(** What mapping a block of physical memory needs. *)
Record block_ok self m (from to pages : Z) : Prop := {
  bo_pages : 0 <= pages;
  bo_from : 0 <= from /\ from + pages * PAGE_SIZE <= 2 ^ 52;
  bo_from_aligned : page_aligned from;
  bo_to_aligned : page_aligned to;
  bo_mappable : mappable to pages;
  bo_free : free_block self m to pages
}.

Context {F : Type} {FA : FrameAllocator F} {FS : FrameSource F}.

Lemma map_block_wp self limit n pages from to flags (env : RecursivePageTable.Env F) :
  inv limit (n + 3 * Z.to_nat pages) self env -> block_ok self (tables env) from to pages ->
  flags <> flags_empty ->
  wp (paging (RecursivePageTable.map_contiguous self pages from to flags) env) (fun '(r, env') =>
    r = Ok tt /\ inv limit n self env' /\
    maps_block self (tables env) (tables env') from to pages flags).
Proof.
  intros Hinv [Hp [Hf0 Hf] Hfa Hta Hm Hfree] Hfl. unfold paging. wp_step.
  eapply wp_mono.
  { apply (map_contiguous_wp self limit n); try done. intros k Hk. by eapply free_block_leaf. }
  intros [r env'] (-> & Hinv' & Hb). wp_steps. cbn [map_err].
  split_and!; [done|done|]. by apply block_mapped_maps.
Qed.

(** The same block, page by page: the loop of [map_kernel_section]. *)
Lemma map_loop_wp self limit n pages from to flags (env : RecursivePageTable.Env F)
    (body : Z -> M (RecursivePageTable.Env F) (result unit MemoryError)) :
  inv limit (n + 3 * Z.to_nat pages) self env -> block_ok self (tables env) from to pages ->
  flags <> flags_empty ->
  (forall k, 0 <= k < pages -> forall s Q,
     wp (paging (RecursivePageTable.map self (from + k * PAGE_SIZE) (nth_page to k) flags) s) Q ->
     wp (body (to + k * PAGE_SIZE) s) Q) ->
  wp (for_each (range_step to (to + pages * PAGE_SIZE) PAGE_SIZE) body env) (fun '(r, env') =>
    r = Ok tt /\ inv limit n self env' /\
    maps_block self (tables env) (tables env') from to pages flags).
Proof.
  intros Hinv [Hp [Hf0 Hf] Hfa Hta Hm Hfree] Hfl Hbody. pose proof PAGE_SIZE_eq as HP.
  apply wp_for_range_step with (n := pages) (I := fun k s =>
    inv limit (n + 3 * Z.to_nat (pages - k)) self s /\
    block_mapped self (tables env) (tables s) from to k flags).
  - rewrite Z.add_simpl_l. apply div_ceil_mul. by rewrite HP.
  - done.
  - split; [by rewrite Z.sub_0_r|]. split; [intros; lia|done].
  - intros k s Hk [HI Hb]. destruct (proj2 Hm k Hk) as [Hck Hrk]. apply Hbody; [done|].
    unfold paging. wp_step. eapply wp_mono.
    { apply (map_wp self limit (n + 3 * Z.to_nat (pages - (k + 1)))).
      - unfold phys_valid. rewrite HP in *. lia.
      - unfold page_aligned in *. rewrite HP. by rewrite Z_mod_plus_full.
      - by intros [_ ?].
      - done.
      - by replace (n + 3 * Z.to_nat (pages - (k + 1)) + 3)%nat
          with (n + 3 * Z.to_nat (pages - k))%nat by lia. }
    intros [r s'] [Hinv' Hpost]. rewrite (proj2 Hb) in Hpost; [|done|].
    2: { intros j Hj Heq. apply (mappable_distinct _ pages) in Heq; [lia|done|lia..]. }
    rewrite (free_block_leaf self (tables env) to pages) in Hpost by done.
    destruct Hpost as (-> & e & He & Hef & Hleaf). wp_steps. cbn [map_err].
    split; [done|]. by eapply block_mapped_extend.
  - intros s [HI Hb]. split_and!; [done| |by apply block_mapped_maps].
    apply (inv_le _ (n + 3 * Z.to_nat (pages - pages))); [done|lia].
Qed.

End blocks.

(** ** Where the kernel maps: the upper half, outside the recursive range *)

Definition upper_half (to pages : Z) : Prop :=
  2 ^ 64 - 2 ^ 47 <= to /\ 0 <= pages /\ to + pages * PAGE_SIZE < 2 ^ 64 /\
  (to + pages * PAGE_SIZE <= 2 ^ 64 - 2 ^ 40 \/ 2 ^ 64 - 2 ^ 39 <= to).

Lemma upper_half_not_reserved a :
  2 ^ 64 - 2 ^ 47 <= a < 2 ^ 64 -> (a < 2 ^ 64 - 2 ^ 40 \/ 2 ^ 64 - 2 ^ 39 <= a) -> ~ reserved a.
Proof.
  intros Ha Hor. unfold reserved. rewrite page_index_mod by lia.
  change (2 ^ (9 * 4 + 3)) with (2 ^ 39). pose proof (Z.div_mod a (2 ^ 39)) as Hd.
  pose proof (Z.mod_pos_bound a (2 ^ 39)). pose proof (Z.div_mod (a / 2 ^ 39) 512).
  pose proof (Z.mod_pos_bound (a / 2 ^ 39) 512). set (q := a / 2 ^ 39) in *. clearbody q.
  set (r := a mod 2 ^ 39) in *. clearbody r. lia.
Qed.

Lemma upper_half_mappable to pages : upper_half to pages -> mappable to pages.
Proof.
  unfold upper_half, mappable, nth_page, canonical. rewrite PAGE_SIZE_eq.
  intros (H1 & H2 & H3 & H4). split; [lia|]. intros k Hk.
  split; [lia|]. apply upper_half_not_reserved; lia.
Qed.

(** ** Composition *)

Section compose.
Context {X : X86} {XL : X86Laws}.
Implicit Types (self : Table) (m : gmap Z PageTable).

(** A block stays free while others are mapped. *)
Lemma free_block_after self m m' from to pages flags to2 pages2 :
  maps_block self m m' from to pages flags -> free_block self m to2 pages2 ->
  to + pages * PAGE_SIZE <= to2 \/ to2 + pages2 * PAGE_SIZE <= to ->
  free_block self m' to2 pages2.
Proof.
  intros Hm Hf Hdis a Hc Hr Ha. rewrite Hm by done. pose proof Ha as Ha'%in_block_iff.
  assert (in_block to pages a = false) as -> by (apply in_block_false; lia). by apply Hf.
Qed.

Lemma free_block_sub self m to pages to2 pages2 :
  free_block self m to pages -> to <= to2 -> to2 + pages2 * PAGE_SIZE <= to + pages * PAGE_SIZE ->
  free_block self m to2 pages2.
Proof.
  intros Hf H1 H2 a Hc Hr Ha%in_block_iff. apply Hf; [done|done|]. apply in_block_iff. lia.
Qed.

Lemma flags_not_empty fl : flags_contains fl (flag_bit PRESENT) = true -> fl <> flags_empty.
Proof. intros H ->. by rewrite flags_contains_empty in H. Qed.

Lemma flags_global fl : flags_contains fl (flag_bit PRESENT) = true ->
  flags_union fl (flag_bit GLOBAL) <> flags_empty.
Proof. intros H. apply flags_not_empty. by rewrite flags_contains_union, H. Qed.

Lemma flags_present : flags_contains flags_r (flag_bit PRESENT) = true /\
  flags_contains flags_rx (flag_bit PRESENT) = true /\
  flags_contains flags_rw (flag_bit PRESENT) = true /\
  flags_contains flags_rwx (flag_bit PRESENT) = true.
Proof.
  unfold flags_r, flags_rx, flags_rw, flags_rwx.
  rewrite !flags_contains_union, !flags_contains_bit. done.
Qed.

(** ** The kernel image *)

Lemma section_wp boot self limit n s pages pb vb flags (env : Env) :
  kernel_address boot = Some (pb, vb) -> vb <= s -> 0 <= pb ->
  inv limit (n + 3 * Z.to_nat pages) self env ->
  block_ok self (tables env) (s - vb + pb) s pages -> s + pages * PAGE_SIZE < 2 ^ 64 ->
  flags_contains flags (flag_bit PRESENT) = true ->
  wp (map_kernel_section boot s (s + pages * PAGE_SIZE) flags self env) (fun '(r, env') =>
    r = Ok tt /\ inv limit n self env' /\
    maps_block self (tables env) (tables env') (s - vb + pb) s pages (flags_union flags (flag_bit GLOBAL))).
Proof.
  intros Hka Hvb Hpb Hinv Hok H64 Hfl. pose proof PAGE_SIZE_eq as HP.
  pose proof (bo_pages _ _ _ _ _ Hok) as Hp. pose proof (bo_from _ _ _ _ _ Hok) as [_ Hf].
  unfold map_kernel_section. wp_step. wp_step. rewrite Hka. cbn [unwrap wp].
  destruct (Z.eqb_spec s (s + pages * PAGE_SIZE)) as [He|Hne].
  - assert (pages = 0) as -> by lia. wp_steps. split; [done|]. split.
    + eapply inv_le; [done|lia].
    + intros a Hc Hr. unfold in_block. destruct (Z.leb_spec s a), (Z.ltb_spec a (s + 0 * PAGE_SIZE)); done || lia.
  - apply map_loop_wp; [done|done|by apply flags_global|]. intros k Hk st Q HQ.
    wp_step. wp_step. apply wp_u64_sub; [lia|]. wp_step. wp_step.
    apply wp_u64_add; [unfold u64_bound; lia|]. wp_step. wp_step.
    rewrite phys_new_valid by address. wp_step. wp_step. wp_step.
    destruct Hok as [_ _ _ _ Hm _]. rewrite virt_new_canonical by (by apply Hm). cbn [wp].
    replace (s + k * PAGE_SIZE - vb + pb) with (s - vb + pb + k * PAGE_SIZE) by lia.
    exact HQ.
Qed.

End compose.

(** The pages of the kernel image, and those of the rest of its region. *)
Definition image_pages (boot : Boot) : Z := (elf_end boot - limine_reqs_start boot) / PAGE_SIZE.
Definition remaining_pages (boot : Boot) (region : MemoryRegionInfo) : Z :=
  size_in_pages (region_length region - (elf_end boot - limine_reqs_start boot)).
Definition kernel_pages (boot : Boot) (region : MemoryRegionInfo) : Z :=
  image_pages boot + remaining_pages boot region.

(** What [linker.ld] and the boot loader guarantee of the kernel image: symbols at page
    boundaries and in order, in the top 512 GiB, and a region that holds the image. *)
Record image_ok (boot : Boot) (region : MemoryRegionInfo) (pb vb : Z) : Prop := {
  im_address : kernel_address boot = Some (pb, vb);
  im_order : vb <= limine_reqs_start boot <= text_start boot /\
    text_start boot <= rodata_start boot <= data_start boot /\ data_start boot <= elf_end boot;
  im_aligned : Forall page_aligned [pb; vb; limine_reqs_start boot; text_start boot;
    rodata_start boot; data_start boot; elf_end boot];
  im_region : elf_end boot - limine_reqs_start boot <= region_length region;
  im_top : 2 ^ 64 - 2 ^ 39 <= limine_reqs_start boot /\
    limine_reqs_start boot + kernel_pages boot region * PAGE_SIZE < 2 ^ 64;
  im_phys : 0 <= pb /\
    limine_reqs_start boot - vb + pb + kernel_pages boot region * PAGE_SIZE < 2 ^ 52
}.

Section image.
Context {X : X86} {XL : X86Laws}.

(** How an address of the kernel's region is mapped. *)
Definition image_flags (boot : Boot) (a : Z) : PageTableFlags :=
  flags_union
    (if a <? text_start boot then flags_r
     else if a <? rodata_start boot then flags_rx
     else if a <? data_start boot then flags_r
     else if a <? elf_end boot then flags_rw
     else flags_r) (flag_bit GLOBAL).

Definition maps_image (self : Table) (m m' : gmap Z PageTable) (boot : Boot)
    (region : MemoryRegionInfo) (pb vb : Z) : Prop :=
  forall a, canonical a -> ~ reserved a -> mapping self m' a
    = if in_block (limine_reqs_start boot) (kernel_pages boot region) a
      then Some (page_base a - vb + pb, image_flags boot a) else mapping self m a.

Lemma aligned_pages a b : page_aligned a -> page_aligned b -> a <= b ->
  b = a + (b - a) / PAGE_SIZE * PAGE_SIZE /\ 0 <= (b - a) / PAGE_SIZE.
Proof.
  unfold page_aligned. rewrite PAGE_SIZE_eq. intros Ha Hb Hle.
  assert ((b - a) mod 4096 = 0) by (by rewrite Zminus_mod, Ha, Hb).
  pose proof (Z.div_mod (b - a) 4096). pose proof (Z.div_pos (b - a) 4096). lia.
Qed.

(** The end of the kernel's region, and the pages from an address to there. *)
Definition image_end (boot : Boot) (region : MemoryRegionInfo) : Z :=
  limine_reqs_start boot + kernel_pages boot region * PAGE_SIZE.
Definition pages_left (boot : Boot) (region : MemoryRegionInfo) (s : Z) : nat :=
  Z.to_nat ((image_end boot region - s) / PAGE_SIZE).

Section progress.
Context (boot : Boot) (region : MemoryRegionInfo) (pb vb : Z) (Hok : image_ok boot region pb vb)
  (self : Table) (limit : Z) (n : nat) (m0 : gmap Z PageTable)
  (Hfree : free_block self m0 (limine_reqs_start boot) (kernel_pages boot region)).

(** The image is mapped up to [s]. *)
Definition maps_upto (s : Z) (m : gmap Z PageTable) : Prop :=
  forall a, canonical a -> ~ reserved a -> mapping self m a
    = if (limine_reqs_start boot <=? a) && (a <? s)
      then Some (page_base a - vb + pb, image_flags boot a) else mapping self m0 a.

(** The state between two sections. *)
Definition image_upto (s : Z) (env : Env) : Prop :=
  inv limit (n + 3 * pages_left boot region s) self env /\ maps_upto s (tables env).

Lemma image_end_aligned : page_aligned (image_end boot region).
Proof.
  destruct Hok as [_ _ Hal _ _ _]. rewrite !Forall_cons in Hal. destruct Hal as (_ & _ & Hl & _).
  unfold image_end, page_aligned in *. rewrite PAGE_SIZE_eq in *. by rewrite Z_mod_plus_full.
Qed.

Lemma image_block s pages m :
  page_aligned s -> 0 <= pages -> limine_reqs_start boot <= s ->
  s + pages * PAGE_SIZE <= image_end boot region ->
  maps_upto s m -> block_ok self m (s - vb + pb) s pages.
Proof.
  destruct Hok as [_ [Ho _] Hal _ [Ht1 Ht2] [Hp1 Hp2]]. unfold image_end.
  rewrite !Forall_cons in Hal. destruct Hal as (Hpb & Hvb & _).
  intros Hs Hp Hl Hend Hm. constructor; try done; [lia| | |].
  - unfold page_aligned in *.
    replace (s - vb + pb) with (s + pb - vb) by lia.
    rewrite Zminus_mod, Z.add_mod, Hs, Hpb, Hvb by lia. done.
  - apply upper_half_mappable. unfold upper_half. lia.
  - intros a Hc Hr Ha%in_block_iff. rewrite Hm by done.
    assert ((limine_reqs_start boot <=? a) && (a <? s) = false) as ->
      by (destruct (Z.leb_spec (limine_reqs_start boot) a), (Z.ltb_spec a s); done || lia).
    apply Hfree; [done|done|]. apply in_block_iff. lia.
Qed.

(** A block of the image mapped next. *)
Lemma maps_upto_block s pages fl m m' :
  limine_reqs_start boot <= s -> 0 <= pages -> maps_upto s m ->
  maps_block self m m' (s - vb + pb) s pages fl ->
  (forall a, s <= a < s + pages * PAGE_SIZE -> image_flags boot a = fl) ->
  maps_upto (s + pages * PAGE_SIZE) m'.
Proof.
  intros Hl Hp Hm Hb Hfl a Hc Hr. rewrite Hb, Hm by done. unfold in_block.
  rewrite PAGE_SIZE_eq in *.
  destruct (Z.leb_spec s a), (Z.ltb_spec a (s + pages * 4096)), (Z.ltb_spec a s),
    (Z.leb_spec (limine_reqs_start boot) a); cbn [andb]; try lia; try done.
  rewrite Hfl by lia. do 2 f_equal. lia.
Qed.

Lemma pages_left_split s e :
  page_aligned s -> page_aligned e -> s <= e <= image_end boot region ->
  (pages_left boot region s = Z.to_nat ((e - s) / PAGE_SIZE) + pages_left boot region e)%nat.
Proof.
  intros Hs He Hle. unfold pages_left.
  destruct (aligned_pages s e Hs He) as [E1 P1]; [lia|].
  destruct (aligned_pages e (image_end boot region) He image_end_aligned) as [E2 P2]; [lia|].
  destruct (aligned_pages s (image_end boot region) Hs image_end_aligned) as [E3 P3]; [lia|].
  rewrite PAGE_SIZE_eq in *. lia.
Qed.

Lemma section_step s e flags (env : Env) :
  page_aligned s -> page_aligned e -> limine_reqs_start boot <= s <= e -> e <= image_end boot region ->
  flags_contains flags (flag_bit PRESENT) = true ->
  (forall a, s <= a < e -> image_flags boot a = flags_union flags (flag_bit GLOBAL)) ->
  image_upto s env ->
  wp (map_kernel_section boot s e flags self env) (fun '(r, env') => r = Ok tt /\ image_upto e env').
Proof.
  intros Hs He Hse Hend Hp Hfl [Hinv Hm].
  destruct (aligned_pages s e Hs He) as [E P]; [lia|].
  pose proof Hok as [Hka [Ho _] _ _ [_ Htop] [Hpb _]]. unfold image_end in Hend.
  rewrite (pages_left_split s e) in Hinv by (done || unfold image_end; lia).
  set (p := (e - s) / PAGE_SIZE) in *. clearbody p. subst e. eapply wp_mono.
  { apply (section_wp boot self limit (n + 3 * pages_left boot region (s + p * PAGE_SIZE)) s p pb vb);
      try done; [lia| | |lia].
    - eapply inv_le; [done|lia].
    - apply image_block; try done; unfold image_end; lia. }
  intros [r env'] (-> & Hinv' & Hb). split; [done|]. split; [done|].
  by eapply maps_upto_block; [lia|lia|..].
Qed.

Lemma rest_step (env : Env) :
  image_upto (elf_end boot) env ->
  wp (paging (RecursivePageTable.map_contiguous self (remaining_pages boot region)
        (elf_end boot - vb + pb) (elf_end boot) (flags_union flags_r (flag_bit GLOBAL))) env)
    (fun '(r, env') => r = Ok tt /\ image_upto (image_end boot region) env').
Proof.
  intros [Hinv Hm]. pose proof Hok as [_ (Ho1 & Ho2 & Ho3) Hal Hreg _ _].
  rewrite !Forall_cons in Hal. destruct Hal as (_ & _ & Hl & _ & _ & _ & He & _).
  destruct (aligned_pages (limine_reqs_start boot) (elf_end boot)) as [E P]; [done|done|lia|].
  fold (image_pages boot) in E, P.
  assert (0 <= remaining_pages boot region) as Hp by (apply size_in_pages_nonneg; lia).
  assert (image_end boot region = elf_end boot + remaining_pages boot region * PAGE_SIZE) as Hend
    by (unfold image_end, kernel_pages; lia).
  pose proof (pages_left_split (elf_end boot) (image_end boot region) He image_end_aligned) as Hpl.
  rewrite Hpl in Hinv by (rewrite PAGE_SIZE_eq in *; lia).
  rewrite Hend in Hinv at 1. rewrite Z.add_simpl_l, Z.div_mul in Hinv by done.
  eapply wp_mono.
  { apply (map_block_wp self limit (n + 3 * pages_left boot region (image_end boot region)) (remaining_pages boot region)).
    - eapply inv_le; [done|lia].
    - apply image_block; try done; lia.
    - apply flags_global, flags_present. }
  intros [r env'] (-> & Hinv' & Hb). split; [done|]. split; [done|]. rewrite Hend.
  eapply maps_upto_block; [lia|lia|done|done|].
  intros a Ha. unfold image_flags. by rewrite !(proj2 (Z.ltb_ge _ _)) by lia.
Qed.

End progress.

(** The flags of a section are those of its addresses. *)
Ltac image_flags :=
  intros ? ?; unfold image_flags;
  repeat first [rewrite (proj2 (Z.ltb_lt _ _)) by lia | rewrite (proj2 (Z.ltb_ge _ _)) by lia];
  done.

Lemma map_kernel_wp boot region pb vb self limit n (env : Env) :
  image_ok boot region pb vb ->
  inv limit (n + 3 * Z.to_nat (kernel_pages boot region)) self env ->
  free_block self (tables env) (limine_reqs_start boot) (kernel_pages boot region) ->
  wp (map_kernel boot self region env) (fun '(r, env') =>
    r = Ok tt /\ inv limit n self env' /\
    maps_image self (tables env) (tables env') boot region pb vb).
Proof.
  intros Hok Hinv Hfree. pose proof Hok as [Hka (Ho1 & Ho2 & Ho3) Hal Hreg [Ht1 Ht2] [Hp1 Hp2]].
  rewrite !Forall_cons in Hal. destruct Hal as (_ & _ & Hl & Ht & Hr & Hd & He & _).
  destruct flags_present as (Fr & Frx & Frw & _). pose proof PAGE_SIZE_eq as HP.
  destruct (aligned_pages (limine_reqs_start boot) (elf_end boot)) as [E P]; [done|done|lia|].
  fold (image_pages boot) in E, P.
  assert (0 <= remaining_pages boot region) as Hp by (apply size_in_pages_nonneg; lia).
  assert (elf_end boot <= image_end boot region) as Hend by (unfold image_end, kernel_pages; lia).
  set (upto := image_upto boot region pb vb self limit n (tables env)).
  assert (upto (limine_reqs_start boot) env) as H0.
  { split.
    - eapply inv_le; [done|]. unfold pages_left, image_end. rewrite Z.add_simpl_l, Z.div_mul by done. lia.
    - intros a _ _. by destruct (Z.leb_spec (limine_reqs_start boot) a), (Z.ltb_spec a (limine_reqs_start boot)); [lia|..]. }
  unfold map_kernel.
  wp_step. eapply wp_mono; [eapply section_step with (env := env); try done; first [lia|image_flags]|].
  intros [r1 env1] [-> H1].
  wp_step. eapply wp_mono; [eapply section_step with (env := env1); try done; first [lia|image_flags]|].
  intros [r2 env2] [-> H2].
  wp_step. eapply wp_mono; [eapply section_step with (env := env2); try done; first [lia|image_flags]|].
  intros [r3 env3] [-> H3].
  wp_step. eapply wp_mono; [eapply section_step with (env := env3); try done; first [lia|image_flags]|].
  intros [r4 env4] [-> H4].
  wp_step. wp_step. rewrite Hka. cbn [unwrap wp]. wp_step. wp_step. apply wp_u64_sub; [lia|].
  wp_step. wp_step. apply wp_u64_sub; [lia|]. fold (remaining_pages boot region).
  wp_step. wp_step. apply wp_u64_sub; [lia|]. wp_step. wp_step.
  pose proof Hend as Hend'. unfold image_end in Hend'. apply wp_u64_add; [unfold u64_bound; lia|]. wp_step. wp_step.
  rewrite phys_new_valid by address. wp_step. wp_step. wp_step.
  rewrite virt_new_canonical by address. wp_step.
  eapply wp_mono; [by eapply rest_step|]. intros [r env'] (-> & Hinv' & Hm).
  split; [done|]. split; [eapply inv_le; [done|lia]|]. exact Hm.
Qed.

End image.

(** ** The other regions *)

Definition is_misc (r : MemoryRegionInfo) : bool :=
  match region_type r with
  | Framebuffer | AcpiNvs | AcpiReclaimable | AcpiTables | BootloaderReclaimable => true
  | _ => false
  end.

Definition region_pages (r : MemoryRegionInfo) : Z := size_in_pages (region_length r).

(** The block of addresses a region is mapped at. *)
Definition in_region (offset a : Z) (r : MemoryRegionInfo) : bool :=
  is_misc r && in_block (region_base r + offset) (region_pages r) a.
Definition misc_covers (offset : Z) (entries : list MemoryRegionInfo) (a : Z) : bool :=
  existsb (in_region offset a) entries.

Definition misc_pages (entries : list MemoryRegionInfo) : Z :=
  foldr (fun r n => region_pages r + n) 0 (List.filter is_misc entries).

Definition regions_disjoint (r1 r2 : MemoryRegionInfo) : Prop :=
  region_base r1 + region_pages r1 * PAGE_SIZE <= region_base r2 \/
  region_base r2 + region_pages r2 * PAGE_SIZE <= region_base r1.

(** A region the kernel maps: at a page boundary, with a place in the upper half. *)
Record misc_region_ok (offset : Z) (r : MemoryRegionInfo) : Prop := {
  mr_base : 0 <= region_base r;
  mr_length : 0 <= region_length r;
  mr_aligned : page_aligned (region_base r);
  mr_phys : region_base r + region_pages r * PAGE_SIZE < 2 ^ 52;
  mr_half : 2 ^ 64 - 2 ^ 47 <= region_base r + offset /\
    region_base r + offset + region_pages r * PAGE_SIZE <= 2 ^ 64 - 2 ^ 40
}.

Lemma misc_region_half offset r :
  misc_region_ok offset r -> upper_half (region_base r + offset) (region_pages r).
Proof.
  intros [_ Hl _ _ Hh]. pose proof (size_in_pages_nonneg _ Hl). fold (region_pages r) in *.
  unfold upper_half. lia.
Qed.

Record misc_ok (offset : Z) (entries : list MemoryRegionInfo) : Prop := {
  mo_offset : page_aligned offset;
  mo_regions : Forall (misc_region_ok offset) (List.filter is_misc entries);
  mo_disjoint : ForallOrdPairs regions_disjoint (List.filter is_misc entries)
}.

Section misc.
Context {X : X86} {XL : X86Laws}.

Lemma misc_flags_eq t :
  misc_flags t = if is_misc {| region_base := 0; region_length := 0; region_type := t |}
                 then Some flags_rwx else None.
Proof. by destruct t. Qed.

Definition maps_misc (self : Table) (m m' : gmap Z PageTable) (entries : list MemoryRegionInfo) : Prop :=
  let offset := RecursivePageTable.internal_offset self in
  forall a, canonical a -> ~ reserved a -> mapping self m' a
    = if misc_covers offset entries a then Some (page_base a - offset, flags_rwx)
      else mapping self m a.

Lemma misc_pages_nonneg offset entries : misc_ok offset entries -> 0 <= misc_pages entries.
Proof.
  intros [_ Hall _]. unfold misc_pages. induction Hall as [|r l [_ Hl _ _ _] _ IH]; simpl; [lia|].
  assert (0 <= region_pages r) by by apply size_in_pages_nonneg. lia.
Qed.

Lemma misc_ok_tail offset r entries : misc_ok offset (r :: entries) -> misc_ok offset entries.
Proof.
  intros [Ho Hr Hd]. cbn [List.filter] in *. destruct (is_misc r); [|by constructor].
  apply Forall_cons in Hr as [_ Hr]. inversion Hd; subst. by constructor.
Qed.

Lemma misc_ok_head offset r entries :
  misc_ok offset (r :: entries) -> is_misc r = true ->
  misc_region_ok offset r /\ Forall (regions_disjoint r) (List.filter is_misc entries) /\
  misc_pages (r :: entries) = region_pages r + misc_pages entries.
Proof.
  intros [Ho Hr Hd] Hm. unfold misc_pages. cbn [List.filter] in *. rewrite Hm in *.
  apply Forall_cons in Hr as [Hr _]. inversion Hd; subst. done.
Qed.

Lemma misc_pages_skip r entries : is_misc r = false -> misc_pages (r :: entries) = misc_pages entries.
Proof. intros Hm. unfold misc_pages. cbn [List.filter]. by rewrite Hm. Qed.

Definition misc_free (self : Table) (m : gmap Z PageTable) (entries : list MemoryRegionInfo) : Prop :=
  Forall (fun r => free_block self m (region_base r + RecursivePageTable.internal_offset self) (region_pages r))
    (List.filter is_misc entries).

Lemma map_misc_wp self limit n entries : forall (env : Env),
  let offset := RecursivePageTable.internal_offset self in
  misc_ok offset entries -> 0 <= offset ->
  inv limit (n + 3 * Z.to_nat (misc_pages entries)) self env -> misc_free self (tables env) entries ->
  wp (map_misc entries self env) (fun '(r, env') =>
    r = Ok tt /\ inv limit n self env' /\ maps_misc self (tables env) (tables env') entries).
Proof.
  unfold map_misc, misc_free.
  induction entries as [|r entries IH]; intros env Hok Ho Hinv Hfree; cbn [for_each].
  { wp_steps. split; [done|]. split; [eapply inv_le; [done|simpl; lia]|done]. }
  set (offset := RecursivePageTable.internal_offset self) in *.
  pose proof (misc_ok_tail _ _ _ Hok) as Hok'. cbn [List.filter] in Hfree.
  rewrite misc_flags_eq. change (is_misc {| region_base := 0; region_length := 0; region_type := region_type r |})
    with (is_misc r).
  wp_step. destruct (is_misc r) eqn:Hm.
  - destruct (misc_ok_head _ _ _ Hok Hm) as (Hr & Hdis & Hpages). rewrite Hpages in Hinv.
    apply Forall_cons in Hfree as [Hfr Hfree].
    pose proof (misc_pages_nonneg _ _ Hok'). pose proof Hr as [Hb Hl Hal Hp52 _].
    pose proof (misc_region_half _ _ Hr) as Hhalf.
    pose proof (mo_offset _ _ Hok) as Hoal. pose proof Hhalf as (Hh1 & Hh2 & Hh3 & _).
    pose proof PAGE_SIZE_eq as HP.
    wp_step. wp_step. rewrite phys_new_valid by address. cbn [wp].
    wp_step. wp_step. apply wp_u64_add; [unfold u64_bound; fold offset; lia|].
    wp_step. wp_step. fold offset. rewrite virt_new_canonical by address. cbn [wp].
    fold (region_pages r). eapply wp_mono.
    { apply (map_block_wp self limit (n + 3 * Z.to_nat (misc_pages entries)) (region_pages r)).
      - eapply inv_le; [exact Hinv|lia].
      - constructor; try done; [lia| |by apply upper_half_mappable].
        unfold page_aligned in *. by rewrite Z.add_mod, Hal, Hoal by done.
      - apply flags_not_empty, flags_present. }
    intros [r1 env1] (-> & Hinv1 & Hmap). eapply wp_mono.
    { apply IH; [done|done|done|]. apply Forall_forall. intros r' Hin.
      rewrite Forall_forall in Hfree, Hdis. eapply free_block_after; [exact Hmap|by apply Hfree|].
      specialize (Hdis r' Hin). unfold regions_disjoint in Hdis. fold offset. lia. }
    intros [r2 env2] (-> & Hinv2 & Hmaps). split; [done|]. split; [done|].
    intros a Hc Hra. rewrite Hmaps, Hmap by done. fold offset. unfold misc_covers. cbn [existsb].
    unfold in_region at 2. rewrite Hm. cbn [andb].
    destruct (existsb (in_region offset a) entries), (in_block (region_base r + offset) (region_pages r) a);
      cbn [orb]; try done. do 2 f_equal. lia.
  - wp_step. rewrite misc_pages_skip in Hinv by done. eapply wp_mono; [by apply IH|].
    intros [r2 env2] (-> & Hinv2 & Hmaps). split; [done|]. split; [done|].
    intros a Hc Hra. rewrite Hmaps by done. fold offset. unfold misc_covers. cbn [existsb].
    unfold in_region at 2. by rewrite Hm.
Qed.

End misc.

(** ** The stack *)

Section stack.
Context {X : X86} {XL : X86Laws}.

(** Stepping through addresses of the upper half. *)
Lemma wp_virt_for_each {W E} start pages step (body : Z -> M W (result unit E))
    (I : Z -> W -> Prop) Q :
  2 ^ 64 - 2 ^ 47 <= start -> 0 < step -> start + pages * step < 2 ^ 64 ->
  (forall k s, 0 <= k < pages -> I k s ->
     wp (body (start + k * step) s) (fun '(r, s') =>
       match r with Ok _ => I (k + 1) s' | Err e => Q (Err e, s') end)) ->
  (forall s, I pages s -> Q (Ok tt, s)) ->
  forall fuel k current skip s, 0 <= k <= pages -> (Z.to_nat (pages - k) < fuel)%nat ->
    2 ^ 64 - 2 ^ 47 <= current -> 0 <= skip -> current + skip = start + k * step -> I k s ->
    wp (virt_for_each fuel current (start + pages * step) skip (step - 1) body s) Q.
Proof.
  intros Hs Hstep Hend Hbody HQ. induction fuel as [|fuel IH];
    intros k current skip s Hk Hfuel Hc Hsk Heq HI; [lia|]. cbn [virt_for_each].
  assert (current + skip < 2 ^ 64) by nia.
  rewrite virt_forward_high by done. rewrite Heq.
  destruct (Z.eq_dec k pages) as [->|Hne].
  - rewrite (proj2 (Z.ltb_ge _ _)) by lia. wp_steps. by apply HQ.
  - assert (start + k * step + step <= start + pages * step) by nia.
    rewrite (proj2 (Z.ltb_lt _ _)) by lia. wp_step. wp_step.
    rewrite virt_forward_high by nia. cbn [unwrap wp]. wp_step.
    eapply wp_mono; [apply Hbody; [lia|done]|]. intros [[[]|e] s']; [|done].
    intros HI'. apply (IH (k + 1)); try done; nia.
Qed.

Lemma wp_virt_step_by {W E} start pages (body : Z -> M W (result unit E))
    (I : Z -> W -> Prop) s Q :
  2 ^ 64 - 2 ^ 47 <= start -> 0 <= pages -> start + pages * PAGE_SIZE < 2 ^ 64 -> I 0 s ->
  (forall k s, 0 <= k < pages -> I k s ->
     wp (body (nth_page start k) s) (fun '(r, s') =>
       match r with Ok _ => I (k + 1) s' | Err e => Q (Err e, s') end)) ->
  (forall s, I pages s -> Q (Ok tt, s)) ->
  wp (virt_step_by start (start + pages * PAGE_SIZE) PAGE_SIZE body s) Q.
Proof.
  intros Hs Hp Hend H0 Hbody HQ. unfold virt_step_by. rewrite Z.add_simpl_l, Z.div_mul by done.
  apply (wp_virt_for_each start pages PAGE_SIZE body I) with (k := 0); try done; lia.
Qed.

Lemma update_flags_mapping self limit n addr flags f fl (env : Env) :
  inv limit n self env -> ~ reserved addr -> flags <> flags_empty ->
  mapping self (tables env) addr = Some (f, fl) ->
  wp (RecursivePageTable.update_flags self addr flags env) (fun '(r, env') =>
    r = Ok tt /\ inv limit n self env' /\
    mapping_set self (tables env) (tables env') addr (Some (f, flags))).
Proof.
  intros Hinv Hr Hne Hm. eapply wp_mono; [by apply (update_flags_wp limit n)|].
  intros [r env'] [Hinv' Hp]. unfold mapping in Hm.
  destruct (leaf self (tables env) addr) as [e|]; [|done]. injection Hm as Hf Hfl.
  destruct Hp as (-> & e' & Ha & Hf' & Hleaf). split; [done|]. split; [done|].
  intros a Hra. unfold mapping. rewrite Hleaf by done. case_decide; [|done].
  simpl. by rewrite Ha, Hf', Hf.
Qed.

(** Every page of a block is mapped. *)
Definition block_present (self : Table) (m : gmap Z PageTable) (to pages : Z) : Prop :=
  forall k, 0 <= k < pages -> mapping self m (nth_page to k) <> None.

(** The flags of the first [k] pages of a block are changed. *)
Definition reflagged (self : Table) (m m' : gmap Z PageTable) (to k : Z) (flags : PageTableFlags) : Prop :=
  forall a, canonical a -> ~ reserved a -> mapping self m' a
    = if in_block to k a then (fun x => (x.1, flags)) <$> mapping self m a else mapping self m a.

Lemma mapping_vpage self m a b : vpage a = vpage b -> mapping self m a = mapping self m b.
Proof. intros H. unfold mapping. by rewrite (leaf_vpage self _ _ _ H). Qed.

Lemma reflag_step self m m1 m2 to k pages flags x :
  page_aligned to -> mappable to pages -> 0 <= k < pages ->
  reflagged self m m1 to k flags -> mapping self m (nth_page to k) = Some x ->
  mapping_set self m1 m2 (nth_page to k) (Some (x.1, flags)) ->
  reflagged self m m2 to (k + 1) flags.
Proof.
  intros Hal Hm Hk Hr Hx Hs a Hc Hra. rewrite Hs by done.
  assert (in_block to (k + 1) a = in_block to k a || bool_decide (vpage a = vpage (nth_page to k))) as Hin.
  { assert (vpage a = vpage (nth_page to k) <-> a / 4096 = nth_page to k / 4096) as Hv
      by (apply canonical_vpage; [done|by apply Hm]).
    unfold in_block, nth_page, page_aligned in *. rewrite PAGE_SIZE_eq in *.
    rewrite Z.div_add in Hv by done. pose proof (Z.div_mod to 4096). pose proof (Z.div_mod a 4096).
    pose proof (Z.mod_pos_bound a 4096).
    case_bool_decide as Hd; rewrite Hv in Hd;
      destruct (Z.leb_spec to a), (Z.ltb_spec a (to + (k + 1) * 4096)), (Z.ltb_spec a (to + k * 4096));
      cbn [andb orb]; try done; lia. }
  rewrite Hin. case_bool_decide as Hv.
  - rewrite orb_true_r, decide_True by done.
    by rewrite (mapping_vpage self m a (nth_page to k)), Hx by done.
  - rewrite orb_false_r, decide_False by done. by apply Hr.
Qed.

Lemma reflag_loop_wp self limit n start pages flags (env : Env) :
  inv limit n self env -> page_aligned start -> upper_half start pages -> flags <> flags_empty ->
  block_present self (tables env) start pages ->
  wp (virt_step_by start (start + pages * PAGE_SIZE) PAGE_SIZE
        (fun page => paging (RecursivePageTable.update_flags self page flags)) env)
    (fun '(r, env') => r = Ok tt /\ inv limit n self env' /\
       reflagged self (tables env) (tables env') start pages flags).
Proof.
  intros Hinv Hal Hh Hne Hp. pose proof (upper_half_mappable _ _ Hh) as Hm.
  pose proof Hh as (H1 & H2 & H3 & _).
  apply wp_virt_step_by with (I := fun k s =>
    inv limit n self s /\ reflagged self (tables env) (tables s) start k flags); try done.
  - split; [done|]. intros a _ _. unfold in_block.
    destruct (Z.leb_spec start a), (Z.ltb_spec a (start + 0 * PAGE_SIZE)); done || lia.
  - intros k s Hk [HI Hr]. destruct (proj2 Hm k Hk) as [Hck Hrk]. specialize (Hp k Hk).
    destruct (mapping self (tables env) (nth_page start k)) as [[f fl]|] eqn:Hmap; [|done].
    unfold paging. wp_step. eapply wp_mono.
    { apply (update_flags_mapping self limit n _ flags f fl); [done|done|done|].
      rewrite Hr by done. rewrite (proj2 (in_block_false _ _ _)); [exact Hmap|].
      unfold nth_page. lia. }
    intros [r s'] (-> & HI' & Hs). wp_steps. split; [done|].
    by eapply (reflag_step _ _ _ _ _ _ pages _ (f, fl)).
Qed.

(** What [remap_stack] does: the page above the stack is unmapped, the pages of the stack
    become writable. *)
Definition maps_stack (self : Table) (m m' : gmap Z PageTable) (bottom pages : Z) : Prop :=
  forall a, canonical a -> ~ reserved a -> mapping self m' a
    = if in_block (bottom + pages * PAGE_SIZE) 1 a then None
      else if in_block bottom pages a then (fun x => (x.1, flags_rw)) <$> mapping self m a
      else mapping self m a.

Lemma remap_stack_wp boot self limit n sp bottom pages (env : Env) :
  inv limit n self env -> page_aligned bottom -> upper_half bottom (pages + 1) -> 0 <= pages ->
  stack_size = pages * PAGE_SIZE -> sp + 16 = bottom + pages * PAGE_SIZE ->
  2 ^ 64 - 2 ^ 47 <= sp ->
  block_present self (tables env) bottom (pages + 1) ->
  wp (remap_stack boot sp self env) (fun '(r, env') =>
    r = Ok tt /\ inv limit n self env' /\ maps_stack self (tables env) (tables env') bottom pages).
Proof.
  intros Hinv Hal Hh Hp Hsz Hsp Hlow Hpres. pose proof (upper_half_mappable _ _ Hh) as Hm.
  pose proof Hh as (H1 & _ & H3 & H4). pose proof PAGE_SIZE_eq as HP.
  assert (0 <= pages * PAGE_SIZE) as Hpp by lia.
  set (top := bottom + pages * PAGE_SIZE) in *.
  destruct (proj2 Hm pages ltac:(lia)) as [Hct Hrt]. unfold nth_page in Hct, Hrt. fold top in Hct, Hrt.
  assert (page_aligned top) as Htal.
  { unfold top, page_aligned in *. rewrite HP. by rewrite Z_mod_plus_full. }
  unfold remap_stack. wp_step. wp_step.
  rewrite virt_add_canonical by (rewrite ?Hsp; done || address). cbn [wp].
  rewrite Hsp. wp_step. wp_step.
  assert (top - stack_size = bottom) as Hbot by lia.
  rewrite virt_sub_canonical; [|done|lia|rewrite Hbot; unfold canonical; lia]. cbn [wp]. rewrite Hbot.
  wp_step. unfold paging at 1. wp_step.
  eapply wp_mono; [by apply (unmap_mapping self limit n)|]. intros [r1 env1] [Hinv1 Hp1].
  pose proof (Hpres pages ltac:(lia)) as Hpt. unfold nth_page in Hpt. fold top in Hpt.
  destruct (mapping self (tables env) top); [|done]. destruct Hp1 as [-> Hset]. wp_steps. cbn [map_err].
  assert (forall a, canonical a -> ~ reserved a -> mapping self (tables env1) a
    = if in_block top 1 a then None else mapping self (tables env) a) as Hunmap.
  { intros a Hc Hra. rewrite Hset by done. case_decide as Hv.
    - rewrite (block_page_inv top 1 a 0); [done|exact Htal| |exact Hc|lia|].
      + apply upper_half_mappable. unfold upper_half. lia.
      + unfold nth_page. by rewrite Z.add_0_r.
    - destruct (in_block top 1 a) eqn:Hb; [|done]. exfalso. apply Hv.
      destruct (block_page top 1 a Htal Hb) as (Hk & _ & ->). unfold nth_page.
      replace ((a - top) / PAGE_SIZE) with 0 by lia. by rewrite Z.add_0_r. }
  wp_step. eapply wp_mono.
  { apply (reflag_loop_wp self limit n bottom pages flags_rw); try done.
    - unfold upper_half in *. lia.
    - apply flags_not_empty, flags_present.
    - intros k Hk. destruct (proj2 Hm k ltac:(lia)) as [Hck Hrk]. rewrite Hunmap by done.
      rewrite (proj2 (in_block_false _ _ _)); [apply Hpres; lia|]. unfold nth_page, top. nia. }
  intros [r2 env2] (-> & Hinv2 & Hre). wp_steps. split; [done|]. split; [done|].
  intros a Hc Hra. rewrite Hre, Hunmap by done. fold top.
  destruct (in_block top 1 a) eqn:Hb1; [|done]. by destruct (in_block bottom pages a).
Qed.

End stack.
