(* ===== verification/PagingInitSpec.v ===== *)
(** [init_paging] as a whole: under the guarantees of the linker script and the boot
    protocol it succeeds, and the page table it returns maps exactly the kernel's image, the
    firmware's and the boot loader's regions, and the stack. *)
From S2P Require Import Prelude X86 Memory FrameAllocation Bitmap BitmapProofs PageTable.
From S2P Require Import PageTableProofs PageTableTheorems Allocators AllocatorsProofs.
From S2P Require Import PagingController PagingInit PagingInitProofs.

(** ** The end of memory *)

Definition region_end (r : MemoryRegionInfo) : Z := region_base r + region_length r.

(** The highest end of a region that is neither reserved nor the framebuffer. *)
Definition memory_end (entries : list MemoryRegionInfo) : Z :=
  foldr (fun r n => Z.max (region_end r) n) 0 (List.filter is_valid entries).

Lemma compare_ends_eq r a :
  region_ok r -> region_ok a -> compare_ends r a = Done (region_end r ?= region_end a).
Proof.
  intros (_ & _ & Hr) (_ & _ & Ha). unfold compare_ends, u64_add.
  by rewrite !(proj2 (Z.ltb_lt _ _)).
Qed.

Lemma max_by_ends l : forall r, region_ok r -> Forall region_ok l ->
  exists h, max_by_from compare_ends r l = Done h /\
    region_end h = foldr (fun r n => Z.max (region_end r) n) (region_end r) l /\ region_ok h.
Proof.
  induction l as [|a l IH]; intros r Hr Hl; cbn [max_by_from].
  { exists r. split; [done|]. by split. }
  apply Forall_cons in Hl as [Ha Hl]. rewrite compare_ends_eq by done. cbn [obind].
  destruct (IH (match region_end r ?= region_end a with Gt => r | _ => a end)) as (h & -> & Hh & Hok);
    [by destruct (region_end r ?= region_end a)|done|].
  exists h. split; [done|]. split; [|done]. rewrite Hh. cbn [foldr].
  assert (region_end (match region_end r ?= region_end a with Gt => r | _ => a end)
    = Z.max (region_end r) (region_end a)) as ->.
  { destruct (Z.compare_spec (region_end r) (region_end a)); lia. }
  clear. induction l as [|b l IH]; simpl; [lia|]. rewrite IH. lia.
Qed.

Lemma max_by_memory_end entries :
  Forall region_ok entries -> List.filter is_valid entries <> [] ->
  exists h, max_by compare_ends (List.filter is_valid entries) = Done (Some h) /\
    region_end h = memory_end entries /\ region_ok h.
Proof.
  intros Hok Hne. assert (Forall region_ok (List.filter is_valid entries)) as Hf.
  { rewrite Forall_forall in Hok |- *. intros r Hr%list_elem_of_In%filter_In.
    apply Hok, list_elem_of_In, Hr. }
  unfold memory_end. destruct (List.filter is_valid entries) as [|r l]; [done|].
  apply Forall_cons in Hf as [Hr Hl]. cbn [max_by].
  destruct (max_by_ends l r Hr Hl) as (h & -> & Hh & Hokh). cbn [obind].
  exists h. split; [done|]. split; [|done]. rewrite Hh. cbn [foldr].
  assert (0 <= region_end r) as H0 by (unfold region_ok, region_end in *; lia).
  clear - H0. induction l as [|a l IH]; simpl; [lia|]. rewrite IH. lia.
Qed.

(** ** Guarantees of the boot *)

(** [rest] frames are left for what comes after the mappings. *)
Record paging_ok `{X : X86, XL : !X86Laws} (boot : Boot) (sp : Z) (entries : list MemoryRegionInfo) (limit : Z) (rest : nat)
    (lin : LinearFrameAllocator.LinearFrameAllocator)
    (region : MemoryRegionInfo) (pb vb offset bottom pages : Z) : Prop := {
  pk_hhdm : hhdm_offset boot = Some offset;
  pk_offset : offset_ok (RecursivePageTable.mk 0 offset) limit;
  pk_limit : limit <= 2 ^ 47;
  pk_region : List.find is_kernel entries = Some region;
  pk_image : image_ok boot region pb vb;
  pk_misc : misc_ok offset entries;
  pk_bottom : page_aligned bottom /\ 0 <= pages;
  pk_stack_size : stack_size = pages * PAGE_SIZE;
  pk_sp : sp + 16 = bottom + pages * PAGE_SIZE /\ 2 ^ 64 - 2 ^ 47 <= sp;
  pk_stack : Exists (fun r => is_misc r = true /\ region_base r + offset <= bottom /\
    bottom + (pages + 1) * PAGE_SIZE <= region_base r + offset + region_pages r * PAGE_SIZE) entries;
  pk_regions : Forall region_ok entries;
  pk_valid : List.filter is_valid entries <> [];
  pk_end : 32768 <= memory_end entries < 2 ^ 52;
  pk_usable : Forall (fun r => BitmapFrameAllocator.is_usable r = true ->
    (region_range r).2 <= 8 * (memory_end entries / PAGE_SIZE / 8)) entries;
  pk_room : room limit lin
    (S (rest + 3 * Z.to_nat (misc_pages entries) + 3 * Z.to_nat (kernel_pages boot region)));
  pk_bitmaps : size_in_pages (memory_end entries / PAGE_SIZE / 8)
    + size_in_pages (memory_end entries / PAGE_SIZE / 8 * 2) <= Z.of_nat rest
}.

(** The address space of the kernel. *)
Definition kernel_space `{X86} (boot : Boot) (entries : list MemoryRegionInfo)
    (region : MemoryRegionInfo) (pb vb offset bottom pages a : Z) : option (Z * PageTableFlags) :=
  if in_block (limine_reqs_start boot) (kernel_pages boot region) a
  then Some (page_base a - vb + pb, image_flags boot a)
  else if in_block (bottom + pages * PAGE_SIZE) 1 a then None
  else if misc_covers offset entries a
  then Some (page_base a - offset, if in_block bottom pages a then flags_rw else flags_rwx)
  else None.

Section init.
Context {X : X86} {XL : X86Laws}.

(** Taking frames in a block keeps the invariant. *)
Lemma inv_advance limit n k self (env : Env) lin' :
  inv limit (k + n) self env ->
  LinearFrameAllocator.next lin' = LinearFrameAllocator.next (allocator env) + Z.of_nat k * PAGE_SIZE ->
  inv limit n self (RecursivePageTable.set_allocator lin' env).
Proof.
  intros [Hwf Ho ([Ha Hv] & Hroom & H52) Hfresh] Hn. pose proof PAGE_SIZE_eq as HP.
  constructor; cbn [tables allocator RecursivePageTable.set_allocator RecursivePageTable.tables
    RecursivePageTable.allocator] in *; [done|done| |].
  - unfold LinearFrameAllocator.wf, phys_valid, page_aligned in *. rewrite HP in *.
    simpl. rewrite HP. unfold LinearFrameAllocator.wf, phys_valid, page_aligned. rewrite Hn.
    split_and!; [by rewrite Z_mod_plus_full|lia|lia|lia|done].
  - intros path q Hvp Hq Hav. apply (Hfresh path q Hvp Hq). simpl in *. rewrite HP in Hn. lia.
Qed.

(** The linear allocator of an environment that has [k] frames left has room for a bitmap. *)
Lemma inv_bitmap_fits limit n self (env : Env) size :
  inv limit (Z.to_nat (size_in_pages size) + n) self env -> limit <= 2 ^ 47 -> 0 < size < 2 ^ 52 ->
  bitmap_fits size (RecursivePageTable.internal_offset self) (allocator env).
Proof.
  intros [_ (Ho1 & Ho2 & Ho3 & Ho4) ([Ha Hv] & Hroom & H52) _] H47 Hs. pose proof PAGE_SIZE_eq as HP.
  unfold phys_valid in *. pose proof (div_ceil_spec size 4096 ltac:(lia) ltac:(lia)) as Hd.
  rewrite <- HP, <- size_in_pages_div_ceil in Hd. rewrite HP in *.
  constructor; rewrite ?HP; try lia. right. lia.
Qed.

Lemma misc_free_after (self : Table) (m : gmap Z PageTable) offset entries :
  RecursivePageTable.internal_offset self = offset -> misc_ok offset entries ->
  (forall a, canonical a -> ~ reserved a -> a < 2 ^ 64 - 2 ^ 40 -> mapping self m a = None) ->
  misc_free self m entries.
Proof.
  intros Ho [_ Hr _] Hnone. unfold misc_free. eapply Forall_impl; [exact Hr|].
  intros r [_ _ _ _ [_ Hh]] a Hc Hra Ha%in_block_iff. apply Hnone; [done|done|]. rewrite Ho in Ha. lia.
Qed.

(** The stack lies in a region that is mapped. *)
Lemma stack_present (self : Table) (m m' : gmap Z PageTable) offset entries bottom pages :
  RecursivePageTable.internal_offset self = offset -> misc_ok offset entries ->
  maps_misc self m m' entries -> 0 <= pages ->
  Exists (fun r => is_misc r = true /\ region_base r + offset <= bottom /\
    bottom + (pages + 1) * PAGE_SIZE <= region_base r + offset + region_pages r * PAGE_SIZE) entries ->
  upper_half bottom (pages + 1) /\ block_present self m' bottom (pages + 1).
Proof.
  intros Ho Hok Hm Hp Hex. apply Exists_exists in Hex as (r & Hin & Hmisc & Hlo & Hhi).
  pose proof (mo_regions _ _ Hok) as Hall. rewrite Forall_forall in Hall.
  destruct (Hall r) as [_ _ _ _ [Hh1 Hh2]].
  { apply list_elem_of_In, filter_In. split; [by apply list_elem_of_In|done]. }
  pose proof PAGE_SIZE_eq as HP.
  assert (upper_half bottom (pages + 1)) as Hup by (unfold upper_half; lia).
  split; [done|]. intros k Hk. destruct (proj2 (upper_half_mappable _ _ Hup) k Hk) as [Hc Hr].
  rewrite Hm, Ho by done.
  assert (misc_covers offset entries (nth_page bottom k) = true) as ->; [|done].
  apply existsb_exists. exists r. split; [by apply list_elem_of_In|].
  unfold in_region. rewrite Hmisc. apply in_block_iff. unfold nth_page. rewrite HP in *. lia.
Qed.

(** The three mappings together are [kernel_space]. *)
Lemma kernel_space_compose (self : Table) m0 m1 m2 m3 boot entries region pb vb offset bottom pages :
  RecursivePageTable.internal_offset self = offset -> misc_ok offset entries ->
  image_ok boot region pb vb -> upper_half bottom (pages + 1) -> 0 <= pages ->
  bottom + (pages + 1) * PAGE_SIZE <= 2 ^ 64 - 2 ^ 40 ->
  (forall a, ~ reserved a -> mapping self m0 a = None) ->
  maps_image self m0 m1 boot region pb vb -> maps_misc self m1 m2 entries ->
  maps_stack self m2 m3 bottom pages ->
  forall a, canonical a -> ~ reserved a ->
    mapping self m3 a = kernel_space boot entries region pb vb offset bottom pages a.
Proof.
  intros Ho [_ Hall _] Him Hup Hp Hlow H0 H1 H2 H3 a Hc Hr.
  rewrite H3, !H2, !H1, !H0, Ho by done.
  unfold kernel_space. destruct Him as [_ _ _ _ [Ht _] _].
  pose proof PAGE_SIZE_eq as HP.
  destruct (in_block (limine_reqs_start boot) (kernel_pages boot region) a) eqn:Hin.
  - apply in_block_iff in Hin.
    rewrite (proj2 (in_block_false (bottom + pages * PAGE_SIZE) 1 a)) by (rewrite HP in *; lia).
    rewrite (proj2 (in_block_false bottom pages a)) by (rewrite HP in *; lia).
    destruct (misc_covers offset entries a) eqn:Hmc; [|done]. exfalso.
    apply existsb_exists in Hmc as (r & Hir & Hinr). unfold in_region in Hinr.
    apply andb_true_iff in Hinr as [Hmr Hinr%in_block_iff]. rewrite Forall_forall in Hall.
    destruct (Hall r) as [_ _ _ _ [_ Hh]]; [|lia]. by apply list_elem_of_In, filter_In.
  - destruct (in_block (bottom + pages * PAGE_SIZE) 1 a); [done|].
    by destruct (misc_covers offset entries a), (in_block bottom pages a).
Qed.

(** ** The three mappings *)

(** The frame of the level-4 table. *)
Definition lvl4_frame (self : Table) : Z :=
  RecursivePageTable.lvl4 self - RecursivePageTable.internal_offset self.

(** [new], [map_kernel], [map_misc] and [remap_stack], as [init_paging] calls them. *)
Definition build_tables (boot : Boot) (sp : Z) (entries : list MemoryRegionInfo)
    (region : MemoryRegionInfo) : M Env (result Table MemoryError) :=
  let! self := RecursivePageTable.new (hhdm_offset boot) in
  let? _ := map_kernel boot self region in
  let? _ := map_misc entries self in
  let? _ := remap_stack boot sp self in
  ret (Ok self).

Section build.
Context (boot : Boot) (sp : Z) (entries : list MemoryRegionInfo) (limit : Z) (rest : nat)
  (env : Env) (region : MemoryRegionInfo) (pb vb offset bottom pages : Z)
  (Hok : paging_ok boot sp entries limit rest (allocator env) region pb vb offset bottom pages).

Lemma build_tables_wp :
  wp (build_tables boot sp entries region env) (fun '(r, env') =>
    exists self, r = Ok self /\ inv limit rest self env' /\
      RecursivePageTable.internal_offset self = offset /\
      LinearFrameAllocator.next (allocator env) <= lvl4_frame self /\
      lvl4_frame self + PAGE_SIZE <= limit /\ page_aligned (lvl4_frame self) /\
      forall a, canonical a -> ~ reserved a ->
        mapping self (tables env') a = kernel_space boot entries region pb vb offset bottom pages a).
Proof.
  pose proof Hok as [Hhd Hof H47 Hrg Him Hmi [Hb Hp] Hss [Hsp Hspl] Hst _ _ _ _ Hroom _].
  unfold build_tables. rewrite Hhd. wp_step.
  eapply wp_mono; [by apply (new_wp limit (rest + 3 * Z.to_nat (misc_pages entries)
    + 3 * Z.to_nat (kernel_pages boot region)))|].
  intros [self env1] (Hinv1 & Hoff & Hav & Hlim & Hfal & Hleaf1).
  assert (forall a, ~ reserved a -> mapping self (tables env1) a = None) as H1
    by (intros a Ha; apply mapping_none; by apply Hleaf1).
  wp_step. eapply wp_mono.
  { apply (map_kernel_wp boot region pb vb self limit (rest + 3 * Z.to_nat (misc_pages entries)));
      [done|done|]. intros a _ Hr _. by apply H1. }
  intros [r2 env2] (-> & Hinv2 & H2). pose proof Hof as (Ho1 & _).
  cbn [RecursivePageTable.internal_offset] in Ho1. wp_step. eapply wp_mono.
  { apply (map_misc_wp self limit rest entries); [by rewrite Hoff|rewrite Hoff; lia|done|].
    apply (misc_free_after self _ offset); [done|done|]. intros a Hc Hr Hlow. rewrite H2, H1 by done.
    destruct Him as [_ _ _ _ [Ht _] _]. by rewrite (proj2 (in_block_false _ _ _)) by lia. }
  intros [r3 env3] (-> & Hinv3 & H3).
  destruct (stack_present self (tables env2) (tables env3) offset entries bottom pages)
    as [Hup Hpres]; [done..|].
  wp_step. eapply wp_mono; [by apply (remap_stack_wp boot self limit rest sp bottom pages)|].
  intros [r4 env4] (-> & Hinv4 & H4). wp_steps. exists self.
  split; [done|]. split; [done|]. split; [done|]. unfold lvl4_frame. rewrite Hoff.
  split; [done|]. split; [done|]. split; [done|].
  eapply kernel_space_compose; try done. apply Exists_exists in Hst as (r & Hin & Hm & _ & Hhi).
  pose proof (mo_regions _ _ Hmi) as Hall. rewrite Forall_forall in Hall.
  destruct (Hall r) as [_ _ _ _ [_ Hh]]; [|lia]. apply list_elem_of_In, filter_In.
  split; [by apply list_elem_of_In|done].
Qed.

End build.

(** The rest of [init_paging]. *)
Definition create_allocators (entries : list MemoryRegionInfo) (self : Table) :
    M Env (result KernelPagingController.KernelPagingController MemoryError) :=
  let^ found := max_by compare_ends (List.filter is_valid entries) in
  let^ highest := unwrap found in
  let^ stop := u64_add (region_base highest) (region_length highest) in
  let size_bytes := stop / PAGE_SIZE / 8 in
  let? frames := with_allocator (BitmapFrameAllocator.new size_bytes
    (RecursivePageTable.internal_offset self) entries) in
  let^ virt_size := u64_mul size_bytes 2 in
  let? pages := with_allocator (VirtualMemoryAllocator.new virt_size
    (RecursivePageTable.internal_offset self)) in
  ret (Ok (KernelPagingController.mk self frames pages)).

Lemma init_paging_split boot sp entries region (env : Env) :
  List.find is_kernel entries = Some region ->
  init_paging boot sp entries env
  = (let? self := build_tables boot sp entries region in create_allocators entries self) env.
Proof.
  intros Hf. unfold init_paging, build_tables. rewrite Hf. unfold bind_ok, bind, lift, unwrap at 1.
  cbn [obind]. destruct (RecursivePageTable.new (hhdm_offset boot) env) as [[self s1]| | |]; [|done..].
  cbn [obind]. destruct (map_kernel boot self region s1) as [[[[]|e] s2]| | |]; [|done..].
  cbn [obind]. destruct (map_misc entries self s2) as [[[[]|e] s3]| | |]; [|done..].
  cbn [obind]. by destruct (remap_stack boot sp self s3) as [[[[]|e] s4]| | |].
Qed.

(** The end of memory is positive: the bitmaps are not empty. *)
Lemma bitmap_size entries :
  32768 <= memory_end entries < 2 ^ 52 -> 0 < memory_end entries / PAGE_SIZE / 8 < 2 ^ 40.
Proof.
  rewrite PAGE_SIZE_eq, Z.div_div by done. intros He. split.
  - apply Z.div_str_pos. lia.
  - apply Z.div_lt_upper_bound; lia.
Qed.

(** The bytes of a bitmap lie, through the offset mapping, in the frames from [first] to [last]. *)
Definition bitmap_within (offset first last : Z) (b : BitmapAllocator.BitmapAllocator) : Prop :=
  first <= BitmapAllocator.bitmap_ptr b - offset /\
  BitmapAllocator.bitmap_ptr b - offset + Z.of_nat (length (BitmapAllocator.bitmap b)) <= last.

Lemma size_in_pages_covers s : 0 <= s -> s <= size_in_pages s * PAGE_SIZE.
Proof. intros Hs. rewrite size_in_pages_div_ceil, PAGE_SIZE_eq. pose proof (div_ceil_spec s 4096). lia. Qed.

Lemma bitmap_within_pages offset first last b size :
  BitmapProofs.wf b -> BitmapAllocator.size b = 8 * size -> 0 <= size ->
  first <= BitmapAllocator.bitmap_ptr b - offset ->
  BitmapAllocator.bitmap_ptr b - offset + size_in_pages size * PAGE_SIZE <= last ->
  bitmap_within offset first last b.
Proof.
  intros Hw Hs H0 Hf Hl. pose proof (wf_size _ Hw). pose proof (size_in_pages_covers size H0).
  unfold bitmap_within. lia.
Qed.

Lemma create_allocators_wp entries limit rest self (env : Env) :
  inv limit rest self env -> limit <= 2 ^ 47 -> Forall region_ok entries ->
  List.filter is_valid entries <> [] -> 32768 <= memory_end entries < 2 ^ 52 ->
  let size := memory_end entries / PAGE_SIZE / 8 in
  Forall (fun r => BitmapFrameAllocator.is_usable r = true -> (region_range r).2 <= 8 * size) entries ->
  size_in_pages size + size_in_pages (size * 2) <= Z.of_nat rest ->
  wp (create_allocators entries self env) (fun '(r, env') =>
    exists kpc, r = Ok kpc /\ KernelPagingController.rec_page_table kpc = self /\
      tables env' = tables env /\
      inv limit (rest - Z.to_nat (size_in_pages size) - Z.to_nat (size_in_pages (size * 2))) self env' /\
      (exhausted (KernelPagingController.virt_mem_allocator kpc) /\
       BitmapAllocator.size (VirtualMemoryAllocator.bits (KernelPagingController.virt_mem_allocator kpc))
         = 16 * size) /\
      let frames := BitmapFrameAllocator.bits (KernelPagingController.frame_allocator kpc) in
      BitmapProofs.wf frames /\ BitmapAllocator.size frames = 8 * size /\
      BitmapAllocator.bitmap_ptr frames
        = LinearFrameAllocator.next (allocator env) + RecursivePageTable.internal_offset self /\
      BitmapAllocator.last_allocated frames = 0 /\
      (forall i, 0 <= i < 8 * size ->
        used frames i = negb (existsb (fun r => region_clears r i) entries)) /\
      let within := bitmap_within (RecursivePageTable.internal_offset self)
        (LinearFrameAllocator.next (allocator env)) (LinearFrameAllocator.next (allocator env')) in
      LinearFrameAllocator.next (allocator env) <= LinearFrameAllocator.next (allocator env') /\
      within frames /\
      within (VirtualMemoryAllocator.bits (KernelPagingController.virt_mem_allocator kpc))).
Proof.
  intros Hinv H47 Hreg Hval Hend size Hus Hrest. pose proof (bitmap_size entries Hend) as Hsz.
  fold size in Hsz. pose proof (size_in_pages_nonneg size ltac:(lia)) as Hp1.
  pose proof (size_in_pages_nonneg (size * 2) ltac:(lia)) as Hp2.
  destruct (max_by_memory_end entries Hreg Hval) as (h & Hmax & Hh & (_ & _ & Hok64)).
  unfold create_allocators. wp_step. wp_step. rewrite Hmax. cbn [wp]. wp_step. wp_step. cbn [unwrap wp].
  wp_step. wp_step. apply wp_u64_add; [exact Hok64|]. fold (region_end h). rewrite Hh. fold size.
  wp_step. unfold with_allocator at 1. wp_step.
  set (rest' := (rest - Z.to_nat (size_in_pages size))%nat).
  assert (inv limit (Z.to_nat (size_in_pages size) + rest') self env) as Hinv0
    by (eapply inv_le; [done|lia]).
  eapply wp_mono.
  { apply frame_new_wp; [eapply inv_bitmap_fits; [exact Hinv0|done|lia]|done|exact Hus]. }
  intros [r1 lin1] (b & -> & Hw & Hs & Hptr & Hl & Hu & Hn1).
  pose proof Hn1 as Hend1. rewrite <- (Z2Nat.id (size_in_pages size)) in Hn1 by done.
  pose proof (inv_advance limit rest' _ self env lin1 Hinv0 Hn1) as Hinv1.
  wp_step. wp_step. apply wp_u64_mul; [unfold u64_bound; lia|]. wp_step.
  unfold with_allocator. wp_step.
  set (rest2 := (rest' - Z.to_nat (size_in_pages (size * 2)))%nat).
  assert (inv limit (Z.to_nat (size_in_pages (size * 2)) + rest2) self
    (RecursivePageTable.set_allocator lin1 env)) as Hinv2 by (eapply inv_le; [done|lia]).
  eapply wp_mono; [apply virt_new_wp; eapply inv_bitmap_fits; [exact Hinv2|done|lia]|].
  intros [r2 lin2] (v & -> & Hf & Hn2). wp_steps.
  pose proof Hn2 as Hend2. rewrite <- (Z2Nat.id (size_in_pages (size * 2))) in Hn2 by done.
  pose proof (inv_advance limit rest2 _ self _ lin2 Hinv2 Hn2) as Hinv3.
  pose proof (fresh_ptr _ _ _ _ Hf) as Hvp. pose proof (fresh_size _ _ _ _ Hf) as Hvs.
  pose proof (fresh_wf _ _ _ _ Hf) as Hvw.
  eexists. split; [done|]. split; [done|]. split; [done|]. split; [exact Hinv3|].
  split; [split; [eapply fresh_exhausted; [|exact Hf]; lia|simpl; lia]|].
  cbn [KernelPagingController.frame_allocator KernelPagingController.virt_mem_allocator
    BitmapFrameAllocator.bits VirtualMemoryAllocator.bits].
  cbn [RecursivePageTable.allocator RecursivePageTable.set_allocator] in *.
  split; [exact Hw|]. split; [exact Hs|]. split; [exact Hptr|]. split; [exact Hl|]. split; [exact Hu|].
  rewrite PAGE_SIZE_eq in *. split; [lia|].
  split; [apply (bitmap_within_pages _ _ _ _ size)|apply (bitmap_within_pages _ _ _ _ (size * 2))];
    rewrite ?PAGE_SIZE_eq; done || lia.
Qed.

End init.
