(* ===== verification/PagingOwned.v ===== *)
(** Where page tables are put: every table that building an address space creates lies, through
    the offset mapping, in a frame the linear allocator handed out meanwhile. *)
From S2P Require Import Prelude X86 Memory FrameAllocation Bitmap PageTable PagingController.
From S2P Require Import PagingInit PagingInitProofs PagingInitSpec.
Import RecursivePageTable.

(** ** The crate's functions, where they return *)

Section owned.
Context {X : X86} {XL : X86Laws}.

Abbreviation Env := (RecursivePageTable.Env LinearFrameAllocator.LinearFrameAllocator).

Lemma canonical_or_not a : canonical a \/ ~ canonical a.
Proof. unfold canonical. lia. Qed.

Lemma phys_add_returns a n : phys_valid a -> 0 <= n -> wlp (phys_add a n) (fun c => c = a + n /\ phys_valid c).
Proof.
  intros Ha Hn. assert (phys_valid (a + n) \/ ~ phys_valid (a + n)) as [Hv|Hv] by (unfold phys_valid; lia).
  - by rewrite phys_add_valid.
  - by rewrite phys_add_invalid.
Qed.

Lemma virt_new_returns a : is_u64 a -> wlp (virt_new a) (fun c => c = a /\ canonical c).
Proof.
  intros Ha. destruct (canonical_or_not a); [by rewrite virt_new_canonical|by rewrite virt_new_invalid].
Qed.

Lemma virt_add_returns a n : canonical a -> 0 <= n -> wlp (virt_add a n) (fun c => c = a + n).
Proof.
  intros Ha Hn. destruct (canonical_or_not (a + n)); [by rewrite virt_add_canonical|by rewrite virt_add_invalid].
Qed.

Lemma entry_set_addr_returns e f flags : phys_valid f ->
  wlp (entry_set_addr e f flags) (fun e' => entry_addr e' = f).
Proof.
  intros Hf. destruct (decide (page_aligned f)) as [Ha|Ha].
  - destruct (set_addr_aligned e f flags Hf Ha) as (e' & -> & He & _). exact He.
  - by rewrite set_addr_unaligned.
Qed.

(** ** Ownership *)

(** The tables that were not in the store [before] lie in frames from [first] on that the linear
    allocator has handed out; it has come to [n] at least. *)
Context (offset first : Z) (before : gmap Z PageTable) (Hoffset : 0 <= offset) (Hfirst : 0 <= first).

Record owned (n : Z) (env : Env) : Prop := {
  ow_valid : phys_valid (LinearFrameAllocator.next (allocator env));
  ow_next : first <= n <= LinearFrameAllocator.next (allocator env);
  ow_tables a : is_Some (tables env !! a) ->
    is_Some (before !! a) \/ first <= a - offset < LinearFrameAllocator.next (allocator env)
}.

Lemma owned_le n n' env : first <= n -> n <= n' -> owned n' env -> owned n env.
Proof. intros Hf Hn [Hv Hx Ht]. constructor; [done|lia|done]. Qed.

Lemma keeps_owned_le {A} n n' (m : M Env A) env :
  first <= n -> n <= n' -> keeps (owned n') m -> owned n' env -> wlp (m env) (fun '(_, env') => owned n env').
Proof.
  intros Hf Hn Hm Hs. eapply wlp_mono; [by apply Hm|]. intros [a s'] Hs'. by eapply owned_le.
Qed.

(** A frame is handed out. *)
Lemma alloc_owned n env :
  owned n env ->
  wlp (zoom allocator set_allocator frame_alloc env) (fun '(r, env') => exists f, r = Ok f /\
    n <= f /\ phys_valid f /\ owned (f + 1) env').
Proof.
  intros [Hv Hn Ht]. wp_step. cbn [frame_alloc LinearFrameAllocator.linear_frame_allocator].
  unfold LinearFrameAllocator.alloc. wp_step. unfold get. cbn [wlp]. wp_step. wp_step. pose proof PAGE_SIZE_eq as HP.
  eapply wlp_mono; [by apply phys_add_returns; [|rewrite HP]|]. intros c [-> Hc]. wp_steps.
  eexists. split; [done|]. split; [lia|]. split; [done|].
  constructor; cbn [allocator set_allocator LinearFrameAllocator.next tables]; rewrite HP; [by rewrite <- HP|lia|].
  intros a Ha. destruct (Ht a Ha); [by left|right; lia].
Qed.

Lemma write_entry_owned n table i e : keeps (owned n) (with_tables (write_entry table i e)).
Proof.
  intros env [Hv Hn Ht]. unfold with_tables, write_entry. wp_step. wp_step. unfold get. cbn [wlp].
  wp_step. unfold deref. destruct (tables env !! table) as [t|] eqn:Htable; [|done]. wp_steps.
  apply wlp_true. intros t'. wp_steps. constructor; cbn [allocator set_tables tables]; try done.
  intros a Ha. apply Ht. destruct (decide (a = table)) as [->|Hne]; [by rewrite Htable|].
  by rewrite lookup_insert_ne in Ha.
Qed.

Lemma new_level_owned n at_ : first <= at_ - offset < n -> keeps (owned n) (with_tables (new_page_table_level at_)).
Proof.
  intros Hat env [Hv Hn Ht]. unfold with_tables, new_page_table_level. wp_step.
  destruct (negb _); [done|]. wp_steps. constructor; cbn [allocator set_tables tables]; try done.
  intros a Ha. destruct (decide (a = at_)) as [->|Hne]; [right; lia|].
  rewrite lookup_insert_ne in Ha by done. by apply Ht.
Qed.

#[local] Hint Resolve write_entry_owned : keeps.

(** ** The operations on page tables *)

Lemma create_levels_owned n self to levels : internal_offset self = offset -> forall table,
  keeps (owned n) (create_levels (F := LinearFrameAllocator.LinearFrameAllocator) self to levels table).
Proof.
  intros Ho. revert n. induction levels as [|level levels IH]; intros n table; cbn [create_levels]; [auto with keeps|].
  apply keeps_bind; [auto with keeps|intros i]. apply keeps_get. intros env0 _.
  apply keeps_bind; [auto with keeps|intros entry]. destruct (negb _); [auto with keeps|].
  intros env Henv. pose proof Henv as [_ Hn _]. apply wlp_bind.
  eapply wlp_mono; [by apply alloc_owned|]. intros [r env1] (f & -> & Hf & Hv & Hown1).
  eapply (keeps_owned_le n (f + 1)); [lia|lia| |exact Hown1].
  apply (keeps_lift_post _ (fun e => entry_addr e = f)); [by apply entry_set_addr_returns|]. intros e He.
  apply keeps_bind; [auto with keeps|intros _].
  apply (keeps_lift_post _ (fun a => a = f + offset)).
  { unfold phys_page_table_as_virt. rewrite He, Ho. unfold phys_valid in Hv.
    unfold u64_add. destruct (Z.ltb_spec (f + offset) u64_bound); cbn [obind wlp]; [|done].
    eapply wlp_mono; [apply virt_new_returns; unfold is_u64; lia|]. by intros a [-> _]. }
  intros at_ ->. apply keeps_bind; [apply new_level_owned; lia|intros next]. by apply IH.
Qed.

Lemma map_owned n self from to flags : internal_offset self = offset ->
  keeps (owned n) (map (F := LinearFrameAllocator.LinearFrameAllocator) self from to flags).
Proof.
  intros Ho. unfold map. apply keeps_bind; [auto with keeps|intros i]. destruct (i =? 510); [auto with keeps|].
  induction (range 1 5) as [|level levels IH]; cbn [map_levels]; [auto with keeps|].
  apply keeps_get. intros env _. apply keeps_bind; [auto with keeps|intros [table|]]; [|done].
  unfold map_at. apply keeps_bind_ok; [by apply create_levels_owned|intros current].
  apply keeps_bind; [auto with keeps|intros j]. apply keeps_get. intros env' _.
  apply keeps_bind; [auto with keeps|intros entry]. destruct (negb _); [auto with keeps|].
  apply keeps_bind; [auto with keeps|intros e]. auto with keeps.
Qed.
#[local] Hint Resolve map_owned : keeps.

Lemma map_contiguous_owned n self pages from to flags : internal_offset self = offset ->
  keeps (owned n) (map_contiguous (F := LinearFrameAllocator.LinearFrameAllocator) self pages from to flags).
Proof. intros Ho. unfold map_contiguous. auto 10 with keeps. Qed.

Lemma unmap_owned n self a : keeps (owned n) (unmap (F := LinearFrameAllocator.LinearFrameAllocator) self a).
Proof.
  unfold unmap. apply keeps_get. intros env _. apply keeps_bind; [auto with keeps|intros [table|]]; [|auto with keeps].
  apply keeps_bind; [auto with keeps|intros i]. apply keeps_bind; [auto with keeps|intros entry].
  destruct (entry_is_unused entry); auto with keeps.
Qed.

Lemma update_flags_owned n self a flags :
  keeps (owned n) (update_flags (F := LinearFrameAllocator.LinearFrameAllocator) self a flags).
Proof.
  unfold update_flags. apply keeps_get. intros env _.
  apply keeps_bind; [auto with keeps|intros [table|]]; [|auto with keeps].
  apply keeps_bind; [auto with keeps|intros i]. apply keeps_bind; [auto with keeps|intros entry].
  destruct (entry_is_unused entry); auto with keeps.
Qed.

Lemma new_owned n env : owned n env ->
  wlp (new (F := LinearFrameAllocator.LinearFrameAllocator) (Some offset) env) (fun '(self, env') =>
    owned n env' /\ internal_offset self = offset).
Proof.
  intros Hown. pose proof Hown as [_ Hn _]. unfold new. cbn [unwrap].
  apply wlp_bind, wlp_lift. cbn [wlp]. apply wlp_bind.
  eapply wlp_mono; [by apply alloc_owned|]. intros [r env1] (f & -> & Hf & Hv & Hown1).
  unfold phys_valid in Hv. cbn [unwrap_result]. apply wlp_bind, wlp_lift. cbn [wlp]. apply wlp_bind, wlp_lift.
  eapply wlp_mono; [apply virt_new_returns; unfold is_u64, u64_bound; lia|]. intros v [-> Hc].
  apply wlp_bind, wlp_lift. eapply wlp_mono; [by apply virt_add_returns|]. intros at_ ->. apply wlp_bind.
  eapply wlp_mono; [apply (new_level_owned (f + 1)); [lia|exact Hown1]|]. intros [lvl4 env2] Hown2.
  apply wlp_bind. unfold get. cbn [wlp]. apply wlp_bind, wlp_lift, wlp_true. intros e0.
  apply wlp_bind, wlp_lift, wlp_true. intros e1. apply wlp_bind.
  eapply wlp_mono; [by apply write_entry_owned|]. intros [[] env3] Hown3. cbn [wlp ret].
  split; [|done]. eapply owned_le; [|..|exact Hown3]; lia.
Qed.

#[local] Hint Resolve map_contiguous_owned unmap_owned update_flags_owned : keeps.

(** ** [init_paging] *)

Lemma paging_owned {A} n (m : M Env (result A PagingError)) : keeps (owned n) m -> keeps (owned n) (paging m).
Proof. intros Hm. unfold paging. apply keeps_bind; [done|auto with keeps]. Qed.
#[local] Hint Resolve paging_owned : keeps.

Lemma virt_for_each_owned {E} n (body : Z -> M Env (result unit E)) fuel : forall start stop skip k,
  (forall page, keeps (owned n) (body page)) -> keeps (owned n) (virt_for_each fuel start stop skip k body).
Proof.
  induction fuel as [|fuel IH]; intros start stop skip k Hb; cbn [virt_for_each]; [by intros env _|].
  destruct (virt_forward start skip) as [page|]; [|auto with keeps]. destruct (page <? stop); [|auto with keeps].
  apply keeps_bind; [auto with keeps|intros next]. apply keeps_bind_ok; [done|intros _]. by apply IH.
Qed.

Lemma map_kernel_owned n boot self region : internal_offset self = offset ->
  keeps (owned n) (map_kernel boot self region).
Proof.
  intros Ho. assert (forall s e flags, keeps (owned n) (map_kernel_section boot s e flags self)) as Hs.
  { intros s e flags. unfold map_kernel_section. apply keeps_bind; [auto with keeps|intros [pb vb]].
    destruct (s =? e); [auto with keeps|]. apply keeps_for_each. intros page.
    repeat (apply keeps_bind; [auto with keeps|intros ?]). auto with keeps. }
  unfold map_kernel. do 4 (apply keeps_bind_ok; [apply Hs|intros _]).
  apply keeps_bind; [auto with keeps|intros [pb vb]].
  do 6 (apply keeps_bind; [auto with keeps|intros ?]). auto with keeps.
Qed.

Lemma map_misc_owned n entries self : internal_offset self = offset -> keeps (owned n) (map_misc entries self).
Proof.
  intros Ho. unfold map_misc. apply keeps_for_each. intros r. destruct (misc_flags _); [|auto with keeps].
  do 3 (apply keeps_bind; [auto with keeps|intros ?]). auto with keeps.
Qed.

Lemma remap_stack_owned n boot sp self : keeps (owned n) (remap_stack boot sp self).
Proof.
  unfold remap_stack. do 2 (apply keeps_bind; [auto with keeps|intros ?]).
  apply keeps_bind_ok; [auto with keeps|intros _]. apply keeps_bind_ok; [|auto with keeps].
  apply virt_for_each_owned. auto with keeps.
Qed.

Lemma build_tables_owned n boot sp entries region env :
  hhdm_offset boot = Some offset -> owned n env ->
  wlp (build_tables boot sp entries region env) (fun '(_, env') => owned n env').
Proof.
  intros Hhd Hown. unfold build_tables. rewrite Hhd. apply wlp_bind.
  eapply wlp_mono; [by apply new_owned|]. intros [self env1] [Hown1 Ho]. revert env1 Hown1.
  change (keeps (owned n) (let? _ := map_kernel boot self region in let? _ := map_misc entries self in
    let? _ := remap_stack boot sp self in ret (Ok self))).
  apply keeps_bind_ok; [by apply map_kernel_owned|intros _].
  apply keeps_bind_ok; [by apply map_misc_owned|intros _].
  apply keeps_bind_ok; [apply remap_stack_owned|auto with keeps].
Qed.

End owned.
#[export] Hint Resolve paging_owned map_contiguous_owned : keeps.
