(* ===== verification/PagingInitTheorems.v ===== *)
(** What the kernel's address space is after [init_paging], and what it lacks. *)
From S2P Require Import Prelude X86 Memory FrameAllocation Bitmap BitmapProofs PageTable.
From S2P Require Import PageTableProofs PageTableTheorems Allocators AllocatorsProofs.
From S2P Require Import PagingController PagingInit PagingInitProofs PagingInitSpec PagingOwned.

Section properties.
Context {X : X86} {XL : X86Laws}.

Lemma init_paging_wp boot sp entries limit rest (env : Env) region pb vb offset bottom pages :
  paging_ok boot sp entries limit rest (allocator env) region pb vb offset bottom pages ->
  let size := memory_end entries / PAGE_SIZE / 8 in
  wp (init_paging boot sp entries env) (fun '(r, env') => exists kpc, r = Ok kpc /\
    let self := KernelPagingController.rec_page_table kpc in
    let frames := BitmapFrameAllocator.bits (KernelPagingController.frame_allocator kpc) in
    inv limit (rest - Z.to_nat (size_in_pages size) - Z.to_nat (size_in_pages (size * 2))) self env' /\
    RecursivePageTable.internal_offset self = offset /\
    (LinearFrameAllocator.next (allocator env) <= lvl4_frame self /\ lvl4_frame self + PAGE_SIZE <= limit /\
     page_aligned (lvl4_frame self)) /\
    (forall a, canonical a -> ~ reserved a ->
       mapping self (tables env') a = kernel_space boot entries region pb vb offset bottom pages a) /\
    (exhausted (KernelPagingController.virt_mem_allocator kpc) /\
     BitmapAllocator.size (VirtualMemoryAllocator.bits (KernelPagingController.virt_mem_allocator kpc))
       = 16 * size) /\
    BitmapProofs.wf frames /\ BitmapAllocator.size frames = 8 * size /\
    BitmapAllocator.last_allocated frames = 0 /\
    (forall i, 0 <= i < 8 * size ->
       used frames i = negb (existsb (fun r => region_clears r i) entries)) /\
    let first := LinearFrameAllocator.next (allocator env) in
    owned offset first (tables env) first env' /\
    bitmap_within offset first (LinearFrameAllocator.next (allocator env')) frames /\
    bitmap_within offset first (LinearFrameAllocator.next (allocator env'))
      (VirtualMemoryAllocator.bits (KernelPagingController.virt_mem_allocator kpc))).
Proof.
  intros Hok size. pose proof Hok as [Hhd (Ho1 & _) H47 Hrg _ _ _ _ _ _ Hreg Hval Hend Hus ([_ Hv0] & _) Hrest].
  cbn [RecursivePageTable.internal_offset] in Ho1. pose proof Hv0 as Hv0'. unfold phys_valid in Hv0'.
  rewrite (init_paging_split boot sp entries region env Hrg). wp_step.
  eapply wp_mono.
  { apply wp_wlp_and; [by eapply build_tables_wp|].
    apply (build_tables_owned offset (LinearFrameAllocator.next (allocator env)) (tables env)); try lia || done.
    constructor; [done|by split|by left]. }
  intros [r env1] [(self & -> & Hinv & Hoff & Hlo & Hhi & Hal & Hmap) [Hv1 Hn Ht]].
  eapply wp_mono; [by eapply (create_allocators_wp entries limit rest self)|].
  intros [r env2] (kpc & -> & Hself & Htab & Hinv2 & [Hex Hv] & Hw & Hs & _ & Hl & Hu & Hnext & [Hb1 Hb2] & [Hb3 Hb4]).
  exists kpc. split; [done|]. rewrite Hself, Htab. rewrite Hoff in *.
  split_and!; try done. cbv zeta. split; [|split; split; lia].
  pose proof (inv_room _ _ _ _ Hinv2) as ([_ Hv2] & _). constructor; [exact Hv2|lia|].
  intros a Ha. rewrite Htab in Ha. destruct (Ht a Ha); [by left|right; lia].
Qed.

(** C2: [init_paging] succeeds, and the address space it returns is [kernel_space]: the
    kernel's image is mapped section by section with the section's flags, the rest of its
    region read-only, the firmware's and the boot loader's regions at the offset mapping, the
    stack writable and not executable, the page above the stack not at all, and nothing else.
    In the frame allocator a frame is free exactly when it lies in an aligned group of eight
    frames that is whole inside a usable region: the usable frames at either end of a region
    that only share a group with others stay in use, although the code means to clear all
    usable memory. *)
Theorem init_paging_correct boot sp entries limit rest (env : Env) region pb vb offset bottom pages
    (Hok : paging_ok boot sp entries limit rest (allocator env) region pb vb offset bottom pages) :
  exists kpc env', init_paging boot sp entries env = Done (Ok kpc, env') /\
    let self := KernelPagingController.rec_page_table kpc in
    (forall a, canonical a -> ~ reserved a ->
       mapping self (tables env') a = kernel_space boot entries region pb vb offset bottom pages a) /\
    (forall i, 0 <= i < 8 * (memory_end entries / PAGE_SIZE / 8) ->
       used (BitmapFrameAllocator.bits (KernelPagingController.frame_allocator kpc)) i
       = negb (existsb (fun r => region_clears r i) entries)).
Proof.
  pose proof (init_paging_wp boot sp entries limit rest env region pb vb offset bottom pages Hok) as H.
  apply wp_iff in H as ([r env'] & -> & kpc & -> & _ & _ & _ & Hm & _ & _ & _ & _ & Hu & _).
  exists kpc, env'. split; [done|]. split; [exact Hm|exact Hu].
Qed.

(** No misc region reaches into the memory the linear allocator serves. *)
Definition misc_outside (entries : list MemoryRegionInfo) (first limit : Z) : Prop :=
  Forall (fun r => is_misc r = true ->
    region_base r + region_pages r * PAGE_SIZE <= first \/ limit <= region_base r) entries.

Lemma kernel_space_outside boot entries region pb vb offset bottom pages first limit f :
  image_ok boot region pb vb -> misc_outside entries first limit ->
  first <= f < limit -> offset + limit <= 2 ^ 64 - 2 ^ 39 ->
  kernel_space boot entries region pb vb offset bottom pages (f + offset) = None.
Proof.
  intros [_ _ _ _ [Ht _] _] Hout Hf Hlim. unfold kernel_space.
  rewrite (proj2 (in_block_false (limine_reqs_start boot) _ _)) by lia.
  destruct (in_block _ 1 _); [done|].
  destruct (misc_covers offset entries (f + offset)) eqn:Hm; [|done]. exfalso.
  apply existsb_exists in Hm as (r & Hin & Hr). unfold in_region in Hr.
  apply andb_true_iff in Hr as [Hm Hr%in_block_iff].
  unfold misc_outside in Hout. rewrite Forall_forall in Hout.
  specialize (Hout r ltac:(by apply list_elem_of_In) Hm). lia.
Qed.

(** C35: the new address space does not contain its own level-4 table: the tables lie in
    usable memory, which [init_paging] does not map, so that the address the page table code
    reaches the table at, its frame plus the offset, has no translation in the space
    itself. *)
Theorem page_table_not_in_its_space boot sp entries limit rest (env : Env) region pb vb offset bottom pages
    (Hok : paging_ok boot sp entries limit rest (allocator env) region pb vb offset bottom pages)
    (Hout : misc_outside entries (LinearFrameAllocator.next (allocator env)) limit)
    (Hlow : offset + limit <= 2 ^ 64 - 2 ^ 40) :
  exists kpc env', init_paging boot sp entries env = Done (Ok kpc, env') /\
    let self := KernelPagingController.rec_page_table kpc in
    is_Some (tables env' !! RecursivePageTable.lvl4 self) /\
    RecursivePageTable.translate self (tables env') (RecursivePageTable.lvl4 self) = Done None.
Proof.
  pose proof (init_paging_wp boot sp entries limit rest env region pb vb offset bottom pages Hok) as H.
  apply wp_iff in H as ([r env'] & -> & kpc & -> & Hinv & Hoff & (Hlo & Hhi & _) & Hm & _).
  exists kpc, env'. split; [done|]. set (self := KernelPagingController.rec_page_table kpc) in *.
  destruct (wf_root self (tables env')) as [Hroot Hcan]; [apply Hinv|]. split; [exact Hroot|].
  pose proof (pk_offset _ _ _ _ _ _ _ _ _ _ _ _ Hok) as (Ho1 & _).
  cbn [RecursivePageTable.internal_offset] in Ho1. pose proof PAGE_SIZE_eq as HP.
  assert (RecursivePageTable.lvl4 self = lvl4_frame self + offset) as Hl by (unfold lvl4_frame; lia).
  assert (0 <= lvl4_frame self) as H0.
  { pose proof (pk_room _ _ _ _ _ _ _ _ _ _ _ _ Hok) as ([_ Hv] & _). unfold phys_valid in Hv. lia. }
  assert (~ reserved (RecursivePageTable.lvl4 self)) as Hr
    by (rewrite Hl; apply upper_half_not_reserved; lia).
  assert (mapping self (tables env') (RecursivePageTable.lvl4 self) = None) as Hnone.
  { rewrite Hm by done. rewrite Hl. eapply kernel_space_outside; [apply Hok|exact Hout|lia|lia]. }
  apply mapping_none in Hnone. rewrite translate_eq; [by rewrite Hnone|apply Hinv|done|].
  intros e. by rewrite Hnone.
Qed.

End properties.

(** *** Instances *)

#[local] Existing Instances X86Model.x86 X86Model.x86_laws.

Definition boot_offset : Z := 0xFFFF800000000000.

Definition boot_kernel_region : MemoryRegionInfo :=
  {| region_base := 0x9000000; region_length := 0x5000; region_type := ExecutableAndModules |}.

Definition boot_map : list MemoryRegionInfo :=
  [{| region_base := 0; region_length := 0x1000000; region_type := Reserved |};
   {| region_base := 0x1000000; region_length := 0x8000000; region_type := Usable |};
   boot_kernel_region;
   {| region_base := 0xA000000; region_length := 0x20000; region_type := BootloaderReclaimable |};
   {| region_base := 0xFD000000; region_length := 0x4000; region_type := Framebuffer |}].

Definition example_boot : Boot := {|
  limine_reqs_start := 0xFFFFFFFF80000000;
  text_start := 0xFFFFFFFF80001000;
  rodata_start := 0xFFFFFFFF80002000;
  data_start := 0xFFFFFFFF80003000;
  elf_end := 0xFFFFFFFF80004000;
  kernel_address := Some (0x9000000, 0xFFFFFFFF80000000);
  hhdm_offset := Some boot_offset;
  memory_map := Some boot_map
|}.

Definition boot_linear : LinearFrameAllocator.LinearFrameAllocator := LinearFrameAllocator.mk 0x1000000.
Definition boot_bottom : Z := boot_offset + 0xA001000.
Definition boot_sp : Z := boot_bottom + 0x10000 - 16.

Lemma example_image_ok : image_ok example_boot boot_kernel_region 0x9000000 0xFFFFFFFF80000000.
Proof. constructor; try done; repeat constructor; done. Qed.

Lemma example_misc_ok : misc_ok boot_offset boot_map.
Proof.
  constructor; [done| |].
  - repeat constructor; done.
  - constructor; [constructor; [left; done|constructor]|repeat constructor].
Qed.

Lemma example_paging_ok_at rest next :
  next = 0x1000000 \/ next = 0x1400000 -> (5 <= rest <= Z.to_nat 20000)%nat ->
  paging_ok example_boot boot_sp boot_map 0x9000000 rest (LinearFrameAllocator.mk next)
    boot_kernel_region 0x9000000 0xFFFFFFFF80000000 boot_offset boot_bottom 16.
Proof.
  intros Hnext Hrest. constructor.
  - done.
  - by vm_compute.
  - done.
  - done.
  - apply example_image_ok.
  - apply example_misc_ok.
  - done.
  - done.
  - by vm_compute.
  - do 3 right. left. by vm_compute.
  - repeat constructor; by vm_compute.
  - done.
  - by vm_compute.
  - repeat constructor; by vm_compute.
  - split; [by split; destruct Hnext as [-> | ->]; vm_compute|]. split; [|done].
    change (misc_pages boot_map) with 36. change (kernel_pages example_boot boot_kernel_region) with 5.
    simpl LinearFrameAllocator.next. rewrite PAGE_SIZE_eq. lia.
  - change (size_in_pages _ + size_in_pages _) with 5. lia.
Qed.

Lemma example_paging_ok rest :
  (5 <= rest <= Z.to_nat 20000)%nat ->
  paging_ok example_boot boot_sp boot_map 0x9000000 rest boot_linear boot_kernel_region
    0x9000000 0xFFFFFFFF80000000 boot_offset boot_bottom 16.
Proof. intros Hrest. by apply example_paging_ok_at; [left|]. Qed.

Definition init_env : Env := RecursivePageTable.mkEnv ∅ boot_linear.

Lemma init_paging_correct_witness :
  exists kpc env', init_paging example_boot boot_sp boot_map init_env = Done (Ok kpc, env') /\
    mapping (KernelPagingController.rec_page_table kpc) (tables env') 0xFFFFFFFF80001234
    = Some (0x9001000, flags_union flags_rx (flag_bit GLOBAL)).
Proof.
  destruct (init_paging_correct example_boot boot_sp boot_map 0x9000000 5 init_env boot_kernel_region
    0x9000000 0xFFFFFFFF80000000 boot_offset boot_bottom 16) as (kpc & env' & H & Hm & _);
    [apply example_paging_ok; lia|].
  exists kpc, env'. split; [exact H|].
  rewrite Hm; [vm_compute; reflexivity|right; vm_compute; split; congruence|intros Hr; vm_compute in Hr; congruence].
Defined.

Lemma example_outside :
  misc_outside boot_map (LinearFrameAllocator.next (allocator init_env)) 0x9000000.
Proof.
  repeat (apply Forall_cons; split); first [done | intros _; right; by vm_compute | constructor].
Qed.

Lemma page_table_not_in_its_space_witness :
  exists kpc env', init_paging example_boot boot_sp boot_map init_env = Done (Ok kpc, env') /\
    RecursivePageTable.translate (KernelPagingController.rec_page_table kpc) (tables env')
      (RecursivePageTable.lvl4 (KernelPagingController.rec_page_table kpc)) = Done None.
Proof.
  destruct (page_table_not_in_its_space example_boot boot_sp boot_map 0x9000000 5 init_env
    boot_kernel_region 0x9000000 0xFFFFFFFF80000000 boot_offset boot_bottom 16)
    as (kpc & env' & H & _ & Ht);
    [apply example_paging_ok; lia|apply example_outside|vm_compute; congruence|].
  exists kpc, env'. split; [exact H|exact Ht].
Defined.

