(* ===== verification/AllocatedMemory.v ===== *)
(** Memory objects ([memory/allocated_memory.rs]): allocation through the global paging
    controller, checked typed accesses, and release on drop. *)
From S2P Require Import Prelude X86 Memory FrameAllocation PageTable Allocators PagingController.

Module AllocatedMemory.

(** A type [T] that is read and written through raw pointers: [size_of::<T>()],
    [align_of::<T>()] and its bytes in memory. *)
Class Layout (T : Type) : Type := {
  size_of : Z;
  align_of : Z;
  to_bytes : T -> list Z;
  from_bytes : list Z -> T
}.
#[global] Arguments size_of T {_}.
#[global] Arguments align_of T {_}.

Class LayoutLaws (T : Type) `{Layout T} : Prop := {
  size_of_nonneg : 0 <= size_of T;
  align_of_pos : 0 < align_of T;
  to_bytes_length t : Z.of_nat (length (to_bytes t)) = size_of T;
  from_to_bytes t : from_bytes (to_bytes t) = t
}.

Section memory.
Context {X : X86}.

(** [struct AllocatedMemory]; [address] is a pair of a virtual and a physical address. *)
Record AllocatedMemory : Type := mk {
  address : AddressPair;
  size : Z;
  flags : PageTableFlags;
  free_after_use : bool
}.

(** [KERNEL_PAGING_CONTROLLER], the page tables, and the bytes of mapped memory by
    virtual address. *)
Record World : Type := mkWorld {
  paging_controller : option KernelPagingController.KernelPagingController;
  tables : gmap Z PageTable;
  bytes : gmap Z Z
}.

(** A call on the controller the static holds, [c]. *)
Definition with_controller {A} (c : KernelPagingController.KernelPagingController)
    (m : M KernelPagingController.State A) : M World A :=
  zoom (fun w => KernelPagingController.mkState c (tables w))
    (fun s w => mkWorld (Some (KernelPagingController.controller s))
                  (KernelPagingController.tables s) (bytes w)) m.

Definition map_pages (pages phys_addr virt_addr : Z) (flags : PageTableFlags) :
    M KernelPagingController.State (result unit MemoryError) :=
  paging (KernelPagingController.with_page_table (fun t =>
    RecursivePageTable.map_contiguous t pages phys_addr virt_addr flags)).

Definition new (size : Z) (flags : PageTableFlags) : M World (result AllocatedMemory MemoryError) :=
  if size =? 0 then ret (Err EmptyAllocation) else
  let pages := div_ceil size PAGE_SIZE in
  let! w := get in
  return_if_none (paging_controller w) LockedAllocator (fun paging_ctl =>
    with_controller paging_ctl (
      let? phys_addr := KernelPagingController.with_frames
        (BitmapFrameAllocator.alloc_contiguous pages) in
      let? virt_addr := KernelPagingController.with_pages
        (VirtualMemoryAllocator.alloc_contiguous pages) in
      let? _ := map_pages pages phys_addr virt_addr flags in
      ret (Ok (mk (virt_addr, phys_addr) size flags true)))).

Definition reserve_physical (phys_addr size : Z) (flags : PageTableFlags) :
    M World (result AllocatedMemory MemoryError) :=
  if size =? 0 then ret (Err EmptyAllocation) else
  let pages := div_ceil size PAGE_SIZE in
  let! w := get in
  return_if_none (paging_controller w) LockedAllocator (fun paging_ctl =>
    with_controller paging_ctl (
      let? virt_addr := KernelPagingController.with_pages
        (VirtualMemoryAllocator.alloc_contiguous pages) in
      let? _ := map_pages pages phys_addr virt_addr flags in
      ret (Ok (mk (virt_addr, phys_addr) size flags false)))).

Definition pages (self : AllocatedMemory) : Z := div_ceil (size self) PAGE_SIZE.

(** ** Accesses *)

(** The bytes from an address on, read and written. *)
Definition read_bytes (m : gmap Z Z) (at_ n : Z) : outcome (list Z) :=
  match mapM (fun k => m !! (at_ + k)) (seqZ 0 n) with
  | Some l => Done l
  | None => Faulted at_
  end.

Fixpoint write_bytes (m : gmap Z Z) (at_ : Z) (l : list Z) : outcome (gmap Z Z) :=
  match l with
  | [] => Done m
  | b :: l =>
      match m !! at_ with
      | None => Faulted at_
      | Some _ => write_bytes (<[at_ := b]> m) (at_ + 1) l
      end
  end.

Section typed.
Context {T : Type} {L : Layout T}.

(** What [ptr::read] and [ptr::write], the volatile ones too, ask of a pointer: that it is aligned
    and, unless [T] has no size, not null. The debug assertions of [core], which the dev profile
    builds with the kernel, panic where it is not; without them the access is undefined. *)
Definition pointer_ok (at_ : Z) : bool :=
  (at_ mod align_of T =? 0) && ((size_of T =? 0) || negb (at_ =? 0)).

Definition ptr_read (at_ : Z) : M World T :=
  if negb (pointer_ok at_) then throw AssertionFailed else
  let! w := get in
  let^ l := read_bytes (bytes w) at_ (size_of T) in ret (from_bytes l).

Definition ptr_write (at_ : Z) (value : T) : M World unit :=
  if negb (pointer_ok at_) then throw AssertionFailed else
  let! w := get in
  let^ m := write_bytes (bytes w) at_ (to_bytes value) in
  put (mkWorld (paging_controller w) (tables w) m).

Definition handle_errors (self : AllocatedMemory) (write : bool) (offset : Z) :
    outcome (result unit MemoryError) :=
  if negb (flags_contains (flags self) (flag_bit PRESENT)) then Done (Err PageNotPresent)
  else if write && negb (flags_contains (flags self) (flag_bit WRITABLE))
    then Done (Err WriteToReadOnly)
  else
    let* stop := u64_add offset (size_of T) in
    if size self <=? stop then Done (Err OutOfBounds) else Done (Ok tt).

Definition read (self : AllocatedMemory) (offset : Z) : M World (result T MemoryError) :=
  let? _ := lift (handle_errors self false offset) in
  let^ at_ := virt_add (address self).1 offset in
  let! v := ptr_read at_ in ret (Ok v).

(** The volatile forms differ in what the compiler may reorder only. *)
Definition read_volatile (self : AllocatedMemory) (offset : Z) : M World (result T MemoryError) :=
  let? _ := lift (handle_errors self false offset) in
  let^ at_ := virt_add (address self).1 offset in
  let! v := ptr_read at_ in ret (Ok v).

Definition write (self : AllocatedMemory) (offset : Z) (value : T) :
    M World (result unit MemoryError) :=
  let? _ := lift (handle_errors self true offset) in
  let^ at_ := virt_add (address self).1 offset in
  let! _ := ptr_write at_ value in ret (Ok tt).

Definition write_volatile (self : AllocatedMemory) (offset : Z) (value : T) :
    M World (result unit MemoryError) :=
  let? _ := lift (handle_errors self true offset) in
  let^ at_ := virt_add (address self).1 offset in
  let! _ := ptr_write at_ value in ret (Ok tt).

Definition write_back (self : AllocatedMemory) (offset : Z) (f : T -> T) :
    M World (result unit MemoryError) :=
  let? _ := lift (handle_errors self true offset) in
  let^ at_ := virt_add (address self).1 offset in
  let! original_value := ptr_read at_ in
  let new_value := f original_value in
  let^ at_ := virt_add (address self).1 offset in
  let! _ := ptr_write at_ new_value in ret (Ok tt).

Definition write_back_volatile (self : AllocatedMemory) (offset : Z) (f : T -> T) :
    M World (result unit MemoryError) :=
  let? _ := lift (handle_errors self true offset) in
  let^ at_ := virt_add (address self).1 offset in
  let! original_value := ptr_read at_ in
  let new_value := f original_value in
  let^ at_ := virt_add (address self).1 offset in
  let! _ := ptr_write at_ new_value in ret (Ok tt).

End typed.

(** ** Release *)

(** [if let Err(e) = m { panic!(..) }]. *)
Definition or_panic {S E} (m : M S (result unit E)) : M S unit :=
  let! r := m in match r with Ok _ => ret tt | Err _ => throw ExplicitPanic end.

(** [Drop::drop]. *)
Definition drop (self : AllocatedMemory) : M World unit :=
  let! w := get in
  let^ paging_ctl := unwrap (paging_controller w) in
  with_controller paging_ctl (
    let! _ := or_panic (KernelPagingController.with_page_table (fun t =>
      RecursivePageTable.unmap_contiguous t (pages self) (address self).1)) in
    let! _ := or_panic (KernelPagingController.with_pages
      (VirtualMemoryAllocator.free (address self).1 (pages self))) in
    if negb (free_after_use self) then ret tt else
    or_panic (KernelPagingController.with_frames
      (BitmapFrameAllocator.free_contiguous (address self).2 (pages self)))).

End memory.
End AllocatedMemory.
