(* ===== verification/AllocatedMemoryProofs.v ===== *)
(** Accesses to memory objects stay inside them and read what was written; with the
    kernel's allocators none is ever created, and dropping one never completes. *)
From S2P Require Import Prelude X86 Memory FrameAllocation Bitmap BitmapProofs PageTable.
From S2P Require Import PageTableProofs PageTableTheorems Allocators AllocatorsProofs PagingController PagingControllerProofs AllocatedMemory.
Import AllocatedMemory.

(** ** Raw memory *)

Lemma write_bytes_ok l : forall m a,
  (forall k, 0 <= k < Z.of_nat (length l) -> is_Some (m !! (a + k))) ->
  exists m', write_bytes m a l = Done m' /\
    (forall b, ~ (a <= b < a + Z.of_nat (length l)) -> m' !! b = m !! b) /\
    (forall k x, l !! k = Some x -> m' !! (a + Z.of_nat k) = Some x).
Proof.
  induction l as [|x l IH]; intros m a Hm; cbn [write_bytes].
  { exists m. split; [done|]. split; [done|]. by intros k y. }
  destruct (Hm 0) as [y Hy]; [simpl; lia|]. rewrite Z.add_0_r in Hy. rewrite Hy.
  destruct (IH (<[a := x]> m) (a + 1)) as (m' & -> & Hout & Hin).
  { intros k Hk. rewrite lookup_insert_ne by lia.
    replace (a + 1 + k) with (a + (k + 1)) by lia. apply Hm. simpl. lia. }
  exists m'. split; [done|]. split.
  - intros b Hb. simpl in Hb. rewrite Hout by lia. apply lookup_insert_ne. lia.
  - intros [|k] z Hk; simpl in Hk.
    + injection Hk as <-. rewrite Z.add_0_r, Hout by lia. apply lookup_insert_eq.
    + rewrite <- (Hin k z Hk). f_equal. lia.
Qed.

Lemma read_bytes_ok m a l :
  (forall k x, l !! k = Some x -> m !! (a + Z.of_nat k) = Some x) ->
  read_bytes m a (Z.of_nat (length l)) = Done l.
Proof.
  intros Hl. unfold read_bytes.
  replace (mapM (fun k => m !! (a + k)) (seqZ 0 (Z.of_nat (length l)))) with (Some l); [done|].
  symmetry. apply mapM_Some_2, Forall2_same_length_lookup_2.
  - rewrite length_seqZ. lia.
  - intros i k x Hi Hx. apply lookup_seqZ in Hi as [-> _]. by apply Hl in Hx.
Qed.

Lemma read_bytes_total m a n :
  0 <= n -> (forall k, 0 <= k < n -> is_Some (m !! (a + k))) ->
  exists l, read_bytes m a n = Done l.
Proof.
  intros Hn Hm. unfold read_bytes.
  destruct (mapM (fun k => m !! (a + k)) (seqZ 0 n)) as [l|] eqn:Hl; [by exists l|].
  exfalso. apply mapM_None in Hl. apply Exists_exists in Hl as (k & Hk & Hnone).
  apply elem_of_seqZ in Hk. destruct (Hm k) as [x Hx]; [lia|congruence].
Qed.

Section access.
Context {X : X86} {XL : X86Laws} {T : Type} {L : Layout T} {LL : LayoutLaws T}.

(** [offset] leaves room for a [T] before the last byte of a present object, whose bytes
    are mapped. *)
Record accessible (self : AllocatedMemory) (w : World) (offset : Z) : Prop := {
  a_present : flags_contains (flags self) (flag_bit PRESENT) = true;
  a_offset : 0 <= offset;
  a_inside : offset + size_of T < size self;
  a_size : size self < u64_bound;
  a_base : canonical (address self).1;
  a_canonical : canonical ((address self).1 + offset);
  a_mapped k : 0 <= k < size self -> is_Some (bytes w !! ((address self).1 + k))
}.

Lemma handle_errors_ok self w offset write :
  accessible self w offset ->
  (write = true -> flags_contains (flags self) (flag_bit WRITABLE) = true) ->
  handle_errors (T := T) self write offset = Done (Ok tt).
Proof.
  intros [Hp Ho Hi Hs _ _ _] Hw. unfold handle_errors. rewrite Hp. cbn [negb].
  assert (write && negb (flags_contains (flags self) (flag_bit WRITABLE)) = false) as ->
    by (destruct write; [by rewrite Hw|done]).
  unfold u64_add. rewrite (proj2 (Z.ltb_lt _ _)) by lia. cbn [obind].
  by rewrite (proj2 (Z.leb_gt _ _)) by lia.
Qed.

(** The world after [v] was written at [offset]: only the bytes of the value changed. *)
Definition written (self : AllocatedMemory) (offset : Z) (v : T) (w w' : World) : Prop :=
  paging_controller w' = paging_controller w /\ tables w' = tables w /\
  (forall b, ~ ((address self).1 + offset <= b < (address self).1 + offset + size_of T) ->
     bytes w' !! b = bytes w !! b) /\
  (forall k x, to_bytes v !! k = Some x -> bytes w' !! ((address self).1 + offset + Z.of_nat k) = Some x).

Lemma ptr_write_wp self offset (v : T) w :
  accessible self w offset -> pointer_ok (T := T) ((address self).1 + offset) = true ->
  wp (ptr_write ((address self).1 + offset) v w) (fun '(_, w') => written self offset v w w').
Proof.
  intros [_ Ho Hi _ _ _ Hm] Hptr. pose proof (to_bytes_length v) as Hlen.
  destruct (write_bytes_ok (to_bytes v) (bytes w) ((address self).1 + offset)) as (m' & Hrun & Hout & Hin).
  { intros k Hk. rewrite <- Z.add_assoc. apply Hm. lia. }
  unfold ptr_write. rewrite Hptr. cbn [negb]. wp_steps. rewrite Hrun. wp_steps.
  split_and!; [done|done| |done]. intros b Hb. apply Hout. by rewrite Hlen.
Qed.

Lemma ptr_read_written self offset (v : T) w w' :
  written self offset v w w' -> pointer_ok (T := T) ((address self).1 + offset) = true ->
  ptr_read ((address self).1 + offset) w' = Done (v, w').
Proof.
  intros (_ & _ & _ & Hin) Hptr. apply wp_eq. unfold ptr_read. rewrite Hptr. cbn [negb]. wp_steps.
  rewrite <- (to_bytes_length v), (read_bytes_ok _ _ (to_bytes v)) by done. wp_steps.
  by rewrite from_to_bytes.
Qed.

Lemma written_accessible self offset v w w' :
  accessible self w offset -> written self offset v w w' -> accessible self w' offset.
Proof.
  intros [] (_ & _ & Hout & Hin). constructor; auto. intros k Hk.
  destruct (decide ((address self).1 + offset <= (address self).1 + k
      < (address self).1 + offset + size_of T)) as [Hb|Hb].
  - rewrite <- (to_bytes_length v) in Hb.
    destruct (lookup_lt_is_Some_2 (to_bytes v) (Z.to_nat (k - offset))) as [x Hx]; [lia|].
    apply Hin in Hx. rewrite Z2Nat.id in Hx by lia.
    replace ((address self).1 + k) with ((address self).1 + offset + (k - offset)) by lia. eauto.
  - rewrite Hout by done. auto.
Qed.

Lemma write_wp self offset (v : T) w :
  accessible self w offset -> flags_contains (flags self) (flag_bit WRITABLE) = true ->
  pointer_ok (T := T) ((address self).1 + offset) = true ->
  wp (write self offset v w) (fun '(r, w') => r = Ok tt /\ written self offset v w w').
Proof.
  intros Ha Hw Hptr. unfold write. wp_step. wp_step.
  rewrite (handle_errors_ok self w) by done. cbn [wp]. wp_step. wp_step.
  rewrite virt_add_canonical by apply Ha. wp_steps.
  eapply wp_mono; [by apply ptr_write_wp|]. intros [[] w'] H. by wp_steps.
Qed.

Lemma read_written self offset (v : T) w w' :
  accessible self w' offset -> written self offset v w w' ->
  pointer_ok (T := T) ((address self).1 + offset) = true ->
  read self offset w' = Done (Ok v, w').
Proof.
  intros Ha Hw Hptr. apply wp_eq. unfold read. wp_step. wp_step.
  rewrite (handle_errors_ok self w') by done. cbn [wp]. wp_step. wp_step.
  rewrite virt_add_canonical by apply Ha. wp_steps.
  rewrite (ptr_read_written self offset v w) by done. by wp_steps.
Qed.

(** An access through a pointer that is not aligned, or null. *)
Lemma bad_pointer_panics self offset (v : T) w :
  accessible self w offset -> pointer_ok (T := T) ((address self).1 + offset) = false ->
  read (T := T) self offset w = Panicked AssertionFailed /\
  (flags_contains (flags self) (flag_bit WRITABLE) = true ->
     write self offset v w = Panicked AssertionFailed).
Proof.
  intros Ha Hptr. split; [|intros Hw]; [unfold read|unfold write];
    unfold bind_ok, bind, lift; rewrite (handle_errors_ok self w) by done; cbn [obind];
    rewrite virt_add_canonical by apply Ha; cbn [obind]; unfold ptr_read, ptr_write; by rewrite Hptr.
Qed.

End access.

(** ** Properties *)

Section properties.
Context {X : X86} {XL : X86Laws} {T : Type} {L : Layout T} {LL : LayoutLaws T}.

(** C26: a value written to a writable object at an aligned address is read back from the same
    offset, in the volatile forms too, and the bytes outside the value are left as they were. At
    an address that is not aligned for the type, where [ptr::write] and [ptr::read] must not be
    used, every access panics: neither the offset nor the object's bounds check for it. *)
Theorem write_read_roundtrip self offset (v : T) w
    (Ha : accessible (T := T) self w offset)
    (Hw : flags_contains (flags self) (flag_bit WRITABLE) = true) :
  if pointer_ok (T := T) ((address self).1 + offset) then
    exists w', write self offset v w = Done (Ok tt, w') /\
      write_volatile self offset v w = Done (Ok tt, w') /\
      read self offset w' = Done (Ok v, w') /\
      read_volatile self offset w' = Done (Ok v, w') /\
      forall b, ~ ((address self).1 + offset <= b < (address self).1 + offset + size_of T) ->
        bytes w' !! b = bytes w !! b
  else
    write self offset v w = Panicked AssertionFailed /\
    write_volatile self offset v w = Panicked AssertionFailed /\
    read (T := T) self offset w = Panicked AssertionFailed /\
    read_volatile (T := T) self offset w = Panicked AssertionFailed.
Proof.
  destruct (pointer_ok _) eqn:Hptr.
  - pose proof (write_wp self offset v w Ha Hw Hptr) as H.
    apply wp_iff in H as ([r w'] & Hrun & -> & Hwr). exists w'.
    pose proof (written_accessible self offset v w w' Ha Hwr) as Ha'.
    pose proof (read_written self offset v w w' Ha' Hwr Hptr) as Hread.
    split_and!; [exact Hrun|exact Hrun|exact Hread|exact Hread|]. apply Hwr.
  - destruct (bad_pointer_panics self offset v w Ha Hptr) as [Hr Hwr]. specialize (Hwr Hw).
    split_and!; [exact Hwr|exact Hwr|exact Hr|exact Hr].
Qed.

(** [write_back] applies the function to the value at the offset: what is then read
    there is the image of what was read before. *)
Lemma write_back_applies self offset (f : T -> T) w
    (Ha : accessible (T := T) self w offset)
    (Hw : flags_contains (flags self) (flag_bit WRITABLE) = true)
    (Hptr : pointer_ok (T := T) ((address self).1 + offset) = true) :
  exists old w', read self offset w = Done (Ok old, w) /\
    write_back self offset f w = Done (Ok tt, w') /\
    write_back_volatile self offset f w = Done (Ok tt, w') /\
    read self offset w' = Done (Ok (f old), w').
Proof.
  pose proof Ha as [_ Ho Hi _ _ _ Hm]. pose proof size_of_nonneg.
  destruct (read_bytes_total (bytes w) ((address self).1 + offset) (size_of T)) as [l Hl];
    [done|intros k Hk; rewrite <- Z.add_assoc; apply Hm; lia|].
  set (old := from_bytes l : T).
  assert (ptr_read ((address self).1 + offset) w = Done (old, w)) as Hold.
  { apply wp_eq. unfold ptr_read. rewrite Hptr. cbn [negb]. wp_steps. rewrite Hl. by wp_steps. }
  pose proof (ptr_write_wp self offset (f old) w Ha Hptr) as H1.
  apply wp_iff in H1 as ([[] w'] & Hrun & Hwr). exists old, w'.
  assert (write_back self offset f w = Done (Ok tt, w')) as Hback.
  { apply wp_eq. unfold write_back. wp_step. wp_step.
    rewrite (handle_errors_ok self w) by done. cbn [wp]. wp_step. wp_step.
    rewrite virt_add_canonical by apply Ha. wp_steps. rewrite Hold. wp_steps. rewrite Hrun. by wp_steps. }
  split_and!; [|exact Hback|exact Hback|].
  - apply wp_eq. unfold read. wp_step. wp_step.
    rewrite (handle_errors_ok self w) by done. cbn [wp]. wp_step. wp_step.
    rewrite virt_add_canonical by apply Ha. wp_steps. rewrite Hold. by wp_steps.
  - apply (read_written self offset (f old) w); [by eapply written_accessible|done|done].
Qed.

(** C38: the bounds check refuses the end of an object: an access that ends exactly at the
    object's last byte fails with [OutOfBounds], as does every access past it, and no access
    that succeeds leaves the object. *)
Theorem access_bounds self offset w
    (Hp : flags_contains (flags self) (flag_bit PRESENT) = true)
    (Ho : 0 <= offset) (H64 : offset + size_of T < u64_bound) :
  (size self <= offset + size_of T ->
     read (T := T) self offset w = Done (Err OutOfBounds, w)) /\
  (forall v w', read (T := T) self offset w = Done (Ok v, w') ->
     offset + size_of T < size self) /\
  (forall v w', write (T := T) self offset v w = Done (Ok tt, w') ->
     offset + size_of T < size self /\ flags_contains (flags self) (flag_bit WRITABLE) = true).
Proof.
  assert (forall wr, handle_errors (T := T) self wr offset
    = if wr && negb (flags_contains (flags self) (flag_bit WRITABLE))
      then Done (Err WriteToReadOnly)
      else if size self <=? offset + size_of T then Done (Err OutOfBounds) else Done (Ok tt)) as He.
  { intros wr. unfold handle_errors. rewrite Hp. cbn [negb]. destruct (wr && _); [done|].
    unfold u64_add. by rewrite (proj2 (Z.ltb_lt _ _)). }
  split; [|split].
  - intros Hs. unfold read, bind_ok, bind, lift. rewrite He. cbn [andb].
    by rewrite (proj2 (Z.leb_le _ _)).
  - intros v w'. unfold read, bind_ok, bind, lift. rewrite He. cbn [andb].
    destruct (Z.leb_spec (size self) (offset + size_of T)); [done|lia].
  - intros v w'. unfold write, bind_ok, bind, lift. rewrite He. cbn [andb].
    destruct (flags_contains (flags self) (flag_bit WRITABLE)); cbn [negb]; [|done].
    destruct (Z.leb_spec (size self) (offset + size_of T)); [done|lia].
Qed.

End properties.

(** ** Allocation and release with the kernel's allocators *)

Section lifecycle.
Context {X : X86} {XL : X86Laws}.

Lemma free_range_never_ok r b :
  wlp (BitmapAllocator.free_range r b) (fun '(res, _) => exists e, res = Err e).
Proof.
  unfold BitmapAllocator.free_range. wp_steps. apply wlp_true. intros [c|e]; wp_steps; [|eauto].
  destruct c; cbn [negb]; wp_steps; [|eauto]. apply wlp_true.
  intros [[[]|e] b']; [done|]. eauto.
Qed.

Lemma virtual_free_never_ok addr pages v :
  wlp (VirtualMemoryAllocator.free addr pages v) (fun '(res, _) => exists e, res = Err e).
Proof.
  unfold VirtualMemoryAllocator.free. wp_step. wp_step. apply wlp_u64_sub. intros _.
  wp_step. wp_step. apply wlp_u64_add. intros _. wp_step.
  eapply wlp_mono; [apply free_range_never_ok|]. by intros [res b].
Qed.

(** A world whose virtual page allocator has nothing to give. *)
Definition no_virtual_pages (w : World) : Prop :=
  forall c, paging_controller w = Some c ->
    exhausted (KernelPagingController.virt_mem_allocator c).

(** The state of the controller keeps its virtual page allocator. *)
Definition keeps_virtual (s s' : KernelPagingController.State) : Prop :=
  KernelPagingController.virt_mem_allocator (KernelPagingController.controller s')
  = KernelPagingController.virt_mem_allocator (KernelPagingController.controller s).

Lemma with_frames_keeps {A} (m : M BitmapFrameAllocator.BitmapFrameAllocator A) s :
  wlp (KernelPagingController.with_frames m s) (fun '(_, s') => keeps_virtual s s').
Proof. unfold KernelPagingController.with_frames. wp_step. apply wlp_true. by intros [a b]. Qed.

Lemma with_pages_fails pages s :
  exhausted (KernelPagingController.virt_mem_allocator (KernelPagingController.controller s)) ->
  0 < pages ->
  wlp (KernelPagingController.with_pages (VirtualMemoryAllocator.alloc_contiguous pages) s)
    (fun '(r, s') => s' = s /\ exists e, r = Err e).
Proof.
  intros He Hp. unfold KernelPagingController.with_pages. wp_step.
  eapply wlp_mono; [by apply exhausted_alloc_wlp|]. intros [r v'] [-> Hr].
  split; [|done]. by destruct s as [[]].
Qed.

(** A virtual page allocator with every page in use reports a small request as exhausted. *)
Lemma with_pages_exhausted pages s :
  exhausted (KernelPagingController.virt_mem_allocator (KernelPagingController.controller s)) ->
  0 < pages <= 16 ->
  pages < BitmapAllocator.size (VirtualMemoryAllocator.bits
    (KernelPagingController.virt_mem_allocator (KernelPagingController.controller s))) ->
  wp (KernelPagingController.with_pages (VirtualMemoryAllocator.alloc_contiguous pages) s)
    (fun '(r, s') => r = Err AllocationError /\ s' = s).
Proof.
  intros [W _ _ Hu] Hp Hs. unfold KernelPagingController.with_pages. wp_step.
  unfold VirtualMemoryAllocator.alloc_contiguous, then_map. wp_step. wp_step.
  rewrite alloc_full_small by done. wp_steps. split; [done|].
  by destruct s as [[t f [v]] tbl].
Qed.

(** Frames [j, j + round8 pages) are free, at or after the search position. *)
Record frames_free (c : KernelPagingController.KernelPagingController) (pages j : Z) : Prop := {
  ff_wf : BitmapProofs.wf (BitmapFrameAllocator.bits (KernelPagingController.frame_allocator c));
  ff_pages : 0 < pages <= 16;
  ff_last : BitmapAllocator.last_allocated
              (BitmapFrameAllocator.bits (KernelPagingController.frame_allocator c)) <= j;
  ff_size : pages < BitmapAllocator.size
              (BitmapFrameAllocator.bits (KernelPagingController.frame_allocator c));
  ff_end : j + round8 pages <= BitmapAllocator.size
              (BitmapFrameAllocator.bits (KernelPagingController.frame_allocator c));
  ff_address : j < 2 ^ 52;
  ff_free i : j <= i < j + round8 pages ->
    used (BitmapFrameAllocator.bits (KernelPagingController.frame_allocator c)) i = false
}.

(** The frames an allocation of the controller takes from a free run. *)
Lemma with_frames_wp s pages j :
  frames_free (KernelPagingController.controller s) pages j ->
  wp (KernelPagingController.with_frames (BitmapFrameAllocator.alloc_contiguous pages) s)
    (fun '(r, s') => exists start b, r = Ok start /\
       s' = KernelPagingController.set_frame_allocator (BitmapFrameAllocator.mk b) s /\
       alloc_post (BitmapFrameAllocator.bits
         (KernelPagingController.frame_allocator (KernelPagingController.controller s)))
         pages (Ok start, b)).
Proof.
  intros [W Hp Hl Hs He H52 Hf]. unfold KernelPagingController.with_frames. wp_step.
  unfold BitmapFrameAllocator.alloc_contiguous, then_map, BitmapFrameAllocator.with_bits.
  wp_step. wp_step. destruct (alloc_finds _ pages j W) as (start & b & -> & Hle & Hpost);
    [done|done|done|done|done|]. cbn [wp].
  pose proof (wf_last _ W). pose proof Hpost as (H1 & _).
  rewrite phys_new_valid by address. wp_steps. by exists start, b.
Qed.

Lemma pages_positive size : 0 < size -> 0 < div_ceil size PAGE_SIZE.
Proof. intros Hs. rewrite PAGE_SIZE_eq. pose proof (div_ceil_spec size 4096). lia. Qed.

Lemma new_wlp size flags w : 0 <= size -> no_virtual_pages w ->
  wlp (new size flags w) (fun '(r, w') => no_virtual_pages w' /\ exists e, r = Err e).
Proof.
  intros Hs Hw. unfold new. destruct (Z.eqb_spec size 0); [by wp_steps; eauto|]. wp_steps.
  unfold return_if_none. destruct (paging_controller w) as [c|] eqn:Hc; [|by wp_steps; eauto].
  pose proof (Hw c Hc) as He. unfold with_controller. wp_step. wp_step.
  eapply wlp_mono; [apply with_frames_keeps|]. intros [r s1] Hk. destruct r as [phys|e].
  - wp_step. eapply wlp_mono; [apply with_pages_fails; [by rewrite Hk|apply pages_positive; lia]|].
    intros [r s2] [-> [e ->]]. simpl. split; [|eauto].
    intros c' [= <-]. by rewrite Hk.
  - simpl. split; [|eauto]. intros c' [= <-]. by rewrite Hk.
Qed.

Lemma reserve_physical_wlp phys size flags w : 0 <= size -> no_virtual_pages w ->
  wlp (reserve_physical phys size flags w) (fun '(r, w') =>
    no_virtual_pages w' /\ exists e, r = Err e).
Proof.
  intros Hs Hw. unfold reserve_physical. destruct (Z.eqb_spec size 0); [by wp_steps; eauto|].
  wp_steps. unfold return_if_none. destruct (paging_controller w) as [c|] eqn:Hc; [|by wp_steps; eauto].
  pose proof (Hw c Hc) as He. unfold with_controller. wp_step. wp_step.
  eapply wlp_mono; [apply with_pages_fails; [done|apply pages_positive; lia]|].
  intros [r s2] [-> [e ->]]. simpl. split; [|eauto]. by intros c' [= <-].
Qed.

(** A small request that finds free frames takes them and fails for want of pages. *)
Lemma new_leaks size flags w c j :
  paging_controller w = Some c -> 0 < size ->
  exhausted (KernelPagingController.virt_mem_allocator c) ->
  div_ceil size PAGE_SIZE < BitmapAllocator.size
    (VirtualMemoryAllocator.bits (KernelPagingController.virt_mem_allocator c)) ->
  frames_free c (div_ceil size PAGE_SIZE) j ->
  wp (new size flags w) (fun '(r, w') => exists start b, r = Err AllocationError /\
    w' = mkWorld (Some (KernelPagingController.mk (KernelPagingController.rec_page_table c)
           (BitmapFrameAllocator.mk b) (KernelPagingController.virt_mem_allocator c)))
           (tables w) (bytes w) /\
    alloc_post (BitmapFrameAllocator.bits (KernelPagingController.frame_allocator c))
      (div_ceil size PAGE_SIZE) (Ok start, b)).
Proof.
  intros Hc Hs Hv Hn Hf. pose proof (ff_pages _ _ _ Hf) as Hp.
  unfold new. rewrite (proj2 (Z.eqb_neq _ _)) by lia. wp_steps. unfold return_if_none. rewrite Hc.
  unfold with_controller. wp_step. wp_step.
  eapply wp_mono; [by apply (with_frames_wp _ _ j)|]. intros [r s] (start & b & -> & -> & Hpost).
  wp_step. eapply wp_mono; [by apply with_pages_exhausted|]. intros [r s] [-> ->].
  simpl. by exists start, b.
Qed.

(** Which frames a grant marks. *)
Lemma grant_marks frames n start b :
  0 <= BitmapAllocator.last_allocated frames -> alloc_post frames n (Ok start, b) ->
  (forall i, start <= i < start + n -> used frames i = false /\ used b i = true) /\
  (forall i, 0 <= i < BitmapAllocator.size b -> ~ (start <= i < start + n) -> used b i = used frames i).
Proof.
  intros Hl (Hlast & Hend & Hfree & _ & _ & _ & Hsz & _ & Hu). split.
  - intros i Hi. split; [by apply Hfree|]. rewrite Hu by lia.
    rewrite (proj2 (Z.leb_le _ _)), (proj2 (Z.ltb_lt _ _)) by lia. apply orb_true_r.
  - intros i Hi Hout. rewrite Hsz in Hi. rewrite Hu by lia.
    destruct (Z.leb_spec start i), (Z.ltb_spec i (start + n)); try lia; apply orb_false_r.
Qed.

Lemma drop_wlp self w : wlp (drop self w) (fun _ => False).
Proof.
  unfold drop. wp_steps. unfold unwrap. destruct (paging_controller w) as [c|]; [|done].
  cbn [wlp]. unfold with_controller. wp_step. wp_step. apply wlp_true. intros [[] s1].
  wp_step. unfold or_panic at 1. wp_step. unfold KernelPagingController.with_pages. wp_step.
  eapply wlp_mono; [apply virtual_free_never_ok|]. by intros [res v'] [e ->].
Qed.

(** ** Properties *)

(** No memory object is ever created: while the virtual page allocator is as the kernel
    creates it, every page in use, [new] and [reserve_physical] return errors (or panic),
    for every size, and leave the virtual page allocator as it is, so that the next request
    fails too. *)
Lemma no_object_is_created size flags phys w
    (Hs : 0 <= size) (Hw : no_virtual_pages w) :
  (forall r w', new size flags w = Done (r, w') ->
     no_virtual_pages w' /\ exists e, r = Err e) /\
  (forall r w', reserve_physical phys size flags w = Done (r, w') ->
     no_virtual_pages w' /\ exists e, r = Err e).
Proof.
  pose proof (new_wlp size flags w Hs Hw) as H1. rewrite wlp_iff in H1.
  pose proof (reserve_physical_wlp phys size flags w Hs Hw) as H2. rewrite wlp_iff in H2.
  split; intros r w' Hrun; [by apply (H1 (r, w'))|by apply (H2 (r, w'))].
Qed.

(** An allocation that fails for want of virtual pages keeps the frames it took: with
    the virtual page allocator exhausted and a run of free frames for the request, [new]
    returns [AllocationError], the frames it found were free and are in use afterwards, and
    no object refers to them; the page tables and the other frames are as they were. *)
Lemma failed_creation_leaks_frames size flags w c j
    (Hc : paging_controller w = Some c) (Hs : 0 < size)
    (Hv : exhausted (KernelPagingController.virt_mem_allocator c))
    (Hn : div_ceil size PAGE_SIZE < BitmapAllocator.size
            (VirtualMemoryAllocator.bits (KernelPagingController.virt_mem_allocator c)))
    (Hf : frames_free c (div_ceil size PAGE_SIZE) j) :
  exists start b, new size flags w = Done (Err AllocationError, mkWorld
      (Some (KernelPagingController.mk (KernelPagingController.rec_page_table c)
         (BitmapFrameAllocator.mk b) (KernelPagingController.virt_mem_allocator c)))
      (tables w) (bytes w)) /\
    (forall i, start <= i < start + div_ceil size PAGE_SIZE ->
       used (BitmapFrameAllocator.bits (KernelPagingController.frame_allocator c)) i = false /\
       used b i = true) /\
    (forall i, 0 <= i < BitmapAllocator.size b -> ~ (start <= i < start + div_ceil size PAGE_SIZE) ->
       used b i = used (BitmapFrameAllocator.bits (KernelPagingController.frame_allocator c)) i).
Proof.
  pose proof (wf_last _ (ff_wf _ _ _ Hf)) as Hl.
  pose proof (new_leaks size flags w c j Hc Hs Hv Hn Hf) as H1.
  apply wp_iff in H1 as ([r w'] & Hrun & start & b & -> & -> & Hpost). exists start, b.
  split; [done|]. by apply grant_marks.
Qed.

(** The object's pages lie in the range of the virtual page allocator, whose bitmap is well
    formed, and the page table is a tree. *)
Record droppable (self : AllocatedMemory) (c : KernelPagingController.KernelPagingController) (w : World) : Prop := {
  dr_controller : paging_controller w = Some c;
  dr_tables : PageTableProofs.wf (KernelPagingController.rec_page_table c) (tables w);
  dr_bitmap : BitmapProofs.wf (VirtualMemoryAllocator.bits (KernelPagingController.virt_mem_allocator c));
  dr_size : 0 <= size self < 2 ^ 40;
  dr_pages : PageTableProofs.mappable (address self).1 (pages self);
  dr_start : PAGE_ALLOCATOR_START <= (address self).1;
  dr_end : ((address self).1 - PAGE_ALLOCATOR_START) / PAGE_SIZE + pages self
           <= BitmapAllocator.size (VirtualMemoryAllocator.bits (KernelPagingController.virt_mem_allocator c))
}.

(** The pages of an object in the bitmap of virtual pages. *)
Definition page_range (self : AllocatedMemory) : Z * Z :=
  let first := ((address self).1 - PAGE_ALLOCATOR_START) / PAGE_SIZE in (first, first + pages self).

Lemma pages_bounds self : 0 <= size self < 2 ^ 40 -> 0 <= pages self < 2 ^ 40.
Proof.
  intros Hs. unfold pages. rewrite PAGE_SIZE_eq. pose proof (div_ceil_spec (size self) 4096). lia.
Qed.

Lemma virtual_free_result self c w :
  droppable self c w ->
  let v := KernelPagingController.virt_mem_allocator c in
  VirtualMemoryAllocator.free (address self).1 (pages self) v
  = if all_bits (VirtualMemoryAllocator.bits v) (page_range self) false then Panicked NotImplemented
    else Done (Err DoubleFree, v).
Proof.
  intros [_ _ Hb Hs _ Hst He] v. pose proof (pages_bounds self Hs). pose proof (wf_size_bound _ Hb).
  assert (0 <= ((address self).1 - PAGE_ALLOCATOR_START) / PAGE_SIZE) by (apply Z.div_pos; [lia|by rewrite PAGE_SIZE_eq]).
  unfold VirtualMemoryAllocator.free, bind, lift, u64_sub. rewrite (proj2 (Z.leb_le _ _)) by done. cbn [obind].
  unfold u64_add. rewrite (proj2 (Z.ltb_lt _ _)) by (unfold v in *; lia). cbn [obind]. unfold zoom.
  rewrite free_range_result; [|done|simpl; lia|exact He]. fold (page_range self).
  by destruct (all_bits _ _ _), v.
Qed.

(** What [drop] does with the controller the static holds. *)
Lemma drop_result self c w :
  droppable self c w ->
  exists j, first_failing (fun k => PageTableProofs.leaf (KernelPagingController.rec_page_table c) (tables w)
      (nth_page (address self).1 k) <> None) (pages self) j /\
    drop self w = Panicked (if (j =? pages self) && all_bits (VirtualMemoryAllocator.bits
      (KernelPagingController.virt_mem_allocator c)) (page_range self) false
      then NotImplemented else ExplicitPanic).
Proof.
  intros Hd. pose proof Hd as [Hc Ht _ Hs Hp _ _].
  set (s := KernelPagingController.mkState c (tables w)).
  pose proof (unmap_block_existing (KernelPagingController.rec_page_table c) (pages self) (address self).1
    (KernelPagingController.env s) Ht (pages_bounds self Hs) Hp) as H.
  apply wp_iff in H as ([r env'] & Hrun & j & Hj & -> & _). exists j. split; [exact Hj|].
  unfold drop. apply bind_panics. unfold get. cbn [wp]. rewrite Hc. cbn [unwrap].
  apply bind_panics, wp_lift. cbn [wp]. unfold with_controller, zoom at 1. fold s.
  set (inner := bind _ _). enough (inner s = Panicked (if (j =? pages self) && all_bits
    (VirtualMemoryAllocator.bits (KernelPagingController.virt_mem_allocator c)) (page_range self) false
    then NotImplemented else ExplicitPanic)) as -> by done.
  unfold inner, or_panic at 1, KernelPagingController.with_page_table, bind, get, zoom. cbn [obind].
  change (KernelPagingController.controller s) with c. rewrite Hrun. destruct (j =? pages self); [|done].
  cbn [obind andb ret]. unfold or_panic at 1, KernelPagingController.with_pages, bind, zoom.
  change (KernelPagingController.virt_mem_allocator
    (KernelPagingController.controller (KernelPagingController.set_env env' s)))
    with (KernelPagingController.virt_mem_allocator c).
  rewrite (virtual_free_result self c w Hd). by destruct (all_bits _ _ _).
Qed.

(** C37: dropping a memory object panics. Without a controller the [expect] panics; with one whose
    tables and bitmap are in order, and an object in the range of the virtual page allocator,
    [todo!()] is reached when all its pages are mapped and none is marked in the bitmap, and in
    every other case the error of [unmap_contiguous] or of [free] ([DoubleFree], when a page is
    marked, as the pages of an object should be) is raised as a panic. In no state does a drop
    complete. *)
Theorem drop_never_completes self w :
  (paging_controller w = None -> drop self w = Panicked UnwrapFailed) /\
  (forall c, droppable self c w ->
     let mapped := forall k, 0 <= k < pages self -> PageTableProofs.leaf (KernelPagingController.rec_page_table c)
       (tables w) (nth_page (address self).1 k) <> None in
     let unmarked := all_bits (VirtualMemoryAllocator.bits (KernelPagingController.virt_mem_allocator c))
       (page_range self) false = true in
     (mapped /\ unmarked -> drop self w = Panicked NotImplemented) /\
     (~ (mapped /\ unmarked) -> drop self w = Panicked ExplicitPanic)) /\
  (forall w', drop self w <> Done (tt, w')).
Proof.
  split; [|split].
  - intros Hn. unfold drop, bind, get, lift. cbn [obind]. by rewrite Hn.
  - intros c Hd mapped unmarked. destruct (drop_result self c w Hd) as (j & (Hj & Hbefore & Hat) & ->).
    unfold mapped, unmarked. destruct (Z.eqb_spec j (pages self)) as [->|Hne]; cbn [andb].
    + destruct (all_bits _ _ _); split; try done; [intros H; by destruct H|by intros []].
    + split; [|done]. intros [Hm _]. destruct (Hat ltac:(lia)). apply Hm. lia.
  - intros w' Hrun. pose proof (drop_wlp self w) as H. rewrite wlp_iff in H. by eapply H.
Qed.

End lifecycle.

(** *** Instances *)

#[local] Existing Instances X86Model.x86 X86Model.x86_laws.

(** A byte in memory, and a [u16], little endian. *)
#[local] Instance byte_layout : Layout Z :=
  { size_of := 1; align_of := 1; to_bytes b := [b]; from_bytes l := default 0 (head l) }.
#[local] Instance byte_laws : LayoutLaws Z.
Proof. by split. Qed.

Definition is_u16 (n : Z) : bool := (0 <=? n) && (n <? 65536).
Record u16 : Type := U16 { u16_value : Z; u16_bound : Is_true (is_u16 u16_value) }.
Lemma u16_mod n : Is_true (is_u16 (n mod 65536)).
Proof. pose proof (Z.mod_pos_bound n 65536). unfold is_u16. apply Is_true_true, andb_true_intro. lia. Qed.
Definition u16_of (n : Z) : u16 := U16 (n mod 65536) (u16_mod n).

Lemma u16_eq a b : u16_value a = u16_value b -> a = b.
Proof. destruct a as [a Ha], b as [b Hb]. simpl. intros ->. f_equal. apply proof_irrel. Qed.

#[local] Instance u16_layout : Layout u16 := {
  size_of := 2; align_of := 2;
  to_bytes n := [u16_value n mod 256; u16_value n / 256];
  from_bytes l := match l with [x; y] => u16_of (x + 256 * y) | _ => u16_of 0 end
}.
#[local] Instance u16_laws : LayoutLaws u16.
Proof.
  split; [done|done|done|]. intros [n Hn]. apply u16_eq. cbn. apply Is_true_true, andb_prop in Hn.
  pose proof (Z.div_mod n 256). rewrite Z.mod_small; lia.
Qed.

Definition example_object : AllocatedMemory := mk (0x400000, 0x200000) 8 3 true.
Definition example_world : World :=
  mkWorld None ∅ (list_to_map ((fun k => (0x400000 + k, k)) <$> seqZ 0 8)).

Lemma example_accessible {T} `{LayoutLaws T} offset :
  0 <= offset -> offset + size_of T < 8 -> accessible (T := T) example_object example_world offset.
Proof.
  intros Ho Hs. pose proof size_of_nonneg. constructor; try done; [left; by vm_compute|left; simpl; lia|].
  intros k Hk. simpl in Hk.
  assert (Forall (fun k => is_Some (bytes example_world !! ((address example_object).1 + k))) (seqZ 0 8)) as Hall
    by (apply (bool_decide_unpack _); vm_compute; exact I).
  rewrite Forall_forall in Hall. apply Hall, elem_of_seqZ. lia.
Qed.

(** A [u16] at offset 4, and one at offset 5, where it is not aligned. *)
Lemma write_read_roundtrip_witness :
  (exists w', write example_object 4 (u16_of 777) example_world = Done (Ok tt, w') /\
     read example_object 4 w' = Done (Ok (u16_of 777), w')) /\
  write example_object 5 (u16_of 777) example_world = Panicked AssertionFailed.
Proof.
  split.
  - destruct (write_read_roundtrip example_object 4 (u16_of 777) example_world)
      as (w' & H & _ & Hr & _); [by apply example_accessible|reflexivity|].
    exists w'. split; [exact H|exact Hr].
  - destruct (write_read_roundtrip example_object 5 (u16_of 777) example_world)
      as [H _]; [by apply example_accessible|reflexivity|]. exact H.
Defined.

Lemma write_back_applies_witness :
  exists old w', read example_object 5 example_world = Done (Ok old, example_world) /\
    write_back example_object 5 (Z.mul 2) example_world = Done (Ok tt, w') /\
    read example_object 5 w' = Done (Ok (2 * old), w').
Proof.
  destruct (write_back_applies example_object 5 (Z.mul 2) example_world)
    as (old & w' & H & H1 & _ & H2); [by apply example_accessible|reflexivity|reflexivity|].
  exists old, w'. split; [exact H|]. split; [exact H1|exact H2].
Defined.

Lemma access_bounds_witness :
  read (T := Z) example_object 7 example_world = Done (Err OutOfBounds, example_world).
Proof.
  destruct (access_bounds (T := Z) example_object 7 example_world) as [H _];
    [reflexivity|lia|by vm_compute|].
  apply H. simpl. lia.
Defined.

(** A world in which the controller has a full virtual page bitmap of 64 bytes. *)
Definition example_controller : KernelPagingController.KernelPagingController :=
  KernelPagingController.mk example_table
    (BitmapFrameAllocator.mk (BitmapAllocator.mk 0 (replicate 64 0) 512 0))
    (VirtualMemoryAllocator.mk (full 64)).

Lemma example_no_pages : no_virtual_pages (mkWorld (Some example_controller) ∅ ∅).
Proof.
  intros c [= <-]. constructor; simpl; [by apply full_wf|lia|lia|].
  intros i Hi. unfold used, full. cbn [BitmapAllocator.bitmap].
  apply (filled_bits 64 true). lia.
Qed.

Lemma no_object_is_created_witness :
  exists r w', new 4096 flags_rw (mkWorld (Some example_controller) ∅ ∅) = Done (r, w') /\
    no_virtual_pages w' /\ exists e, r = Err e.
Proof.
  destruct (no_object_is_created 4096 flags_rw 0 (mkWorld (Some example_controller) ∅ ∅)) as [H _];
    [lia|apply example_no_pages|].
  assert (match new 4096 flags_rw (mkWorld (Some example_controller) ∅ ∅) with
          | Done _ => true | _ => false end = true) as Hdone by (vm_compute; reflexivity).
  destruct (new 4096 flags_rw _) as [[r w']| | |] eqn:Hrun; [|discriminate Hdone..].
  exists r, w'. split; [reflexivity|]. exact (H r w' eq_refl).
Defined.

Lemma example_frames_free : frames_free example_controller 1 0.
Proof.
  constructor; simpl; try lia; [|by vm_compute|].
  - constructor; simpl; [|done|done|done]. by apply (bool_decide_unpack _).
  - intros i Hi. unfold used. cbn [BitmapAllocator.bitmap].
    apply (filled_bits 64 false). change (round8 1) with 8 in Hi. lia.
Qed.

Lemma failed_creation_leaks_frames_witness :
  exists start b, new 4096 flags_rw (mkWorld (Some example_controller) ∅ ∅)
    = Done (Err AllocationError, mkWorld (Some (KernelPagingController.mk example_table
        (BitmapFrameAllocator.mk b) (VirtualMemoryAllocator.mk (full 64)))) ∅ ∅) /\
    forall i, start <= i < start + div_ceil 4096 PAGE_SIZE -> used b i = true.
Proof.
  destruct (failed_creation_leaks_frames 4096 flags_rw (mkWorld (Some example_controller) ∅ ∅)
    example_controller 0) as (start & b & Hrun & Hu & _);
    [reflexivity|lia|apply example_no_pages; reflexivity|by vm_compute|exact example_frames_free|].
  exists start, b. split; [exact Hrun|]. intros i Hi. apply Hu, Hi.
Defined.

(** An object of one page, the first of the range, which is marked as in use. *)
Definition example_page : AllocatedMemory := mk (PAGE_ALLOCATOR_START, 0x200000) 4096 3 true.
Definition page_controller : KernelPagingController.KernelPagingController :=
  KernelPagingController.mk PageTableTheorems.boot.1 (BitmapFrameAllocator.mk (BitmapAllocator.mk 0 [] 0 0))
    (VirtualMemoryAllocator.mk (full 64)).
Definition page_world : World := mkWorld (Some page_controller) second_mapped ∅.

Lemma example_droppable : droppable example_page page_controller page_world.
Proof.
  constructor.
  - reflexivity.
  - apply second_mapped_ok.
  - by apply full_wf.
  - simpl. lia.
  - split; [right; by vm_compute|]. intros k Hk.
    assert (k = 0) as -> by (change (pages example_page) with 1 in Hk; lia).
    split; [right; by vm_compute|by vm_compute].
  - simpl. lia.
  - by vm_compute.
Qed.

Lemma drop_never_completes_witness : drop example_page page_world = Panicked ExplicitPanic.
Proof.
  destruct (drop_never_completes example_page page_world) as (_ & H & _).
  apply (H page_controller example_droppable). intros [_ Hu]. vm_compute in Hu. discriminate Hu.
Defined.
