(* ===== verification/AllocatedMemoryReach.v ===== *)
(** The life of memory objects as a state machine over the kernel's controller: with the
    virtual page allocator the kernel creates, requests only take frames. *)
From S2P Require Import Prelude X86 Memory FrameAllocation Bitmap BitmapProofs BitmapReach PageTable.
From S2P Require Import Allocators AllocatorsProofs PagingController AllocatedMemory AllocatedMemoryProofs.
Import AllocatedMemory.

Section reach.
Context {X : X86} {XL : X86Laws}.

(** One operation that creates or ends an object and returns. *)
Inductive lifecycle (w w' : World) : Prop :=
| life_new size flags r : 0 <= size -> new size flags w = Done (r, w') -> lifecycle w w'
| life_reserve phys size flags r :
    0 <= size -> reserve_physical phys size flags w = Done (r, w') -> lifecycle w w'
| life_drop self : drop self w = Done (tt, w') -> lifecycle w w'.

(** The requests are served by [c], whose pages are all in use. *)
Context (c : KernelPagingController.KernelPagingController) (view : gmap Z PageTable) (bs : gmap Z Z).
Context (Hpages : exhausted (KernelPagingController.virt_mem_allocator c)).

(** The controller with [b] as the bitmap of its frames, and the world with it. *)
Definition with_bitmap (b : BitmapAllocator.BitmapAllocator) : KernelPagingController.KernelPagingController :=
  KernelPagingController.mk (KernelPagingController.rec_page_table c) (BitmapFrameAllocator.mk b)
    (KernelPagingController.virt_mem_allocator c).
Definition world_with (b : BitmapAllocator.BitmapAllocator) : World :=
  mkWorld (Some (with_bitmap b)) view bs.

Lemma with_bitmap_self :
  with_bitmap (BitmapFrameAllocator.bits (KernelPagingController.frame_allocator c)) = c.
Proof. unfold with_bitmap. by destruct c as [? [] ?]. Qed.

(** What an operation leaves of the world with [b]. *)
Definition takes_frames (b : BitmapAllocator.BitmapAllocator) (w : World) : Prop :=
  exists b', w = world_with b' /\ preserves b b'.

Lemma takes_nothing b : reachable_wf b -> takes_frames b (world_with b).
Proof. intros Hb. exists b. split; [done|]. by apply preserves_refl. Qed.

Lemma frames_preserve pages b :
  reachable_wf b -> 0 <= pages ->
  wlp (KernelPagingController.with_frames (BitmapFrameAllocator.alloc_contiguous pages)
        (KernelPagingController.mkState (with_bitmap b) view))
    (fun '(_, s) => exists b', s = KernelPagingController.mkState (with_bitmap b') view /\ preserves b b').
Proof.
  intros Hb Hp. unfold KernelPagingController.with_frames. wp_step.
  unfold BitmapFrameAllocator.alloc_contiguous, then_map, BitmapFrameAllocator.with_bits.
  wp_step. wp_step. eapply wlp_mono; [by apply alloc_preserves|]. intros [r b'] Hb'.
  destruct r as [start|e]; wp_steps; [|by exists b']. apply wlp_true. intros phys. wp_steps. by exists b'.
Qed.

Lemma new_takes_frames size flags b :
  reachable_wf b -> 0 <= size ->
  wlp (new size flags (world_with b)) (fun '(r, w) => (exists e, r = Err e) /\ takes_frames b w).
Proof.
  intros Hb Hs. unfold new. destruct (Z.eqb_spec size 0).
  { wp_steps. split; [by eexists|]. by apply takes_nothing. }
  wp_steps. cbn [paging_controller world_with return_if_none]. unfold with_controller. wp_step. wp_step.
  pose proof (pages_positive size ltac:(lia)).
  eapply wlp_mono; [apply frames_preserve; [done|lia]|]. intros [r s] (b' & -> & Hb').
  destruct r as [phys|e]; [|split; [by eexists|by exists b']].
  wp_step. eapply wlp_mono; [by apply with_pages_fails|]. intros [r s] [-> [e ->]].
  split; [by eexists|by exists b'].
Qed.

Lemma reserve_takes_nothing phys size flags b :
  reachable_wf b -> 0 <= size ->
  wlp (reserve_physical phys size flags (world_with b)) (fun '(r, w) =>
    (exists e, r = Err e) /\ takes_frames b w).
Proof.
  intros Hb Hs. unfold reserve_physical. destruct (Z.eqb_spec size 0).
  { wp_steps. split; [by eexists|]. by apply takes_nothing. }
  wp_steps. cbn [paging_controller world_with return_if_none]. unfold with_controller. wp_step. wp_step.
  eapply wlp_mono; [by apply with_pages_fails, pages_positive; [|lia]|]. intros [r s] [-> [e ->]].
  split; [by eexists|]. by apply takes_nothing.
Qed.

Lemma lifecycle_takes_frames b w :
  reachable_wf b -> lifecycle (world_with b) w -> takes_frames b w.
Proof.
  intros Hb [size flags r Hs Hrun|phys size flags r Hs Hrun|self Hrun].
  - pose proof (new_takes_frames size flags b Hb Hs) as H. rewrite Hrun in H. apply H.
  - pose proof (reserve_takes_nothing phys size flags b Hb Hs) as H. rewrite Hrun in H. apply H.
  - pose proof (drop_wlp self (world_with b)) as H. by rewrite Hrun in H.
Qed.

Lemma lifecycles_take_frames b w :
  reachable_wf b -> rtc lifecycle (world_with b) w -> takes_frames b w.
Proof.
  intros Hb Hsteps. remember (world_with b) as w0 eqn:Hw0. revert b Hb Hw0.
  induction Hsteps as [w|w1 w2 w3 Hstep _ IH]; intros b Hb ->; [by apply takes_nothing|].
  destruct (lifecycle_takes_frames b w2 Hb Hstep) as (b2 & -> & Hb2 & He2).
  destruct (IH b2 Hb2 eq_refl) as (b3 & -> & Hb3 & He3).
  exists b3. split; [done|]. split; [done|]. by etrans.
Qed.

(** A small request that finds free frames loses them. *)
Lemma new_loses b size flags j :
  reachable_wf b -> 0 < size -> frames_free (with_bitmap b) (div_ceil size PAGE_SIZE) j ->
  BitmapAllocator.size b <= BitmapAllocator.size
    (VirtualMemoryAllocator.bits (KernelPagingController.virt_mem_allocator c)) ->
  exists start taken, new size flags (world_with b) = Done (Err AllocationError, world_with taken) /\
    forall i, start <= i < start + div_ceil size PAGE_SIZE ->
      0 <= i < BitmapAllocator.size b /\ used b i = false /\ used taken i = true.
Proof.
  intros Hb Hs Hf Hv. pose proof (wf_last _ (rw_wf _ Hb)) as Hl.
  assert (div_ceil size PAGE_SIZE < BitmapAllocator.size b) as Hn by exact (ff_size _ _ _ Hf).
  pose proof (new_leaks size flags (world_with b) (with_bitmap b) j eq_refl Hs Hpages
    ltac:(cbn [with_bitmap KernelPagingController.virt_mem_allocator]; lia) Hf) as H.
  destruct (proj1 (wp_iff _ _) H) as ([r w'] & Hrun & start & taken & -> & -> & Hpost).
  exists start, taken. split; [exact Hrun|]. intros i Hi.
  destruct (grant_marks b _ _ _ Hl Hpost) as [Hmarks _]. destruct Hpost as (Hst & Hend & _).
  cbn [with_bitmap KernelPagingController.frame_allocator BitmapFrameAllocator.bits] in Hst, Hend.
  split; [lia|]. by apply Hmarks.
Qed.

End reach.
