(* ===== verification/Interrupts.v ===== *)
(** The interrupt descriptor table ([interrupts/mod.rs]) and its handlers
    ([interrupts/exceptions.rs]). *)
From Stdlib Require Import Ascii String.
From S2P Require Import Prelude Format.

(** The exceptions the table of the [x86_64] crate has a field for. *)
Inductive exception : Type :=
| divide_error | debug | non_maskable_interrupt | breakpoint | overflow | bound_range_exceeded
| invalid_opcode | device_not_available | double_fault | invalid_tss | segment_not_present
| stack_segment_fault | general_protection_fault | page_fault | x87_floating_point
| alignment_check | machine_check | simd_floating_point | virtualization
| cp_protection_exception | hv_injection_exception | vmm_communication_exception
| security_exception.

#[export] Instance exception_eq_dec : EqDecision exception.
Proof. solve_decision. Defined.

(** The handlers. *)
Inductive handler : Type :=
| division_error_handler | debug_handler | nmi_handler | breakpoint_handler | overflow_handler
| bound_range_exceeded_handler | invalid_opcode_handler | device_not_available_handler
| double_fault_handler | invalid_tss_handler | segment_not_present_handler
| stack_segment_fault_handler | general_protection_fault_handler | page_fault_handler
| x87_floating_point_exception_handler | alignment_check_handler | machine_check_handler
| simd_floating_point_exception_handler | virtualization_exception_handler
| control_protection_exception_handler | hypervisor_injection_exception_handler
| vmm_communication_exception_handler | security_exception_handler.

#[export] Instance handler_eq_dec : EqDecision handler.
Proof. solve_decision. Defined.

Definition DOUBLE_FAULT_IST_INDEX : Z := 0.

(** The vectors the two interrupt controllers are remapped to, past the 32 exceptions. *)
Definition PIC_1_OFFSET : Z := 32.
Definition PIC_2_OFFSET : Z := PIC_1_OFFSET + 8.

(** An entry of the table: its handler and its interrupt stack, if one is set. *)
Record idt_entry : Type := { entry_handler : handler; stack_index : option Z }.

Definition set_handler_fn (h : handler) : option idt_entry :=
  Some {| entry_handler := h; stack_index := None |}.
Definition set_stack_index (i : Z) (e : option idt_entry) : option idt_entry :=
  (fun e => {| entry_handler := entry_handler e; stack_index := Some i |}) <$> e.

(** [IDT]; [None] is an entry that is not present. *)
Definition IDT (e : exception) : option idt_entry :=
  match e with
  | divide_error => set_handler_fn division_error_handler
  | debug => set_handler_fn debug_handler
  | non_maskable_interrupt => set_handler_fn nmi_handler
  | breakpoint => set_handler_fn breakpoint_handler
  | overflow => set_handler_fn overflow_handler
  | bound_range_exceeded => set_handler_fn bound_range_exceeded_handler
  | invalid_opcode => set_handler_fn invalid_opcode_handler
  | device_not_available => set_handler_fn device_not_available_handler
  | double_fault => set_stack_index DOUBLE_FAULT_IST_INDEX (set_handler_fn double_fault_handler)
  | invalid_tss => set_handler_fn invalid_tss_handler
  | segment_not_present => set_handler_fn segment_not_present_handler
  | stack_segment_fault => set_handler_fn stack_segment_fault_handler
  | general_protection_fault => set_handler_fn general_protection_fault_handler
  | page_fault => set_handler_fn page_fault_handler
  | x87_floating_point => set_handler_fn x87_floating_point_exception_handler
  | alignment_check => set_handler_fn alignment_check_handler
  | machine_check => None
  | simd_floating_point => set_handler_fn simd_floating_point_exception_handler
  | virtualization => set_handler_fn virtualization_exception_handler
  | cp_protection_exception => set_handler_fn control_protection_exception_handler
  | hv_injection_exception => set_handler_fn hypervisor_injection_exception_handler
  | vmm_communication_exception => set_handler_fn vmm_communication_exception_handler
  | security_exception => set_handler_fn security_exception_handler
  end.

(** What a handler's parameters give it: the formatted stack frame, the error code, and CR2. *)
Record ExceptionInfo : Type := {
  stack_frame : list Z;
  error_code : Z;
  cr2 : Z
}.

(** The message of the [panic!] that ends every handler; [None] when the
    [SelectorErrorCode::new(error_code).unwrap()] among its arguments panics first. The
    formats of the stack frame, the selectors, the page fault codes and the addresses are those
    of the [x86_64] crate. *)
Section handlers.
Context (selector_error_code : Z -> option (list Z))   (* [SelectorErrorCode::new], formatted *)
  (page_fault_error_code virt_addr : Z -> list Z).

Definition panic_message (h : handler) (i : ExceptionInfo) : option (list Z) :=
  let frame := stack_frame i in
  let newline := [10] in
  let plain (title : list Z) := Some (title ++ newline ++ frame) in
  let selector (title separator : list Z) :=
    (fun code => title ++ newline ++ frame ++ newline ++ separator ++ code)
      <$> selector_error_code (error_code i) in
  let coded (title : list Z) :=
    Some (title ++ newline ++ frame ++ newline ++ chars " error code: " ++ decimal (error_code i)) in
  match h with
  | division_error_handler => plain (chars "DIVISION ERROR: ")
  | debug_handler => plain (chars "DEBUG: ")
  | nmi_handler => plain (chars "NON-MASKABLE INTERRUPT: ")
  | breakpoint_handler => plain (chars "BREAKPOINT: ")
  | overflow_handler => plain (chars "OVERFLOW: ")
  | bound_range_exceeded_handler => plain (chars "BOUND RANGE EXCEEDED: ")
  | invalid_opcode_handler => plain (chars "INVALID OPCODE: ")
  | device_not_available_handler => plain (chars "DEVICE_NOT_AVAILABLE: ")
  | double_fault_handler => plain (chars "!DOUBLE FAULT: ")
  | invalid_tss_handler => selector (chars "INVALID TASK-STATE SEGMENT: ") (chars " ")
  | segment_not_present_handler => selector (chars "SEGMENT NOT PRESENT: ") (chars " ")
  | stack_segment_fault_handler => selector (chars "STACK-SEGMENT FAULT: ") (chars " ")
  | general_protection_fault_handler => selector (chars "GENERAL PROTECTION FAULT: ") []
  | page_fault_handler =>
      Some (chars "PAGE FAULT " ++ newline ++ chars "Accessed Address: " ++ virt_addr (cr2 i)
        ++ newline ++ chars "Error Code: " ++ page_fault_error_code (error_code i)
        ++ newline ++ frame)
  | x87_floating_point_exception_handler => plain (chars "X87 FLOATING-POINT EXCEPTION: ")
  | alignment_check_handler => coded (chars "ALIGNMENT CHECK: ")
  | machine_check_handler => plain (chars "MACHINE CHECK: ")
  | simd_floating_point_exception_handler => plain (chars "SIMD FLOATING-POINT EXCEPTION: ")
  | virtualization_exception_handler => plain (chars "VIRTUALIZATION EXCEPTION: ")
  | control_protection_exception_handler => coded (chars "CONTROL PROTECTION EXCEPTION: ")
  | hypervisor_injection_exception_handler => plain (chars "HYPERVISOR INJECTION EXCEPTION: ")
  | vmm_communication_exception_handler => coded (chars "VMM COMMUNICATION EXCEPTION: ")
  | security_exception_handler => coded (chars "SECURITY EXCEPTION: ")
  end.
End handlers.

(** [init_interrupts]; what it would do is commented out. *)
Definition init_interrupts {S} : M S (result unit unit) := ret (Ok tt).
