(* ===== verification/Gdt.v ===== *)
(** The global descriptor table and the task state segment ([memory/gdt.rs]).

    The tables and their selectors are types of the [x86_64] crate and parameters of the
    model, as in [X86]; [SegmentationModel] is one implementation. *)
From S2P Require Import Prelude X86 Memory Interrupts.

(** ** Types and functions of the crate *)

Class Segmentation : Type := {
  (** [TaskStateSegment]; [interrupt_stack_table] is an array of 7 addresses. *)
  TaskStateSegment : Type;
  tss_new : TaskStateSegment;
  interrupt_stack_table : TaskStateSegment -> Z -> Z;
  set_interrupt_stack : TaskStateSegment -> Z -> Z -> TaskStateSegment;

  (** [Descriptor], and what the processor finds in one. *)
  Descriptor : Type;
  kernel_code_segment : Descriptor;
  tss_segment : TaskStateSegment -> Descriptor;
  descriptor_is_kernel_code : Descriptor -> bool;
  descriptor_tss : Descriptor -> option TaskStateSegment;

  (** [GlobalDescriptorTable] and [SegmentSelector]; [gdt_lookup] is the processor's
      access to a loaded table. *)
  SegmentSelector : Type;
  GlobalDescriptorTable : Type;
  gdt_new : GlobalDescriptorTable;
  gdt_append : GlobalDescriptorTable -> Descriptor -> outcome (SegmentSelector * GlobalDescriptorTable);
  gdt_lookup : GlobalDescriptorTable -> SegmentSelector -> option Descriptor;
  gdt_free : GlobalDescriptorTable -> Z      (* entries that are free *)
}.

(** Documented behaviour: a table has 8 entries, the first is null; a code segment takes
    one entry and a task state segment two; [append] panics on a full table. *)
Class SegmentationLaws `{Segmentation} : Prop := {
  ist_set_get t i j a : 0 <= i < 7 -> 0 <= j < 7 ->
    interrupt_stack_table (set_interrupt_stack t i a) j
    = if decide (i = j) then a else interrupt_stack_table t j;
  code_is_code : descriptor_is_kernel_code kernel_code_segment = true;
  tss_is_tss t : descriptor_tss (tss_segment t) = Some t;
  gdt_new_free : gdt_free gdt_new = 7;
  append_code g : 1 <= gdt_free g -> exists s g', gdt_append g kernel_code_segment = Done (s, g') /\
    gdt_lookup g' s = Some kernel_code_segment /\ gdt_free g' = gdt_free g - 1;
  append_tss g t : 2 <= gdt_free g -> exists s g', gdt_append g (tss_segment t) = Done (s, g') /\
    gdt_lookup g' s = Some (tss_segment t) /\ gdt_free g' = gdt_free g - 2;
  append_keeps g d s g' s0 d0 : gdt_append g d = Done (s, g') ->
    gdt_lookup g s0 = Some d0 -> gdt_lookup g' s0 = Some d0
}.

(** ** State *)

Definition STACK_SIZE : Z := 4 * KIBIBYTE.

Section gdt.
Context {X : X86} {G : Segmentation}.

(** The statics [TSS] and [GDT], and the registers the tables are loaded into. *)
Record Segments : Type := mkSegments {
  TSS : option TaskStateSegment;
  GDT : option GlobalDescriptorTable;
  gdtr : option GlobalDescriptorTable;
  cs : option SegmentSelector;
  tr : option SegmentSelector
}.

Definition set_TSS (t : TaskStateSegment) (s : Segments) : Segments :=
  mkSegments (Some t) (GDT s) (gdtr s) (cs s) (tr s).
Definition set_GDT (g : GlobalDescriptorTable) (s : Segments) : Segments :=
  mkSegments (TSS s) (Some g) (gdtr s) (cs s) (tr s).
Definition set_gdtr (g : GlobalDescriptorTable) (s : Segments) : Segments :=
  mkSegments (TSS s) (GDT s) (Some g) (cs s) (tr s).
Definition set_cs (c : SegmentSelector) (s : Segments) : Segments :=
  mkSegments (TSS s) (GDT s) (gdtr s) (Some c) (tr s).
Definition set_tr (t : SegmentSelector) (s : Segments) : Segments :=
  mkSegments (TSS s) (GDT s) (gdtr s) (cs s) (Some t).

(** The segment's constructor; [STACK] is the address of the static stack. *)
Definition new_tss (STACK : Z) : outcome TaskStateSegment :=
  let tss := tss_new in
  let* stack_start := virt_new STACK in
  let* stack_end := virt_add stack_start STACK_SIZE in
  Done (set_interrupt_stack tss DOUBLE_FAULT_IST_INDEX stack_end).

(** [call_once] runs its closure, and writes, only when the static is empty. *)
Definition init_gdt (STACK : Z) : M Segments unit :=
  let! s := get in
  let! _ := (match TSS s with
    | Some _ => ret tt
    | None => let^ tss := new_tss STACK in let! s := get in put (set_TSS tss s)
    end) in
  let gdt := gdt_new in
  let^ '(code_segment, gdt) := gdt_append gdt kernel_code_segment in
  let! s := get in
  let^ tss := unwrap (TSS s) in
  let^ '(task_state_segment, gdt) := gdt_append gdt (tss_segment tss) in
  let! s := get in
  let! _ := put (match GDT s with Some _ => s | None => set_GDT gdt s end) in
  let! s := get in
  let^ loaded := unwrap (GDT s) in
  let! _ := put (set_gdtr loaded s) in
  let! s := get in
  let! _ := put (set_cs code_segment s) in
  let! s := get in
  put (set_tr task_state_segment s).

(** ** What the processor does with them *)

(** The interrupt stack the processor switches to for an exception: the entry of the task
    state segment that the descriptor table's entry names. [None]: it stays on the stack. *)
Definition interrupt_stack (idt : exception -> option idt_entry) (s : Segments) (e : exception) :
    option Z :=
  entry ← idt e;
  i ← stack_index entry;
  g ← gdtr s;
  selector ← tr s;
  d ← gdt_lookup g selector;
  t ← descriptor_tss d;
  Some (interrupt_stack_table t i).

End gdt.

(** ** An implementation with these laws *)

Module SegmentationModel.

Inductive descriptor : Type := Code | Tss (t : Z -> Z).

(** A table is the list of its entries, of which a descriptor fills the first it takes. *)
Definition entries (d : descriptor) : list (option descriptor) :=
  match d with Code => [Some d] | Tss _ => [Some d; None] end.

Definition append (g : list (option descriptor)) (d : descriptor) :
    outcome (nat * list (option descriptor)) :=
  if (length g + length (entries d) <=? 8)%nat then Done (length g, g ++ entries d)
  else Panicked LibraryPanic.

Definition lookup_entry (g : list (option descriptor)) (s : nat) : option descriptor :=
  match g !! s with Some d => d | None => None end.

#[export] Instance segmentation : Segmentation := {
  TaskStateSegment := Z -> Z;
  tss_new := fun _ => 0;
  interrupt_stack_table t i := t i;
  set_interrupt_stack t i a := fun j => if i =? j then a else t j;
  Descriptor := descriptor;
  kernel_code_segment := Code;
  tss_segment := Tss;
  descriptor_is_kernel_code d := match d with Code => true | _ => false end;
  descriptor_tss d := match d with Code => None | Tss t => Some t end;
  SegmentSelector := nat;
  GlobalDescriptorTable := list (option descriptor);
  gdt_new := [None];
  gdt_append := append;
  gdt_lookup := lookup_entry;
  gdt_free g := 8 - Z.of_nat (length g)
}.

Lemma append_fits (g : list (option descriptor)) d :
  Z.of_nat (length (entries d)) <= 8 - Z.of_nat (length g) ->
  append g d = Done (length g, g ++ entries d).
Proof. intros H. unfold append. by rewrite (proj2 (Nat.leb_le _ _)) by lia. Qed.

Lemma lookup_entry_old g l s d : lookup_entry g s = Some d -> lookup_entry (g ++ l) s = Some d.
Proof.
  unfold lookup_entry. destruct (g !! s) eqn:Hg; [|done].
  by rewrite lookup_app_l, Hg by by eapply lookup_lt_Some.
Qed.

Lemma lookup_entry_new g d l : lookup_entry (g ++ Some d :: l) (length g) = Some d.
Proof. unfold lookup_entry. by rewrite list_lookup_middle. Qed.

#[export] Instance segmentation_laws : SegmentationLaws.
Proof.
  constructor.
  - intros t i j a Hi Hj. simpl. destruct (Z.eqb_spec i j), (decide (i = j)); congruence.
  - done.
  - done.
  - done.
  - intros g Hg. cbn [gdt_free gdt_append segmentation] in *.
    rewrite append_fits by (simpl; lia). do 2 eexists. split; [done|].
    split; [apply lookup_entry_new|]. rewrite length_app. simpl. lia.
  - intros g t Hg. cbn [gdt_free gdt_append segmentation] in *.
    rewrite append_fits by (simpl; lia). do 2 eexists. split; [done|].
    split; [apply lookup_entry_new|]. rewrite length_app. simpl. lia.
  - intros g d s g' s0 d0 Ha Hl. cbn [gdt_append gdt_lookup segmentation] in *.
    unfold append in Ha. case_match; [|done]. injection Ha as <- <-. by apply lookup_entry_old.
Qed.

End SegmentationModel.

(** ** Properties *)

Section properties.
Context {X : X86} {XL : X86Laws} {G : Segmentation} {GL : SegmentationLaws}.

(** What [init_gdt] leaves in the registers and the statics: a table with the kernel's code
    segment and the task state segment [t], both selected. *)
Record gdt_ready (s : Segments) (t : TaskStateSegment) : Prop := {
  gr_tss : TSS s = Some t;
  gr_gdt : GDT s = gdtr s;
  gr_tables : exists g c r, gdtr s = Some g /\ cs s = Some c /\ tr s = Some r /\
    gdt_lookup g c = Some kernel_code_segment /\ gdt_lookup g r = Some (tss_segment t)
}.

(** The task state segment with the stack that ends at [stop]. *)
Definition double_fault_tss (stop : Z) : TaskStateSegment :=
  set_interrupt_stack tss_new DOUBLE_FAULT_IST_INDEX stop.

Lemma new_tss_eq STACK :
  canonical STACK -> canonical (STACK + STACK_SIZE) ->
  new_tss STACK = Done (double_fault_tss (STACK + STACK_SIZE)).
Proof.
  intros H1 H2. apply wp_eq. unfold new_tss. x86_step. apply wp_virt_new; [done|].
  x86_step. by apply wp_virt_add.
Qed.

Lemma init_gdt_wp STACK s :
  canonical STACK -> canonical (STACK + STACK_SIZE) -> TSS s = None -> GDT s = None ->
  wp (init_gdt STACK s) (fun '(_, s') => gdt_ready s' (double_fault_tss (STACK + STACK_SIZE))).
Proof.
  intros H1 H2 HT HG. unfold init_gdt. wp_steps. rewrite HT. wp_steps.
  rewrite new_tss_eq by done. wp_steps.
  destruct (append_code gdt_new) as (c & g1 & -> & Hc & Hf1); [rewrite gdt_new_free; lia|].
  wp_steps. cbn [TSS set_TSS unwrap]. wp_steps.
  destruct (append_tss g1 (double_fault_tss (STACK + STACK_SIZE))) as (r & g2 & Ha & Hr & _);
    [rewrite Hf1, gdt_new_free; lia|]. rewrite Ha. wp_steps.
  cbn [GDT set_TSS]. rewrite HG. cbn [GDT set_GDT unwrap]. wp_steps.
  constructor; [done..|]. exists g2, c, r. split_and!; try done. by eapply append_keeps.
Qed.

Lemma interrupt_stack_ready s t e :
  gdt_ready s t ->
  interrupt_stack IDT s e = i ← (entry ← IDT e; stack_index entry); Some (interrupt_stack_table t i).
Proof.
  intros [_ _ (g & c & r & Hg & _ & Ht & _ & Hr)]. unfold interrupt_stack.
  destruct (IDT e) as [entry|]; [|done]. cbn [mbind option_bind].
  destruct (stack_index entry) as [i|]; [|done]. cbn [mbind option_bind].
  rewrite Hg, Ht. cbn [mbind option_bind]. rewrite Hr. cbn [mbind option_bind]. by rewrite tss_is_tss.
Qed.

(** C23: after [init_gdt] the processor runs on the kernel's code segment, and with the
    kernel's descriptor table a double fault switches to the 4 KiB stack [STACK], from its
    end downwards, while every other exception stays on the stack it interrupts. *)
Theorem double_fault_has_its_stack STACK s
    (H1 : canonical STACK) (H2 : canonical (STACK + STACK_SIZE))
    (HT : TSS s = None) (HG : GDT s = None) :
  exists s', init_gdt STACK s = Done (tt, s') /\
    (exists g c d, gdtr s' = Some g /\ cs s' = Some c /\ gdt_lookup g c = Some d /\
       descriptor_is_kernel_code d = true) /\
    interrupt_stack IDT s' double_fault = Some (STACK + 4096) /\
    forall e, e <> double_fault -> interrupt_stack IDT s' e = None.
Proof.
  pose proof (init_gdt_wp STACK s H1 H2 HT HG) as H. apply wp_iff in H as ([[] s'] & -> & Hready).
  exists s'. split; [done|]. split; [|split].
  - destruct Hready as [_ _ (g & c & r & Hg & Hc & _ & Hl & _)]. exists g, c, kernel_code_segment.
    by rewrite code_is_code.
  - rewrite (interrupt_stack_ready s' _ _ Hready). simpl. f_equal. unfold double_fault_tss.
    rewrite ist_set_get by (unfold DOUBLE_FAULT_IST_INDEX; lia). by rewrite decide_True.
  - intros e He. rewrite (interrupt_stack_ready s' _ _ Hready). by destruct e.
Qed.

End properties.

#[local] Existing Instances X86Model.x86 X86Model.x86_laws.
#[local] Existing Instances SegmentationModel.segmentation SegmentationModel.segmentation_laws.

Definition no_segments : Segments := mkSegments None None None None None.

Lemma double_fault_has_its_stack_witness :
  exists s', init_gdt 0xFFFFFFFF80004000 no_segments = Done (tt, s') /\
    interrupt_stack IDT s' double_fault = Some 0xFFFFFFFF80005000.
Proof.
  destruct (double_fault_has_its_stack 0xFFFFFFFF80004000 no_segments) as (s' & H & _ & Hs & _);
    [right; by vm_compute|right; by vm_compute|done|done|].
  exists s'. split; [exact H|exact Hs].
Defined.
