(* ===== verification/Kernel.v ===== *)
(** The kernel's start ([lib.rs]), its log ([display/vga_text_writer.rs], the global
    writer), and the initialization of memory ([memory/mod.rs], [memory/heap.rs]). *)
From Stdlib Require Import Ascii String.
From S2P Require Import Prelude Format X86 Memory FrameAllocation Bitmap PageTable Allocators.
From S2P Require Import PagingController PagingInit Framebuffer VgaText VgaWriter Interrupts Gdt.

(** ** The boot loader *)

(** What the kernel asks of the boot loader, each request at the same revision of the
    protocol; the boot loader finds the requests between two markers in the kernel's image. *)
Inductive Request : Type :=
| MemoryMapRequest
| FramebufferRequest
| BootloaderInfoRequest
| HigherHalfDirectMapRequest
| ExecutableAddressRequest
| SmbiosRequest
| StackSizeRequest (size : Z).

Definition REVISION : Z := 4.

Definition requests : list (Request * Z) :=
  [(MemoryMapRequest, REVISION);
   (FramebufferRequest, REVISION);
   (BootloaderInfoRequest, REVISION);
   (HigherHalfDirectMapRequest, REVISION);
   (ExecutableAddressRequest, REVISION);
   (SmbiosRequest, REVISION);
   (StackSizeRequest stack_size, REVISION)].

(** What the boot loader and the linker tell the kernel. *)
Record BootInfo : Type := {
  boot : Boot;
  framebuffers : option (list BootFramebuffer);
  bootloader_info : option (list Z * list Z);    (* name and version *)
  double_fault_stack : Z                         (* the address of the static [STACK] of [init_gdt] *)
}.

Section kernel.
Context {X : X86} {G : Segmentation}.

(** ** The machine *)

(** The statics of the kernel, what it writes to the serial port, and the registers and
    memory its page tables live in. *)
Record Machine : Type := mkMachine {
  kwriter : option VGAWriter.VGAWriter;        (* [KWRITER] *)
  kwriter_locked : bool;                       (* the mutex in it is held *)
  serial : list Z;
  panic_level : Z;                             (* [PANIC_LEVEL] *)
  segments : Segments;
  idt : option (exception -> option idt_entry);   (* the descriptor table that is loaded *)
  tables : gmap Z PageTable;
  cpu : RecursivePageTable.Cpu;
  heap : option (Z * Z);                       (* start and size of [ALLOCATOR]'s heap *)
  kpc : option KernelPagingController.KernelPagingController   (* [KERNEL_PAGING_CONTROLLER] *)
}.

Definition set_kwriter (w : option VGAWriter.VGAWriter) (m : Machine) : Machine :=
  mkMachine w (kwriter_locked m) (serial m) (panic_level m) (segments m) (idt m)
    (tables m) (cpu m) (heap m) (kpc m).
Definition set_serial (s : list Z) (m : Machine) : Machine :=
  mkMachine (kwriter m) (kwriter_locked m) s (panic_level m) (segments m) (idt m)
    (tables m) (cpu m) (heap m) (kpc m).
Definition set_panic_level (l : Z) (m : Machine) : Machine :=
  mkMachine (kwriter m) (kwriter_locked m) (serial m) l (segments m) (idt m)
    (tables m) (cpu m) (heap m) (kpc m).
Definition set_segments (s : Segments) (m : Machine) : Machine :=
  mkMachine (kwriter m) (kwriter_locked m) (serial m) (panic_level m) s (idt m)
    (tables m) (cpu m) (heap m) (kpc m).
Definition set_idt (i : exception -> option idt_entry) (m : Machine) : Machine :=
  mkMachine (kwriter m) (kwriter_locked m) (serial m) (panic_level m) (segments m) (Some i)
    (tables m) (cpu m) (heap m) (kpc m).
Definition set_tables (t : gmap Z PageTable) (m : Machine) : Machine :=
  mkMachine (kwriter m) (kwriter_locked m) (serial m) (panic_level m) (segments m) (idt m)
    t (cpu m) (heap m) (kpc m).
Definition set_cpu (c : RecursivePageTable.Cpu) (m : Machine) : Machine :=
  mkMachine (kwriter m) (kwriter_locked m) (serial m) (panic_level m) (segments m) (idt m)
    (tables m) c (heap m) (kpc m).
Definition set_heap (h : option (Z * Z)) (m : Machine) : Machine :=
  mkMachine (kwriter m) (kwriter_locked m) (serial m) (panic_level m) (segments m) (idt m)
    (tables m) (cpu m) h (kpc m).
Definition set_kpc (k : option KernelPagingController.KernelPagingController) (m : Machine) : Machine :=
  mkMachine (kwriter m) (kwriter_locked m) (serial m) (panic_level m) (segments m) (idt m)
    (tables m) (cpu m) (heap m) k.

(** The values the statics start with. *)
Definition KWRITER : option VGAWriter.VGAWriter := None.     (* [Once::new()] *)
Definition PANIC_LEVEL : Z := 0.
Definition ALLOCATOR : option (Z * Z) := None.               (* [LockedHeap::empty()] *)
Definition KERNEL_PAGING_CONTROLLER : option KernelPagingController.KernelPagingController := None.

(** The machine the boot loader starts the kernel on, with its page tables in [tables]. *)
Definition loaded_machine (segments : Segments) (tables : gmap Z PageTable) : Machine :=
  mkMachine KWRITER false [] PANIC_LEVEL segments None tables
    (RecursivePageTable.mkCpu None []) ALLOCATOR KERNEL_PAGING_CONTROLLER.

(** ** The log *)

(** [KWRITER.get().expect(..).lock()] and a use of the writer. A spin lock that is held is
    never released here, where nothing runs concurrently: the computation does not finish. *)
Definition with_kwriter {A} (use : M VGAWriter.VGAWriter A) : M Machine A :=
  let! m := get in
  let^ w := unwrap (kwriter m) in
  if kwriter_locked m then fun _ => OutOfFuel else
  let^ '(a, w) := use w in
  let! _ := put (set_kwriter (Some w) m) in
  ret a.

(** The machine at a panic that interrupts a use of the log: the panic aborts
    ([x86_64-kermol.json]), nothing unwinds, so that the guard is not dropped and the mutex stays
    held. [w] is the writer as far as the use had come. *)
Definition interrupted (w : VGAWriter.VGAWriter) (m : Machine) : Machine :=
  mkMachine (Some w) true (serial m) (panic_level m) (segments m) (idt m) (tables m) (cpu m) (heap m) (kpc m).

(** [_kprint], of the formatted text: [write_fmt(args).unwrap()]. *)
Definition kprint (text : list Z) : M Machine unit :=
  with_kwriter (let! r := VGAWriter.write_str text in lift (unwrap_result r)).
Definition kprintln (text : list Z) : M Machine unit := kprint (text ++ [10]).

Definition kprint_color (text : list Z) (color : VgaColor) : M Machine unit :=
  with_kwriter (
    let! w := get in
    let! _ := put (VGAWriter.set_default_text (color_u32 color) w) in
    let! r := VGAWriter.write_str text in
    let^ _ := unwrap_result r in
    let! w := get in
    put (VGAWriter.set_default_text (color_u32 DEFAULT_COLOR) w)).

(** [kwarn!] and [kerror!]. *)
Definition kwarn (text : list Z) : M Machine unit := kprint_color (text ++ [10]) Yellow.
Definition kerror (text : list Z) : M Machine unit := kprint_color (text ++ [10]) LightRed.

Definition kwriter_set_color (color : Z) : M Machine unit :=
  with_kwriter (let! w := get in put (VGAWriter.set_default_text color w)).
Definition kwriter_set_bg (background : Z) : M Machine unit :=
  with_kwriter (let! w := get in put (VGAWriter.set_default_background background w)).

(** [serial::_print]; the port accepts every byte. *)
Definition serial_print (text : list Z) : M Machine unit :=
  let! m := get in put (set_serial (serial m ++ text) m).

(** [serial_println!] of a literal, and of a format string with arguments, formatted. *)
Definition serial_println (fmt : list Z) : M Machine unit := serial_print (fmt ++ [13; 10]).
Definition serial_println_args (text : list Z) : M Machine unit := serial_print (text ++ [10]).

(** [init_kwriter]; [call_once] keeps a writer that is there. *)
Definition init_kwriter (info : BootInfo) : M Machine unit :=
  let^ fbs := unwrap (framebuffers info) in
  let^ framebuffer := unwrap (head fbs) in
  let^ r := LinearFramebuffer.new framebuffer in
  let^ linear_framebuffer := unwrap_result r in
  let! m := get in
  let! _ := put (set_kwriter (Some (match kwriter m with
    | Some w => w
    | None => VGAWriter.new linear_framebuffer true (color_u32 DEFAULT_COLOR) (color_u32 Black)
    end)) m) in
  let! m := get in
  put (set_panic_level ((panic_level m + 1) mod u8_bound) m).

(** ** Memory *)

Section memory.
Context (debug_region_type : MemoryRegionType -> list Z).   (* [Debug] of the protocol crate *)

Definition region_color (t : MemoryRegionType) : VgaColor :=
  match t with
  | Usable => LightGreen
  | Reserved | BadMemory => LightRed
  | Framebuffer => LightBlue
  | _ => DarkGray
  end.

Definition log_region (r : MemoryRegionInfo) : M Machine unit :=
  let^ stop := u64_add (region_base r) (region_length r) in
  let! _ := kprint (chars "[0x" ++ hex_12 (region_base r) ++ chars "->0x" ++ hex_12 stop
                      ++ chars "]: ") in
  let! _ := kwriter_set_color (color_u32 (region_color (region_type r))) in
  let! _ := kprintln (debug_region_type (region_type r)) in
  kwriter_set_color (color_u32 DEFAULT_COLOR).

Definition log_ram_map (rammap_entries : list MemoryRegionInfo) : M Machine unit :=
  let! _ := kprintln (chars "Bootloader provided physical RAM map:") in
  for_all rammap_entries log_region.

Definition init_heap (address : Z) : M Machine unit :=
  let! m := get in
  let! _ := put (set_heap (Some (address, KERNEL_HEAP_SIZE)) m) in
  kprintln (chars "Heap Initialized").

Definition compare_lengths (region1 region2 : MemoryRegionInfo) : outcome comparison :=
  Done (region_length region1 ?= region_length region2).

(** The part of [init_memory] that works on page tables and the linear allocator: the page
    table with the heap mapped, the physical memory used marked in the frame allocator. *)
Definition build_memory (b : Boot) (entry_stack_pointer : Z) (rammap_entries : list MemoryRegionInfo)
    (allocator_phys_base : Z) :
    M (RecursivePageTable.Env LinearFrameAllocator.LinearFrameAllocator)
      (result (KernelPagingController.KernelPagingController * Z) MemoryError) :=
  let heap_pages := KERNEL_HEAP_SIZE / PAGE_SIZE in
  let? heap_phys := with_allocator (LinearFrameAllocator.alloc_contiguous heap_pages) in
  let^ sp := virt_new entry_stack_pointer in
  let? k_paging_ctrl := init_paging b sp rammap_entries in
  let rec_page_table := KernelPagingController.rec_page_table k_paging_ctrl in
  let^ virt := virt_new heap_phys in
  let^ heap_virt := virt_add virt (RecursivePageTable.internal_offset rec_page_table) in
  let? _ := paging (RecursivePageTable.map_contiguous rec_page_table heap_pages heap_phys heap_virt flags_rw) in
  let! env := get in
  let used := (allocator_phys_base / PAGE_SIZE,
               LinearFrameAllocator.next (RecursivePageTable.allocator env) / PAGE_SIZE) in
  let^ '(r, frames) := BitmapAllocator.flag_range used true
    (BitmapFrameAllocator.bits (KernelPagingController.frame_allocator k_paging_ctrl)) in
  let? _ := ret r in
  ret (Ok (KernelPagingController.mk rec_page_table (BitmapFrameAllocator.mk frames)
             (KernelPagingController.virt_mem_allocator k_paging_ctrl), heap_virt)).

Definition init_memory (b : Boot) (entry_stack_pointer : Z) : M Machine (result unit MemoryError) :=
  let^ rammap_entries := unwrap (memory_map b) in
  let^ hhdm := unwrap (hhdm_offset b) in
  let! _ := log_ram_map rammap_entries in
  let^ physical_memory_offset := virt_new hhdm in
  let^ allocator_region := max_by compare_lengths
    (List.filter BitmapFrameAllocator.is_usable rammap_entries) in
  match allocator_region with
  | None => ret (Err AllocationError)
  | Some allocator_region =>
      let^ allocator_phys_base := phys_new (region_base allocator_region) in
      let^ virt := virt_new (region_base allocator_region) in
      let^ allocator_virt_base := virt_add virt physical_memory_offset in
      let^ distance := virt_diff allocator_virt_base physical_memory_offset in
      let^ start := phys_new distance in
      let! m := get in
      let^ '(r, env) := build_memory b entry_stack_pointer rammap_entries allocator_phys_base
        (RecursivePageTable.mkEnv (tables m) (LinearFrameAllocator.mk start)) in
      let! _ := put (set_tables (RecursivePageTable.tables env) m) in
      let? '(k_paging_ctrl, heap_virt) := ret r in
      let! m := get in
      let^ '(_, (rec_page_table, cpu')) := RecursivePageTable.load
        (KernelPagingController.rec_page_table k_paging_ctrl, cpu m) in
      let! _ := put (set_cpu cpu' m) in
      let! _ := serial_println (chars "PEIS") in
      let! _ := init_heap heap_virt in
      let! m := get in
      let! _ := put (set_kpc (Some (match kpc m with
        | Some k => k
        | None => KernelPagingController.mk rec_page_table
            (KernelPagingController.frame_allocator k_paging_ctrl)
            (KernelPagingController.virt_mem_allocator k_paging_ctrl)
        end)) m) in
      ret (Ok tt)
  end.

(** ** Start and panic *)

Definition with_segments {A} (m : M Segments A) : M Machine A := zoom segments set_segments m.

Definition load_idt : M Machine unit := let! m := get in put (set_idt IDT m).

(** [kernel_main], up to the loop it ends in. *)
Definition kernel_main (info : BootInfo) (entry_stack_pointer : Z) : M Machine unit :=
  let! _ := init_kwriter info in
  let^ '(name, version) := unwrap (bootloader_info info) in
  let! _ := kprintln (chars "Kermol was loaded using " ++ name ++ [32] ++ version) in
  let! _ := with_segments (init_gdt (double_fault_stack info)) in
  let! _ := kprintln (chars "Global Descriptor Table initialized") in
  let! _ := load_idt in
  let! _ := kprintln (chars "Interrupt Descriptor Table loaded, Exceptions are now enabled") in
  let! r := init_memory (boot info) entry_stack_pointer in
  match r with
  | Err _ => throw ExplicitPanic
  | Ok _ => serial_println (chars "Hi")
  end.

(** [_start], with the stack pointer in [rsp]. *)
Definition _start (info : BootInfo) (rsp : Z) : M Machine unit :=
  let entry_stack_pointer := rsp in
  kernel_main info entry_stack_pointer.

End memory.

(** [panic_handler], of the formatted [PanicInfo], up to the loop it ends in; the writer is
    got without a check. *)
Definition panic_handler (info : list Z) : M Machine unit :=
  let! m := get in
  if panic_level m =? 0 then serial_println_args info
  else if panic_level m =? 1 then
    let! _ := serial_println_args info in
    with_kwriter (
      let! w := get in
      let! _ := put (VGAWriter.set_default_text (color_u32 LightRed) w) in
      let! r := VGAWriter.write_str (info ++ [10]) in
      lift (unwrap_result r))
  else ret tt.

(** [Display] of a [PanicInfo]: where the panic is, and its message. *)
Definition panic_info (location message : list Z) : list Z :=
  chars "panicked at " ++ location ++ [58; 10] ++ message.

(** A handler of the descriptor table: the panic with its message, or the one of the
    [unwrap] among the arguments. *)
Section exceptions.
Context (location unwrap_location : handler -> list Z) (selector_error_code : Z -> option (list Z))
  (page_fault_error_code virt_addr : Z -> list Z).

Definition exception_text (h : handler) (i : ExceptionInfo) : list Z :=
  match panic_message selector_error_code page_fault_error_code virt_addr h i with
  | Some message => panic_info (location h) message
  | None => panic_info (unwrap_location h) (chars "called `Option::unwrap()` on a `None` value")
  end.

Definition run_handler (h : handler) (i : ExceptionInfo) : M Machine unit :=
  panic_handler (exception_text h i).

End exceptions.

End kernel.
