(* ===== verification/LogProofs.v ===== *)
(** The kernel's log and its panics: what [kprint] and the functions around it write on the
    screen and the serial port, as a terminal shows it; and what the panic handler reports. *)
From Stdlib Require Import Ascii String.
From S2P Require Import Prelude Format X86 Memory PagingInit Framebuffer FramebufferProofs VgaText.
From S2P Require Import VgaWriter VgaProofs AllocatorsProofs Interrupts Gdt Kernel.

(** ** The writer *)

(** The writer shows a terminal with the cursor on the grid: text can be written. *)
Definition writer_ok (w : VGAWriter.VGAWriter) : Prop :=
  exists s t, represents s w t /\ on_grid s t.

(** The cells a framebuffer shows before anything is written. *)
Definition terminal_of (fb : LinearFramebuffer.LinearFramebuffer) : Terminal :=
  mkTerminal (fun r c i j => default 0 (pixel fb (8 * c + i) (16 * r + j))) 0 0.

(** The pixel lines below the last row of text have the color. *)
Definition strip_is (fb : LinearFramebuffer.LinearFramebuffer) (color : Z) : Prop :=
  forall x y, on_screen fb x y -> 16 * (LinearFramebuffer.height fb / 16) <= y ->
    pixel fb x y = Some color.

Lemma new_writer_ok fb scrolling text background :
  FramebufferProofs.wf fb -> 8 <= LinearFramebuffer.width fb -> 16 <= LinearFramebuffer.height fb ->
  strip_is fb background ->
  writer_ok (VGAWriter.new fb scrolling text background).
Proof.
  intros Hwf Hw Hh Hs.
  set (s := mkSetup (LinearFramebuffer.width fb / 8) (LinearFramebuffer.height fb / 16) text background scrolling).
  assert (1 <= LinearFramebuffer.width fb / 8 /\ 1 <= LinearFramebuffer.height fb / 16) as [Hc Hr].
  { pose proof (Z.div_le_mono 8 (LinearFramebuffer.width fb) 8 ltac:(lia) ltac:(lia)).
    pose proof (Z.div_le_mono 16 (LinearFramebuffer.height fb) 16 ltac:(lia) ltac:(lia)).
    rewrite Z.div_same in * by done. done. }
  exists s, (terminal_of fb). split; [|unfold on_grid; simpl; lia].
  constructor; try done.
  destruct (dims_bounds s fb Hwf eq_refl) as [Hcols Hrows]. simpl in *. split; [|exact Hs].
  intros r c i j Hr' Hc' Hi Hj. simpl in *.
  assert (on_screen fb (8 * c + i) (16 * r + j)) as Hon by (unfold on_screen; lia).
  apply on_screen_offset in Hon. destruct Hwf as [_ _ _ Hlen].
  unfold pixel. destruct (lookup_lt_is_Some_2 (LinearFramebuffer.buffer fb)
    (Z.to_nat (8 * c + i + (16 * r + j) * LinearFramebuffer.width fb))) as [p Hp]; [lia|].
  by rewrite Hp.
Qed.

Lemma writer_ok_color w text : writer_ok w -> writer_ok (VGAWriter.set_default_text text w).
Proof.
  intros (s & t & [Hwf Hd Hg Ht Hb Hsc Hr Hc Hsh] & Hon).
  exists (mkSetup (s_columns s) (s_rows s) text (s_background s) (s_scrolling s)), t.
  by split; [constructor|].
Qed.

Lemma write_str_ok w l :
  writer_ok w -> wp (VGAWriter.write_str l w) (fun '(r, w') => r = Ok tt /\ writer_ok w').
Proof.
  intros (s & t & Hrep & Hon). unfold VGAWriter.write_str. wp_step.
  eapply wp_mono; [by apply (write_string_refines s)|]. intros [[] w'] [Hr' Ho']. wp_steps.
  split; [done|]. by exists s, (t_string s l t).
Qed.

Section log.
Context {X : X86} {XL : X86Laws} {G : Segmentation}.

(** ** The log *)

Definition ready (m : Machine) : Prop :=
  exists w, kwriter m = Some w /\ kwriter_locked m = false /\ writer_ok w.

(** Everything but the screen is as it was. *)
Definition only_screen (m m' : Machine) : Prop := exists w, m' = set_kwriter w m.

Lemma only_screen_refl m : only_screen m m.
Proof. exists (kwriter m). by destruct m. Qed.

Lemma only_screen_trans m1 m2 m3 : only_screen m1 m2 -> only_screen m2 m3 -> only_screen m1 m3.
Proof. intros [w ->] [w' ->]. by exists w'. Qed.

(** What writing to the log does. *)
Definition logs {A} (c : M Machine A) : Prop :=
  forall m, ready m -> wp (c m) (fun '(_, m') => ready m' /\ only_screen m m').

Lemma with_kwriter_logs {A} (use : M VGAWriter.VGAWriter A) :
  (forall w, writer_ok w -> wp (use w) (fun '(_, w') => writer_ok w')) -> logs (with_kwriter use).
Proof.
  intros Huse m (w & Hk & Hl & Hw). unfold with_kwriter. wp_steps. rewrite Hk. cbn [unwrap wp].
  rewrite Hl. wp_step. wp_step. eapply wp_mono; [by apply Huse|]. intros [a w'] Hw'. wp_steps.
  split; [by exists w'|by exists (Some w')].
Qed.

Lemma kprint_logs text : logs (kprint text).
Proof.
  apply with_kwriter_logs. intros w Hw. wp_step. eapply wp_mono; [by apply write_str_ok|].
  intros [r w'] [-> Hw']. cbn [unwrap_result]. by wp_steps.
Qed.

Lemma set_color_logs color : logs (kwriter_set_color color).
Proof. apply with_kwriter_logs. intros w Hw. wp_steps. by apply writer_ok_color. Qed.

Lemma bind_logs {A B} (c : M Machine A) (k : A -> M Machine B) :
  logs c -> (forall a, logs (k a)) -> logs (let! a := c in k a).
Proof.
  intros Hc Hk m Hm. wp_step. eapply wp_mono; [by apply Hc|]. intros [a m1] [Hm1 Ho1].
  eapply wp_mono; [by apply Hk|]. intros [b m2] [Hm2 Ho2]. split; [done|].
  by eapply only_screen_trans.
Qed.

Lemma log_ram_map_logs names entries : Forall region_ok entries -> logs (log_ram_map names entries).
Proof.
  intros Hok. unfold log_ram_map. apply bind_logs; [apply kprint_logs|intros _].
  induction Hok as [|r l Hr _ IH]; cbn [for_all].
  - intros m Hm. wp_steps. split; [done|apply only_screen_refl].
  - apply bind_logs; [|done]. unfold log_region. intros m Hm. wp_step. wp_step.
    apply wp_u64_add; [apply Hr|].
    apply bind_logs; [apply kprint_logs|intros _|done].
    apply bind_logs; [apply set_color_logs|intros _].
    apply bind_logs; [apply kprint_logs|intros _]. apply set_color_logs.
Qed.

End log.
