(* ===== verification/LogTheorems.v ===== *)
(** What the log and the panic handler show on the screen, text by text and color by color. *)
From Stdlib Require Import Ascii String.
From S2P Require Import Prelude Format X86 Memory PageTable PagingInit Framebuffer FramebufferProofs VgaText.
From S2P Require Import VgaWriter VgaProofs AllocatorsProofs Interrupts Gdt Kernel LogProofs.

Section log.
Context {X : X86} {XL : X86Laws} {G : Segmentation}.

(** The log is open, and the screen shows the terminal. *)
Definition log_shows (m : Machine) (s : Setup) (t : Terminal) : Prop :=
  exists w, kwriter m = Some w /\ kwriter_locked m = false /\ represents s w t /\ on_grid s t.

Lemma with_kwriter_eq {A} (use : M VGAWriter.VGAWriter A) (m : Machine) w :
  kwriter m = Some w ->
  with_kwriter use m = if kwriter_locked m then OutOfFuel else
    let* '(a, w) := use w in Done (a, set_kwriter (Some w) m).
Proof.
  intros Hw. unfold with_kwriter, bind, lift, get, put, ret. cbn [obind]. rewrite Hw. cbn [unwrap obind].
  destruct (kwriter_locked m); [done|]. by destruct (use w) as [[]| | |].
Qed.

(** A use of the writer that shows [t'] changes nothing but the screen. *)
Lemma with_kwriter_shows {A} (use : M VGAWriter.VGAWriter A) m s t s' t' :
  log_shows m s t ->
  (forall w, represents s w t -> on_grid s t ->
     wp (use w) (fun '(_, w') => represents s' w' t' /\ on_grid s' t')) ->
  wp (with_kwriter use m) (fun '(_, m') => only_screen m m' /\ log_shows m' s' t').
Proof.
  intros (w & Hw & Hl & Hrep & Hg) Huse. rewrite (with_kwriter_eq _ _ w) by done. rewrite Hl.
  wp_step. eapply wp_mono; [by apply Huse|]. intros [a w'] [Hr' Hg']. wp_steps.
  split; [by exists (Some w')|by exists w'].
Qed.

Lemma write_str_shows l s t w :
  represents s w t -> on_grid s t ->
  wp (VGAWriter.write_str l w) (fun '(r, w') =>
    r = Ok tt /\ represents s w' (t_string s l t) /\ on_grid s (t_string s l t)).
Proof.
  intros Hrep Hg. unfold VGAWriter.write_str. wp_step.
  eapply wp_mono; [by apply (write_string_refines s)|]. intros [[] w'] [Hr' Hg']. by wp_steps.
Qed.

Lemma kprint_shows text m s t :
  log_shows m s t ->
  wp (kprint text m) (fun '(_, m') => only_screen m m' /\ log_shows m' s (t_string s text t)).
Proof.
  intros Hm. eapply with_kwriter_shows; [exact Hm|]. intros w Hrep Hg. wp_step.
  eapply wp_mono; [by apply write_str_shows|]. intros [r w'] (-> & Hr' & Hg'). by wp_steps.
Qed.

Lemma set_color_shows color m s t :
  log_shows m s t ->
  wp (kwriter_set_color color m) (fun '(_, m') => only_screen m m' /\ log_shows m' (with_text s color) t).
Proof.
  intros Hm. eapply with_kwriter_shows; [exact Hm|]. intros w Hrep Hg. wp_steps.
  split; [by apply represents_text|done].
Qed.

Lemma kprint_color_shows text color m s t :
  log_shows m s t ->
  wp (kprint_color text color m) (fun '(_, m') => only_screen m m' /\
    log_shows m' (with_text s (color_u32 DEFAULT_COLOR)) (t_string (with_text s (color_u32 color)) text t)).
Proof.
  intros Hm. eapply with_kwriter_shows; [exact Hm|]. intros w Hrep Hg. wp_steps.
  eapply wp_mono; [by apply write_str_shows; [apply represents_text|]|].
  intros [r w'] (-> & Hr' & Hg'). cbn [unwrap_result]. wp_steps.
  split; [|done]. by apply (represents_text (with_text s (color_u32 color))).
Qed.

(** ** The map of physical memory *)

Context (names : MemoryRegionType -> list Z).

(** The terminal after a region's entry: its bounds in the default color, its type in the
    type's color. *)
Definition t_region (s : Setup) (t : Terminal) (r : MemoryRegionInfo) : Terminal :=
  t_string (with_text s (color_u32 (region_color (region_type r)))) (names (region_type r) ++ [10])
    (t_string s (chars "[0x" ++ hex_12 (region_base r) ++ chars "->0x"
       ++ hex_12 (region_base r + region_length r) ++ chars "]: ") t).

Lemma log_region_shows r m s t :
  region_ok r -> s_text s = color_u32 DEFAULT_COLOR -> log_shows m s t ->
  wp (log_region names r m) (fun '(_, m') => only_screen m m' /\ log_shows m' s (t_region s t r)).
Proof.
  intros (_ & _ & H64) Hs Hm. unfold log_region. wp_step. wp_step. apply wp_u64_add; [done|]. wp_step.
  eapply wp_mono; [by eapply kprint_shows|]. intros [[] m1] [Ho1 H1]. wp_step.
  eapply wp_mono; [by eapply set_color_shows|]. intros [[] m2] [Ho2 H2]. wp_step.
  eapply wp_mono; [by eapply kprint_shows|]. intros [[] m3] [Ho3 H3].
  eapply wp_mono; [by eapply set_color_shows|]. intros [[] m4] [Ho4 H4].
  split; [eauto using only_screen_trans|].
  replace s with (with_text (with_text s (color_u32 (region_color (region_type r))))
    (color_u32 DEFAULT_COLOR)) at 1; [done|]. rewrite <- Hs. by destruct s.
Qed.

Lemma log_regions_show entries : forall m s t,
  Forall region_ok entries -> s_text s = color_u32 DEFAULT_COLOR -> log_shows m s t ->
  wp (for_all entries (log_region names) m) (fun '(_, m') =>
    only_screen m m' /\ log_shows m' s (foldl (t_region s) t entries)).
Proof.
  induction entries as [|r l IH]; intros m s t Hok Hs Hm; cbn [for_all foldl].
  { wp_steps. split; [apply only_screen_refl|done]. }
  apply Forall_cons in Hok as [Hr Hok]. wp_step.
  eapply wp_mono; [by apply log_region_shows|]. intros [[] m1] [Ho1 H1].
  eapply wp_mono; [by apply IH|]. intros [[] m2] [Ho2 H2].
  split; [by eapply only_screen_trans|done].
Qed.

(** C32: the log shows the boot loader's map of physical memory: after the title, each region's
    bounds, in at least twelve digits, in the default color, then its type in the color of the
    type, line by line; nothing but the screen changes. *)
Theorem log_ram_map_shows entries m s t
    (Hok : Forall region_ok entries) (Hs : s_text s = color_u32 DEFAULT_COLOR) (Hm : log_shows m s t) :
  exists m', log_ram_map names entries m = Done (tt, m') /\ only_screen m m' /\
    log_shows m' s (foldl (t_region s)
      (t_string s (chars "Bootloader provided physical RAM map:" ++ [10]) t) entries).
Proof.
  enough (wp (log_ram_map names entries m) (fun '(_, m') => only_screen m m' /\
    log_shows m' s (foldl (t_region s)
      (t_string s (chars "Bootloader provided physical RAM map:" ++ [10]) t) entries))) as H
    by (apply wp_iff in H as ([[] m'] & ? & ?); by exists m').
  unfold log_ram_map. wp_step. eapply wp_mono; [by eapply kprint_shows|]. intros [[] m1] [Ho1 H1].
  eapply wp_mono; [by apply log_regions_show|]. intros [[] m2] [Ho2 H2].
  split; [by eapply only_screen_trans|done].
Qed.

(** [kwarn!] and [kerror!] write their text and a line break in yellow and in light red;
    the text after them is in the default color, whatever color was set before. *)
Lemma warnings_and_errors_shows text m s t (Hm : log_shows m s t) :
  let line color := t_string (with_text s (color_u32 color)) (text ++ [10]) t in
  (exists m', kwarn text m = Done (tt, m') /\ only_screen m m' /\
     log_shows m' (with_text s (color_u32 DEFAULT_COLOR)) (line Yellow)) /\
  (exists m', kerror text m = Done (tt, m') /\ only_screen m m' /\
     log_shows m' (with_text s (color_u32 DEFAULT_COLOR)) (line LightRed)).
Proof.
  split.
  - pose proof (kprint_color_shows (text ++ [10]) Yellow m s t Hm) as H.
    apply wp_iff in H as ([[] m'] & ? & ?). by exists m'.
  - pose proof (kprint_color_shows (text ++ [10]) LightRed m s t Hm) as H.
    apply wp_iff in H as ([[] m'] & ? & ?). by exists m'.
Qed.

(** ** Panics *)

Lemma panic_handler_level1 text (m : Machine) :
  panic_level m = 1 ->
  panic_handler text m = with_kwriter (
    let! w := get in
    let! _ := put (VGAWriter.set_default_text (color_u32 LightRed) w) in
    let! r := VGAWriter.write_str (text ++ [10]) in
    lift (unwrap_result r)) (set_serial (serial m ++ text ++ [10]) m).
Proof.
  intros H. unfold panic_handler, serial_println_args, serial_print, bind, get, put.
  cbn [obind]. by rewrite H.
Qed.

Lemma panic_handler_shows text m s t :
  panic_level m = 1 -> log_shows m s t ->
  wp (panic_handler text m) (fun '(_, m') => serial m' = serial m ++ text ++ [10] /\
    log_shows m' (with_text s (color_u32 LightRed))
      (t_string (with_text s (color_u32 LightRed)) (text ++ [10]) t)).
Proof.
  intros H1 Hm. rewrite panic_handler_level1 by done.
  eapply wp_mono.
  - eapply (with_kwriter_shows _ _ s t); [exact Hm|]. intros w Hrep Hg. wp_steps.
    eapply wp_mono; [by apply write_str_shows; [apply represents_text|]|].
    intros [r w'] (-> & Hr' & Hg'). cbn [unwrap_result]. by wp_steps.
  - by intros [[] m'] [[w ->] Hm'].
Qed.

Lemma panic_handler_locked text m w :
  panic_level m = 1 -> kwriter m = Some w -> kwriter_locked m = true ->
  panic_handler text m = OutOfFuel.
Proof.
  intros H1 Hw Hl. rewrite panic_handler_level1, (with_kwriter_eq _ _ w) by done.
  cbn [kwriter_locked set_serial]. by rewrite Hl.
Qed.

(** C31: the panic handler reports the message. Before the writer exists it goes to the serial
    port alone; after it goes to the serial port and, in light red at the cursor, to the
    screen, whatever the text; but when the panic interrupts a use of the writer, whose lock
    is then held, the handler does not finish. *)
Theorem panic_handler_reports text m :
  (panic_level m = 0 -> panic_handler text m = Done (tt, set_serial (serial m ++ text ++ [10]) m)) /\
  (panic_level m = 1 -> forall s t, log_shows m s t ->
     exists m', panic_handler text m = Done (tt, m') /\ serial m' = serial m ++ text ++ [10] /\
       log_shows m' (with_text s (color_u32 LightRed))
         (t_string (with_text s (color_u32 LightRed)) (text ++ [10]) t)) /\
  (panic_level m = 1 -> is_Some (kwriter m) -> kwriter_locked m = true ->
     panic_handler text m = OutOfFuel).
Proof.
  split_and!.
  - intros H0. unfold panic_handler, bind, get. cbn [obind]. by rewrite H0.
  - intros H1 s t Hm. pose proof (panic_handler_shows text m s t H1 Hm) as H.
    apply wp_iff in H as ([[] m'] & ? & ?). by exists m'.
  - intros H1 [w Hw] Hl. by eapply panic_handler_locked.
Qed.

(** Every exception but the machine check has a handler of its own in the table, and once
    the log is open the handler reports the exception: its text, with the stack frame, goes
    to the serial port and in light red to the screen. A handler that reads a selector from an
    error code the crate rejects reports its own panic instead, in the same way. *)
Lemma exceptions_are_reported location unwrap_location selector page_fault_code addr e i m s t
    (He : e <> machine_check) (H1 : panic_level m = 1) (Hm : log_shows m s t) :
  exists entry m', IDT e = Some entry /\
    (forall e', IDT e' = Some entry -> e' = e) /\
    let text := exception_text location unwrap_location selector page_fault_code addr
      (entry_handler entry) i in
    run_handler location unwrap_location selector page_fault_code addr (entry_handler entry) i m
      = Done (tt, m') /\
    serial m' = serial m ++ text ++ [10] /\
    log_shows m' (with_text s (color_u32 LightRed))
      (t_string (with_text s (color_u32 LightRed)) (text ++ [10]) t).
Proof.
  assert (exists entry, IDT e = Some entry) as [entry Hentry] by (destruct e; try done; by eexists).
  pose proof (panic_handler_shows (exception_text location unwrap_location selector page_fault_code addr
    (entry_handler entry) i) m s t H1 Hm) as H.
  apply wp_iff in H as ([[] m'] & Hrun & Hserial & Hshow). exists entry, m'.
  split; [done|]. split; [|done]. intros e' He'. rewrite <- He' in Hentry.
  destruct e; simplify_eq/=; destruct e'; by simplify_eq/=.
Qed.

End log.

(** *** Instances *)

#[local] Existing Instances X86Model.x86 X86Model.x86_laws SegmentationModel.segmentation.

(** A machine whose log is open on a screen of three characters. *)
Definition logging_machine : Machine :=
  mkMachine (Some example_writer) false [] 1 no_segments None ∅ (RecursivePageTable.mkCpu None []) None None.

Lemma logging_machine_shows : log_shows logging_machine example_setup example_terminal.
Proof.
  exists example_writer. split; [done|]. split; [done|].
  split; [apply example_represents|apply example_on_grid].
Qed.

(** The writer of [example_writer] writes in color 7; the map is logged in the default color. *)
Definition gray_setup : Setup := with_text example_setup (color_u32 DEFAULT_COLOR).
Definition gray_machine : Machine :=
  set_kwriter (Some (VGAWriter.set_default_text (color_u32 DEFAULT_COLOR) example_writer)) logging_machine.

Lemma gray_machine_shows : log_shows gray_machine gray_setup example_terminal.
Proof.
  eexists. split; [done|]. split; [done|].
  split; [apply represents_text, example_represents|apply example_on_grid].
Qed.

(** The [Debug] names of the region types, as far as the instances need them. *)
Definition example_names (t : MemoryRegionType) : list Z :=
  if decide (t = Usable) then chars "USABLE" else chars "RESERVED".

Definition example_regions : list MemoryRegionInfo :=
  [{| region_base := 0; region_length := 0x1000000; region_type := Reserved |};
   {| region_base := 0x1000000; region_length := 0x8000000; region_type := Usable |}].

Lemma log_ram_map_shows_witness :
  exists m', log_ram_map example_names example_regions gray_machine = Done (tt, m') /\
    only_screen gray_machine m'.
Proof.
  destruct (log_ram_map_shows example_names example_regions gray_machine gray_setup example_terminal)
    as (m' & H & Ho & _); [repeat constructor; by vm_compute|done|apply gray_machine_shows|].
  exists m'. split; [exact H|exact Ho].
Defined.

Lemma warnings_and_errors_shows_witness :
  exists m', kwarn [79; 75] logging_machine = Done (tt, m') /\
    log_shows m' gray_setup (t_string (with_text example_setup 0xFFFF55) [79; 75; 10] example_terminal).
Proof.
  destruct (warnings_and_errors_shows [79; 75] logging_machine example_setup example_terminal
    logging_machine_shows) as [(m' & H & _ & Hs) _].
  exists m'. split; [exact H|exact Hs].
Defined.

Lemma panic_handler_reports_witness :
  exists m', panic_handler [79; 75] logging_machine = Done (tt, m') /\ serial m' = [79; 75; 10].
Proof.
  destruct (panic_handler_reports [79; 75] logging_machine) as (_ & H1 & _).
  destruct (H1 eq_refl example_setup example_terminal logging_machine_shows) as (m' & H & Hs & _).
  exists m'. split; [exact H|exact Hs].
Defined.

(** An alignment check with error code 17, and a selector error code the crate rejects. *)
Lemma exceptions_are_reported_witness :
  (exists m', run_handler (fun _ => [64]) (fun _ => [33]) (fun _ => None) (fun _ => []) (fun _ => [])
      alignment_check_handler {| stack_frame := [70]; error_code := 17; cr2 := 0 |}
      logging_machine = Done (tt, m') /\
    serial m' = chars "panicked at @:" ++ [10] ++ chars "ALIGNMENT CHECK: " ++ [10] ++ chars "F" ++ [10]
                ++ chars " error code: 17" ++ [10]) /\
  (exists m', run_handler (fun _ => [64]) (fun _ => [33]) (fun _ => None) (fun _ => []) (fun _ => [])
      invalid_tss_handler {| stack_frame := [70]; error_code := 0; cr2 := 0 |}
      logging_machine = Done (tt, m') /\
    serial m' = panic_info [33] (chars "called `Option::unwrap()` on a `None` value") ++ [10]).
Proof.
  split.
  - destruct (exceptions_are_reported (fun _ => [64]) (fun _ => [33]) (fun _ => None) (fun _ => [])
      (fun _ => []) alignment_check {| stack_frame := [70]; error_code := 17; cr2 := 0 |}
      logging_machine example_setup example_terminal) as (entry & m' & He & _ & H & Hs & _);
      [done|done|apply logging_machine_shows|].
    injection He as <-. exists m'. split; [exact H|]. rewrite Hs. vm_compute. reflexivity.
  - destruct (exceptions_are_reported (fun _ => [64]) (fun _ => [33]) (fun _ => None) (fun _ => [])
      (fun _ => []) invalid_tss {| stack_frame := [70]; error_code := 0; cr2 := 0 |}
      logging_machine example_setup example_terminal) as (entry & m' & He & _ & H & Hs & _);
      [done|done|apply logging_machine_shows|].
    injection He as <-. exists m'. split; [exact H|exact Hs].
Defined.
