(* ===== verification/KernelProofs.v ===== *)
(** The kernel starts: every step of [kernel_main] completes, the heap is mapped, and the memory
    in use is marked. *)
From Stdlib Require Import Ascii String.
From S2P Require Import Prelude Format X86 Memory FrameAllocation Bitmap BitmapProofs BitmapReach PageTable.
From S2P Require Import PageTableProofs PageTableTheorems Allocators AllocatorsProofs.
From S2P Require Import PagingController PagingInit PagingInitProofs PagingInitSpec PagingOwned.
From S2P Require Import PagingInitTheorems Framebuffer FramebufferProofs VgaText VgaWriter.
From S2P Require Import VgaProofs Interrupts Gdt Kernel LogProofs LogTheorems.

(** ** Memory *)

Definition heap_pages : Z := KERNEL_HEAP_SIZE / PAGE_SIZE.

Lemma heap_pages_eq : heap_pages = 1024.
Proof. reflexivity. Qed.

(** The linear allocator starts at [base] and serves the heap first. *)
Record memory_ok `{X : X86, XL : !X86Laws} (b : Boot) (sp : Z) (entries : list MemoryRegionInfo)
    (base limit : Z) (rest : nat) (region : MemoryRegionInfo) (pb vb offset bottom pages : Z) : Prop := {
  mk_base : page_aligned base /\ 0 <= base;
  mk_paging : paging_ok b sp entries limit rest
    (LinearFrameAllocator.mk (base + heap_pages * PAGE_SIZE)) region pb vb offset bottom pages;
  mk_outside : misc_outside entries base limit;
  mk_low : offset + limit <= 2 ^ 64 - 2 ^ 40;
  mk_bitmap : limit / PAGE_SIZE <= 8 * (memory_end entries / PAGE_SIZE / 8);
  mk_rest : size_in_pages (memory_end entries / PAGE_SIZE / 8)
    + size_in_pages (memory_end entries / PAGE_SIZE / 8 * 2) + 3 * heap_pages <= Z.of_nat rest
}.

(** The address space with the heap. *)
Definition space_with_heap `{X86} (space : Z -> option (Z * PageTableFlags)) (base offset a : Z) :
    option (Z * PageTableFlags) :=
  if in_block (base + offset) heap_pages a then Some (page_base a - offset, flags_rw) else space a.

Section memory.
Context {X : X86} {XL : X86Laws} {G : Segmentation}.

Lemma stack_upper_half b sp entries limit rest lin region pb vb offset bottom pages :
  paging_ok b sp entries limit rest lin region pb vb offset bottom pages -> canonical sp.
Proof.
  intros Hok. pose proof Hok as [_ _ _ _ _ [_ Hall _] [_ Hp] _ [Hsp Hlow] Hst _ _ _ _ _ _].
  apply Exists_exists in Hst as (r & Hin & Hm & _ & Hhi). rewrite Forall_forall in Hall.
  destruct (Hall r) as [_ _ _ _ [_ Hh]].
  { apply list_elem_of_In, filter_In. split; [by apply list_elem_of_In|done]. }
  right. rewrite PAGE_SIZE_eq in *. lia.
Qed.

(** What [build_memory] returns. *)
Record memory_built (entries : list MemoryRegionInfo) (limit base offset : Z)
    (space : Z -> option (Z * PageTableFlags))
    (k : KernelPagingController.KernelPagingController) (env : Env) : Prop := {
  mb_inv : inv limit 0 (KernelPagingController.rec_page_table k) env;
  mb_offset : RecursivePageTable.internal_offset (KernelPagingController.rec_page_table k) = offset;
  mb_frame : base + heap_pages * PAGE_SIZE <= lvl4_frame (KernelPagingController.rec_page_table k)
    /\ lvl4_frame (KernelPagingController.rec_page_table k) + PAGE_SIZE <= limit
    /\ page_aligned (lvl4_frame (KernelPagingController.rec_page_table k));
  mb_next : lvl4_frame (KernelPagingController.rec_page_table k)
    < LinearFrameAllocator.next (allocator env) <= limit;
  mb_mapping a : canonical a -> ~ reserved a ->
    mapping (KernelPagingController.rec_page_table k) (RecursivePageTable.tables env) a
    = space_with_heap space base offset a;
  mb_exhausted : exhausted (KernelPagingController.virt_mem_allocator k);
  mb_virtual : BitmapAllocator.size (VirtualMemoryAllocator.bits (KernelPagingController.virt_mem_allocator k))
    = 16 * (memory_end entries / PAGE_SIZE / 8);
  mb_frames : reachable_wf (BitmapFrameAllocator.bits (KernelPagingController.frame_allocator k));
  mb_size : BitmapAllocator.size (BitmapFrameAllocator.bits (KernelPagingController.frame_allocator k))
    = 8 * (memory_end entries / PAGE_SIZE / 8);
  mb_used i : 0 <= i < 8 * (memory_end entries / PAGE_SIZE / 8) ->
    used (BitmapFrameAllocator.bits (KernelPagingController.frame_allocator k)) i
    = negb (existsb (fun r => region_clears r i) entries)
      || ((base / PAGE_SIZE <=? i) && (i <? LinearFrameAllocator.next (allocator env) / PAGE_SIZE))
}.

(** Where [build_memory] put what it built: the page tables, those of the store [before] apart,
    and the bitmaps of both allocators lie in frames after the heap and before the linear
    allocator's next one. *)
Record memory_placed (base offset : Z) (before : gmap Z PageTable)
    (k : KernelPagingController.KernelPagingController) (env : Env) : Prop := {
  mp_tables : owned offset (base + heap_pages * PAGE_SIZE) before (base + heap_pages * PAGE_SIZE) env;
  mp_frames : bitmap_within offset (base + heap_pages * PAGE_SIZE) (LinearFrameAllocator.next (allocator env))
    (BitmapFrameAllocator.bits (KernelPagingController.frame_allocator k));
  mp_pages : bitmap_within offset (base + heap_pages * PAGE_SIZE) (LinearFrameAllocator.next (allocator env))
    (VirtualMemoryAllocator.bits (KernelPagingController.virt_mem_allocator k))
}.

(** The heap's block can be mapped in the address space of [init_paging]. *)
Lemma heap_block_ok b sp entries base limit rest region pb vb offset bottom pages self (m : gmap Z PageTable) :
  memory_ok b sp entries base limit rest region pb vb offset bottom pages ->
  (forall a, canonical a -> ~ reserved a ->
     mapping self m a = kernel_space b entries region pb vb offset bottom pages a) ->
  base + heap_pages * PAGE_SIZE <= limit ->
  block_ok self m base (base + offset) heap_pages.
Proof.
  intros [[Hal H0] Hpk Hout Hlow _ _] Hm Hlim. pose proof Hpk as [_ (Ho1 & Ho2 & Ho3 & Ho4) _ _ Him _ _ _ _ _ _ _ _ _ _ _].
  cbn [RecursivePageTable.internal_offset] in *. rewrite heap_pages_eq, PAGE_SIZE_eq in *.
  constructor; [done|rewrite PAGE_SIZE_eq; lia|done| | |].
  - unfold page_aligned in *. by rewrite Z.add_mod, Hal, Ho4 by done.
  - apply upper_half_mappable. unfold upper_half. rewrite PAGE_SIZE_eq. lia.
  - intros a Hc Hr Ha%in_block_iff. rewrite PAGE_SIZE_eq in Ha. rewrite Hm by done.
    replace a with (a - offset + offset) by lia.
    eapply kernel_space_outside; [exact Him|exact Hout|lia|lia].
Qed.

(** Marking the frames the linear allocator handed out. *)
Lemma mark_used frames base next size (f : Z -> bool) :
  BitmapProofs.wf frames -> BitmapAllocator.size frames = 8 * size -> 0 <= base <= next ->
  next / PAGE_SIZE <= 8 * size -> (forall i, 0 <= i < 8 * size -> used frames i = f i) ->
  wp (BitmapAllocator.flag_range (base / PAGE_SIZE, next / PAGE_SIZE) true frames)
    (fun '(r, frames') => r = Ok tt /\ BitmapProofs.wf frames' /\
      BitmapAllocator.bitmap_ptr frames' = BitmapAllocator.bitmap_ptr frames /\
      BitmapAllocator.last_allocated frames' = BitmapAllocator.last_allocated frames /\
      BitmapAllocator.size frames' = 8 * size /\
      forall i, 0 <= i < 8 * size -> used frames' i
        = f i || ((base / PAGE_SIZE <=? i) && (i <? next / PAGE_SIZE))).
Proof.
  intros Hw Hs Hb Hn Hf. rewrite PAGE_SIZE_eq in *.
  assert (0 <= base / 4096 <= next / 4096) as Hr
    by (split; [apply Z.div_pos; lia|apply Z.div_le_mono; lia]).
  eapply wp_mono; [apply flag_range_wp; simpl; [done|lia|lia]|].
  intros [r frames'] [-> [W' P' S' L' U']]. do 4 (split; [done|]). split; [congruence|].
  intros i Hi. rewrite U', Hf by lia. unfold flag_range_effect, flag_each_effect. cbn [fst snd].
  destruct (f i); simpl; repeat case_match; try done;
    unfold aligned_start, aligned_end in *;
    pose proof (Z.mod_pos_bound (base / 4096) 8); pose proof (Z.mod_pos_bound (next / 4096) 8);
    pose proof (Z.mod_pos_bound (8 - (base / 4096) mod 8) 8); lia.
Qed.

Lemma built_placed base offset before kpc frames self (env1 env2 : Env) :
  owned offset (base + heap_pages * PAGE_SIZE) before (LinearFrameAllocator.next (allocator env1)) env2 ->
  owned offset (base + heap_pages * PAGE_SIZE) before (base + heap_pages * PAGE_SIZE) env1 ->
  let within := bitmap_within offset (base + heap_pages * PAGE_SIZE) (LinearFrameAllocator.next (allocator env1)) in
  within (BitmapFrameAllocator.bits (KernelPagingController.frame_allocator kpc)) ->
  within (VirtualMemoryAllocator.bits (KernelPagingController.virt_mem_allocator kpc)) ->
  let old := BitmapFrameAllocator.bits (KernelPagingController.frame_allocator kpc) in
  BitmapAllocator.bitmap_ptr frames = BitmapAllocator.bitmap_ptr old ->
  BitmapProofs.wf frames -> BitmapProofs.wf old -> BitmapAllocator.size frames = BitmapAllocator.size old ->
  memory_placed base offset before (KernelPagingController.mk self (BitmapFrameAllocator.mk frames)
    (KernelPagingController.virt_mem_allocator kpc)) env2.
Proof.
  intros [Hv2 [_ Hn2] Ht2] [_ [_ Hn1] _] within [H1 H2] [H3 H4] old Hp Hw Hwo Hs.
  pose proof (wf_size _ Hw). pose proof (wf_size _ Hwo). fold old in H1, H2.
  constructor; cbn [KernelPagingController.frame_allocator KernelPagingController.virt_mem_allocator
    BitmapFrameAllocator.bits]; [|split; lia|split; lia].
  constructor; [done|lia|done].
Qed.

Lemma build_memory_wp b sp entries base limit rest region pb vb offset bottom pages (env : Env) :
  memory_ok b sp entries base limit rest region pb vb offset bottom pages ->
  allocator env = LinearFrameAllocator.mk base ->
  wp (build_memory b sp entries base env) (fun '(r, env') =>
    exists k, r = Ok (k, base + offset) /\
      memory_built entries limit base offset
        (kernel_space b entries region pb vb offset bottom pages) k env' /\
      memory_placed base offset (RecursivePageTable.tables env) k env').
Proof.
  intros Hok Hal. pose proof Hok as [[Hba Hb0] Hpk Hout Hlow Hbm Hrest].
  pose proof Hpk as [_ (Ho1 & Ho2 & Ho3 & Ho4) H47 _ _ _ _ _ _ _ _ _ Hend _ Hroom _].
  cbn [RecursivePageTable.internal_offset] in *.
  destruct Hroom as ([_ Hv] & Hroom & _). simpl in Hv, Hroom.
  pose proof PAGE_SIZE_eq as HP. pose proof heap_pages_eq as Hhp.
  unfold build_memory. fold heap_pages. wp_step. unfold with_allocator at 1. wp_step.
  rewrite Hal. rewrite LinearFrameAllocator.alloc_contiguous_eq; [|unfold phys_valid in *; simpl; lia|lia|exact Hv].
  cbn [wp]. wp_step. wp_step. rewrite virt_new_canonical by by eapply stack_upper_half. cbn [wp].
  wp_step. eapply wp_mono.
  { eapply (init_paging_wp b sp entries limit rest); cbn [allocator RecursivePageTable.set_allocator
      RecursivePageTable.allocator LinearFrameAllocator.next]; exact Hpk. }
  intros [r env1] (kpc & -> & Hinv & Hoff & (Hlo & Hhi & Hfal) & Hm & [Hex Hvs] & Hw & Hs & Hlast & Hu & Hown & Hin1 & Hin2).
  simpl in Hlo. cbn [tables allocator RecursivePageTable.set_allocator RecursivePageTable.tables
    RecursivePageTable.allocator LinearFrameAllocator.next] in Hown, Hin1, Hin2.
  wp_step. wp_step. rewrite virt_new_canonical by (unfold canonical; simpl; lia). cbn [wp].
  wp_step. wp_step. rewrite Hoff. simpl LinearFrameAllocator.next.
  rewrite virt_add_canonical by address. cbn [wp]. wp_step.
  eapply wp_mono.
  { apply wp_wlp_and; cycle 1.
    { assert (owned offset (base + heap_pages * PAGE_SIZE) (RecursivePageTable.tables env)
        (LinearFrameAllocator.next (allocator env1)) env1) as Hown1
        by (destruct Hown as [Hv1 [_ Hn1] Ht1]; by constructor).
      revert Hown1. apply paging_owned, map_contiguous_owned; exact Hoff || lia. }
    apply (map_block_wp _ limit 0 heap_pages).
    - eapply inv_le; [exact Hinv|]. pose proof (bitmap_size entries Hend).
      pose proof (size_in_pages_nonneg (memory_end entries / PAGE_SIZE / 8) ltac:(lia)).
      pose proof (size_in_pages_nonneg (memory_end entries / PAGE_SIZE / 8 * 2) ltac:(lia)). lia.
    - eapply heap_block_ok; [exact Hok|exact Hm|lia].
    - apply flags_not_empty, flags_present. }
  intros [r2 env2] [(-> & Hinv2 & Hmap) Hown2].
  set (self := KernelPagingController.rec_page_table kpc) in *.
  assert (lvl4_frame self < LinearFrameAllocator.next (allocator env2) <= limit) as Hnext.
  { split; [|pose proof (inv_room _ _ _ _ Hinv2) as (_ & H1 & _); lia].
    pose proof (inv_fresh _ _ _ _ Hinv2 [] _ valid_path_nil eq_refl) as H1. simpl in H1.
    unfold lvl4_frame. lia. }
  wp_step. unfold get. cbn [wp]. wp_step. wp_step. eapply wp_mono.
  { eapply (mark_used _ base (LinearFrameAllocator.next (allocator env2))); [exact Hw|exact Hs|lia| |exact Hu].
    rewrite HP in *. pose proof (Z.div_le_mono (LinearFrameAllocator.next (allocator env2)) limit 4096). lia. }
  intros [r3 frames] (-> & Hw3 & Hp3 & Hl3 & Hs3 & Hu3). wp_steps. eexists. split; [done|].
  pose proof (bitmap_size entries Hend). split.
  2: { eapply built_placed; [exact Hown2|exact Hown|exact Hin1|exact Hin2|exact Hp3|done|done|congruence]. }
  constructor; simpl; fold self; try done; [|constructor; [done|lia|unfold u64_bound; lia]].
  intros a Hc Hr. rewrite Hmap, Hm by done. unfold space_with_heap.
  destruct (in_block (base + offset) heap_pages a); [|done]. do 2 f_equal. lia.
Qed.

End memory.

(** ** [init_memory] *)

Section init_memory.
Context {X : X86} {XL : X86Laws} {G : Segmentation} (names : MemoryRegionType -> list Z).

(** The machine after [init_memory]; [k] and [env] are what [build_memory] returned. *)
Record initialized (base offset : Z) (k : KernelPagingController.KernelPagingController) (env : Env)
    (m : Machine) : Prop := {
  in_tables : Kernel.tables m = RecursivePageTable.tables env;
  in_kpc : kpc m = Some (KernelPagingController.mk
    (RecursivePageTable.mk RecursivePageTable.LEVEL4 offset)
    (KernelPagingController.frame_allocator k) (KernelPagingController.virt_mem_allocator k));
  in_cr3 : RecursivePageTable.cr3 (cpu m) = Some (lvl4_frame (KernelPagingController.rec_page_table k));
  in_heap : heap m = Some (base + offset, KERNEL_HEAP_SIZE)
}.

(** The largest usable region starts at [base]. *)
Definition starts_at (entries : list MemoryRegionInfo) (base : Z) : Prop :=
  exists r, max_by compare_lengths (List.filter BitmapFrameAllocator.is_usable entries) = Done (Some r)
    /\ region_base r = base.

Lemma load_built entries limit base offset space k (env : Env) cpu :
  memory_built entries limit base offset space k env -> limit <= 2 ^ 47 -> 0 <= base ->
  RecursivePageTable.load (KernelPagingController.rec_page_table k, cpu)
  = Done (tt, (RecursivePageTable.mk RecursivePageTable.LEVEL4 offset,
      RecursivePageTable.mkCpu (Some (lvl4_frame (KernelPagingController.rec_page_table k)))
        (RecursivePageTable.tlb_flushed cpu))).
Proof.
  intros [Hinv Hoff (Hb & Hl & Hal) _ _ _ _ _ _ _] H47 H0.
  set (self := KernelPagingController.rec_page_table k) in *.
  pose proof (inv_offset _ _ _ _ Hinv) as Ho. destruct (wf_root self (RecursivePageTable.tables env)) as [_ Hc];
    [apply Hinv|].
  rewrite (load_eq self cpu limit); [unfold lvl4_frame; by rewrite Hoff|done|done| |].
  - destruct Ho as (_ & _ & _ & Ho4). unfold lvl4_frame, page_aligned in *.
    replace (RecursivePageTable.lvl4 self)
      with (RecursivePageTable.lvl4 self - RecursivePageTable.internal_offset self
            + RecursivePageTable.internal_offset self) by lia.
    by rewrite Z.add_mod, Hal, Ho4 by done.
  - unfold lvl4_frame in *. rewrite heap_pages_eq, PAGE_SIZE_eq in *. lia.
Qed.

Lemma initialized_kprint base offset k env m m' :
  only_screen m m' -> initialized base offset k env m -> initialized base offset k env m'.
Proof. intros [w ->] []. by constructor. Qed.

Lemma init_memory_wp b sp entries base limit rest region pb vb offset bottom pages m :
  memory_ok b sp entries base limit rest region pb vb offset bottom pages ->
  memory_map b = Some entries -> starts_at entries base -> ready m -> kpc m = None ->
  wp (init_memory names b sp m) (fun '(r, m') => r = Ok tt /\ ready m' /\
    (panic_level m' = panic_level m /\ segments m' = segments m /\ idt m' = idt m /\
     serial m' = serial m ++ chars "PEIS" ++ [13; 10]) /\
    exists k env,
      build_memory b sp entries base (RecursivePageTable.mkEnv (Kernel.tables m) (LinearFrameAllocator.mk base))
        = Done (Ok (k, base + offset), env) /\
      initialized base offset k env m' /\
      memory_built entries limit base offset
        (kernel_space b entries region pb vb offset bottom pages) k env /\
      memory_placed base offset (Kernel.tables m) k env).
Proof.
  intros Hok Hmap (ar & Hmax & Har) Hready Hkpc. pose proof Hok as [[_ Hb0] Hpk _ Hlow _ _].
  pose proof Hpk as [Hhd (Ho1 & Ho2 & Ho3 & Ho4) H47 _ _ _ _ _ _ _ Hreg _ _ _ Hroom _].
  cbn [RecursivePageTable.internal_offset] in *. destruct Hroom as ([_ Hv] & Hroom & _).
  pose proof PAGE_SIZE_eq as HP. pose proof heap_pages_eq as Hhp. simpl in Hv, Hroom.
  assert (0 <= base < limit) as Hb by lia.
  unfold init_memory. rewrite Hmap, Hhd. wp_step. wp_step. cbn [unwrap wp]. wp_step. wp_step. cbn [wp].
  wp_step. eapply wp_mono; [by apply log_ram_map_logs|]. intros [[] m1] [Hr1 [w1 ->]].
  x86_steps. rewrite Hmax. x86_step. rewrite Har. x86_steps. rewrite Z.add_simpl_r.
  eapply wp_mono; [by apply wp_run, (build_memory_wp b sp entries base limit rest region pb vb offset bottom pages)|].
  intros [r env] (Hbuild & k & -> & Hbuilt & Hplaced). wp_steps.
  erewrite load_built by (done || lia). wp_steps.
  unfold serial_println, serial_print. wp_steps. unfold init_heap. wp_steps.
  eapply wp_mono.
  { apply kprint_logs. destruct Hr1 as (w & Hw & Hl & Hwok). by exists w. }
  intros [[] m2] [(w2 & Hw2 & Hl2 & Hok2) [w3 ->]]. wp_steps.
  split; [done|]. split; [by exists w2|]. split; [done|]. exists k, env. split; [exact Hbuild|]. split; [|by split].
  constructor; simpl; try done. by rewrite Hkpc.
Qed.

End init_memory.

(** ** Properties *)

Section properties.
Context {X : X86} {XL : X86Laws} {G : Segmentation} {GL : SegmentationLaws} (names : MemoryRegionType -> list Z).

(** Translation of a mapped address. *)
Lemma mapping_translate self (t : gmap Z PageTable) a f fl :
  PageTableProofs.wf self t -> ~ reserved a -> mapping self t a = Some (f, fl) ->
  phys_valid f -> page_aligned f ->
  RecursivePageTable.translate self t a = Done (Some (f + a mod PAGE_SIZE)).
Proof.
  intros Hwf Hr Hm Hv Hal. unfold mapping in Hm.
  destruct (leaf self t a) as [e|] eqn:He; [|done]. simpl in Hm. injection Hm as Hf _.
  rewrite translate_eq; [by rewrite He, Hf|done|done|]. rewrite He. intros e' [= <-]. by rewrite Hf.
Qed.

(** The heap in the new address space. *)
Lemma heap_translate limit entries base offset space k (env : Env) o :
  memory_built entries limit base offset space k env ->
  page_aligned base -> 0 <= base -> offset + limit <= 2 ^ 64 - 2 ^ 40 -> base + KERNEL_HEAP_SIZE <= limit ->
  0 <= o < KERNEL_HEAP_SIZE ->
  RecursivePageTable.translate (KernelPagingController.rec_page_table k)
    (RecursivePageTable.tables env) (base + offset + o) = Done (Some (base + o)).
Proof.
  intros [Hinv Hoff _ _ Hm _ _ _ _ _] Hal Hb Hlow Hlim Ho.
  pose proof (inv_offset _ _ _ _ Hinv) as (Ho1 & Ho2 & Ho3 & Ho4). rewrite Hoff in *.
  change KERNEL_HEAP_SIZE with 4194304 in *. pose proof PAGE_SIZE_eq as HP.
  assert (canonical (base + offset + o)) as Hc by address.
  assert (~ reserved (base + offset + o)) as Hr by (apply upper_half_not_reserved; lia).
  pose proof (Z.mod_pos_bound (base + offset + o) 4096 ltac:(lia)) as Hmb.
  assert ((base + offset + o) mod 4096 = o mod 4096) as Hmod.
  { unfold page_aligned in *. rewrite Z.add_mod by lia.
    replace ((base + offset) mod 4096) with 0 by (rewrite Z.add_mod, Hal, Ho4 by lia; reflexivity).
    rewrite Z.add_0_l, Z.mod_mod by lia. reflexivity. }
  pose proof (Z.div_mod o 4096 ltac:(lia)) as Hdm.
  assert (page_base (base + offset + o) - offset = base + o / 4096 * 4096) as Hpb
    by (unfold page_base; rewrite HP; lia).
  assert (mapping (KernelPagingController.rec_page_table k) (RecursivePageTable.tables env) (base + offset + o)
    = Some (base + o / 4096 * 4096, flags_rw)) as Hmap.
  { rewrite Hm by done. unfold space_with_heap.
    rewrite (proj2 (in_block_iff _ _ _)) by (rewrite HP, heap_pages_eq; lia). by rewrite Hpb. }
  pose proof (Z.div_pos o 4096 ltac:(lia) ltac:(lia)) as Hdp.
  rewrite (mapping_translate _ _ _ _ _ (inv_wf _ _ _ _ Hinv) Hr Hmap).
  - rewrite HP, Hmod. do 2 f_equal. lia.
  - unfold phys_valid. lia.
  - unfold page_aligned in *. by rewrite Z_mod_plus_full.
Qed.

(** The page table of [build_memory], by its fields. *)
Lemma built_self limit entries base offset space k (env : Env) :
  memory_built entries limit base offset space k env ->
  RecursivePageTable.mk (lvl4_frame (KernelPagingController.rec_page_table k) + offset) offset
  = KernelPagingController.rec_page_table k.
Proof.
  intros [_ <- _ _ _ _ _ _ _ _]. unfold lvl4_frame.
  destruct (KernelPagingController.rec_page_table k). simpl. f_equal. lia.
Qed.

(** The frames between [base] and the linear allocator's next one are used. *)
Lemma built_used limit entries base offset space k (env : Env) i :
  memory_built entries limit base offset space k env ->
  0 <= base -> limit / PAGE_SIZE <= 8 * (memory_end entries / PAGE_SIZE / 8) ->
  base <= i * PAGE_SIZE < LinearFrameAllocator.next (allocator env) ->
  0 <= i < 8 * (memory_end entries / PAGE_SIZE / 8) /\
  used (BitmapFrameAllocator.bits (KernelPagingController.frame_allocator k)) i = true.
Proof.
  intros [Hinv _ _ Hn _ _ _ _ _ Hu] Hb Hlim Hi.
  pose proof (inv_room _ _ _ _ Hinv) as ((Hal & _) & _). unfold page_aligned in Hal.
  set (nx := LinearFrameAllocator.next (allocator env)) in *. rewrite PAGE_SIZE_eq in *.
  pose proof (Z.div_mod nx 4096 ltac:(lia)) as Hdm.
  pose proof (Z.div_le_mono nx limit 4096 ltac:(lia) ltac:(lia)) as Hle.
  assert (base / 4096 <= i) as Hl by (apply Z.div_le_upper_bound; lia).
  assert (i < nx / 4096) as Hh by lia. assert (0 <= i) as H0 by lia.
  split; [lia|]. rewrite Hu by lia. apply orb_true_intro. right.
  apply andb_true_intro. split; [by apply Z.leb_le|by apply Z.ltb_lt].
Qed.

Lemma built_frame_used limit entries base offset space k (env : Env) :
  memory_built entries limit base offset space k env ->
  0 <= base -> limit / PAGE_SIZE <= 8 * (memory_end entries / PAGE_SIZE / 8) ->
  used (BitmapFrameAllocator.bits (KernelPagingController.frame_allocator k))
    (lvl4_frame (KernelPagingController.rec_page_table k) / PAGE_SIZE) = true.
Proof.
  intros Hb H0 Hlim. pose proof Hb as [_ _ (Hf1 & _ & Hf3) Hn _ _ _ _ _ _].
  eapply (built_used _ _ base); [exact Hb|exact H0|exact Hlim|].
  unfold page_aligned in Hf3. rewrite heap_pages_eq, PAGE_SIZE_eq in *.
  pose proof (Z.div_mod (lvl4_frame (KernelPagingController.rec_page_table k)) 4096 ltac:(lia)). lia.
Qed.

(** The frame of an address below the linear allocator's next one is used. *)
Lemma built_in_use limit entries base offset space k (env : Env) x :
  memory_built entries limit base offset space k env -> page_aligned base ->
  0 <= base -> limit / PAGE_SIZE <= 8 * (memory_end entries / PAGE_SIZE / 8) ->
  base <= x < LinearFrameAllocator.next (allocator env) ->
  used (BitmapFrameAllocator.bits (KernelPagingController.frame_allocator k)) (x / PAGE_SIZE) = true.
Proof.
  intros Hb Hba H0 Hlim Hx. eapply (built_used _ _ base); [exact Hb|exact H0|exact Hlim|].
  unfold page_aligned in Hba. rewrite PAGE_SIZE_eq in *.
  pose proof (Z.div_mod x 4096 ltac:(lia)). pose proof (Z.mod_pos_bound x 4096 ltac:(lia)).
  pose proof (Z.div_mod base 4096 ltac:(lia)). pose proof (Z.div_le_mono base x 4096 ltac:(lia) ltac:(lia)). lia.
Qed.

(** Everything [init_memory] put into memory lies in frames in use. *)
Definition all_in_use (base offset : Z) (before after : gmap Z PageTable)
    (k : KernelPagingController.KernelPagingController) : Prop :=
  let frames := BitmapFrameAllocator.bits (KernelPagingController.frame_allocator k) in
  let pages := VirtualMemoryAllocator.bits (KernelPagingController.virt_mem_allocator k) in
  let in_use x := used frames (x / PAGE_SIZE) = true in
  (forall x, base <= x < base + KERNEL_HEAP_SIZE -> in_use x) /\
  (forall a, is_Some (after !! a) -> before !! a = None -> in_use (a - offset)) /\
  (forall x, 0 <= x < Z.of_nat (length (BitmapAllocator.bitmap frames)) ->
     in_use (BitmapAllocator.bitmap_ptr frames - offset + x)) /\
  (forall x, 0 <= x < Z.of_nat (length (BitmapAllocator.bitmap pages)) ->
     in_use (BitmapAllocator.bitmap_ptr pages - offset + x)).

Lemma built_all_in_use limit entries base offset space before k (env : Env) :
  memory_built entries limit base offset space k env -> memory_placed base offset before k env ->
  page_aligned base -> 0 <= base -> limit / PAGE_SIZE <= 8 * (memory_end entries / PAGE_SIZE / 8) ->
  all_in_use base offset before (RecursivePageTable.tables env) k.
Proof.
  intros Hb [[_ [_ Hn] Ht] [Hf1 Hf2] [Hp1 Hp2]] Hba H0 Hlim. unfold all_in_use. cbv zeta.
  change KERNEL_HEAP_SIZE with (heap_pages * PAGE_SIZE).
  assert (0 <= heap_pages * PAGE_SIZE) by (rewrite PAGE_SIZE_eq, heap_pages_eq; lia).
  split_and!; intros x Hx; [| |eapply built_in_use; try done; lia..].
  - eapply built_in_use; try done. lia.
  - intros Hnew. destruct (Ht x Hx) as [[t Hold]|Hin]; [congruence|].
    eapply built_in_use; try done. lia.
Qed.

(** A frame that is free is usable memory, and not the heap's. *)
Lemma built_free limit entries base offset space k (env : Env) i :
  memory_built entries limit base offset space k env ->
  page_aligned base -> 0 <= base ->
  Forall (fun r => region_type r = Usable -> page_aligned (region_base r)) entries ->
  limit / PAGE_SIZE <= 8 * (memory_end entries / PAGE_SIZE / 8) ->
  0 <= i < 8 * (memory_end entries / PAGE_SIZE / 8) ->
  used (BitmapFrameAllocator.bits (KernelPagingController.frame_allocator k)) i = false ->
  frame_usable entries i /\ ((i + 1) * PAGE_SIZE <= base \/ base + KERNEL_HEAP_SIZE <= i * PAGE_SIZE).
Proof.
  intros Hb Hba H0 Hal Hlim Hi Hfree. pose proof Hb as [_ _ (Hf & _ & _) Hn _ _ _ _ _ Hu]. split.
  - apply region_clears_usable; [done|]. rewrite Hu in Hfree by done.
    apply orb_false_elim in Hfree as [Hc _]. by apply negb_false_iff in Hc.
  - destruct (Z_lt_le_dec (i * PAGE_SIZE) base) as [Hlt|Hge].
    + left. unfold page_aligned in Hba. rewrite PAGE_SIZE_eq in *.
      pose proof (Z.div_mod base 4096 ltac:(lia)). lia.
    + right. change KERNEL_HEAP_SIZE with (heap_pages * PAGE_SIZE).
      destruct (Z_lt_le_dec (i * PAGE_SIZE) (base + heap_pages * PAGE_SIZE)) as [Hlt|]; [|done].
      destruct (built_used limit entries base offset space k env i) as [_ Hused]; try done; [lia|].
      congruence.
Qed.

(** C3: [init_memory] succeeds and leaves the kernel with its memory: CR3 points to the new
    level-4 table; in its address space the heap's 4 MiB are mapped, writable, to the start of the
    largest usable region, and the rest is [kernel_space]. No frame that is in use is free in the
    frame allocator: the heap, the level-4 table, every page table that was created and the
    bitmaps of both allocators lie in frames marked as used; and every frame still free is usable
    memory outside the heap. *)
Theorem init_memory_correct b sp entries base limit rest region pb vb offset bottom pages m
    (Hok : memory_ok b sp entries base limit rest region pb vb offset bottom pages)
    (Hmap : memory_map b = Some entries) (Hstart : starts_at entries base)
    (Hal : Forall (fun r => region_type r = Usable -> page_aligned (region_base r)) entries)
    (Hready : ready m) (Hkpc : kpc m = None) :
  exists m' k f, init_memory names b sp m = Done (Ok tt, m') /\
    kpc m' = Some k /\ RecursivePageTable.cr3 (cpu m') = Some f /\
    heap m' = Some (base + offset, KERNEL_HEAP_SIZE) /\
    let self := RecursivePageTable.mk (f + offset) offset in
    let frames := BitmapFrameAllocator.bits (KernelPagingController.frame_allocator k) in
    (forall a, canonical a -> ~ reserved a -> mapping self (Kernel.tables m') a
       = space_with_heap (kernel_space b entries region pb vb offset bottom pages) base offset a) /\
    (forall o, 0 <= o < KERNEL_HEAP_SIZE ->
       RecursivePageTable.translate self (Kernel.tables m') (base + offset + o) = Done (Some (base + o))) /\
    used frames (f / PAGE_SIZE) = true /\
    all_in_use base offset (Kernel.tables m) (Kernel.tables m') k /\
    (forall i, 0 <= i < BitmapAllocator.size frames -> used frames i = false ->
       frame_usable entries i /\
       ((i + 1) * PAGE_SIZE <= base \/ base + KERNEL_HEAP_SIZE <= i * PAGE_SIZE)).
Proof.
  pose proof (init_memory_wp names b sp entries base limit rest region pb vb offset bottom pages m
    Hok Hmap Hstart Hready Hkpc) as H.
  apply wp_iff in H as ([r m'] & -> & -> & _ & _ & k0 & env & _ & [Ht Hk Hc Hh] & Hb & Hpl).
  pose proof Hok as [[Hba Hb0] [_ (_ & Ho2 & _) H47 _ _ _ _ _ _ _ _ _ _ _ _ _] _ Hlow Hbit _].
  exists m'. do 2 eexists. split; [done|]. split; [exact Hk|]. split; [exact Hc|]. split; [exact Hh|].
  cbn [KernelPagingController.frame_allocator]. rewrite (built_self _ _ _ _ _ _ _ Hb), Ht.
  split; [apply Hb|]. split.
  { intros o Ho. eapply heap_translate; [exact Hb|exact Hba|exact Hb0|exact Hlow| |exact Ho].
    destruct Hb as [_ _ (H1 & H2 & _) _ _ _ _ _ _ _].
    change KERNEL_HEAP_SIZE with (heap_pages * PAGE_SIZE). rewrite PAGE_SIZE_eq in *. lia. }
  split; [eapply built_frame_used; [exact Hb|exact Hb0|exact Hbit]|].
  split; [exact (built_all_in_use _ _ _ _ _ _ k0 env Hb Hpl Hba Hb0 Hbit)|].
  intros i Hi Hu. rewrite (mb_size _ _ _ _ _ _ _ Hb) in Hi.
  by eapply built_free.
Qed.

(** ** The start of the kernel *)

(** The first framebuffer of the boot loader: 32 bits a pixel, at least one cell, and black
    below the last row of text. *)
Record screen_ok (bf : BootFramebuffer) : Prop := {
  sc_bpp : fb_bpp bf = 32;
  sc_width : 8 <= fb_width bf < u64_bound;
  sc_height : 16 <= fb_height bf < u64_bound;
  sc_area : fb_width bf * fb_height bf < u64_bound;
  sc_memory : fb_width bf * fb_height bf <= Z.of_nat (length (fb_memory bf));
  sc_strip x y : 0 <= x < fb_width bf -> 16 * (fb_height bf / 16) <= y < fb_height bf ->
    fb_memory bf !! Z.to_nat (x + y * fb_width bf) = Some (color_u32 Black)
}.

Lemma init_kwriter_wp info bf fbs (m : Machine) :
  framebuffers info = Some (bf :: fbs) -> screen_ok bf -> kwriter m = None ->
  kwriter_locked m = false ->
  wp (init_kwriter info m) (fun '(_, m') => ready m' /\ exists w,
    m' = set_panic_level ((panic_level m + 1) mod u8_bound) (set_kwriter w m)).
Proof.
  intros Hfb [Hbpp Hw Hh Ha Hmem Hs] Hk Hl. unfold init_kwriter. rewrite Hfb. cbn [unwrap].
  wp_steps. cbn [head hd_error unwrap]. wp_steps.
  pose proof (framebuffer_new_eq bf) as Hnew. rewrite Hbpp in Hnew. cbn [Z.eqb Pos.eqb] in Hnew.
  destruct Hnew as (fb & -> & Hwf & Hdim & Hpix); [unfold is_u64; lia|unfold is_u64; lia|done|done|].
  cbn [wp unwrap_result]. wp_steps. rewrite Hk. split; [|by eexists].
  eexists. split; [done|]. split; [exact Hl|].
  apply new_writer_ok; [done|unfold LinearFramebuffer.width; rewrite Hdim; simpl; lia|
    unfold LinearFramebuffer.height; rewrite Hdim; simpl; lia|].
  intros x y Hon Hy. rewrite Hpix by done. unfold on_screen, LinearFramebuffer.width,
    LinearFramebuffer.height in *. rewrite Hdim in *. simpl in *. apply Hs; lia.
Qed.

(** A machine before its start, on a screen, with the boot loader's name and a stack for
    double faults. *)
Record start_ok (info : BootInfo) (m : Machine) : Prop := {
  st_screen : exists bf fbs, framebuffers info = Some (bf :: fbs) /\ screen_ok bf;
  st_loader : is_Some (bootloader_info info);
  st_kwriter : kwriter m = None;
  st_unlocked : kwriter_locked m = false;
  st_level : panic_level m = 0;
  st_stack : canonical (double_fault_stack info);
  st_stack_end : canonical (double_fault_stack info + STACK_SIZE);
  st_tss : TSS (segments m) = None;
  st_gdt : GDT (segments m) = None
}.

(** The machine when [kernel_main] comes to [init_memory]. *)
Record prepared (info : BootInfo) (m m' : Machine) : Prop := {
  pr_ready : ready m';
  pr_level : panic_level m' = 1;
  pr_idt : idt m' = Some IDT;
  pr_gdt : gdt_ready (segments m') (double_fault_tss (double_fault_stack info + STACK_SIZE));
  pr_kpc : kpc m' = kpc m;
  pr_serial : serial m' = serial m
}.

(** What [kernel_main] does from [init_memory] on. *)
Definition start_memory (info : BootInfo) (sp : Z) : M Machine unit :=
  let! r := init_memory names (boot info) sp in
  match r with Err _ => throw ExplicitPanic | Ok _ => serial_println (chars "Hi") end.

Lemma kprint_done text m :
  ready m -> exists w, kprint text m = Done (tt, set_kwriter w m) /\ ready (set_kwriter w m).
Proof.
  intros Hm. pose proof (kprint_logs text m Hm) as H.
  apply wp_iff in H as ([[] m'] & Hrun & Hr & [w ->]). by exists w.
Qed.

(** The log is open as long as the writer is not changed. *)
Lemma ready_same m m' :
  ready m -> kwriter m' = kwriter m -> kwriter_locked m' = kwriter_locked m -> ready m'.
Proof. intros (w & Hw & Hl & Hok) Hk Hlk. exists w. split; [congruence|]. split; [congruence|done]. Qed.

Lemma kernel_main_reaches info sp m :
  start_ok info m ->
  exists m', prepared info m m' /\ kernel_main names info sp m = start_memory info sp m'.
Proof.
  intros [(bf & fbs & Hfb & Hscreen) [[name version] Hinfo] Hk Hl Hlevel HS HS' HT HG].
  pose proof (init_kwriter_wp info bf fbs m Hfb Hscreen Hk Hl) as H.
  apply wp_iff in H as ([[] m1] & Hrun1 & Hr1 & [w1 ->]).
  set (m1 := set_panic_level _ _) in *.
  destruct (kprint_done ((chars "Kermol was loaded using " ++ name ++ [32] ++ version) ++ [10]) m1 Hr1)
    as (w2 & Hrun2 & Hr2).
  pose proof (init_gdt_wp (double_fault_stack info) (segments m) HS HS' HT HG) as H.
  apply wp_iff in H as ([[] seg] & Hrun3 & Hgdt).
  set (m3 := set_segments seg (set_kwriter w2 m1)).
  destruct (kprint_done (chars "Global Descriptor Table initialized" ++ [10]) m3) as (w4 & Hrun4 & Hr4);
    [by eapply ready_same|]. set (m4 := set_idt IDT (set_kwriter w4 m3)).
  destruct (kprint_done (chars "Interrupt Descriptor Table loaded, Exceptions are now enabled" ++ [10]) m4)
    as (w5 & Hrun5 & Hr5); [by eapply ready_same|].
  exists (set_kwriter w5 m4). split; [constructor; try done; simpl; by rewrite Hlevel|].
  unfold kernel_main. erewrite bind_done by exact Hrun1. unfold bind at 1, lift at 1.
  rewrite Hinfo. cbn [unwrap obind]. erewrite bind_done by exact Hrun2.
  unfold bind at 1, with_segments, zoom. change (segments (set_kwriter w2 m1)) with (segments m).
  rewrite Hrun3. cbn [obind]. fold m3. erewrite bind_done by exact Hrun4.
  unfold bind at 1, load_idt. unfold bind at 1, get, put. cbn [obind]. fold m4.
  erewrite bind_done by exact Hrun5. reflexivity.
Qed.

(** The machine when [kernel_main] comes to its loop. *)
Record booted (info : BootInfo) (base offset : Z) (m m' : Machine) : Prop := {
  bo_ready : ready m';
  bo_level : panic_level m' = 1;
  bo_idt : idt m' = Some IDT;
  bo_gdt : gdt_ready (segments m') (double_fault_tss (double_fault_stack info + STACK_SIZE));
  bo_heap : heap m' = Some (base + offset, KERNEL_HEAP_SIZE);
  bo_kpc : is_Some (kpc m');
  bo_serial : serial m' = serial m ++ chars "PEIS" ++ [13; 10] ++ chars "Hi" ++ [13; 10]
}.

Lemma kernel_main_boots info sp entries base limit rest region pb vb offset bottom pages m :
  memory_ok (boot info) sp entries base limit rest region pb vb offset bottom pages ->
  memory_map (boot info) = Some entries -> starts_at entries base -> start_ok info m -> kpc m = None ->
  exists m', kernel_main names info sp m = Done (tt, m') /\ booted info base offset m m'.
Proof.
  intros Hok Hmap Hstart Hm Hkpc.
  destruct (kernel_main_reaches info sp m Hm) as (m1 & [Hr Hl Hi Hg Hk Hs] & ->).
  assert (kpc m1 = None) as Hk1 by congruence.
  pose proof (init_memory_wp names (boot info) sp entries base limit rest region pb vb offset bottom
    pages m1 Hok Hmap Hstart Hr Hk1) as H.
  apply wp_iff in H as ([r m2] & Hrun & -> & Hr2 & (Hp2 & Hg2 & Hi2 & Hs2) & k & env & _ & [_ Hkpc2 _ Hheap] & _).
  unfold start_memory. erewrite bind_done by exact Hrun. eexists. split; [reflexivity|].
  constructor; simpl; try congruence; [exact Hr2|by rewrite Hkpc2|].
  by rewrite Hs2, Hs, <- !app_assoc.
Qed.

(** C13: the kernel starts. With a 32-bit framebuffer and the boot information [init_memory]
    asks for, every step of [kernel_main] completes without a panic: the panic level is
    raised once, the descriptor tables are loaded, memory is initialized, the serial port
    got the two lines written to it, and the log is open for more. *)
Theorem kernel_boots info sp entries base limit rest region pb vb offset bottom pages m
    (Hok : memory_ok (boot info) sp entries base limit rest region pb vb offset bottom pages)
    (Hmap : memory_map (boot info) = Some entries) (Hstart : starts_at entries base)
    (Hm : start_ok info m) (Hkpc : kpc m = None) :
  exists m', kernel_main names info sp m = Done (tt, m') /\ ready m' /\
    panic_level m' = 1 /\ idt m' = Some IDT /\
    gdt_ready (segments m') (double_fault_tss (double_fault_stack info + STACK_SIZE)) /\
    heap m' = Some (base + offset, KERNEL_HEAP_SIZE) /\ is_Some (kpc m') /\
    serial m' = serial m ++ chars "PEIS" ++ [13; 10] ++ chars "Hi" ++ [13; 10].
Proof.
  destruct (kernel_main_boots info sp entries base limit rest region pb vb offset bottom pages m)
    as (m' & Hrun & []); [done..|]. exists m'. by split_and!.
Qed.

(** ** Starts that fail *)

Lemma init_memory_no_usable b sp entries hhdm m :
  memory_map b = Some entries -> hhdm_offset b = Some hhdm -> canonical hhdm ->
  Forall region_ok entries -> Forall (fun r => region_type r <> Usable) entries -> ready m ->
  wp (init_memory names b sp m) (fun '(r, m') =>
    r = Err AllocationError /\ ready m' /\ only_screen m m').
Proof.
  intros Hmap Hhd Hc Hok Hno Hm. unfold init_memory. rewrite Hmap, Hhd. cbn [unwrap]. wp_step. wp_step.
  cbn [wp]. wp_step. wp_step. cbn [wp]. wp_step.
  eapply wp_mono; [by apply log_ram_map_logs|]. intros [[] m1] [Hr1 Ho1]. x86_steps.
  replace (List.filter BitmapFrameAllocator.is_usable entries) with (@nil MemoryRegionInfo).
  { cbn [max_by]. by wp_steps. }
  symmetry. clear Hmap Hok. induction Hno as [|r l Hr _ IH]; [done|]. cbn [List.filter].
  replace (BitmapFrameAllocator.is_usable r) with false; [done|].
  unfold BitmapFrameAllocator.is_usable. by rewrite bool_decide_eq_false_2.
Qed.


End properties.

(** *** Instances *)

#[local] Existing Instances X86Model.x86 X86Model.x86_laws.
#[local] Existing Instances SegmentationModel.segmentation SegmentationModel.segmentation_laws.

(** A machine before the kernel starts. *)
Definition reset_machine : Machine :=
  loaded_machine no_segments ∅.

Definition example_info : BootInfo := {|
  boot := example_boot;
  framebuffers := Some [{| fb_bpp := 32; fb_width := 24; fb_height := 20; fb_memory := replicate 480 0 |}];
  bootloader_info := Some (chars "Limine", chars "9.0");
  double_fault_stack := 0xFFFFFFFF80003000
|}.

Lemma example_ready : ready logging_machine.
Proof.
  exists example_writer. split; [done|]. split; [done|]. exists example_setup, example_terminal.
  split; [apply example_represents|apply example_on_grid].
Qed.

Lemma example_memory_ok :
  memory_ok example_boot boot_sp boot_map 0x1000000 0x9000000 (Z.to_nat 5000) boot_kernel_region
    0x9000000 0xFFFFFFFF80000000 boot_offset boot_bottom 16.
Proof.
  constructor.
  - done.
  - apply example_paging_ok_at; [by right|lia].
  - apply example_outside.
  - done.
  - done.
  - done.
Qed.

Lemma example_starts_at : starts_at boot_map 0x1000000.
Proof. eexists. split; [vm_compute; reflexivity|done]. Qed.

Lemma example_aligned :
  Forall (fun r => region_type r = Usable -> page_aligned (region_base r)) boot_map.
Proof. repeat constructor. Qed.

Lemma example_screen_ok :
  screen_ok {| fb_bpp := 32; fb_width := 24; fb_height := 20; fb_memory := replicate 480 0 |}.
Proof.
  constructor; try done. cbn [fb_width fb_height fb_memory]. intros x y Hx Hy.
  apply lookup_replicate_2. change (20 / 16) with 1 in Hy. lia.
Qed.

Lemma init_memory_correct_witness :
  exists m', init_memory example_names example_boot boot_sp logging_machine = Done (Ok tt, m') /\
    heap m' = Some (boot_offset + 0x1000000, KERNEL_HEAP_SIZE).
Proof.
  destruct (init_memory_correct example_names example_boot boot_sp boot_map 0x1000000 0x9000000
    (Z.to_nat 5000) boot_kernel_region 0x9000000 0xFFFFFFFF80000000 boot_offset boot_bottom 16
    logging_machine example_memory_ok eq_refl example_starts_at example_aligned example_ready eq_refl)
    as (m' & k & f & H & _ & _ & Hh & _).
  exists m'. split; [exact H|exact Hh].
Defined.

Lemma example_start_ok (b : Boot) :
  start_ok {| boot := b; framebuffers := framebuffers example_info;
              bootloader_info := bootloader_info example_info;
              double_fault_stack := double_fault_stack example_info |} reset_machine.
Proof.
  constructor; try done; [|right; by vm_compute|right; by vm_compute].
  do 2 eexists. split; [reflexivity|apply example_screen_ok].
Qed.

Lemma kernel_boots_witness :
  exists m', kernel_main example_names example_info boot_sp reset_machine = Done (tt, m') /\
    serial m' = [80; 69; 73; 83; 13; 10; 72; 105; 13; 10].
Proof.
  destruct (kernel_boots example_names example_info boot_sp boot_map 0x1000000 0x9000000
    (Z.to_nat 5000) boot_kernel_region 0x9000000 0xFFFFFFFF80000000 boot_offset boot_bottom 16
    reset_machine example_memory_ok eq_refl example_starts_at (example_start_ok example_boot) eq_refl)
    as (m' & H & _ & _ & _ & _ & _ & _ & Hs).
  exists m'. split; [exact H|exact Hs].
Defined.

(** A boot loader that reports reserved memory only. *)
Definition boot_without_memory : Boot := {|
  limine_reqs_start := 0; text_start := 0; rodata_start := 0; data_start := 0; elf_end := 0;
  kernel_address := None; hhdm_offset := Some boot_offset;
  memory_map := Some [{| region_base := 0; region_length := 0x1000000; region_type := Reserved |}]
|}.

