(* ===== verification/AfterBoot.v ===== *)
(** The kernel after its start: what its handlers report, what its paging controller can still
    do through the page tables that are loaded, and what becomes of its memory. *)
From Stdlib Require Import Ascii String.
From S2P Require Import Prelude Format X86 Memory FrameAllocation Bitmap PageTable PageTableProofs Mmu.
From S2P Require Import PageTableSpec Allocators AllocatorsProofs PagingController PagingInit PagingInitProofs.
From S2P Require Import PagingInitSpec PagingInitTheorems VgaText VgaWriter VgaProofs Interrupts Gdt.
From S2P Require Import Kernel LogProofs LogTheorems KernelProofs AllocatedMemory AllocatedMemoryProofs.
From S2P Require Import BitmapProofs BitmapReach AllocatedMemoryReach.

Section controller.
Context {X : X86} {XL : X86Laws}.

(** The controller's operations where no table is at the root's address [v]. *)
Context (k : KernelPagingController.KernelPagingController) (view : gmap Z PageTable) (v : Z).
Context (Hroot : RecursivePageTable.lvl4 (KernelPagingController.rec_page_table k) = v).
Context (Hview : view !! v = None).

Lemma controller_map_faults from to pages flags :
  ~ reserved to -> 0 < pages < 2 ^ 40 -> phys_valid from -> canonical to ->
  KernelPagingController.map from to pages flags (KernelPagingController.mkState k view) = Faulted v.
Proof.
  intros Hr Hp Hf Hc. unfold KernelPagingController.map, paging, bind at 1.
  unfold KernelPagingController.with_page_table, bind at 1, get at 1. cbn [obind]. unfold zoom.
  rewrite map_contiguous_faults; cbn; [by rewrite Hroot|by rewrite Hroot|done..].
Qed.

Lemma controller_unmap_faults a pages :
  0 < pages < 2 ^ 40 -> canonical a ->
  KernelPagingController.unmap a pages (KernelPagingController.mkState k view) = Faulted v.
Proof.
  intros Hp Hc. unfold KernelPagingController.unmap, paging, bind at 1.
  unfold KernelPagingController.with_page_table, bind at 1, get at 1. cbn [obind]. unfold zoom.
  rewrite unmap_contiguous_faults; cbn; [by rewrite Hroot|by rewrite Hroot|done..].
Qed.

End controller.

Section after_boot.
Context {X : X86} {XL : X86Laws} {G : Segmentation} {GL : SegmentationLaws} (names : MemoryRegionType -> list Z).

(** C8: after [init_memory] the controller no longer finds its page tables. In the table that
    is loaded the recursive address of the entry 510 leads to the level-4 table, but
    [LEVEL4], where the controller's record points, never does; and where nothing is mapped
    at [LEVEL4], every request to map, unmap or translate faults there, at its first access. *)
Theorem controller_loses_its_tables b sp entries base limit rest region pb vb offset bottom pages m
    (Hok : memory_ok b sp entries base limit rest region pb vb offset bottom pages)
    (Hmap : memory_map b = Some entries) (Hstart : starts_at entries base)
    (Hready : ready m) (Hkpc : kpc m = None) :
  exists m' k f, init_memory names b sp m = Done (Ok tt, m') /\
    kpc m' = Some k /\ RecursivePageTable.cr3 (cpu m') = Some f /\
    KernelPagingController.rec_page_table k = RecursivePageTable.mk RecursivePageTable.LEVEL4 offset /\
    let self := RecursivePageTable.mk (f + offset) offset in
    let memory := Kernel.tables m' in
    mmu self memory RECURSIVE_LEVEL4 = Some (f + offset) /\
    mmu self memory RecursivePageTable.LEVEL4 <> Some (f + offset) /\
    forall view, sees self memory view -> mmu self memory RecursivePageTable.LEVEL4 = None ->
      let s := KernelPagingController.mkState k view in
      (forall from to n flags, ~ reserved to -> 0 < n < 2 ^ 40 -> phys_valid from -> canonical to ->
         KernelPagingController.map from to n flags s = Faulted RecursivePageTable.LEVEL4) /\
      (forall a n, 0 < n < 2 ^ 40 -> canonical a ->
         KernelPagingController.unmap a n s = Faulted RecursivePageTable.LEVEL4) /\
      (forall a, RecursivePageTable.translate (KernelPagingController.rec_page_table k) view a
         = Faulted RecursivePageTable.LEVEL4).
Proof.
  pose proof (init_memory_wp names b sp entries base limit rest region pb vb offset bottom pages m
    Hok Hmap Hstart Hready Hkpc) as H.
  destruct (proj1 (wp_iff _ _) H) as ([r m'] & Hrun & -> & _ & _ & k0 & env & _ & [Ht Hk Hc _] & Hb & _).
  clear H. exists m'. do 2 eexists. split; [exact Hrun|]. split; [exact Hk|]. split; [exact Hc|].
  cbn [KernelPagingController.rec_page_table]. split; [done|]. set (self := RecursivePageTable.mk _ offset). set (memory := Kernel.tables _).
  assert (self = KernelPagingController.rec_page_table k0) as Hself by by eapply built_self.
  assert (PageTableProofs.wf self memory) as Hwf.
  { rewrite Hself. unfold memory. rewrite Ht. destruct Hb as [Hinv _ _ _ _ _ _ _ _ _]. apply Hinv. }
  split; [exact (mmu_recursive self memory Hwf)|].
  split; [exact (mmu_LEVEL4_not_root self memory Hwf)|].
  intros view Hs Hnone. pose proof (sees_unmapped _ _ _ _ Hs Hnone) as Hv. split_and!.
  - intros from to n flags Hr Hn Hf Hto. by apply controller_map_faults.
  - intros a n Hn Ha. by apply controller_unmap_faults.
  - intros a. by apply translate_faults.
Qed.

(** C14: the started kernel reports exceptions. After [kernel_main] the descriptor table it
    loaded has a different entry for every exception but the machine check, and the entry's handler,
    run on the machine [kernel_main] leaves, finishes: its text is on the serial port after
    the two lines of the start, and in light red on the screen after what the log shows. *)
Theorem booted_kernel_reports_exceptions location unwrap_location selector page_fault_code addr
    info sp entries base limit rest region pb vb offset bottom pages m
    (Hok : memory_ok (boot info) sp entries base limit rest region pb vb offset bottom pages)
    (Hmap : memory_map (boot info) = Some entries) (Hstart : starts_at entries base)
    (Hm : start_ok info m) (Hkpc : kpc m = None) :
  exists m' s t, _start names info sp m = Done (tt, m') /\
    idt m' = Some IDT /\ log_shows m' s t /\ IDT machine_check = None /\
    forall e i, e <> machine_check -> exists entry m'', IDT e = Some entry /\
      (forall e', IDT e' = Some entry -> e' = e) /\
      let text := exception_text location unwrap_location selector page_fault_code addr
        (entry_handler entry) i in
      run_handler location unwrap_location selector page_fault_code addr (entry_handler entry) i m'
        = Done (tt, m'') /\
      serial m'' = serial m ++ chars "PEIS" ++ [13; 10] ++ chars "Hi" ++ [13; 10] ++ text ++ [10] /\
      log_shows m'' (with_text s (color_u32 LightRed))
        (t_string (with_text s (color_u32 LightRed)) (text ++ [10]) t).
Proof.
  destruct (kernel_main_boots names info sp entries base limit rest region pb vb offset bottom pages m)
    as (m' & Hrun & [Hready Hlevel Hidt _ _ _ Hserial]); [done..|].
  destruct Hready as (w & Hw & Hl & s & t & Hrep & Hg).
  assert (log_shows m' s t) as Hlog by by exists w.
  exists m', s, t. do 4 (split; [done|]). intros e i He.
  destruct (exceptions_are_reported location unwrap_location selector page_fault_code addr e i m' s t
    He Hlevel Hlog) as (entry & m'' & Hentry & Hown & Hh & Hs & Hshow). exists entry, m''.
  split; [exact Hentry|]. split; [exact Hown|]. split; [exact Hh|]. split; [by rewrite Hs, Hserial, <- !app_assoc|exact Hshow].
Qed.

(** C15: the started kernel has no memory to give, and loses what it tries to give. From the
    controller [init_memory] leaves, whatever memory objects are asked for and dropped, in any
    order: no request ever succeeds, frames in use stay in use, and a request that finds free
    frames, usable memory outside the heap, reports [AllocationError] with these frames in use
    from then on. *)
Theorem started_kernel_loses_memory b sp entries base limit rest region pb vb offset bottom pages m
    (Hok : memory_ok b sp entries base limit rest region pb vb offset bottom pages)
    (Hmap : memory_map b = Some entries) (Hstart : starts_at entries base)
    (Hal : Forall (fun r => region_type r = Usable -> page_aligned (region_base r)) entries)
    (Hready : ready m) (Hkpc : kpc m = None) :
  exists m' k, init_memory names b sp m = Done (Ok tt, m') /\ kpc m' = Some k /\
  let frames c := BitmapFrameAllocator.bits (KernelPagingController.frame_allocator c) in
  forall view bs w, rtc lifecycle (AllocatedMemory.mkWorld (Some k) view bs) w ->
  exists c, AllocatedMemory.paging_controller w = Some c /\
    (forall i, 0 <= i < BitmapAllocator.size (frames k) ->
       used (frames k) i = true -> used (frames c) i = true) /\
    (forall size flags r w', 0 <= size ->
       AllocatedMemory.new size flags w = Done (r, w') -> exists e, r = Err e) /\
    (forall phys size flags r w', 0 <= size ->
       AllocatedMemory.reserve_physical phys size flags w = Done (r, w') -> exists e, r = Err e) /\
    (forall size flags j, 0 < size -> frames_free c (div_ceil size PAGE_SIZE) j ->
       exists start taken, AllocatedMemory.new size flags w
         = Done (Err AllocationError, AllocatedMemory.mkWorld (Some (with_bitmap c taken)) view bs) /\
       forall i, start <= i < start + div_ceil size PAGE_SIZE ->
         used (frames c) i = false /\ used taken i = true /\ frame_usable entries i /\
         ((i + 1) * PAGE_SIZE <= base \/ base + KERNEL_HEAP_SIZE <= i * PAGE_SIZE)).
Proof.
  pose proof (init_memory_wp names b sp entries base limit rest region pb vb offset bottom pages m
    Hok Hmap Hstart Hready Hkpc) as H.
  destruct (proj1 (wp_iff _ _) H) as ([r m'] & Hrun & -> & _ & _ & k0 & env & _ & [_ Hk _ _] & Hb & _).
  clear H. eexists m', _. split; [exact Hrun|]. split; [exact Hk|]. set (k := KernelPagingController.mk _ _ _).
  intros frames view bs w Hw.
  assert (exhausted (KernelPagingController.virt_mem_allocator k)) as Hex by apply Hb.
  assert (reachable_wf (frames k)) as Hrw by apply Hb.
  destruct (lifecycles_take_frames k view bs Hex (frames k) w Hrw) as (b' & -> & Hb' & [_ Hsz _ Hkeep]).
  { unfold world_with. by rewrite with_bitmap_self. }
  exists (with_bitmap k b'). split; [done|]. split; [exact Hkeep|]. split_and!.
  - intros size flags r w' Hs Hnew. pose proof (new_takes_frames k view bs Hex size flags b' Hb' Hs) as H.
    rewrite Hnew in H. apply H.
  - intros phys size flags r w' Hs Hres.
    pose proof (reserve_takes_nothing k view bs Hex phys size flags b' Hb' Hs) as H.
    rewrite Hres in H. apply H.
  - intros size flags j Hs Hf.
    destruct (new_loses k view bs Hex b' size flags j Hb' Hs Hf) as (start & taken & Hnew & Hlost).
    { pose proof (wf_size _ (rw_wf _ Hrw)). pose proof (mb_size _ _ _ _ _ _ _ Hb) as Hfs.
      change (BitmapAllocator.size (frames k) = 8 * (memory_end entries / PAGE_SIZE / 8)) in Hfs.
      change (KernelPagingController.virt_mem_allocator k) with (KernelPagingController.virt_mem_allocator k0).
      rewrite (mb_virtual _ _ _ _ _ _ _ Hb). lia. }
    exists start, taken. split; [exact Hnew|]. intros i Hi.
    destruct (Hlost i Hi) as (Hin & Hfree & Hused). split; [exact Hfree|]. split; [exact Hused|].
    pose proof Hok as [[Hba Hb0] _ _ _ Hbit _].
    eapply built_free; [exact Hb|exact Hba|exact Hb0|exact Hal|exact Hbit| |].
    + rewrite <- (mb_size _ _ _ _ _ _ _ Hb). unfold frames in Hsz. cbn in Hsz. lia.
    + change (used (frames k) i = false). destruct (used (frames k) i) eqn:Hu; [|done].
      rewrite <- Hfree. symmetry. apply Hkeep; [lia|done].
Qed.

End after_boot.

(** ** Instances *)

#[local] Existing Instances X86Model.x86 X86Model.x86_laws.
#[local] Existing Instances SegmentationModel.segmentation SegmentationModel.segmentation_laws.

(** A breakpoint in the started kernel. *)
Lemma booted_kernel_reports_exceptions_witness :
  exists m' m'', _start example_names example_info boot_sp reset_machine = Done (tt, m') /\
    run_handler (fun _ => [64]) (fun _ => [33]) (fun _ => None) (fun _ => []) (fun _ => [])
      breakpoint_handler {| stack_frame := [70]; error_code := 0; cr2 := 0 |} m' = Done (tt, m'') /\
    serial m'' = chars "PEIS" ++ [13; 10] ++ chars "Hi" ++ [13; 10]
      ++ chars "panicked at @:" ++ [10] ++ chars "BREAKPOINT: " ++ [10] ++ chars "F" ++ [10].
Proof.
  destruct (booted_kernel_reports_exceptions example_names
    (fun _ => [64]) (fun _ => [33]) (fun _ => None) (fun _ => []) (fun _ => [])
    example_info boot_sp boot_map 0x1000000 0x9000000
    (Z.to_nat 5000) boot_kernel_region 0x9000000 0xFFFFFFFF80000000 boot_offset boot_bottom 16
    reset_machine example_memory_ok eq_refl example_starts_at (example_start_ok example_boot) eq_refl)
    as (m' & s & t & Hrun & _ & _ & _ & H).
  destruct (H breakpoint {| stack_frame := [70]; error_code := 0; cr2 := 0 |} ltac:(discriminate))
    as (entry & m'' & He & _ & Hh & Hs & _).
  injection He as <-. exists m', m''. split; [exact Hrun|]. split; [exact Hh|].
  rewrite Hs. reflexivity.
Defined.

(** The example's address space has nothing in its last two MiB. *)
Definition example_memory : outcome (result (KernelPagingController.KernelPagingController * Z) MemoryError
    * RecursivePageTable.Env LinearFrameAllocator.LinearFrameAllocator) :=
  build_memory example_boot boot_sp boot_map 0x1000000
    (RecursivePageTable.mkEnv ∅ (LinearFrameAllocator.mk 0x1000000)).

Lemma example_memory_LEVEL4 :
  match example_memory with
  | Done (Ok (k, _), env) => mmu (KernelPagingController.rec_page_table k) (RecursivePageTable.tables env)
                               RecursivePageTable.LEVEL4
  | _ => Some 0
  end = None.
Proof. by vm_compute. Qed.

(** The controller of the started kernel is the one [build_memory] returns. *)
Lemma example_initialized m :
  init_memory example_names example_boot boot_sp logging_machine = Done (Ok tt, m) ->
  exists k env, example_memory = Done (Ok (k, 0x1000000 + boot_offset), env) /\
    initialized 0x1000000 boot_offset k env m /\
    memory_built boot_map 0x9000000 0x1000000 boot_offset
      (kernel_space example_boot boot_map boot_kernel_region 0x9000000 0xFFFFFFFF80000000
         boot_offset boot_bottom 16) k env.
Proof.
  intros Hrun. pose proof (init_memory_wp example_names example_boot boot_sp boot_map 0x1000000 0x9000000
    (Z.to_nat 5000) boot_kernel_region 0x9000000 0xFFFFFFFF80000000 boot_offset boot_bottom 16
    logging_machine example_memory_ok eq_refl example_starts_at example_ready eq_refl) as H.
  rewrite Hrun in H. destruct H as (_ & _ & _ & k & env & Hbuild & Hi & Hb & _).
  exists k, env. split; [exact Hbuild|]. split; [exact Hi|exact Hb].
Qed.

Lemma example_LEVEL4_unmapped m f :
  init_memory example_names example_boot boot_sp logging_machine = Done (Ok tt, m) ->
  RecursivePageTable.cr3 (cpu m) = Some f ->
  mmu (RecursivePageTable.mk (f + boot_offset) boot_offset) (Kernel.tables m)
    RecursivePageTable.LEVEL4 = None.
Proof.
  intros Hrun Hf. destruct (example_initialized m Hrun) as (k & env & Hbuild & [Ht _ Hc _] & Hb).
  rewrite Hf in Hc. injection Hc as ->. rewrite (built_self _ _ _ _ _ _ _ Hb), Ht.
  pose proof example_memory_LEVEL4 as H. by rewrite Hbuild in H.
Qed.

Lemma example_request : ~ reserved boot_offset /\ 0 < 1 < 2 ^ 40 /\ phys_valid 0x1000000 /\ canonical boot_offset.
Proof. split; [by vm_compute|]. split; [lia|]. split; [by vm_compute|]. right. by vm_compute. Qed.

(** With a view that holds no table at all, a request to map a page faults. *)
Lemma controller_loses_its_tables_witness :
  exists m' k, init_memory example_names example_boot boot_sp logging_machine = Done (Ok tt, m') /\
    kpc m' = Some k /\
    KernelPagingController.map 0x1000000 boot_offset 1 flags_rw (KernelPagingController.mkState k ∅)
      = Faulted RecursivePageTable.LEVEL4.
Proof.
  destruct (controller_loses_its_tables example_names example_boot boot_sp boot_map 0x1000000 0x9000000
    (Z.to_nat 5000) boot_kernel_region 0x9000000 0xFFFFFFFF80000000 boot_offset boot_bottom 16
    logging_machine example_memory_ok eq_refl example_starts_at example_ready eq_refl)
    as (m' & k & f & Hrun & Hk & Hc & _ & _ & _ & H).
  destruct (H ∅) as [Hm _]; [intros v t Hv; by rewrite lookup_empty in Hv|exact (example_LEVEL4_unmapped m' f Hrun Hc)|].
  exists m', k. split; [exact Hrun|]. split; [exact Hk|].
  destruct example_request as (Hr & Hn & Hf & Hto). exact (Hm _ _ _ _ Hr Hn Hf Hto).
Defined.

Definition run_free (b : BitmapAllocator.BitmapAllocator) (j : Z) : bool :=
  forallb (fun i => negb (used b i)) (seqZ j 8).

(** Frame 30000 and the seven after it are free. *)
Lemma example_memory_frames :
  match example_memory with
  | Done (Ok (k, _), _) =>
      let b := BitmapFrameAllocator.bits (KernelPagingController.frame_allocator k) in
      (BitmapAllocator.last_allocated b, BitmapAllocator.size b, run_free b 30000)
  | _ => (0, 0, false)
  end = (0, 40992, true).
Proof. by vm_compute. Qed.

Lemma started_frames_free m k :
  init_memory example_names example_boot boot_sp logging_machine = Done (Ok tt, m) ->
  kpc m = Some k -> frames_free k 1 30000.
Proof.
  intros Hrun Hk. destruct (example_initialized m Hrun) as (k0 & env & Hbuild & [_ Hk' _ _] & Hb).
  rewrite Hk in Hk'. injection Hk' as ->. pose proof example_memory_frames as H. rewrite Hbuild in H.
  cbv zeta in H. injection H as Hl Hs Hu.
  pose proof (rw_wf _ (mb_frames _ _ _ _ _ _ _ Hb)) as Hw. clear Hrun Hk Hbuild Hb.
  constructor; cbn [KernelPagingController.frame_allocator]; change (round8 1) with 8.
  - exact Hw.
  - lia.
  - rewrite Hl. lia.
  - rewrite Hs. lia.
  - rewrite Hs. lia.
  - lia.
  - intros i Hi.
    assert (In i (seqZ 30000 8)) as Hin by (apply list_elem_of_In, elem_of_seqZ; lia).
    apply negb_true_iff. exact (proj1 (forallb_forall _ _) Hu i Hin).
Qed.

(** A request for one page takes a frame. *)
Lemma started_kernel_loses_memory_witness :
  exists m' k start taken,
    init_memory example_names example_boot boot_sp logging_machine = Done (Ok tt, m') /\
    kpc m' = Some k /\
    AllocatedMemory.new 4096 flags_rw (AllocatedMemory.mkWorld (Some k) ∅ ∅)
      = Done (Err AllocationError, AllocatedMemory.mkWorld (Some (with_bitmap k taken)) ∅ ∅) /\
    used taken start = true.
Proof.
  destruct (started_kernel_loses_memory example_names example_boot boot_sp boot_map 0x1000000 0x9000000
    (Z.to_nat 5000) boot_kernel_region 0x9000000 0xFFFFFFFF80000000 boot_offset boot_bottom 16
    logging_machine example_memory_ok eq_refl example_starts_at example_aligned example_ready eq_refl)
    as (m' & k & Hrun & Hk & H).
  destruct (H ∅ ∅ _ (rtc_refl _ _)) as (c & Hc & _ & _ & _ & Hnew).
  injection Hc as <-. change (div_ceil 4096 PAGE_SIZE) with 1 in Hnew.
  destruct (Hnew 4096 flags_rw 30000 ltac:(lia) (started_frames_free m' k Hrun Hk))
    as (start & taken & Hn & Hi).
  destruct (Hi start) as (_ & Hu & _); [change (div_ceil 4096 PAGE_SIZE) with 1; lia|].
  exists m', k, start, taken. split; [exact Hrun|]. split; [exact Hk|]. split; [exact Hn|exact Hu].
Defined.
