(* ===== verification/Protection.v ===== *)
(** What the address space the kernel starts in allows: where the kernel's own memory is in it,
    and what may be written and executed. *)
From S2P Require Import Prelude X86 Memory FrameAllocation Bitmap PageTable PageTableProofs PageTableTheorems.
From S2P Require Import PagingController PagingInit PagingInitProofs PagingInitSpec PagingInitTheorems.
From S2P Require Import Gdt Kernel LogProofs LogTheorems KernelProofs.

(** ** Rights *)

Section rights.
Context {X : X86} {XL : X86Laws}.

(** Whether a page with these flags can be written, and whether it can be executed. *)
Definition rights (fl : PageTableFlags) : bool * bool :=
  (flags_contains fl (flag_bit WRITABLE), negb (flags_contains fl (flag_bit NO_EXECUTE))).

Lemma rights_global fl : rights (flags_union fl (flag_bit GLOBAL)) = rights fl.
Proof.
  unfold rights. rewrite !flags_contains_union, !flags_contains_bit. simpl. by rewrite !orb_false_r.
Qed.

Ltac flag_bits :=
  unfold rights, flags_r, flags_rx, flags_rw, flags_rwx; rewrite ?flags_contains_union, ?flags_contains_bit; done.

Lemma rights_r : rights flags_r = (false, false).
Proof. flag_bits. Qed.
Lemma rights_rx : rights flags_rx = (false, true).
Proof. flag_bits. Qed.
Lemma rights_rw : rights flags_rw = (true, false).
Proof. flag_bits. Qed.
Lemma rights_rwx : rights flags_rwx = (true, true).
Proof. flag_bits. Qed.

(** The rights of the sections of the image: only code is executed, only data is written. *)
Definition section_rights (b : Boot) (a : Z) : bool * bool :=
  (bool_decide (data_start b <= a < elf_end b), bool_decide (text_start b <= a < rodata_start b)).

Lemma image_rights b region pb vb a :
  image_ok b region pb vb -> rights (image_flags b a) = section_rights b a.
Proof.
  intros [_ (Ho1 & Ho2 & Ho3) _ _ _ _]. unfold image_flags, section_rights. rewrite rights_global.
  repeat case_bool_decide; repeat match goal with |- context [?x <? ?y] => destruct (Z.ltb_spec x y) end;
    try lia; auto using rights_r, rights_rx, rights_rw.
Qed.

End rights.

(** ** The address space *)

(** The upper half without the recursive range. *)
Definition mapped_range (a : Z) : Prop :=
  2 ^ 64 - 2 ^ 47 <= a < 2 ^ 64 - 2 ^ 40 \/ 2 ^ 64 - 2 ^ 39 <= a < 2 ^ 64.

Lemma mapped_range_not_reserved a : mapped_range a -> ~ reserved a.
Proof. intros Ha. unfold mapped_range in Ha. apply upper_half_not_reserved; lia. Qed.

Section space.
Context {X : X86} {XL : X86Laws}.
Context (b : Boot) (sp : Z) (entries : list MemoryRegionInfo) (base limit : Z) (rest : nat)
  (region : MemoryRegionInfo) (pb vb offset bottom pages : Z)
  (Hok : memory_ok b sp entries base limit rest region pb vb offset bottom pages).

Definition started_space : Z -> option (Z * PageTableFlags) :=
  space_with_heap (kernel_space b entries region pb vb offset bottom pages) base offset.

(** ** Where its parts are *)

Lemma offset_bounds : 2 ^ 64 - 2 ^ 47 <= offset /\ offset + limit <= 2 ^ 64 - 2 ^ 40 /\
  0 <= base /\ base + heap_pages * PAGE_SIZE <= limit.
Proof.
  pose proof Hok as [[_ Hb] [_ (Ho1 & _) _ _ _ _ _ _ _ _ _ _ _ _ (_ & Hr & _) _] _ Hl _ _].
  simpl in Ho1, Hr. rewrite PAGE_SIZE_eq in *. lia.
Qed.

Lemma heap_range a :
  base + offset <= a < base + offset + KERNEL_HEAP_SIZE -> 2 ^ 64 - 2 ^ 47 <= a < 2 ^ 64 - 2 ^ 40.
Proof.
  change KERNEL_HEAP_SIZE with (heap_pages * PAGE_SIZE). pose proof offset_bounds. lia.
Qed.

Lemma misc_bounds r a :
  In r entries -> in_region offset a r = true ->
  2 ^ 64 - 2 ^ 47 <= a < 2 ^ 64 - 2 ^ 40 /\ in_block (base + offset) heap_pages a = false.
Proof.
  intros Hin Hr. pose proof Hok as [_ Hpk Hout _ _ _].
  pose proof (mo_regions _ _ (pk_misc _ _ _ _ _ _ _ _ _ _ _ _ Hpk)) as Hall.
  unfold in_region in Hr. apply andb_true_iff in Hr as [Hm Hr%in_block_iff].
  unfold misc_outside in Hout. rewrite Forall_forall in Hall, Hout.
  destruct (Hall r) as [_ _ _ _ [H1 H2]]; [apply list_elem_of_In, filter_In; by split|].
  specialize (Hout r ltac:(by apply list_elem_of_In) Hm). pose proof offset_bounds.
  split; [lia|]. apply in_block_false. lia.
Qed.

(** The stack, and the page above it, lie in a region that is mapped. *)
Lemma stack_covered a :
  sp + 16 - stack_size <= a < sp + 16 + PAGE_SIZE -> misc_covers offset entries a = true.
Proof.
  intros Ha. pose proof Hok as [_ [_ _ _ _ _ _ _ Hs [Hsp _] Hst _ _ _ _ _ _] _ _ _ _].
  apply Exists_exists in Hst as (r & Hin & Hm & Hlo & Hhi).
  apply existsb_exists. exists r. split; [by apply list_elem_of_In|].
  unfold in_region. rewrite Hm. apply in_block_iff. lia.
Qed.

Lemma stack_block : bottom = sp + 16 - stack_size /\ bottom + pages * PAGE_SIZE = sp + 16.
Proof. pose proof Hok as [_ [_ _ _ _ _ _ _ Hs [Hsp _] _ _ _ _ _ _ _] _ _ _ _]. lia. Qed.

Lemma covers_bounds a : misc_covers offset entries a = true -> 2 ^ 64 - 2 ^ 47 <= a < 2 ^ 64 - 2 ^ 40.
Proof. intros (r & Hin & Hr)%existsb_exists. by eapply misc_bounds. Qed.

Lemma image_bounds a :
  limine_reqs_start b <= a < image_end b region ->
  2 ^ 64 - 2 ^ 39 <= a < 2 ^ 64 /\ in_block (base + offset) heap_pages a = false.
Proof.
  intros Ha. pose proof Hok as [_ [_ _ _ _ [_ _ _ _ Ht _] _ _ _ _ _ _ _ _ _ _ _] _ _ _ _].
  unfold image_end in Ha. pose proof offset_bounds. split; [lia|]. apply in_block_false. lia.
Qed.

Lemma not_image a : a < 2 ^ 64 - 2 ^ 40 -> in_block (limine_reqs_start b) (kernel_pages b region) a = false.
Proof.
  intros Ha. pose proof Hok as [_ [_ _ _ _ [_ _ _ _ Ht _] _ _ _ _ _ _ _ _ _ _ _] _ _ _ _].
  apply in_block_false. lia.
Qed.

(** ** What is mapped *)

Lemma space_image a :
  limine_reqs_start b <= a < image_end b region ->
  started_space a = Some (page_base a - vb + pb, image_flags b a).
Proof.
  intros Ha. destruct (image_bounds a Ha) as [_ Hh]. unfold started_space, space_with_heap, kernel_space.
  rewrite Hh, (proj2 (in_block_iff _ _ _)) by exact Ha. done.
Qed.

Lemma space_heap a :
  base + offset <= a < base + offset + KERNEL_HEAP_SIZE ->
  started_space a = Some (page_base a - offset, flags_rw).
Proof.
  intros Ha. unfold started_space, space_with_heap. change KERNEL_HEAP_SIZE with (heap_pages * PAGE_SIZE) in Ha.
  by rewrite (proj2 (in_block_iff _ _ _)) by exact Ha.
Qed.

(** The mapped regions, with the stack and the page above it taken out. *)
Lemma space_misc a :
  misc_covers offset entries a = true ->
  started_space a = if in_block (bottom + pages * PAGE_SIZE) 1 a then None
    else Some (page_base a - offset, if in_block bottom pages a then flags_rw else flags_rwx).
Proof.
  intros Hm. pose proof Hm as (r & Hin & Hr)%existsb_exists.
  destruct (misc_bounds r a Hin Hr) as [Hb Hh]. unfold started_space, space_with_heap, kernel_space.
  rewrite Hh, not_image, Hm by lia. done.
Qed.

Lemma space_only a g fl :
  started_space a = Some (g, fl) ->
  mapped_range a /\
  (rights fl = (true, true) -> misc_covers offset entries a = true).
Proof.
  unfold started_space, space_with_heap, kernel_space, mapped_range. pose proof offset_bounds.
  destruct (in_block (base + offset) heap_pages a) eqn:Hh.
  { intros [= _ <-]. apply in_block_iff in Hh. split; [lia|]. by rewrite rights_rw. }
  destruct (in_block (limine_reqs_start b) _ a) eqn:Hi.
  { intros [= _ <-]. apply in_block_iff in Hi. destruct (image_bounds a Hi) as [Hb _]. split; [lia|].
    pose proof (pk_image _ _ _ _ _ _ _ _ _ _ _ _ (mk_paging _ _ _ _ _ _ _ _ _ _ _ _ Hok)) as Him.
    rewrite (image_rights _ _ _ _ _ Him). intros [= H1 H2]. unfold section_rights in *.
    apply bool_decide_eq_true in H1, H2. destruct Him as [_ Ho _ _ _ _]. lia. }
  destruct (in_block _ 1 a); [done|]. destruct (misc_covers offset entries a) eqn:Hm; [|done].
  intros _. split; [|done]. apply existsb_exists in Hm as (r & Hin & Hr).
  destruct (misc_bounds r a Hin Hr). lia.
Qed.

End space.

(** ** The loaded page table *)

Section protection.
Context {X : X86} {XL : X86Laws} {G : Segmentation} {GL : SegmentationLaws} (names : MemoryRegionType -> list Z).

(** C4: what the address space that [init_memory] loads allows. The image of the kernel is where
    it was, its code executable and not writable, its data writable and not executable, the rest
    neither; the stack and the heap are writable and not executable; the other regions, the
    framebuffers among them, are at the offset mapping, both writable and executable. Nothing
    else is both, the page above the stack is not mapped, nor is any address in the lower half,
    so that a null pointer faults. *)
Theorem address_space_protection b sp entries base limit rest region pb vb offset bottom pages m
    (Hok : memory_ok b sp entries base limit rest region pb vb offset bottom pages)
    (Hmap : memory_map b = Some entries) (Hstart : starts_at entries base)
    (Hready : ready m) (Hkpc : kpc m = None) :
  exists m' f, init_memory names b sp m = Done (Ok tt, m') /\
    RecursivePageTable.cr3 (cpu m') = Some f /\
    let space := mapping (RecursivePageTable.mk (f + offset) offset) (Kernel.tables m') in
    let stands a frame allowed := exists fl, space a = Some (frame, fl) /\ rights fl = allowed in
    (forall a, limine_reqs_start b <= a < image_end b region ->
       stands a (page_base a - vb + pb) (section_rights b a)) /\
    (forall a, sp + 16 - stack_size <= a < sp + 16 -> stands a (page_base a - offset) (true, false)) /\
    (forall a, base + offset <= a < base + offset + KERNEL_HEAP_SIZE ->
       stands a (page_base a - offset) (true, false)) /\
    (forall a, misc_covers offset entries a = true -> ~ (sp + 16 - stack_size <= a < sp + 16 + PAGE_SIZE) ->
       stands a (page_base a - offset) (true, true)) /\
    (forall a, sp + 16 <= a < sp + 16 + PAGE_SIZE -> space a = None) /\
    (forall a g fl, canonical a -> ~ reserved a -> space a = Some (g, fl) ->
       2 ^ 64 - 2 ^ 47 <= a /\ (rights fl = (true, true) -> misc_covers offset entries a = true)).
Proof.
  pose proof (init_memory_wp names b sp entries base limit rest region pb vb offset bottom pages m
    Hok Hmap Hstart Hready Hkpc) as H.
  destruct (proj1 (wp_iff _ _) H) as ([r m'] & Hrun & -> & _ & _ & k0 & env & _ & [Ht _ Hc _] & Hb & _).
  clear H. do 2 eexists. split; [exact Hrun|]. split; [exact Hc|].
  rewrite (built_self _ _ _ _ _ _ _ Hb), Ht.
  assert (forall a, mapped_range a ->
    mapping (KernelPagingController.rec_page_table k0) (RecursivePageTable.tables env) a
    = started_space b entries base region pb vb offset bottom pages a) as Hspace.
  { intros a Ha. apply (mb_mapping _ _ _ _ _ _ _ Hb); [|by apply mapped_range_not_reserved].
    unfold canonical, mapped_range in *. lia. }
  pose proof (stack_block _ _ _ _ _ _ _ _ _ _ _ _ Hok) as [Hbot Htop].
  pose proof (heap_range _ _ _ _ _ _ _ _ _ _ _ _ Hok) as heap_range. pose proof PAGE_SIZE_eq.
  assert (0 <= stack_size) by done. split_and!.
  - intros a Ha. eexists. rewrite Hspace by (right; by eapply image_bounds).
    split; [by eapply space_image|]. eapply image_rights. apply Hok.
  - intros a Ha. assert (misc_covers offset entries a = true) as Hm by (eapply stack_covered; [exact Hok|lia]).
    eexists. rewrite Hspace by (left; by eapply covers_bounds). erewrite space_misc by done.
    rewrite (proj2 (in_block_false _ 1 _)), (proj2 (in_block_iff _ _ _)) by lia. split; [done|apply rights_rw].
  - intros a Ha. eexists. rewrite Hspace, space_heap by (exact Ha || (left; by apply heap_range)).
    split; [done|apply rights_rw].
  - intros a Hm Ha. eexists. rewrite Hspace by (left; by eapply covers_bounds). erewrite space_misc by done.
    rewrite (proj2 (in_block_false _ 1 _)), (proj2 (in_block_false _ _ _)) by lia. split; [done|apply rights_rwx].
  - intros a Ha. assert (misc_covers offset entries a = true) as Hm by (eapply stack_covered; [exact Hok|lia]).
    rewrite Hspace by (left; by eapply covers_bounds). erewrite space_misc by done.
    by rewrite (proj2 (in_block_iff _ 1 _)) by lia.
  - intros a g fl Hca Hra Ha. rewrite (mb_mapping _ _ _ _ _ _ _ Hb) in Ha by done.
    destruct (space_only _ _ _ _ _ _ _ _ _ _ _ _ Hok a g fl Ha) as [Hr Hw].
    split; [unfold mapped_range in Hr; lia|exact Hw].
Qed.

End protection.

(** ** A boot *)

Section example.
#[local] Existing Instances X86Model.x86 X86Model.x86_laws SegmentationModel.segmentation SegmentationModel.segmentation_laws.

Lemma address_space_protection_witness :
  exists m' f fl, init_memory example_names example_boot boot_sp logging_machine = Done (Ok tt, m') /\
    RecursivePageTable.cr3 (cpu m') = Some f /\
    mapping (RecursivePageTable.mk (f + boot_offset) boot_offset) (Kernel.tables m') (0x1000000 + boot_offset) =
      Some (page_base (0x1000000 + boot_offset) - boot_offset, fl) /\ rights fl = (true, false).
Proof.
  destruct (address_space_protection example_names example_boot boot_sp boot_map 0x1000000 0x9000000
    (Z.to_nat 5000) boot_kernel_region 0x9000000 0xFFFFFFFF80000000 boot_offset boot_bottom 16
    logging_machine example_memory_ok eq_refl example_starts_at example_ready eq_refl)
    as (m' & f & H & Hc & _ & _ & Hh & _).
  destruct (Hh (0x1000000 + boot_offset)) as (fl & Hm & Hr).
  { split; [apply Z.le_refl|by apply Z.lt_add_pos_r]. }
  exists m', f, fl. split; [exact H|]. split; [exact Hc|]. split; [exact Hm|exact Hr].
Defined.

End example.
