(* ===== verification/Termination.v ===== *)
(** The start of the kernel comes to an end: whatever the boot loader reports, every loop ends and
    [_start] waits for no lock; and where the panic handler does not end. *)
From S2P Require Import Prelude Format X86 Memory FrameAllocation Bitmap PageTable Allocators.
From S2P Require Import PagingController PagingInit Framebuffer VgaText VgaWriter Interrupts Gdt Kernel.
From S2P Require Import LogTheorems KernelProofs.

(** ** The crates

    The functions of [x86_64] return or panic, whatever their arguments, and
    [Step::forward_checked] never goes less far than it is asked to. *)
Class X86Returns `{X86, Segmentation} : Prop := {
  phys_new_stops a : stops (phys_new a);
  phys_add_stops a n : stops (phys_add a n);
  virt_new_stops a : stops (virt_new a);
  virt_add_stops a n : stops (virt_add a n);
  virt_sub_stops a n : stops (virt_sub a n);
  virt_diff_stops a b : stops (virt_diff a b);
  entry_set_addr_stops e a f : stops (entry_set_addr e a f);
  entry_set_frame_stops e a f : stops (entry_set_frame e a f);
  gdt_append_stops g d : stops (gdt_append g d);
  virt_forward_advances a n b : 0 <= n -> virt_forward a n = Some b -> a + n <= b
}.

#[export] Hint Extern 2 (stops _) =>
  first [ apply phys_new_stops | apply phys_add_stops | apply virt_new_stops | apply virt_add_stops
        | apply virt_sub_stops | apply virt_diff_stops | apply entry_set_addr_stops
        | apply entry_set_frame_stops | apply gdt_append_stops ] : halts.

(** ** The screen *)

Section screen.
Import LinearFramebuffer.

Lemma plot_halts x y color : halts anything (plot x y color).
Proof. unfold plot. halts. Qed.
#[local] Hint Resolve plot_halts : halts.

Lemma plot_bits_halts g byte bits : forall x y, halts anything (plot_bits g byte bits x y).
Proof. induction bits as [|bit bits IH]; intros x y; cbn [plot_bits]; halts. Qed.
#[local] Hint Resolve plot_bits_halts : halts.

Lemma plot_bytes_halts g bitmap : forall x y, halts anything (plot_bytes g bitmap x y).
Proof.
  induction bitmap as [|byte bitmap IH]; intros x y; cbn [plot_bytes]; [halts|].
  apply halts_bind; [halts|]. intros [[x' y']|]; halts.
Qed.
#[local] Hint Resolve plot_bytes_halts : halts.

Lemma plot_glyph_halts g bitmap : halts anything (plot_glyph g bitmap).
Proof. unfold plot_glyph. halts. Qed.
#[local] Hint Resolve plot_glyph_halts : halts.

Lemma ptr_copy_stops l src dst count : stops (ptr_copy l src dst count).
Proof. unfold ptr_copy. halts. Qed.
Lemma ptr_write_stops l i color : stops (ptr_write l i color).
Proof. unfold ptr_write. halts. Qed.
#[local] Hint Resolve ptr_copy_stops ptr_write_stops : halts.

Lemma scroll_halts layers color : halts anything (scroll layers color).
Proof. unfold scroll. halts. Qed.
#[local] Hint Resolve scroll_halts : halts.

Lemma get_char_glyph_stops c : stops (get_char_glyph c).
Proof. unfold get_char_glyph. halts. Qed.
#[local] Hint Resolve get_char_glyph_stops : halts.

Lemma put_char_halts column row color background c : halts anything (put_char column row color background c).
Proof. unfold put_char. halts. Qed.
#[local] Hint Resolve put_char_halts : halts.

Lemma text_scroll_halts rows background : halts anything (VgaText.scroll rows background).
Proof. unfold VgaText.scroll. halts. Qed.
#[local] Hint Resolve text_scroll_halts : halts.

Lemma with_lfb_halts {A} (m : M LinearFramebuffer A) :
  halts anything m -> halts anything (VGAWriter.with_lfb m).
Proof. intros Hm. by apply (halts_zoom _ anything). Qed.
#[local] Hint Resolve with_lfb_halts : halts.

Lemma new_line_halts : halts anything VGAWriter.new_line.
Proof. unfold VGAWriter.new_line. halts. Qed.
#[local] Hint Resolve new_line_halts : halts.

Lemma write_char_body_halts space c : halts anything space -> halts anything (VGAWriter.write_char_body space c).
Proof. intros Hs. unfold VGAWriter.write_char_body. halts. Qed.
#[local] Hint Resolve write_char_body_halts : halts.

Lemma write_str_halts text : halts anything (VGAWriter.write_str text).
Proof. unfold VGAWriter.write_str, VGAWriter.write_string, VGAWriter.write_char. halts. Qed.

Lemma framebuffer_new_stops bf : stops (new bf).
Proof. unfold new. halts. Qed.

End screen.
#[export] Hint Resolve write_str_halts framebuffer_new_stops : halts.

(** ** Memory *)

Section memory.
Context {X : X86} {G : Segmentation} {XR : X86Returns}.
Import RecursivePageTable.

Abbreviation LinearEnv := (RecursivePageTable.Env LinearFrameAllocator.LinearFrameAllocator).

Lemma get_page_index_stops level addr : stops (get_page_index level addr).
Proof. unfold get_page_index. halts. Qed.
#[local] Hint Resolve get_page_index_stops : halts.

Lemma read_entry_stops m table i : stops (read_entry m table i).
Proof. unfold read_entry, deref, table_index. halts. Qed.
#[local] Hint Resolve read_entry_stops : halts.

Lemma write_entry_halts table i e : halts anything (write_entry table i e).
Proof. unfold write_entry, deref, table_index_set. halts. Qed.
#[local] Hint Resolve write_entry_halts : halts.

Lemma new_page_table_level_halts a : halts anything (new_page_table_level a).
Proof. unfold new_page_table_level. halts. Qed.
#[local] Hint Resolve new_page_table_level_halts : halts.

Lemma phys_page_table_as_virt_stops self a : stops (phys_page_table_as_virt self a).
Proof. unfold phys_page_table_as_virt. halts. Qed.
#[local] Hint Resolve phys_page_table_as_virt_stops : halts.

Lemma descend_stops self m to levels : forall table, stops (descend self m to levels table).
Proof. induction levels as [|level levels IH]; intros table; cbn [descend]; halts. Qed.
#[local] Hint Resolve descend_stops : halts.

Lemma get_page_table_stops self m lvl to : stops (get_page_table self m lvl to).
Proof. unfold get_page_table. halts. Qed.
#[local] Hint Resolve get_page_table_stops : halts.

(** The linear allocator. *)
Lemma linear_alloc_halts : halts anything LinearFrameAllocator.alloc.
Proof. unfold LinearFrameAllocator.alloc. halts. Qed.
Lemma linear_alloc_contiguous_halts pages : halts anything (LinearFrameAllocator.alloc_contiguous pages).
Proof. unfold LinearFrameAllocator.alloc_contiguous. halts. Qed.
#[local] Hint Resolve linear_alloc_halts linear_alloc_contiguous_halts : halts.

Lemma with_tables_halts {A} (m : M (gmap Z PageTable) A) :
  halts anything m -> halts (S := LinearEnv) anything (with_tables m).
Proof. intros Hm. by apply (halts_zoom _ anything). Qed.
Lemma with_allocator_halts {A} (m : M LinearFrameAllocator.LinearFrameAllocator A) :
  halts anything m -> halts anything (with_allocator m).
Proof. intros Hm. by apply (halts_zoom _ anything). Qed.
Lemma zoom_alloc_halts :
  halts (S := LinearEnv) anything (zoom allocator set_allocator frame_alloc).
Proof. apply (halts_zoom _ anything); auto with halts. Qed.
#[local] Hint Resolve with_tables_halts with_allocator_halts zoom_alloc_halts : halts.

Lemma create_levels_halts self to levels : forall table,
  halts (S := LinearEnv) anything (create_levels self to levels table).
Proof. induction levels as [|level levels IH]; intros table; cbn [create_levels]; halts. Qed.
#[local] Hint Resolve create_levels_halts : halts.

Lemma map_levels_halts self from to flags levels :
  halts (S := LinearEnv) anything (map_levels self from to flags levels).
Proof. induction levels as [|level levels IH]; cbn [map_levels]; unfold map_at; halts. Qed.
#[local] Hint Resolve map_levels_halts : halts.

Lemma map_halts self from to flags : halts (S := LinearEnv) anything (map self from to flags).
Proof. unfold map. halts. Qed.
#[local] Hint Resolve map_halts : halts.

Lemma map_contiguous_halts self pages from to flags :
  halts (S := LinearEnv) anything (map_contiguous self pages from to flags).
Proof. unfold map_contiguous. halts. Qed.
Lemma unmap_halts self a : halts (S := LinearEnv) anything (unmap self a).
Proof. unfold unmap. halts. Qed.
Lemma update_flags_halts self a flags : halts (S := LinearEnv) anything (update_flags self a flags).
Proof. unfold update_flags. halts. Qed.
Lemma table_new_halts hhdm : halts (S := LinearEnv) anything (new hhdm).
Proof. unfold new. halts. Qed.
Lemma load_halts : halts anything load.
Proof. unfold load. apply halts_get. intros [self cpu] _. halts. Qed.
#[local] Hint Resolve map_contiguous_halts unmap_halts update_flags_halts table_new_halts load_halts : halts.

Lemma paging_halts {S A} (m : M S (result A PagingError)) : halts anything m -> halts anything (paging m).
Proof. intros Hm. unfold paging. halts. Qed.
#[local] Hint Resolve paging_halts : halts.

(** Iterating over addresses: each turn goes at least [n + 1] further, so that the fuel, one more
    than the number of pages, is enough for any bounds. *)
Lemma virt_for_each_halts {W E} (body : Z -> M W (result unit E)) stop n fuel : forall start skip,
  0 <= n -> 0 <= skip -> (1 <= fuel)%nat ->
  stop <= start + skip + (Z.of_nat fuel - 1) * (n + 1) ->
  (forall page, halts anything (body page)) -> halts anything (virt_for_each fuel start stop skip n body).
Proof.
  induction fuel as [|fuel IH]; intros start skip Hn Hskip Hf Hstop Hbody; [lia|].
  cbn [virt_for_each]. destruct (virt_forward start skip) as [page|] eqn:Hp; [|halts].
  apply virt_forward_advances in Hp; [|done]. destruct (Z.ltb_spec page stop); [|halts].
  destruct (virt_forward page 1) as [next|] eqn:Hnext; [|by intros s _].
  apply virt_forward_advances in Hnext; [|done].
  change (halts anything (let? _ := body page in virt_for_each fuel next stop n n body)).
  apply halts_bind_ok; [done|]. intros _. apply IH; try done; lia || nia.
Qed.

Lemma virt_step_by_halts {W E} (body : Z -> M W (result unit E)) start stop step :
  0 < step -> (forall page, halts anything (body page)) -> halts anything (virt_step_by start stop step body).
Proof.
  intros Hs Hbody. unfold virt_step_by. apply virt_for_each_halts; try done; try lia.
  pose proof (Z.div_mod (stop - start) step ltac:(lia)) as Hd.
  pose proof (Z.mod_pos_bound (stop - start) step Hs).
  assert ((stop - start) / step <= Z.of_nat (Z.to_nat ((stop - start) / step))) by lia. nia.
Qed.

(** ** [init_paging] *)

Lemma map_kernel_section_halts boot s e flags self : halts anything (map_kernel_section boot s e flags self).
Proof. unfold map_kernel_section. halts. Qed.
#[local] Hint Resolve map_kernel_section_halts : halts.

Lemma map_kernel_halts boot self region : halts anything (map_kernel boot self region).
Proof. unfold map_kernel. halts. Qed.

Lemma map_misc_halts entries self : halts anything (map_misc entries self).
Proof. unfold map_misc. halts. Qed.

Lemma remap_stack_halts boot sp self : halts anything (remap_stack boot sp self).
Proof. unfold remap_stack. halts. apply virt_step_by_halts; [done|]. intros page. halts. Qed.

Lemma flag_halts bit fl : halts anything (BitmapAllocator.flag bit fl).
Proof. unfold BitmapAllocator.flag, BitmapAllocator.in_range. halts. Qed.
#[local] Hint Resolve map_kernel_halts map_misc_halts remap_stack_halts flag_halts : halts.

Lemma flag_range_halts r fl : halts anything (BitmapAllocator.flag_range r fl).
Proof. unfold BitmapAllocator.flag_range, BitmapAllocator.range_in_bounds. halts. Qed.
#[local] Hint Resolve flag_range_halts : halts.

Lemma bitmap_new_halts size set offset : halts anything (BitmapAllocator.new size set offset).
Proof. unfold BitmapAllocator.new. halts. Qed.
#[local] Hint Resolve bitmap_new_halts : halts.

Lemma clear_usable_halts entries : halts anything (BitmapFrameAllocator.clear_usable entries).
Proof. unfold BitmapFrameAllocator.clear_usable, BitmapFrameAllocator.clear_region. halts. Qed.

Lemma frames_new_halts size offset entries : halts anything (BitmapFrameAllocator.new size offset entries).
Proof.
  unfold BitmapFrameAllocator.new. halts. by eapply halts_run; [apply clear_usable_halts|].
Qed.

Lemma pages_new_halts size offset : halts anything (VirtualMemoryAllocator.new size offset).
Proof. unfold VirtualMemoryAllocator.new. halts. Qed.
#[local] Hint Resolve frames_new_halts pages_new_halts : halts.

Lemma max_by_stops {A} (compare : A -> A -> outcome comparison) l :
  (forall x y, stops (compare x y)) -> stops (max_by compare l).
Proof.
  intros Hc. destruct l as [|x l]; [done|]. cbn [max_by]. halts.
  revert x. induction l as [|y l IH]; intros x; cbn [max_by_from]; halts.
Qed.

Lemma compare_ends_stops r a : stops (compare_ends r a).
Proof. unfold compare_ends. halts. Qed.
#[local] Hint Resolve max_by_stops compare_ends_stops : halts.

Lemma init_paging_halts boot sp entries : halts anything (init_paging boot sp entries).
Proof. unfold init_paging. halts. Qed.
#[local] Hint Resolve init_paging_halts : halts.

Context (names : MemoryRegionType -> list Z).

Lemma build_memory_halts b sp entries base : halts anything (build_memory b sp entries base).
Proof.
  unfold build_memory. halts. eapply (halts_run anything); [apply flag_range_halts|done].
Qed.

(** ** The kernel *)

(** The log is not in use. *)
Definition unlocked (m : Machine) : Prop := kwriter_locked m = false.

Lemma with_kwriter_halts {A} (use : M VGAWriter.VGAWriter A) :
  halts anything use -> halts unlocked (with_kwriter use).
Proof.
  intros Huse. unfold with_kwriter. apply halts_get. intros m Hm.
  apply halts_bind; [halts|intros w]. unfold unlocked in Hm. rewrite Hm.
  apply halts_bind; [apply halts_lift; by eapply halts_run|]. intros [a w'].
  apply halts_bind; [by apply halts_put|]. intros _. halts.
Qed.
#[local] Hint Resolve with_kwriter_halts : halts.

(** What a handler or [kernel_main] stores leaves the lock alone. *)
#[local] Hint Extern 1 (unlocked _) => assumption : halts.

Lemma kprint_halts text : halts unlocked (kprint text).
Proof. unfold kprint. apply with_kwriter_halts. halts. Qed.
Lemma set_color_halts color : halts unlocked (kwriter_set_color color).
Proof. unfold kwriter_set_color. apply with_kwriter_halts. halts. Qed.
#[local] Hint Resolve kprint_halts set_color_halts : halts.

Lemma serial_print_halts text : halts unlocked (serial_print text).
Proof. unfold serial_print. halts. Qed.
#[local] Hint Resolve serial_print_halts : halts.

Lemma init_kwriter_halts info : halts unlocked (init_kwriter info).
Proof. unfold init_kwriter. halts. Qed.

Lemma init_gdt_halts stack : halts anything (init_gdt stack).
Proof. unfold init_gdt, new_tss. halts. Qed.

Lemma with_segments_halts stack : halts unlocked (with_segments (init_gdt stack)).
Proof. apply (halts_zoom _ anything); [apply init_gdt_halts|done|done]. Qed.

Lemma load_idt_halts : halts unlocked load_idt.
Proof. unfold load_idt. halts. Qed.

Lemma log_ram_map_halts entries : halts unlocked (log_ram_map names entries).
Proof. unfold log_ram_map, log_region, kprintln. halts. Qed.
#[local] Hint Resolve init_kwriter_halts with_segments_halts load_idt_halts log_ram_map_halts : halts.

Lemma compare_lengths_stops r1 r2 : stops (compare_lengths r1 r2).
Proof. done. Qed.
Lemma build_memory_stops b sp entries base env : stops (build_memory b sp entries base env).
Proof. by eapply halts_run; [apply build_memory_halts|]. Qed.
Lemma load_stops s : stops (load s).
Proof. by eapply halts_run; [apply load_halts|]. Qed.
#[local] Hint Resolve compare_lengths_stops build_memory_stops load_stops : halts.

Lemma init_memory_halts b sp : halts unlocked (init_memory names b sp).
Proof. unfold init_memory, serial_println, init_heap, kprintln. halts. Qed.
#[local] Hint Resolve init_memory_halts : halts.

Lemma kernel_main_halts info sp : halts unlocked (kernel_main names info sp).
Proof. unfold kernel_main, kprintln, serial_println. halts. Qed.

Lemma panic_handler_halts text : halts unlocked (panic_handler text).
Proof. unfold panic_handler, serial_println_args. halts. apply with_kwriter_halts. halts. Qed.


End memory.

(** ** Instances *)

#[local] Existing Instances X86Model.x86 X86Model.x86_laws.
#[local] Existing Instances SegmentationModel.segmentation SegmentationModel.segmentation_laws.

#[export] Instance model_returns : X86Returns.
Proof.
  constructor; intros; cbn [phys_new phys_add virt_new virt_add virt_sub virt_diff virt_forward
      entry_set_addr entry_set_frame gdt_append X86Model.x86 SegmentationModel.segmentation] in *;
    unfold X86Model.check_phys, X86Model.check_virt, X86Model.set_addr, SegmentationModel.append;
    try case_decide; halts; simplify_eq; lia.
Qed.

(** A boot loader that reports overlapping memory, and a stack pointer that is no address. *)
Definition absurd_info : BootInfo := {|
  boot := {| limine_reqs_start := 5; text_start := 3; rodata_start := 0; data_start := 7; elf_end := 1;
             kernel_address := Some (2 ^ 70, -1); hhdm_offset := Some 12345;
             memory_map := Some [
               {| region_base := 0; region_length := 2 ^ 63; region_type := Usable |};
               {| region_base := 100; region_length := 2 ^ 63; region_type := ExecutableAndModules |}] |};
  framebuffers := framebuffers example_info;
  bootloader_info := bootloader_info example_info;
  double_fault_stack := 1
|}.

(** A framebuffer of 8 by 8 pixels, too small for a character. *)
Definition tiny_info : BootInfo := {|
  boot := boot absurd_info;
  framebuffers := Some [{| fb_width := 8; fb_height := 8; fb_bpp := 32; fb_memory := replicate 64 0 |}];
  bootloader_info := bootloader_info example_info;
  double_fault_stack := 1
|}.

(** The machine with its log open on it. *)
Definition tiny_machine : Machine :=
  match init_kwriter tiny_info reset_machine with Done (_, m) => m | _ => reset_machine end.
Definition tiny_writer : VGAWriter.VGAWriter :=
  VGAWriter.new (LinearFramebuffer.mk (8, 8) (replicate 64 0)) true (color_u32 DEFAULT_COLOR) (color_u32 Black).

Lemma tiny_open : kwriter tiny_machine = Some tiny_writer /\ kwriter_locked tiny_machine = false /\
  panic_level tiny_machine = 1.
Proof. split; [|split]; vm_compute; reflexivity. Qed.
Lemma tiny_write : VGAWriter.write_str [75] tiny_writer = Panicked UnwrapFailed.
Proof. vm_compute. reflexivity. Qed.
Lemma tiny_start : _start example_names tiny_info (2 ^ 64) reset_machine = Panicked UnwrapFailed.
Proof.
  assert (match _start example_names tiny_info (2 ^ 64) reset_machine with
          | Panicked UnwrapFailed => true | _ => false end = true) as H by (vm_compute; reflexivity).
  by destruct (_start _ _ _ _) as [|[]| |].
Qed.

